(* ===== verification/_CoqProject ===== *)
-Q . S2P
Prelude.v
Status.v
Ids.v
Bytes.v
Hash.v
Enums.v
Model.v
Time.v
Fence.v
Shaper.v
EngineState.v
EngineTable.v
EngineAuthority.v
EngineAdmission.v
EngineLifecycle.v
EngineEvidence.v
EngineInspect.v
Wire.v
Codec.v
Protocol.v
Snapshot.v
Store.v
Service.v
Threads.v
Config.v
Client.v
Content.v
Sender.v
Sink.v
Report.v
Cli.v
Programs.v
Net.v
Scenario.v
IdsProps.v
ConfigProps.v
WireTheory.v
CodecProps.v
WireCanon.v
CodecCanon.v
ProtocolCodec.v
FrameProps.v
ChannelProps.v
WireProps.v
SnapshotCodec.v
RecordProps.v
StoreProps.v
ServiceProps.v
Served.v
ClientProps.v
SenderProps.v
SinkProps.v
ReportProps.v
NetProps.v
CliProps.v
EngineInv.v
SessionSteps.v
Commands.v
AdmissionCases.v
Ledger.v
RunProps.v
ShaperProps.v
ModelProps.v
AdmissionProps.v
RestartProps.v
ThreadsProps.v
ThreadsInv.v
ThreadsDurable.v
ThreadsStop.v
ThreadsRun.v
Findings.v
