(* ===== verification/Prelude.v ===== *)
(** * Checkpoint Traffic Fabric: a verification library

    The Checkpoint Traffic Fabric schedules checkpoint traffic of training jobs
    over shared storage paths.  A _coordinator_ admits checkpoint sessions under
    an operator's policy, a topology and per-workload contracts; grants each
    session byte credit in waves, through token buckets; correlates what senders
    and sinks report with what it granted; and survives restarts with a persisted
    state and a new incarnation.  _Agents_ stream the checkpoint: a sender asks
    the coordinator for credit and sends chunks to a sink, the sink writes and
    verifies shards and reports evidence.  [ctfctl] is the operator's tool.

    ** How the parts interact

<<
    ctfctl (apps/ctfctl)        ctf-agent (apps/ctf-agent)
         |                        sender  ---- chunks ---->  sink
         |                          |    (src/agent.cpp)       |
         +---------+----------------+--------------------------+
                   |  client        (src/client.cpp)
                   |  channel       (src/protocol.cpp, src/wire.cpp)
                   |  sockets       (src/net.cpp)
                   v
          service                   (src/service.cpp)
           |                 |
        engine             store    (src/store.cpp)
      (src/engine.cpp, src/fence.cpp, src/shaper.cpp, src/model.cpp)
>>

    A request crosses the channel as one frame.  The service decodes it, checks
    the client's role, calls one operation of the engine, exports and appends the
    engine's snapshot to the store if the operation changed something, and only
    then answers.

    ** Files and the code they model

    Foundations.
    - [Prelude]: record update, machine integers ([u64] and its neighbours with
      their wrap-around), lists, tactics, the hint database [ctf].
    - [Status], [Ids], [Bytes], [Hash], [Time]: [src/status.cpp], [src/ids.cpp],
      [src/bytes.cpp], [src/hash.cpp], [src/time.cpp] with their headers.
    - [Enums], [Model]: the enumerations, records and validators of
      [include/ctf/model.hpp] and [src/model.cpp].

    The engine, [src/engine.cpp].
    - [Fence], [Shaper]: [src/fence.cpp] and [src/shaper.cpp].
    - [EngineState]: [FabricEngine::Impl] as the record [Engine] and its
      lock-held helpers, by explicit state passing; references into the session
      table are session ids, so aliasing and dangling references are the code's.
    - [EngineAuthority] (constructor, policy, topology, contracts, epochs,
      restore, export), [EngineAdmission] (submit, revalidate),
      [EngineLifecycle] (pause, resume, cancel, wave credit), [EngineEvidence]
      (the five reports), [EngineInspect] (views, explanation, self-check).
    - [EngineTable]: frame lemmas for the helpers.

    Wire, store, service.
    - [Wire], [Codec], [Protocol]: the byte codec and framing, the codec of each
      record of the domain model, the message payloads and [MessageChannel] over
      a stream given by the class [ByteStream].
    - [Net]: [TcpSocket] and [TcpListener] (POSIX branch of [src/net.cpp]), an
      instance of [ByteStream].
    - [Snapshot], [Store]: the persistent form and [PersistentStore] over its
      three files.
    - [Service]: one message, one connection, start, connection bound, shutdown.
      A start whose boot snapshot fails does not return ([start_serving]).
    - [Threads]: the same handlers as sequences of critical sections, and the
      accept thread, the handler threads and the owner of the service taking
      turns in any order, with the store's lock, the stop token and the joins.
      The lock is held by one of three pieces of code ([Locker]), and [start]
      keeps it while it waits after a failed boot snapshot, as the source does.
    - [Config]: [src/config.cpp].

    Clients and programs.
    - [Client]: [src/client.cpp].  [Served]: a client's socket with the service
      behind it, the composition the end-to-end theorems are about.
    - [Content], [Sender], [Sink]: [src/agent.cpp].  The sender carries a history
      of what it sent and was answered; the sink writes through a buffered stream
      that hands its bytes to the disk when it pleases, and may lose them at the
      unchecked flush and close.
    - [Report]: [src/report.cpp].
    - [Cli]: [apps/cli_common.hpp], [apps/ctfctl/main.cpp].  [Programs]:
      [apps/ctf-agent/main.cpp] and the configuration half of
      [apps/ctf-coordinator/main.cpp].
    - [Scenario]: concrete engines and runs for the witnesses.

    ** What the theorems show

    - Engine runs ([EngineInv], [SessionSteps], [Commands], [Ledger],
      [RunProps]).  [reachable] is the set of engines any sequence of commands
      leads to from a new engine, without [restore] and without wrap-around of
      the byte totals.  Bytes are conserved as an identity of exact integers, the
      aggregates are the sums over sessions, the indexes list the live sessions,
      every command refines the lifecycle relation [session_step], terminal
      sessions stay terminal, what was declared at admission never changes.
    - Admission ([AdmissionCases], [AdmissionProps], [ModelProps]): an admitted
      session satisfies policy, contract, topology and manifest; supersession is
      complete; the validators and the rate plan mean what they should.
    - Shaping ([ShaperProps]): the rate bound of a bucket over any sequence of
      calls, and that [time_until] waits long enough when its product does not
      wrap.
    - Wire ([WireTheory], [CodecProps], [WireCanon], [CodecCanon],
      [ProtocolCodec], [WireProps], [FrameProps], [ChannelProps], [NetProps]):
      every codec is a bijection between in-bounds values and the bytes its
      decoder accepts; a change of one byte of a frame is always detected; a
      channel delivers exactly what was sent, however the stream fragments it
      ([StreamLaws] and [DuplexLaws] are the interfaces, sockets discharge
      them); sockets write prefixes until they return or the process is killed by
      [SIGPIPE], stop when asked to and leak no descriptor.
    - Persistence ([SnapshotCodec], [RecordProps], [StoreProps],
      [RestartProps]): after a crash at any byte of a write to a store in order
      ([holds_state]) of a state its format can hold ([storable]), [load] returns
      the old state or the new one, and the new one when the write was
      acknowledged ([recovers] is about [load] alone).  A restart that succeeds
      has exactly the persisted sessions under a new incarnation that fences all
      earlier authority, so an acknowledged command survives it.
    - Threads ([ThreadsProps], [ThreadsInv], [ThreadsDurable], [ThreadsStop],
      [ThreadsRun]): the tasks of the threads, uninterrupted, are [dispatch]; in
      every interleaving the engine stays reachable, an acknowledgement follows a
      durable snapshot of its effect (in runs of clean steps, [clean_step]), the
      threads stay within their bound, and a requested shutdown takes a bounded
      number of turns and ends with every thread joined, or the boot snapshot has
      failed and it never ends.
    - Service and clients ([ServiceProps], [ClientProps], [CliProps]): an
      acknowledged command is durable when the store was [ready] for it; refused
      messages change nothing; a remote command, from the operator's command line
      on, is exactly one operation of the engine.
    - Agents ([SenderProps], [SinkProps]): the sender ends, by returning or by an
      exception on an answer without its grant, and reports success only for a
      history in which every chunk was acknowledged with the count sent and every
      report was accepted; a shard the sink verifies was received whole and
      intact, and is in its file when the flush or close reached the disk; an
      honest transfer is acknowledged chunk by chunk, verified and reported.
    - Text ([IdsProps], [ConfigProps], [ReportProps]): one spelling per value,
      soundness of accepted configurations, reports that read back as JSON.
    - [Findings]: concrete runs on which the code departs from its comments,
      names or checks: among them a failed boot snapshot that deadlocks [start],
      states that are stored and that a restart refuses or cannot read, a session
      admitted under an identity in use, shards verified and not stored.

    ** Bounds and fuel

    Loops that are not structural take fuel, and the theorems that promise a
    result prove the fuel sufficient.  [read_exactly] has one step per byte asked
    for, since each read returns at least one; the loop over a journal, the UTF-8
    scan and the loops of [Content] one per byte of input; [dec_digits] 20, the
    digits of a 64-bit number; the JSON reader the length of its text.  [serve]
    runs one message per [Moment] it is given.  The sender's credit loop has one
    step per byte of the shard plus its patience (the denials in a row it
    accepts), which [sender_terminates] shows is enough.  The loops of a socket
    have one step per queued answer of the operating system and per byte; the
    queues are finite, so that an endless "try again" is not covered.  A
    schedule of threads is a finite list of turns; [stop_turns] bounds those that
    can follow a stop.  The
    binary search for a shard takes at most one step per shard.

    Integers are [Z] with the wrap-around of their C++ width written out where
    the source computes at that width.  What a process cannot choose is an
    argument: clock readings, stop tokens, the outcome of dialling, faults and
    crash points of files, each answer of the operating system to a socket call.
    The engine's [std::unordered_map]s are [gmap]s; a loop over one visits
    [map_to_list], an order no theorem relies on.

    ** Not modelled

    The condition variables of the service, which only wake threads that then
    test what the model tests; the mutexes of the engine and of the counters,
    each held for one whole step of the model; C++ data races.  The Windows
    branches and the socket options of [src/net.cpp], [SteadyClock], signal
    handlers and [sleep_until], which only pass time or configure the operating
    system; [src/version.cpp], which is constant text; [examples/] and
    [consumer/], which demonstrate the public interface. *)

From stdpp Require Import base gmap list strings.
From Stdlib Require Import ZArith Lia Zdiv.

#[global] Open Scope Z_scope.
Set Default Goal Selector "!".

Create HintDb ctf.

(** ** Record update

    [r <| p := v |>] is the record [r] with field [p] replaced by [v], the
    model's form of the C++ assignment [r.p = v].  A record type takes part by
    giving its eta expansion as an instance of [Eta]; the setter of a field is
    then found by abstracting the projection from that expansion. *)

Class Eta (R : Type) := eta : R -> R.
Class Setter {R T : Type} (p : R -> T) := upd : (T -> T) -> R -> R.

Ltac solve_setter :=
  match goal with
  | |- @Setter ?R ?T ?p =>
      let i := constr:(_ : Eta R) in
      let e := eval hnf in i in
      let q := eval pattern p in e in
      match q with ?g _ => exact (fun (f : T -> T) => g (fun r => f (p r))) end
  end.
#[export] Hint Extern 1 (Setter _) => solve_setter : typeclass_instances.

Declare Scope ctf_scope.
Delimit Scope ctf_scope with ctf.
Notation "r <| p := v |>" := (upd (p:=p) (fun _ => v) r)
  (at level 1, left associativity, p at level 0, v at level 200) : ctf_scope.
#[global] Open Scope ctf_scope.

(** ** Machine integers

    A w-bit unsigned value is a [Z] in [0, 2^w); every C++ addition,
    subtraction or product that can leave the range is written with the wrap
    function of its width. *)

Definition u8 (x : Z) : Z := x mod 2 ^ 8.
Definition u16 (x : Z) : Z := x mod 2 ^ 16.
Definition u32 (x : Z) : Z := x mod 2 ^ 32.
Definition u64 (x : Z) : Z := x mod 2 ^ 64.
(** Two's complement reading of a 64-bit pattern ([static_cast<std::int64_t>]). *)
Definition s64 (x : Z) : Z := (x + 2 ^ 63) mod 2 ^ 64 - 2 ^ 63.

Definition UINT64_MAX : Z := 2 ^ 64 - 1.
Definition UINT32_MAX : Z := 2 ^ 32 - 1.

Definition in_u64 (x : Z) : Prop := 0 <= x < 2 ^ 64.
Definition in_u32 (x : Z) : Prop := 0 <= x < 2 ^ 32.
Definition in_s64 (x : Z) : Prop := - 2 ^ 63 <= x < 2 ^ 63.

Lemma u64_small x : 0 <= x < 2 ^ 64 -> u64 x = x.
Proof. apply Z.mod_small. Qed.
Lemma u32_small x : 0 <= x < 2 ^ 32 -> u32 x = x.
Proof. apply Z.mod_small. Qed.
Lemma u64_range x : 0 <= u64 x < 2 ^ 64.
Proof. apply Z.mod_pos_bound. lia. Qed.
Lemma u32_range x : 0 <= u32 x < 2 ^ 32.
Proof. apply Z.mod_pos_bound. lia. Qed.
Lemma u64_le x : 0 <= x -> u64 x <= x.
Proof. intros. apply Z.mod_le; lia. Qed.
Lemma s64_small x : in_s64 x -> s64 x = x.
Proof. unfold in_s64, s64; intros; rewrite Z.mod_small; lia. Qed.
Lemma s64_range x : in_s64 (s64 x).
Proof.
  unfold in_s64, s64. pose proof (Z.mod_pos_bound (x + 2 ^ 63) (2 ^ 64)). lia.
Qed.
Lemma s64_le x : 0 <= x -> s64 x <= x.
Proof.
  unfold s64. intros. pose proof (Z.mod_le (x + 2 ^ 63) (2 ^ 64)). lia.
Qed.
#[export] Hint Resolve u64_range u32_range s64_range : ctf.

Lemma u64_eqm_add a b : u64 (u64 a + b) = u64 (a + b).
Proof. apply Zplus_mod_idemp_l. Qed.
Lemma u64_eqm_sub a b : u64 (u64 a - b) = u64 (a - b).
Proof. apply Zminus_mod_idemp_l. Qed.

(** [wrap_small] removes every wrap whose argument the context keeps in range,
    innermost first. *)
Ltac wrap_lia := unfold in_u64, in_u32, in_s64, UINT64_MAX, UINT32_MAX in *; lia.
Ltac no_wrap x :=
  lazymatch x with
  | context [u64 _] => fail
  | context [u32 _] => fail
  | context [s64 _] => fail
  | _ => idtac
  end.
Ltac wrap_small :=
  repeat match goal with
  | |- context [u64 ?x] => no_wrap x; rewrite (u64_small x) by wrap_lia
  | |- context [u32 ?x] => no_wrap x; rewrite (u32_small x) by wrap_lia
  | |- context [s64 ?x] => no_wrap x; rewrite (s64_small x) by wrap_lia
  end.

(** Case analysis on the guards of a handler, one at a time. *)
Ltac step_guard :=
  match goal with
  | |- context [if ?b then _ else _] => destruct b eqn:?
  | |- context [match ?o with Some _ => _ | None => _ end] => destruct o eqn:?
  end.
Ltac step_guard_in H :=
  match type of H with
  | context [if ?b then _ else _] => destruct b eqn:?
  | context [match ?o with Some _ => _ | None => _ end] => destruct o eqn:?
  end.

(** Boolean comparison facts in the context as propositions [lia] reads. *)
Ltac bool_facts :=
  repeat match goal with
  | H : (_ && _)%bool = true |- _ => apply andb_true_iff in H as [? ?]
  | H : (_ || _)%bool = false |- _ => apply orb_false_iff in H as [? ?]
  | H : negb _ = true |- _ => apply negb_true_iff in H
  | H : negb _ = false |- _ => apply negb_false_iff in H
  | H : (_ <? _) = true |- _ => apply Z.ltb_lt in H
  | H : (_ <? _) = false |- _ => apply Z.ltb_ge in H
  | H : (_ <=? _) = true |- _ => apply Z.leb_le in H
  | H : (_ <=? _) = false |- _ => apply Z.leb_gt in H
  | H : (_ =? _) = true |- _ => apply Z.eqb_eq in H
  | H : (_ =? _) = false |- _ => apply Z.eqb_neq in H
  | H : bool_decide _ = true |- _ => apply bool_decide_eq_true_1 in H
  | H : bool_decide _ = false |- _ => apply bool_decide_eq_false_1 in H
  end.

(** ** Sums over lists and finite maps *)

Definition zsum {A} (f : A -> Z) (l : list A) : Z := foldr (fun x acc => f x + acc) 0 l.

Lemma zsum_cons {A} (f : A -> Z) x l : zsum f (x :: l) = f x + zsum f l.
Proof. reflexivity. Qed.
Lemma zsum_app {A} (f : A -> Z) l1 l2 : zsum f (l1 ++ l2) = zsum f l1 + zsum f l2.
Proof. induction l1 as [|x l1 IH]; [done|]. cbn [app]. rewrite !zsum_cons, IH. lia. Qed.
Lemma zsum_ext {A} (f g : A -> Z) l : (forall x, x ∈ l -> f x = g x) -> zsum f l = zsum g l.
Proof.
  induction l as [|x l IH]; intros H; [done|]. rewrite !zsum_cons, H, IH; [done| |set_solver].
  intros y Hy. apply H. set_solver.
Qed.
Lemma zsum_nonneg {A} (f : A -> Z) l : (forall x, x ∈ l -> 0 <= f x) -> 0 <= zsum f l.
Proof.
  induction l as [|x l IH]; intros H; [done|]. rewrite zsum_cons.
  pose proof (H x ltac:(set_solver)). assert (0 <= zsum f l) by (apply IH; set_solver). lia.
Qed.
Lemma zsum_perm {A} (f : A -> Z) l1 l2 : l1 ≡ₚ l2 -> zsum f l1 = zsum f l2.
Proof. induction 1; rewrite ?zsum_cons in *; lia. Qed.
Lemma zsum_insert {A} (f : A -> Z) (l : list A) i x y :
  l !! i = Some x -> zsum f (<[i:=y]> l) = zsum f l - f x + f y.
Proof.
  revert i; induction l as [|z l IH]; intros [|i] H; try done.
  - cbn in H. injection H as ->. change (<[0%nat:=y]> (x :: l)) with (y :: l).
    rewrite !zsum_cons. lia.
  - change (<[S i:=y]> (z :: l)) with (z :: <[i:=y]> l). rewrite !zsum_cons, (IH i H). lia.
Qed.
Lemma zsum_elem_le {A} (f : A -> Z) (l : list A) x :
  (forall y, y ∈ l -> 0 <= f y) -> x ∈ l -> f x <= zsum f l.
Proof.
  induction l as [|z l IH]; intros Hp Hx; [set_solver|]. rewrite zsum_cons.
  assert (0 <= zsum f l) by (apply zsum_nonneg; set_solver).
  pose proof (Hp z ltac:(set_solver)).
  apply elem_of_cons in Hx as [->|Hx]; [lia|]. enough (f x <= zsum f l) by lia.
  apply IH; set_solver.
Qed.

Section map_sum.
Context {K V : Type} `{Countable K}.
Implicit Types (m : gmap K V) (f : V -> Z).

(** Sum of [f] over the values of a map, in any order. *)
Definition map_sum f m : Z := zsum (fun kv => f kv.2) (map_to_list m).

Lemma map_sum_empty f : map_sum f ∅ = 0.
Proof. unfold map_sum. by rewrite map_to_list_empty. Qed.

Lemma map_sum_insert_None f m k v :
  m !! k = None -> map_sum f (<[k:=v]> m) = f v + map_sum f m.
Proof.
  intros Hk. unfold map_sum.
  by rewrite (zsum_perm _ _ _ (map_to_list_insert m k v Hk)).
Qed.

Lemma map_sum_delete f m k v :
  m !! k = Some v -> map_sum f m = f v + map_sum f (delete k m).
Proof.
  intros Hk. rewrite <-(map_sum_insert_None f (delete k m) k v)
    by apply lookup_delete_eq.
  by rewrite insert_delete_eq, insert_id.
Qed.

Lemma map_sum_insert f m k v v' :
  m !! k = Some v -> map_sum f (<[k:=v']> m) = map_sum f m - f v + f v'.
Proof.
  intros Hk. rewrite <-insert_delete_eq, map_sum_insert_None by apply lookup_delete_eq.
  rewrite (map_sum_delete f m k v Hk). lia.
Qed.

Lemma map_sum_nonneg f m : (forall k v, m !! k = Some v -> 0 <= f v) -> 0 <= map_sum f m.
Proof.
  intros Hp. apply zsum_nonneg. intros [k v] Hkv. apply (Hp k).
  by apply elem_of_map_to_list.
Qed.

Lemma map_sum_lookup_le f m k v :
  (forall k v, m !! k = Some v -> 0 <= f v) -> m !! k = Some v -> f v <= map_sum f m.
Proof.
  intros Hp Hk. rewrite (map_sum_delete f m k v Hk).
  enough (0 <= map_sum f (delete k m)) by lia.
  apply map_sum_nonneg. intros k' v' Hk'. apply (Hp k').
  by apply lookup_delete_Some in Hk' as [? ?].
Qed.

Lemma map_sum_ext f g m :
  (forall k v, m !! k = Some v -> f v = g v) -> map_sum f m = map_sum g m.
Proof.
  intros Hfg. apply zsum_ext. intros [k v] Hkv. apply (Hfg k). by apply elem_of_map_to_list.
Qed.
End map_sum.

(** Iteration over a container with an accumulator: an invariant of every step
    is an invariant of the loop. *)
Lemma foldl_inv {A B} (P : A -> Prop) (f : A -> B -> A) (l : list B) a :
  P a -> (forall a b, b ∈ l -> P a -> P (f a b)) -> P (foldl f a l).
Proof.
  revert a; induction l as [|b l IH]; intros a Ha Hf; cbn; [done|].
  apply IH; [apply Hf; [set_solver|done]|]. intros. apply Hf; [set_solver|done].
Qed.

(** A lookup that succeeds with a value passing a test, as one computation. *)
Definition holds_at {A} (o : option A) (p : A -> bool) : bool :=
  match o with Some x => p x | None => false end.
Lemma holds_at_some {A} (o : option A) (p : A -> bool) :
  holds_at o p = true -> exists x, o = Some x /\ p x = true.
Proof. destruct o as [x|]; [|done]. by exists x. Qed.
