(* ===== verification/Status.v ===== *)
(** * Status: the error taxonomy and result plumbing

    Models [include/ctf/status.hpp] and [src/status.cpp]: the closed set of
    error codes with their stable numbers and names, [Status] and [Result]. *)

From stdpp Require Import base gmap list strings.
From S2P Require Import Prelude.

Module ErrorCode.
Inductive ErrorCode :=
| Ok
| InvalidArgument
| InvalidSyntax
| OutOfRange
| PayloadTooLarge
| CollectionTooLarge
| StringTooLong
| InvalidUtf8
| NonCanonicalEncoding
| TrailingGarbage
| UnknownMessageType
| UnsupportedValue
| MissingField
| DuplicateIdentity
| IntegrityFailure
| TruncatedInput
| VersionIncompatible
| CorruptState
| ImpossibleState
| StaleEpoch
| ForeignEpoch
| StalePolicyGeneration
| StaleTopologyGeneration
| StaleContractGeneration
| StaleCheckpointGeneration
| StaleAttempt
| StaleEvidence
| Superseded
| ReplayDetected
| NotAuthorized
| RevalidationRequired
| SequenceViolation
| NotFound
| AlreadyExists
| InvalidStateTransition
| CapacityExceeded
| ResourceExhausted
| ShuttingDown
| NotReady
| Deferred
| Denied
| DeadlineUnreachable
| VerificationMismatch
| Cancelled
| AmbiguousOutcome
| EnvelopeExhausted
| NotDurable
| IoFailure
| PeerClosed
| ConnectionRefused
| Unsupported
| Internal
| AccountingImbalance.

#[global] Instance ErrorCode_eq_dec : EqDecision ErrorCode.
Proof. solve_decision. Defined.

(** The enumerator's stable number, [static_cast<std::uint16_t>(code)]. *)
Definition value (c : ErrorCode) : Z :=
  match c with
  | Ok => 0
  | InvalidArgument => 100
  | InvalidSyntax => 101
  | OutOfRange => 102
  | PayloadTooLarge => 103
  | CollectionTooLarge => 104
  | StringTooLong => 105
  | InvalidUtf8 => 106
  | NonCanonicalEncoding => 107
  | TrailingGarbage => 108
  | UnknownMessageType => 109
  | UnsupportedValue => 110
  | MissingField => 111
  | DuplicateIdentity => 112
  | IntegrityFailure => 200
  | TruncatedInput => 201
  | VersionIncompatible => 202
  | CorruptState => 203
  | ImpossibleState => 204
  | StaleEpoch => 300
  | ForeignEpoch => 301
  | StalePolicyGeneration => 302
  | StaleTopologyGeneration => 303
  | StaleContractGeneration => 304
  | StaleCheckpointGeneration => 305
  | StaleAttempt => 306
  | StaleEvidence => 307
  | Superseded => 308
  | ReplayDetected => 309
  | NotAuthorized => 310
  | RevalidationRequired => 311
  | SequenceViolation => 312
  | NotFound => 400
  | AlreadyExists => 401
  | InvalidStateTransition => 402
  | CapacityExceeded => 403
  | ResourceExhausted => 404
  | ShuttingDown => 405
  | NotReady => 406
  | Deferred => 407
  | Denied => 408
  | DeadlineUnreachable => 409
  | VerificationMismatch => 410
  | Cancelled => 411
  | AmbiguousOutcome => 412
  | EnvelopeExhausted => 413
  | NotDurable => 414
  | IoFailure => 500
  | PeerClosed => 501
  | ConnectionRefused => 502
  | Unsupported => 503
  | Internal => 504
  | AccountingImbalance => 505
  end.

Definition all : list ErrorCode :=
  [ Ok; InvalidArgument; InvalidSyntax; OutOfRange; PayloadTooLarge; CollectionTooLarge; StringTooLong; InvalidUtf8; NonCanonicalEncoding; TrailingGarbage; UnknownMessageType; UnsupportedValue; MissingField; DuplicateIdentity; IntegrityFailure; TruncatedInput; VersionIncompatible; CorruptState; ImpossibleState; StaleEpoch; ForeignEpoch; StalePolicyGeneration; StaleTopologyGeneration; StaleContractGeneration; StaleCheckpointGeneration; StaleAttempt; StaleEvidence; Superseded; ReplayDetected; NotAuthorized; RevalidationRequired; SequenceViolation; NotFound; AlreadyExists; InvalidStateTransition; CapacityExceeded; ResourceExhausted; ShuttingDown; NotReady; Deferred; Denied; DeadlineUnreachable; VerificationMismatch; Cancelled; AmbiguousOutcome; EnvelopeExhausted; NotDurable; IoFailure; PeerClosed; ConnectionRefused; Unsupported; Internal; AccountingImbalance ].

(** The rows of [kCodeNames]. *)
Definition kCodeNames : list (ErrorCode * string) :=
  [ (Ok, "Ok");
    (InvalidArgument, "InvalidArgument");
    (InvalidSyntax, "InvalidSyntax");
    (OutOfRange, "OutOfRange");
    (PayloadTooLarge, "PayloadTooLarge");
    (CollectionTooLarge, "CollectionTooLarge");
    (StringTooLong, "StringTooLong");
    (InvalidUtf8, "InvalidUtf8");
    (NonCanonicalEncoding, "NonCanonicalEncoding");
    (TrailingGarbage, "TrailingGarbage");
    (UnknownMessageType, "UnknownMessageType");
    (UnsupportedValue, "UnsupportedValue");
    (MissingField, "MissingField");
    (DuplicateIdentity, "DuplicateIdentity");
    (IntegrityFailure, "IntegrityFailure");
    (TruncatedInput, "TruncatedInput");
    (VersionIncompatible, "VersionIncompatible");
    (CorruptState, "CorruptState");
    (ImpossibleState, "ImpossibleState");
    (StaleEpoch, "StaleEpoch");
    (ForeignEpoch, "ForeignEpoch");
    (StalePolicyGeneration, "StalePolicyGeneration");
    (StaleTopologyGeneration, "StaleTopologyGeneration");
    (StaleContractGeneration, "StaleContractGeneration");
    (StaleCheckpointGeneration, "StaleCheckpointGeneration");
    (StaleAttempt, "StaleAttempt");
    (StaleEvidence, "StaleEvidence");
    (Superseded, "Superseded");
    (ReplayDetected, "ReplayDetected");
    (NotAuthorized, "NotAuthorized");
    (RevalidationRequired, "RevalidationRequired");
    (SequenceViolation, "SequenceViolation");
    (NotFound, "NotFound");
    (AlreadyExists, "AlreadyExists");
    (InvalidStateTransition, "InvalidStateTransition");
    (CapacityExceeded, "CapacityExceeded");
    (ResourceExhausted, "ResourceExhausted");
    (ShuttingDown, "ShuttingDown");
    (NotReady, "NotReady");
    (Deferred, "Deferred");
    (Denied, "Denied");
    (DeadlineUnreachable, "DeadlineUnreachable");
    (VerificationMismatch, "VerificationMismatch");
    (Cancelled, "Cancelled");
    (AmbiguousOutcome, "AmbiguousOutcome");
    (EnvelopeExhausted, "EnvelopeExhausted");
    (NotDurable, "NotDurable");
    (IoFailure, "IoFailure");
    (PeerClosed, "PeerClosed");
    (ConnectionRefused, "ConnectionRefused");
    (Unsupported, "Unsupported");
    (Internal, "Internal");
    (AccountingImbalance, "AccountingImbalance") ]%string.

Fixpoint name_in (rows : list (ErrorCode * string)) (c : ErrorCode) : string :=
  match rows with
  | [] => "Unknown"%string
  | (c', n) :: rest => if bool_decide (c' = c) then n else name_in rest c
  end.

Definition to_string (c : ErrorCode) : string := name_in kCodeNames c.

Definition is_fencing_code (c : ErrorCode) : bool :=
  match c with
  | StaleEpoch | ForeignEpoch | StalePolicyGeneration | StaleTopologyGeneration | StaleContractGeneration | StaleCheckpointGeneration | StaleAttempt | StaleEvidence | Superseded | ReplayDetected | NotAuthorized | SequenceViolation => true
  | _ => false
  end.

Definition requires_revalidation (c : ErrorCode) : bool :=
  match c with
  | RevalidationRequired | StaleEpoch | ForeignEpoch | AmbiguousOutcome => true
  | _ => false
  end.

(** [static_cast<ErrorCode>(raw)] followed by the name-table test of the wire
    decoder: the enumerator with that number, if there is one. *)
Definition of_value (raw : Z) : option ErrorCode :=
  find (fun c => value c =? raw) all.
End ErrorCode.
Notation ErrorCode := ErrorCode.ErrorCode.

(** Outcome of an operation that has no value. *)
Record Status := mkStatus { st_code : ErrorCode; st_detail : string }.

#[export] Instance Status_eq_dec : EqDecision Status.
Proof. solve_decision. Defined.

Definition Status_success : Status := mkStatus ErrorCode.Ok "".
Definition Status_error (c : ErrorCode) (detail : string) : Status := mkStatus c detail.
Definition Status_ok (s : Status) : bool := bool_decide (st_code s = ErrorCode.Ok).
Definition Status_to_string (s : Status) : string :=
  if String.eqb (st_detail s) "" then ErrorCode.to_string (st_code s)
  else (ErrorCode.to_string (st_code s) +:+ ": " +:+ st_detail s)%string.

(** Outcome of an operation that produces a value. *)
Inductive Result (A : Type) :=
| Val (a : A)
| Err (s : Status).
Arguments Val {A} a.
Arguments Err {A} s.

Definition Result_ok {A} (r : Result A) : bool :=
  match r with Val _ => true | Err _ => false end.
Definition Result_code {A} (r : Result A) : ErrorCode :=
  match r with Val _ => ErrorCode.Ok | Err s => st_code s end.

(** [seq_status s k] runs [k] when [s] is success: the C++ idiom
    [if (!status.ok()) { return status; }]. *)
Definition seq_status (s : Status) (k : Status) : Status :=
  if Status_ok s then k else s.

Lemma seq_status_ok s k : Status_ok (seq_status s k) = Status_ok s && Status_ok k.
Proof. unfold seq_status. by destruct (Status_ok s) eqn:E. Qed.

Lemma error_not_ok c d : c <> ErrorCode.Ok -> Status_ok (Status_error c d) = false.
Proof. intros H. unfold Status_ok. by apply bool_decide_eq_false. Qed.

Lemma value_of_value c : ErrorCode.of_value (ErrorCode.value c) = Some c.
Proof. destruct c; reflexivity. Qed.

Lemma of_value_value raw c : ErrorCode.of_value raw = Some c -> ErrorCode.value c = raw.
Proof.
  unfold ErrorCode.of_value. intros H. apply find_some in H as [_ H]. by apply Z.eqb_eq in H.
Qed.
