(* ===== verification/Ids.v ===== *)
(** * Ids: identities, generations and epochs

    Models [include/ctf/ids.hpp] and [src/ids.cpp]: 128-bit identities with
    their one canonical spelling, unsigned scalars and generations with
    canonical decimal text, the coordinator epoch, and the seeded identity
    stream ([std::mt19937_64] from the C++ standard library). *)

From stdpp Require Import base gmap list strings countable.
From Stdlib Require Import Ascii.
From S2P Require Import Prelude.

(** ** Characters *)

Definition char_code (c : ascii) : Z := Z.of_nat (nat_of_ascii c).
Definition char_of (z : Z) : ascii := ascii_of_nat (Z.to_nat z).
Notation chars := String.list_ascii_of_string (only parsing).
Notation text_of := String.string_of_list_ascii (only parsing).

(** ** 128-bit identities *)

(** [std::array<std::uint8_t, 16>]: a value of the C++ type satisfies [uuid_wf]. *)
Record Uuid128 := mkUuid { uuid_bytes : list Z }.

#[export] Instance Uuid128_eq_dec : EqDecision Uuid128.
Proof. solve_decision. Defined.
#[export] Program Instance Uuid128_countable : Countable Uuid128 :=
  inj_countable' uuid_bytes mkUuid _.
Next Obligation. by intros []. Qed.

Definition byte_ok (b : Z) : Prop := 0 <= b < 256.
Definition uuid_wf (u : Uuid128) : Prop :=
  length (uuid_bytes u) = 16%nat /\ Forall byte_ok (uuid_bytes u).

Definition Uuid128_nil : Uuid128 := mkUuid (replicate 16 0).
Definition Uuid128_is_nil (u : Uuid128) : bool := forallb (fun b => b =? 0) (uuid_bytes u).

Definition hex_digit_value (c : ascii) : Z :=
  let v := char_code c in
  if (48 <=? v) && (v <=? 57) then v - 48
  else if (97 <=? v) && (v <=? 102) then v - 97 + 10
  else -1.

Definition kUuidTextLength : nat := 36.

(** The loop of [Uuid128::parse]: [i] is the position, [bytes] the bytes
    written so far (so [byte_index] is its length) and [high] the pending
    high nibble or -1. *)
Fixpoint uuid_parse_loop (text : list ascii) (i : Z) (bytes : list Z) (high : Z)
  : option (list Z) :=
  match text with
  | [] => Some bytes
  | c :: rest =>
      if (i =? 8) || (i =? 13) || (i =? 18) || (i =? 23) then
        if bool_decide (c = "-"%char) then uuid_parse_loop rest (i + 1) bytes high else None
      else
        let value := hex_digit_value c in
        if value <? 0 then None
        else if high <? 0 then uuid_parse_loop rest (i + 1) bytes value
        else if 16 <=? Z.of_nat (length bytes) then None
        else uuid_parse_loop rest (i + 1)
               (bytes ++ [u8 (Z.lor (Z.shiftl high 4) value)]) (-1)
  end.

Definition Uuid128_parse (text : string) : option Uuid128 :=
  if negb (Nat.eqb (String.length text) kUuidTextLength) then None
  else match uuid_parse_loop (chars text) 0 [] (-1) with
       | Some bytes => if Nat.eqb (length bytes) 16 then Some (mkUuid bytes) else None
       | None => None
       end.

Definition kDigits (d : Z) : ascii :=
  if d <? 10 then char_of (48 + d) else char_of (97 + (d - 10)).

Fixpoint uuid_print_loop (bytes : list Z) (i : Z) : list ascii :=
  match bytes with
  | [] => []
  | b :: rest =>
      (if (i =? 4) || (i =? 6) || (i =? 8) || (i =? 10) then ["-"%char] else []) ++
      [kDigits (Z.shiftr b 4); kDigits (Z.land b 15)] ++ uuid_print_loop rest (i + 1)
  end.

Definition Uuid128_to_string (u : Uuid128) : string := text_of (uuid_print_loop (uuid_bytes u) 0).

(** Lexicographic order of the bytes ([operator<=>] of [std::array]). *)
Fixpoint bytes_ltb (l r : list Z) : bool :=
  match l, r with
  | a :: l', b :: r' => if a <? b then true else if b <? a then false else bytes_ltb l' r'
  | [], _ :: _ => true
  | _, _ => false
  end.
Definition Uuid128_ltb (l r : Uuid128) : bool := bytes_ltb (uuid_bytes l) (uuid_bytes r).

(** ** Strongly typed identities, scalars and generations *)

Inductive IdTag := CheckpointIdTag | SessionIdTag | TransferAttemptIdTag | WorkloadIdTag | CommandIdTag.
Inductive ScalarTag := ShardIndexTag | WaveIndexTag | PathClassIdTag.
Inductive GenTag :=
  CheckpointGenerationTag | WorkloadContractGenerationTag | TopologyGenerationTag
| PolicyGenerationTag | AttemptSequenceTag | IncarnationIdTag | EpochTermTag.

Record StrongId (T : IdTag) := mkId { id_value : Uuid128 }.
Arguments mkId {T} _.
Arguments id_value {T} _.
Record StrongScalar (T : ScalarTag) := mkScalar { sc_value : Z }.
Arguments mkScalar {T} _.
Arguments sc_value {T} _.
Record Generation (T : GenTag) := mkGen { gen_value : Z }.
Arguments mkGen {T} _.
Arguments gen_value {T} _.

#[export] Instance StrongId_eq_dec T : EqDecision (StrongId T).
Proof. solve_decision. Defined.
#[export] Program Instance StrongId_countable T : Countable (StrongId T) :=
  inj_countable' id_value mkId _.
Next Obligation. by intros ? []. Qed.
#[export] Instance StrongScalar_eq_dec T : EqDecision (StrongScalar T).
Proof. solve_decision. Defined.
#[export] Program Instance StrongScalar_countable T : Countable (StrongScalar T) :=
  inj_countable' sc_value mkScalar _.
Next Obligation. by intros ? []. Qed.
#[export] Instance Generation_eq_dec T : EqDecision (Generation T).
Proof. solve_decision. Defined.

Notation CheckpointId := (StrongId CheckpointIdTag).
Notation SessionId := (StrongId SessionIdTag).
Notation TransferAttemptId := (StrongId TransferAttemptIdTag).
Notation WorkloadId := (StrongId WorkloadIdTag).
Notation CommandId := (StrongId CommandIdTag).
Notation ShardIndex := (StrongScalar ShardIndexTag).
Notation WaveIndex := (StrongScalar WaveIndexTag).
Notation PathClassId := (StrongScalar PathClassIdTag).
Notation CheckpointGeneration := (Generation CheckpointGenerationTag).
Notation WorkloadContractGeneration := (Generation WorkloadContractGenerationTag).
Notation TopologyGeneration := (Generation TopologyGenerationTag).
Notation PolicyGeneration := (Generation PolicyGenerationTag).
Notation AttemptSequence := (Generation AttemptSequenceTag).
Notation IncarnationId := (Generation IncarnationIdTag).
Notation EpochTerm := (Generation EpochTermTag).

Definition id_nil {T} : StrongId T := mkId Uuid128_nil.
Definition id_is_nil {T} (i : StrongId T) : bool := Uuid128_is_nil (id_value i).
Definition id_to_string {T} (i : StrongId T) : string := Uuid128_to_string (id_value i).
Definition id_ltb {T} (a b : StrongId T) : bool := Uuid128_ltb (id_value a) (id_value b).
Definition id_parse {T} (text : string) : option (StrongId T) :=
  match Uuid128_parse text with Some u => Some (mkId u) | None => None end.

Definition sc_eqb {T} (a b : StrongScalar T) : bool := sc_value a =? sc_value b.
Definition sc_ltb {T} (a b : StrongScalar T) : bool := sc_value a <? sc_value b.
Definition gen_eqb {T} (a b : Generation T) : bool := gen_value a =? gen_value b.
Definition gen_ltb {T} (a b : Generation T) : bool := gen_value a <? gen_value b.
Definition gen_is_zero {T} (g : Generation T) : bool := gen_value g =? 0.

(** [Generation::advance]: the flag and the value after the call. *)
Definition gen_advance {T} (g : Generation T) : bool * Generation T :=
  if gen_value g =? UINT64_MAX then (false, g) else (true, mkGen (u64 (gen_value g + 1))).
Definition gen_next {T} (g : Generation T) : Generation T := mkGen (u64 (gen_value g + 1)).

(** ** Canonical decimal text *)

(** [std::to_string] of a value below [10^fuel]. *)
Fixpoint dec_digits (fuel : nat) (n : Z) : list ascii :=
  match fuel with
  | O => []
  | S fuel' =>
      (if n <? 10 then [] else dec_digits fuel' (n / 10)) ++ [char_of (48 + n mod 10)]
  end.
(** Every unsigned 64-bit value has at most 20 digits. *)
Definition dec_text (n : Z) : list ascii := dec_digits 20 n.
Definition nat_to_string (n : Z) : string := text_of (dec_text n).
(** [std::to_string] of a signed 64-bit value. *)
Definition int_to_string (n : Z) : string :=
  if n <? 0 then (String "-" (nat_to_string (- n)))%string else nat_to_string n.

Definition sc_to_string {T} (s : StrongScalar T) : string := nat_to_string (sc_value s).
Definition gen_to_string {T} (g : Generation T) : string := nat_to_string (gen_value g).

Fixpoint scalar_parse_loop (limit : Z) (text : list ascii) (accumulator : Z) : option Z :=
  match text with
  | [] => Some accumulator
  | c :: rest =>
      if (char_code c <? 48) || (57 <? char_code c) then None
      else
        let digit := char_code c - 48 in
        if accumulator >? (limit - digit) / 10 then None
        else scalar_parse_loop limit rest (u64 (u64 (accumulator * 10) + digit))
  end.

(** [StrongScalar<Tag, T>::parse]; [limit] is the greatest value of [T]. *)
Definition scalar_parse (limit : Z) (text : list ascii) : option Z :=
  match text with
  | [] => None
  | c :: rest =>
      if (20 <? length text)%nat then None
      else if (1 <? length text)%nat && bool_decide (c = "0"%char) then None
      else scalar_parse_loop limit text 0
  end.

Definition sc_parse {T} (text : string) : option (StrongScalar T) :=
  match scalar_parse UINT32_MAX (chars text) with Some v => Some (mkScalar v) | None => None end.
Definition gen_parse {T} (text : list ascii) : option (Generation T) :=
  match scalar_parse UINT64_MAX text with Some v => Some (mkGen v) | None => None end.

(** ** Coordinator epoch *)

Record CoordinatorEpoch := mkEpoch { ep_incarnation : IncarnationId; ep_term : EpochTerm }.
#[export] Instance CoordinatorEpoch_eq_dec : EqDecision CoordinatorEpoch.
Proof. solve_decision. Defined.

Definition epoch_ltb (a b : CoordinatorEpoch) : bool :=
  if gen_ltb (ep_incarnation a) (ep_incarnation b) then true
  else if gen_ltb (ep_incarnation b) (ep_incarnation a) then false
  else gen_ltb (ep_term a) (ep_term b).

Definition epoch_text (e : CoordinatorEpoch) : list ascii :=
  dec_text (gen_value (ep_incarnation e)) ++ ["."%char] ++ dec_text (gen_value (ep_term e)).

(** [text.find('.')] with the text before and after the first dot. *)
Fixpoint split_dot (text : list ascii) : option (list ascii * list ascii) :=
  match text with
  | [] => None
  | c :: rest =>
      if bool_decide (c = "."%char) then Some ([], rest)
      else match split_dot rest with Some (a, b) => Some (c :: a, b) | None => None end
  end.

Definition epoch_parse (text : list ascii) : option CoordinatorEpoch :=
  match split_dot text with
  | None => None
  | Some (before, after) =>
      if bool_decide (before = []) || bool_decide (after = []) then None
      else if bool_decide (is_Some (split_dot after)) then None
      else match gen_parse before with
           | None => None
           | Some incarnation =>
               match gen_parse after with
               | None => None
               | Some term => Some (mkEpoch incarnation term)
               end
           end
  end.

(** ** The identity stream *)

(** [std::mt19937_64]: state size 312, shift 156, and the standard's constants. *)
Record Mt19937_64 := mkMt { mt_x : list Z; mt_i : nat }.

Definition mt_lower_mask : Z := 2 ^ 31 - 1.
Definition mt_upper_mask : Z := 2 ^ 64 - 2 ^ 31.

Fixpoint mt_seed_loop (count : nat) (i : Z) (prev : Z) : list Z :=
  match count with
  | O => []
  | S count' =>
      let x := u64 (6364136223846793005 * Z.lxor prev (Z.shiftr prev 62) + i) in
      x :: mt_seed_loop count' (i + 1) x
  end.
Definition mt_seed (seed : Z) : Mt19937_64 :=
  mkMt (u64 seed :: mt_seed_loop 311 1 (u64 seed)) 312.

Definition mt_mix (cur next far : Z) : Z :=
  let y := Z.lor (Z.land cur mt_upper_mask) (Z.land next mt_lower_mask) in
  Z.lxor (Z.lxor far (Z.shiftr y 1)) (if Z.odd y then 0xB5026F5AA96619E9 else 0).
Fixpoint mt_mix_list (cur next far : list Z) : list Z :=
  match cur, next, far with
  | c :: cur', n :: next', f :: far' => mt_mix c n f :: mt_mix_list cur' next' far'
  | _, _, _ => []
  end.
Definition mt_twist (x : list Z) : list Z :=
  let first := mt_mix_list (take 156 x) (drop 1 x) (drop 156 x) in
  first ++ mt_mix_list (drop 156 x) (drop 157 x ++ take 1 first) first.
Definition mt_temper (x : Z) : Z :=
  let y := Z.lxor x (Z.land (Z.shiftr x 29) 0x5555555555555555) in
  let y := Z.lxor y (Z.land (Z.shiftl y 17) 0x71D67FFFEDA60000) in
  let y := Z.lxor y (Z.land (Z.shiftl y 37) 0xFFF7EEE000000000) in
  Z.lxor y (Z.shiftr y 43).
Definition mt_next (g : Mt19937_64) : Z * Mt19937_64 :=
  let g := if (312 <=? mt_i g)%nat then mkMt (mt_twist (mt_x g)) 0 else g in
  (mt_temper (nth (mt_i g) (mt_x g) 0), mkMt (mt_x g) (S (mt_i g))).

Definition be_bytes8 (v : Z) : list Z :=
  map (fun i => Z.land (Z.shiftr v (8 * (7 - i))) 255) [0; 1; 2; 3; 4; 5; 6; 7].

Definition IdFactory := Mt19937_64.
(** [IdFactory::next]. *)
Definition IdFactory_next (g : IdFactory) : Uuid128 * IdFactory :=
  let '(high, g) := mt_next g in
  let '(low, g) := mt_next g in
  let bytes := be_bytes8 high ++ be_bytes8 low in
  let bytes := <[6%nat := Z.lor (Z.land (nth 6 bytes 0) 15) 64]> bytes in
  let bytes := <[8%nat := Z.lor (Z.land (nth 8 bytes 0) 63) 128]> bytes in
  (mkUuid bytes, g).

(** ** A character is its code *)

Lemma char_code_range c : 0 <= char_code c < 256.
Proof. unfold char_code. pose proof (nat_ascii_bounded c). lia. Qed.

Lemma char_of_code c : char_of (char_code c) = c.
Proof. unfold char_of, char_code. rewrite Nat2Z.id. apply ascii_nat_embedding. Qed.

Lemma char_code_of z : 0 <= z < 256 -> char_code (char_of z) = z.
Proof. intros H. unfold char_of, char_code. rewrite nat_ascii_embedding; lia. Qed.
