(* ===== verification/Bytes.v ===== *)
(** * Bytes: byte plumbing shared by the codec and the store

    Models [include/ctf/bytes.hpp] and [src/bytes.cpp].  A byte string is a
    list of byte values; [bytes_wf] says every element is one. *)

From stdpp Require Import base gmap list strings.
From Stdlib Require Import Ascii.
From S2P Require Import Prelude Status Ids.

Notation bytes_wf := (Forall byte_ok).

Definition kHexDigits (d : Z) : ascii := kDigits d.

Definition hex_value (c : ascii) : Z :=
  let v := char_code c in
  if (48 <=? v) && (v <=? 57) then v - 48
  else if (97 <=? v) && (v <=? 102) then v - 97 + 10
  else if (65 <=? v) && (v <=? 70) then v - 65 + 10
  else -1.

Fixpoint hex_encode (data : list Z) : list ascii :=
  match data with
  | [] => []
  | byte :: rest =>
      kHexDigits (Z.shiftr byte 4) :: kHexDigits (Z.land byte 15) :: hex_encode rest
  end.

(** The loop of [hex_decode], two characters per step. *)
Fixpoint hex_decode_loop (text : list ascii) : Result (list Z) :=
  match text with
  | c1 :: c2 :: rest =>
      let high := hex_value c1 in
      let low := hex_value c2 in
      if (high <? 0) || (low <? 0) then
        Err (Status_error ErrorCode.InvalidSyntax "hex text contains a non-hex character")
      else match hex_decode_loop rest with
           | Val out => Val (u8 (Z.lor (Z.shiftl high 4) low) :: out)
           | Err s => Err s
           end
  | _ => Val []
  end.

Definition hex_decode (text : list ascii) (max_bytes : Z) : Result (list Z) :=
  let size := Z.of_nat (length text) in
  if negb (size mod 2 =? 0) then
    Err (Status_error ErrorCode.InvalidSyntax "hex text has odd length")
  else if size / 2 >? max_bytes then
    Err (Status_error ErrorCode.PayloadTooLarge "hex text exceeds decoding cap")
  else hex_decode_loop text.

Definition bytes_from_string (text : list ascii) : list Z := map char_code text.
Definition string_from_bytes (data : list Z) : list ascii := map char_of data.

(** Lead byte of a UTF-8 sequence: payload bits and continuation count. *)
Definition utf8_lead (byte : Z) : option (Z * nat) :=
  if byte <=? 0x7F then Some (byte, 0%nat)
  else if (0xC2 <=? byte) && (byte <=? 0xDF) then Some (Z.land byte 0x1F, 1%nat)
  else if (0xE0 <=? byte) && (byte <=? 0xEF) then Some (Z.land byte 0x0F, 2%nat)
  else if (0xF0 <=? byte) && (byte <=? 0xF4) then Some (Z.land byte 0x07, 3%nat)
  else None.

Fixpoint utf8_continue (k : nat) (data : list Z) (code_point : Z) : option (Z * list Z) :=
  match k with
  | O => Some (code_point, data)
  | S k' =>
      match data with
      | [] => None
      | next :: rest =>
          if negb (Z.land next 0xC0 =? 0x80) then None
          else utf8_continue k' rest (Z.lor (Z.shiftl code_point 6) (Z.land next 0x3F))
      end
  end.

Definition utf8_code_point_ok (continuation : nat) (code_point : Z) : bool :=
  negb ((Nat.eqb continuation 2 && (code_point <? 0x800)) ||
        (Nat.eqb continuation 3 && (code_point <? 0x10000)) ||
        ((0xD800 <=? code_point) && (code_point <=? 0xDFFF)) ||
        (0x10FFFF <? code_point)).

(** [is_valid_utf8]; every iteration consumes a byte, so the length of the
    input is enough fuel. *)
Fixpoint is_valid_utf8_loop (fuel : nat) (data : list Z) : bool :=
  match data with
  | [] => true
  | byte :: rest =>
      match fuel with
      | O => false
      | S fuel' =>
          match utf8_lead byte with
          | None => false
          | Some (bits, continuation) =>
              match utf8_continue continuation rest bits with
              | None => false
              | Some (code_point, rest') =>
                  if utf8_code_point_ok continuation code_point
                  then is_valid_utf8_loop fuel' rest' else false
              end
          end
      end
  end.
Definition is_valid_utf8 (data : list Z) : bool := is_valid_utf8_loop (length data) data.
