(* ===== verification/Hash.v ===== *)
(** * Hash: the integrity digests

    Models [include/ctf/hash.hpp] and [src/hash.cpp]: CRC-32C and FNV-1a over
    the same byte stream, and the incremental [DigestBuilder]. *)

From stdpp Require Import base gmap list strings.
From Stdlib Require Import Ascii.
From S2P Require Import Prelude Status Ids Bytes.

Definition kCrc32cPolynomial : Z := 0x82F63B78.

Definition crc_bit (crc : Z) : Z :=
  if negb (Z.land crc 1 =? 0) then Z.lxor (Z.shiftr crc 1) kCrc32cPolynomial
  else Z.shiftr crc 1.
(** Entry [i] of the table built by [make_crc_table]. *)
Definition crc_table_entry (i : Z) : Z := Nat.iter 8 crc_bit i.
Definition kCrcTable : list Z := map (fun i => crc_table_entry (Z.of_nat i)) (seq 0 256).

Definition not32 (x : Z) : Z := UINT32_MAX - x.

Definition crc_step (crc byte : Z) : Z :=
  Z.lxor (nth (Z.to_nat (Z.land (Z.lxor crc byte) 0xFF)) kCrcTable 0) (Z.shiftr crc 8).
Definition crc32c (data : list Z) (seed : Z) : Z :=
  not32 (foldl crc_step (not32 seed) data).

Definition kFnvSeed : Z := 0xCBF29CE484222325.
Definition kFnvPrime : Z := 0x100000001B3.
Definition fnv_step (hash byte : Z) : Z := u64 (Z.lxor hash byte * kFnvPrime).
Definition fnv1a64 (data : list Z) (seed : Z) : Z := foldl fnv_step seed data.

Record Digest := mkDigest { dg_crc : Z; dg_fnv : Z }.
#[export] Instance Digest_eq_dec : EqDecision Digest.
Proof. solve_decision. Defined.

Definition Digest_default : Digest := mkDigest 0 kFnvSeed.
Definition Digest_is_zero (d : Digest) : bool := (dg_crc d =? 0) && (dg_fnv d =? kFnvSeed).
Definition Digest_eqb (a b : Digest) : bool :=
  (dg_crc a =? dg_crc b) && (dg_fnv a =? dg_fnv b).

(** [DigestBuilder] is the pair of running checksums. *)
Definition builder_init : Digest := Digest_default.
Definition builder_update (b : Digest) (data : list Z) : Digest :=
  mkDigest (crc32c data (dg_crc b)) (fnv1a64 data (dg_fnv b)).
Definition digest_of (data : list Z) : Digest := builder_update builder_init data.

Definition be_bytes4 (v : Z) : list Z :=
  map (fun i => Z.land (Z.shiftr v (8 * (3 - i))) 255) [0; 1; 2; 3].

Definition Digest_to_string (d : Digest) : list ascii :=
  hex_encode (be_bytes4 (dg_crc d) ++ be_bytes8 (dg_fnv d)).

Definition be_combine (width : Z -> Z) (bytes : list Z) : Z :=
  foldl (fun acc b => Z.lor (width (Z.shiftl acc 8)) b) 0 bytes.

Definition Digest_parse (text : list ascii) : option Digest :=
  if negb (Nat.eqb (length text) 24) then None
  else match hex_decode text 12 with
       | Val raw =>
           if negb (Nat.eqb (length raw) 12) then None
           else Some (mkDigest (be_combine u32 (take 4 raw)) (be_combine u64 (drop 4 raw)))
       | Err _ => None
       end.
