(* ===== verification/Enums.v ===== *)
(** * Enums: the closed enumerations of the domain model

    Models the [enum class] declarations of [include/ctf/model.hpp] with the
    [to_string] overloads of [src/model.cpp].  The enumerators keep their C++
    names, each enumeration in a module of its own. *)

From stdpp Require Import base gmap list strings.
From S2P Require Import Prelude Status Ids.

Module IsolationClass.
Inductive IsolationClass :=
| TrainingCritical
| ServingLatency
| TrainingBulk
| BestEffort.
#[global] Instance IsolationClass_eq_dec : EqDecision IsolationClass.
Proof. solve_decision. Defined.
Definition value (x : IsolationClass) : Z :=
  match x with
  | TrainingCritical => 0
  | ServingLatency => 1
  | TrainingBulk => 2
  | BestEffort => 3
  end.
Definition all : list IsolationClass :=
  [ TrainingCritical; ServingLatency; TrainingBulk; BestEffort ].
Definition to_string (x : IsolationClass) : string :=
  match x with
  | TrainingCritical => "TrainingCritical"
  | ServingLatency => "ServingLatency"
  | TrainingBulk => "TrainingBulk"
  | BestEffort => "BestEffort"
  end%string.
(** [static_cast] of a raw byte, refused when no enumerator has that value. *)
Definition of_value (raw : Z) : option IsolationClass := find (fun x => value x =? raw) all.
End IsolationClass.
Notation IsolationClass := IsolationClass.IsolationClass.

Module DestinationClass.
Inductive DestinationClass :=
| LocalAttachedStore
| RemoteObjectStore
| PeerNodeMemory
| SyntheticLab.
#[global] Instance DestinationClass_eq_dec : EqDecision DestinationClass.
Proof. solve_decision. Defined.
Definition value (x : DestinationClass) : Z :=
  match x with
  | LocalAttachedStore => 0
  | RemoteObjectStore => 1
  | PeerNodeMemory => 2
  | SyntheticLab => 3
  end.
Definition all : list DestinationClass :=
  [ LocalAttachedStore; RemoteObjectStore; PeerNodeMemory; SyntheticLab ].
Definition to_string (x : DestinationClass) : string :=
  match x with
  | LocalAttachedStore => "LocalAttachedStore"
  | RemoteObjectStore => "RemoteObjectStore"
  | PeerNodeMemory => "PeerNodeMemory"
  | SyntheticLab => "SyntheticLab"
  end%string.
(** [static_cast] of a raw byte, refused when no enumerator has that value. *)
Definition of_value (raw : Z) : option DestinationClass := find (fun x => value x =? raw) all.
End DestinationClass.
Notation DestinationClass := DestinationClass.DestinationClass.

Module EvidenceLevel.
Inductive EvidenceLevel :=
| None
| SourceComplete
| Transferred
| VerifiedAtDestination.
#[global] Instance EvidenceLevel_eq_dec : EqDecision EvidenceLevel.
Proof. solve_decision. Defined.
Definition value (x : EvidenceLevel) : Z :=
  match x with
  | None => 0
  | SourceComplete => 1
  | Transferred => 2
  | VerifiedAtDestination => 3
  end.
Definition all : list EvidenceLevel :=
  [ None; SourceComplete; Transferred; VerifiedAtDestination ].
Definition to_string (x : EvidenceLevel) : string :=
  match x with
  | None => "None"
  | SourceComplete => "SourceComplete"
  | Transferred => "Transferred"
  | VerifiedAtDestination => "VerifiedAtDestination"
  end%string.
(** [static_cast] of a raw byte, refused when no enumerator has that value. *)
Definition of_value (raw : Z) : option EvidenceLevel := find (fun x => value x =? raw) all.
End EvidenceLevel.
Notation EvidenceLevel := EvidenceLevel.EvidenceLevel.

Module DurabilityStatus.
Inductive DurabilityStatus :=
| NotEstablished
| ExternallyAsserted.
#[global] Instance DurabilityStatus_eq_dec : EqDecision DurabilityStatus.
Proof. solve_decision. Defined.
Definition value (x : DurabilityStatus) : Z :=
  match x with
  | NotEstablished => 0
  | ExternallyAsserted => 1
  end.
Definition all : list DurabilityStatus :=
  [ NotEstablished; ExternallyAsserted ].
Definition to_string (x : DurabilityStatus) : string :=
  match x with
  | NotEstablished => "NotEstablished"
  | ExternallyAsserted => "ExternallyAsserted"
  end%string.
(** [static_cast] of a raw byte, refused when no enumerator has that value. *)
Definition of_value (raw : Z) : option DurabilityStatus := find (fun x => value x =? raw) all.
End DurabilityStatus.
Notation DurabilityStatus := DurabilityStatus.DurabilityStatus.

Module SessionState.
Inductive SessionState :=
| Submitted
| Deferred
| Admitted_
| Transferring
| Paused
| SourceComplete
| Transferred
| VerifiedAtDestination
| TrafficSessionComplete
| Cancelled
| Superseded
| Failed
| RevalidationRequired.
#[global] Instance SessionState_eq_dec : EqDecision SessionState.
Proof. solve_decision. Defined.
Definition value (x : SessionState) : Z :=
  match x with
  | Submitted => 0
  | Deferred => 1
  | Admitted_ => 2
  | Transferring => 3
  | Paused => 4
  | SourceComplete => 5
  | Transferred => 6
  | VerifiedAtDestination => 7
  | TrafficSessionComplete => 8
  | Cancelled => 9
  | Superseded => 10
  | Failed => 11
  | RevalidationRequired => 12
  end.
Definition all : list SessionState :=
  [ Submitted; Deferred; Admitted_; Transferring; Paused; SourceComplete; Transferred; VerifiedAtDestination; TrafficSessionComplete; Cancelled; Superseded; Failed; RevalidationRequired ].
Definition to_string (x : SessionState) : string :=
  match x with
  | Submitted => "Submitted"
  | Deferred => "Deferred"
  | Admitted_ => "Admitted"
  | Transferring => "Transferring"
  | Paused => "Paused"
  | SourceComplete => "SourceComplete"
  | Transferred => "Transferred"
  | VerifiedAtDestination => "VerifiedAtDestination"
  | TrafficSessionComplete => "TrafficSessionComplete"
  | Cancelled => "Cancelled"
  | Superseded => "Superseded"
  | Failed => "Failed"
  | RevalidationRequired => "RevalidationRequired"
  end%string.
(** [static_cast] of a raw byte, refused when no enumerator has that value. *)
Definition of_value (raw : Z) : option SessionState := find (fun x => value x =? raw) all.
End SessionState.
Notation SessionState := SessionState.SessionState.

Module ShardState.
Inductive ShardState :=
| Pending
| Granted
| InFlight
| Transferred
| Verified
| Ambiguous
| Failed
| Cancelled.
#[global] Instance ShardState_eq_dec : EqDecision ShardState.
Proof. solve_decision. Defined.
Definition value (x : ShardState) : Z :=
  match x with
  | Pending => 0
  | Granted => 1
  | InFlight => 2
  | Transferred => 3
  | Verified => 4
  | Ambiguous => 5
  | Failed => 6
  | Cancelled => 7
  end.
Definition all : list ShardState :=
  [ Pending; Granted; InFlight; Transferred; Verified; Ambiguous; Failed; Cancelled ].
Definition to_string (x : ShardState) : string :=
  match x with
  | Pending => "Pending"
  | Granted => "Granted"
  | InFlight => "InFlight"
  | Transferred => "Transferred"
  | Verified => "Verified"
  | Ambiguous => "Ambiguous"
  | Failed => "Failed"
  | Cancelled => "Cancelled"
  end%string.
(** [static_cast] of a raw byte, refused when no enumerator has that value. *)
Definition of_value (raw : Z) : option ShardState := find (fun x => value x =? raw) all.
End ShardState.
Notation ShardState := ShardState.ShardState.

Module AttemptOutcome.
Inductive AttemptOutcome :=
| Granted
| InFlight
| DeliveredUnacked
| DeliveredAcked
| Verified
| Failed
| Ambiguous
| Released
| Superseded.
#[global] Instance AttemptOutcome_eq_dec : EqDecision AttemptOutcome.
Proof. solve_decision. Defined.
Definition value (x : AttemptOutcome) : Z :=
  match x with
  | Granted => 0
  | InFlight => 1
  | DeliveredUnacked => 2
  | DeliveredAcked => 3
  | Verified => 4
  | Failed => 5
  | Ambiguous => 6
  | Released => 7
  | Superseded => 8
  end.
Definition all : list AttemptOutcome :=
  [ Granted; InFlight; DeliveredUnacked; DeliveredAcked; Verified; Failed; Ambiguous; Released; Superseded ].
Definition to_string (x : AttemptOutcome) : string :=
  match x with
  | Granted => "Granted"
  | InFlight => "InFlight"
  | DeliveredUnacked => "DeliveredUnacked"
  | DeliveredAcked => "DeliveredAcked"
  | Verified => "Verified"
  | Failed => "Failed"
  | Ambiguous => "Ambiguous"
  | Released => "Released"
  | Superseded => "Superseded"
  end%string.
(** [static_cast] of a raw byte, refused when no enumerator has that value. *)
Definition of_value (raw : Z) : option AttemptOutcome := find (fun x => value x =? raw) all.
End AttemptOutcome.
Notation AttemptOutcome := AttemptOutcome.AttemptOutcome.

Module DecisionKind.
Inductive DecisionKind :=
| Admit
| Defer
| Deny.
#[global] Instance DecisionKind_eq_dec : EqDecision DecisionKind.
Proof. solve_decision. Defined.
Definition value (x : DecisionKind) : Z :=
  match x with
  | Admit => 0
  | Defer => 1
  | Deny => 2
  end.
Definition all : list DecisionKind :=
  [ Admit; Defer; Deny ].
Definition to_string (x : DecisionKind) : string :=
  match x with
  | Admit => "Admit"
  | Defer => "Defer"
  | Deny => "Deny"
  end%string.
(** [static_cast] of a raw byte, refused when no enumerator has that value. *)
Definition of_value (raw : Z) : option DecisionKind := find (fun x => value x =? raw) all.
End DecisionKind.
Notation DecisionKind := DecisionKind.DecisionKind.

Module ReasonCode.
Inductive ReasonCode :=
| Admitted_
| DuplicateCommand
| ClassCeilingSaturated
| WorkloadCeilingSaturated
| FabricSessionLimit
| PathCapacityUnavailable
| CreditUnavailable
| UnknownWorkload
| ContractGenerationStale
| PolicyGenerationStale
| TopologyGenerationStale
| CheckpointGenerationStale
| SupersessionDeniedByPolicy
| SessionLimitPerWorkload
| RequestedRateUnsupported
| ManifestInvalid
| ManifestMismatch
| DestinationNotPermitted
| CheckpointTooLarge
| DeadlineUnreachable
| FabricShuttingDown
| AuthorityStale
| AttemptStale
| VerificationRequired
| VerificationMismatch
| EvidenceStale
| SessionNotFound
| StateNotResumable
| AmbiguousSinkOutcome
| CancelledByOperator
| SupersededByNewerGeneration
| ResourceLimit
| Internal.
#[global] Instance ReasonCode_eq_dec : EqDecision ReasonCode.
Proof. solve_decision. Defined.
Definition value (x : ReasonCode) : Z :=
  match x with
  | Admitted_ => 0
  | DuplicateCommand => 1
  | ClassCeilingSaturated => 2
  | WorkloadCeilingSaturated => 3
  | FabricSessionLimit => 4
  | PathCapacityUnavailable => 5
  | CreditUnavailable => 6
  | UnknownWorkload => 7
  | ContractGenerationStale => 8
  | PolicyGenerationStale => 9
  | TopologyGenerationStale => 10
  | CheckpointGenerationStale => 11
  | SupersessionDeniedByPolicy => 12
  | SessionLimitPerWorkload => 13
  | RequestedRateUnsupported => 14
  | ManifestInvalid => 15
  | ManifestMismatch => 16
  | DestinationNotPermitted => 17
  | CheckpointTooLarge => 18
  | DeadlineUnreachable => 19
  | FabricShuttingDown => 20
  | AuthorityStale => 21
  | AttemptStale => 22
  | VerificationRequired => 23
  | VerificationMismatch => 24
  | EvidenceStale => 25
  | SessionNotFound => 26
  | StateNotResumable => 27
  | AmbiguousSinkOutcome => 28
  | CancelledByOperator => 29
  | SupersededByNewerGeneration => 30
  | ResourceLimit => 31
  | Internal => 32
  end.
Definition all : list ReasonCode :=
  [ Admitted_; DuplicateCommand; ClassCeilingSaturated; WorkloadCeilingSaturated; FabricSessionLimit; PathCapacityUnavailable; CreditUnavailable; UnknownWorkload; ContractGenerationStale; PolicyGenerationStale; TopologyGenerationStale; CheckpointGenerationStale; SupersessionDeniedByPolicy; SessionLimitPerWorkload; RequestedRateUnsupported; ManifestInvalid; ManifestMismatch; DestinationNotPermitted; CheckpointTooLarge; DeadlineUnreachable; FabricShuttingDown; AuthorityStale; AttemptStale; VerificationRequired; VerificationMismatch; EvidenceStale; SessionNotFound; StateNotResumable; AmbiguousSinkOutcome; CancelledByOperator; SupersededByNewerGeneration; ResourceLimit; Internal ].
Definition to_string (x : ReasonCode) : string :=
  match x with
  | Admitted_ => "Admitted"
  | DuplicateCommand => "DuplicateCommand"
  | ClassCeilingSaturated => "ClassCeilingSaturated"
  | WorkloadCeilingSaturated => "WorkloadCeilingSaturated"
  | FabricSessionLimit => "FabricSessionLimit"
  | PathCapacityUnavailable => "PathCapacityUnavailable"
  | CreditUnavailable => "CreditUnavailable"
  | UnknownWorkload => "UnknownWorkload"
  | ContractGenerationStale => "ContractGenerationStale"
  | PolicyGenerationStale => "PolicyGenerationStale"
  | TopologyGenerationStale => "TopologyGenerationStale"
  | CheckpointGenerationStale => "CheckpointGenerationStale"
  | SupersessionDeniedByPolicy => "SupersessionDeniedByPolicy"
  | SessionLimitPerWorkload => "SessionLimitPerWorkload"
  | RequestedRateUnsupported => "RequestedRateUnsupported"
  | ManifestInvalid => "ManifestInvalid"
  | ManifestMismatch => "ManifestMismatch"
  | DestinationNotPermitted => "DestinationNotPermitted"
  | CheckpointTooLarge => "CheckpointTooLarge"
  | DeadlineUnreachable => "DeadlineUnreachable"
  | FabricShuttingDown => "FabricShuttingDown"
  | AuthorityStale => "AuthorityStale"
  | AttemptStale => "AttemptStale"
  | VerificationRequired => "VerificationRequired"
  | VerificationMismatch => "VerificationMismatch"
  | EvidenceStale => "EvidenceStale"
  | SessionNotFound => "SessionNotFound"
  | StateNotResumable => "StateNotResumable"
  | AmbiguousSinkOutcome => "AmbiguousSinkOutcome"
  | CancelledByOperator => "CancelledByOperator"
  | SupersededByNewerGeneration => "SupersededByNewerGeneration"
  | ResourceLimit => "ResourceLimit"
  | Internal => "Internal"
  end%string.
(** [static_cast] of a raw byte, refused when no enumerator has that value. *)
Definition of_value (raw : Z) : option ReasonCode := find (fun x => value x =? raw) all.
End ReasonCode.
Notation ReasonCode := ReasonCode.ReasonCode.

Module EventKind.
Inductive EventKind :=
| SessionSubmitted
| SessionAdmitted
| SessionDeferred
| SessionDenied
| SessionSuperseded
| SessionCancelled
| SessionCompleted
| WaveGranted
| TransferObserved
| VerificationObserved
| AmbiguityRecorded
| RevalidationRequired_
| FenceRejected
| Shutdown
| SourceCompleteObserved
| SessionPaused
| SessionResumed
| DurabilityAsserted.
#[global] Instance EventKind_eq_dec : EqDecision EventKind.
Proof. solve_decision. Defined.
Definition value (x : EventKind) : Z :=
  match x with
  | SessionSubmitted => 0
  | SessionAdmitted => 1
  | SessionDeferred => 2
  | SessionDenied => 3
  | SessionSuperseded => 4
  | SessionCancelled => 5
  | SessionCompleted => 6
  | WaveGranted => 7
  | TransferObserved => 8
  | VerificationObserved => 9
  | AmbiguityRecorded => 10
  | RevalidationRequired_ => 11
  | FenceRejected => 12
  | Shutdown => 13
  | SourceCompleteObserved => 14
  | SessionPaused => 15
  | SessionResumed => 16
  | DurabilityAsserted => 17
  end.
Definition all : list EventKind :=
  [ SessionSubmitted; SessionAdmitted; SessionDeferred; SessionDenied; SessionSuperseded; SessionCancelled; SessionCompleted; WaveGranted; TransferObserved; VerificationObserved; AmbiguityRecorded; RevalidationRequired_; FenceRejected; Shutdown; SourceCompleteObserved; SessionPaused; SessionResumed; DurabilityAsserted ].
Definition to_string (x : EventKind) : string :=
  match x with
  | SessionSubmitted => "SessionSubmitted"
  | SessionAdmitted => "SessionAdmitted"
  | SessionDeferred => "SessionDeferred"
  | SessionDenied => "SessionDenied"
  | SessionSuperseded => "SessionSuperseded"
  | SessionCancelled => "SessionCancelled"
  | SessionCompleted => "SessionCompleted"
  | WaveGranted => "WaveGranted"
  | TransferObserved => "TransferObserved"
  | VerificationObserved => "VerificationObserved"
  | AmbiguityRecorded => "AmbiguityRecorded"
  | RevalidationRequired_ => "RevalidationRequired"
  | FenceRejected => "FenceRejected"
  | Shutdown => "Shutdown"
  | SourceCompleteObserved => "SourceCompleteObserved"
  | SessionPaused => "SessionPaused"
  | SessionResumed => "SessionResumed"
  | DurabilityAsserted => "DurabilityAsserted"
  end%string.
(** [static_cast] of a raw byte, refused when no enumerator has that value. *)
Definition of_value (raw : Z) : option EventKind := find (fun x => value x =? raw) all.
End EventKind.
Notation EventKind := EventKind.EventKind.

Module VerificationOutcome.
Inductive VerificationOutcome :=
| Verified
| DigestMismatch
| Truncated
| Ambiguous
| Rejected.
#[global] Instance VerificationOutcome_eq_dec : EqDecision VerificationOutcome.
Proof. solve_decision. Defined.
Definition value (x : VerificationOutcome) : Z :=
  match x with
  | Verified => 0
  | DigestMismatch => 1
  | Truncated => 2
  | Ambiguous => 3
  | Rejected => 4
  end.
Definition all : list VerificationOutcome :=
  [ Verified; DigestMismatch; Truncated; Ambiguous; Rejected ].
Definition to_string (x : VerificationOutcome) : string :=
  match x with
  | Verified => "Verified"
  | DigestMismatch => "DigestMismatch"
  | Truncated => "Truncated"
  | Ambiguous => "Ambiguous"
  | Rejected => "Rejected"
  end%string.
(** [static_cast] of a raw byte, refused when no enumerator has that value. *)
Definition of_value (raw : Z) : option VerificationOutcome := find (fun x => value x =? raw) all.
End VerificationOutcome.
Notation VerificationOutcome := VerificationOutcome.VerificationOutcome.

(** Lower rank is stricter protection. *)
Definition isolation_rank (x : IsolationClass) : Z := IsolationClass.value x.

Definition isolation_class_from_string (text : string) : option IsolationClass :=
  find (fun x => String.eqb text (IsolationClass.to_string x)) IsolationClass.all.
Definition destination_class_from_string (text : string) : option DestinationClass :=
  find (fun x => String.eqb text (DestinationClass.to_string x)) DestinationClass.all.

Definition is_terminal (s : SessionState) : bool :=
  match s with
  | SessionState.TrafficSessionComplete | SessionState.Cancelled
  | SessionState.Superseded | SessionState.Failed => true
  | SessionState.Submitted | SessionState.Deferred | SessionState.Admitted_
  | SessionState.Transferring | SessionState.Paused | SessionState.SourceComplete
  | SessionState.Transferred | SessionState.VerifiedAtDestination
  | SessionState.RevalidationRequired => false
  end.
Definition is_active (s : SessionState) : bool := negb (is_terminal s).

Definition is_fencing_reason (r : ReasonCode) : bool :=
  match r with
  | ReasonCode.ContractGenerationStale
  | ReasonCode.PolicyGenerationStale
  | ReasonCode.TopologyGenerationStale
  | ReasonCode.CheckpointGenerationStale
  | ReasonCode.AuthorityStale
  | ReasonCode.AttemptStale
  | ReasonCode.EvidenceStale
  | ReasonCode.DuplicateCommand
  | ReasonCode.SupersededByNewerGeneration => true
  | _ => false
  end.

(** Decidable equality as a boolean test on enumerators. *)
Notation "x =e y" := (bool_decide (x = y)) (at level 70, no associativity) : ctf_scope.
