(* ===== verification/Model.v ===== *)
(** * Model: the domain model of the fabric

    Models [include/ctf/model.hpp] and [src/model.cpp]: manifests, policies,
    topologies, workload contracts, requests, decisions, evidence, accounting
    and events as records, and the validation functions that guard them.
    Field names carry a per-struct prefix because Rocq projections share one
    name space. *)

From stdpp Require Import base gmap list strings.
From Stdlib Require Import Ascii.
From S2P Require Import Prelude Status Ids Hash Enums.

Notation Nanos := Z (only parsing).
Definition kNanosPerMicrosecond : Nanos := 1000.
Definition kNanosPerMillisecond : Nanos := 1000 * kNanosPerMicrosecond.
Definition kNanosPerSecond : Nanos := 1000 * kNanosPerMillisecond.

Record DurabilityAssertion := mkDurability {
  da_status : DurabilityStatus;
  da_backend_identity : string;
  da_evidence_digest : Digest;
  da_observed_at : Nanos
}.
#[global] Instance eta_DurabilityAssertion : Eta DurabilityAssertion :=
  fun r => mkDurability (da_status r) (da_backend_identity r) (da_evidence_digest r)
    (da_observed_at r).

Definition DurabilityAssertion_default : DurabilityAssertion :=
  mkDurability DurabilityStatus.NotEstablished "" Digest_default 0.

(** ** Manifest *)

Record ShardDescriptor := mkShardDescriptor {
  sd_index : ShardIndex;
  sd_declared_bytes : Z;
  sd_declared_digest : Digest;
  sd_path_class : PathClassId
}.
#[global] Instance ShardDescriptor_eq_dec : EqDecision ShardDescriptor.
Proof. solve_decision. Defined.

Record CheckpointManifest := mkManifest {
  mf_checkpoint : CheckpointId;
  mf_generation : CheckpointGeneration;
  mf_workload : WorkloadId;
  mf_contract_generation : WorkloadContractGeneration;
  mf_total_bytes : Z;
  mf_shards : list ShardDescriptor;
  mf_manifest_digest : Digest;
  mf_declared_at : Nanos
}.
#[global] Instance eta_CheckpointManifest : Eta CheckpointManifest :=
  fun r => mkManifest (mf_checkpoint r) (mf_generation r) (mf_workload r)
    (mf_contract_generation r) (mf_total_bytes r) (mf_shards r) (mf_manifest_digest r)
    (mf_declared_at r).

Record Limits := mkLimits {
  lim_max_shards_per_checkpoint : Z;
  lim_max_checkpoint_bytes : Z;
  lim_max_sessions : Z;
  lim_max_attempts_in_flight : Z;
  lim_max_retained_history : Z;
  lim_max_wave_width : Z;
  lim_max_path_classes : Z;
  lim_max_sessions_per_workload : Z;
  lim_max_workloads : Z;
  lim_max_identity_text_bytes : Z;
  lim_max_string_bytes : Z;
  lim_max_supersession_chain : Z
}.
#[global] Instance eta_Limits : Eta Limits :=
  fun r => mkLimits (lim_max_shards_per_checkpoint r) (lim_max_checkpoint_bytes r)
    (lim_max_sessions r) (lim_max_attempts_in_flight r) (lim_max_retained_history r)
    (lim_max_wave_width r) (lim_max_path_classes r) (lim_max_sessions_per_workload r)
    (lim_max_workloads r) (lim_max_identity_text_bytes r) (lim_max_string_bytes r)
    (lim_max_supersession_chain r).

Definition Limits_default : Limits :=
  mkLimits 4096 (2 ^ 40) 65536 8192 4096 64 64 64 4096 128 256 8.
Definition kHardLimits : Limits :=
  mkLimits 65536 (2 ^ 44) (2 ^ 20) (2 ^ 16) 4096 256 256 1024 65536 128 256 16.

(** ** Policy, topology, contracts *)

Record IsolationEnvelopeConfig := mkEnvelopeConfig {
  iec_isolation : IsolationClass;
  iec_ceiling_bps : Z;
  iec_burst_window_ns : Z;
  iec_max_in_flight_sessions : Z
}.
#[global] Instance eta_IsolationEnvelopeConfig : Eta IsolationEnvelopeConfig :=
  fun r => mkEnvelopeConfig (iec_isolation r) (iec_ceiling_bps r) (iec_burst_window_ns r)
    (iec_max_in_flight_sessions r).

Record PolicySnapshot := mkPolicy {
  pol_generation : PolicyGeneration;
  pol_envelopes : list IsolationEnvelopeConfig;
  pol_max_wave_width : Z;
  pol_max_session_bytes : Z;
  pol_max_sessions : Z;
  pol_max_attempts_in_flight : Z;
  pol_retained_history : Z;
  pol_require_destination_verification : bool;
  pol_defer_horizon_ns : Nanos;
  pol_default_deadline_ns : Nanos;
  pol_minimum_rate_bps_for_admission : Nanos;
  pol_limits : Limits
}.
#[global] Instance eta_PolicySnapshot : Eta PolicySnapshot :=
  fun r => mkPolicy (pol_generation r) (pol_envelopes r) (pol_max_wave_width r)
    (pol_max_session_bytes r) (pol_max_sessions r) (pol_max_attempts_in_flight r)
    (pol_retained_history r) (pol_require_destination_verification r)
    (pol_defer_horizon_ns r) (pol_default_deadline_ns r)
    (pol_minimum_rate_bps_for_admission r) (pol_limits r).

Record PathClass := mkPathClass {
  pc_id : PathClassId;
  pc_destination : DestinationClass;
  pc_capacity_bps : Z;
  pc_synthetic : bool;
  pc_label : string
}.
#[global] Instance eta_PathClass : Eta PathClass :=
  fun r => mkPathClass (pc_id r) (pc_destination r) (pc_capacity_bps r) (pc_synthetic r)
    (pc_label r).

Record TopologySnapshot := mkTopology {
  topo_generation : TopologyGeneration;
  topo_path_classes : list PathClass
}.
#[global] Instance eta_TopologySnapshot : Eta TopologySnapshot :=
  fun r => mkTopology (topo_generation r) (topo_path_classes r).

Record WorkloadContract := mkContract {
  wc_workload : WorkloadId;
  wc_generation : WorkloadContractGeneration;
  wc_isolation : IsolationClass;
  wc_ceiling_bps : Z;
  wc_floor_bps : Z;
  wc_max_in_flight_sessions : Z;
  wc_max_shards_per_wave : Z;
  wc_allow_supersession : bool;
  wc_deadline_budget_ns : Nanos
}.
#[global] Instance eta_WorkloadContract : Eta WorkloadContract :=
  fun r => mkContract (wc_workload r) (wc_generation r) (wc_isolation r) (wc_ceiling_bps
    r) (wc_floor_bps r) (wc_max_in_flight_sessions r) (wc_max_shards_per_wave r)
    (wc_allow_supersession r) (wc_deadline_budget_ns r).

(** ** Requests, decisions, envelopes *)

Record SessionRequest := mkRequest {
  req_command : CommandId;
  req_workload : WorkloadId;
  req_contract_generation : WorkloadContractGeneration;
  req_policy_generation : PolicyGeneration;
  req_topology_generation : TopologyGeneration;
  req_checkpoint : CheckpointId;
  req_checkpoint_generation : CheckpointGeneration;
  req_requested_isolation : IsolationClass;
  req_destination : DestinationClass;
  req_requested_rate_bps : Z;
  req_deadline_horizon_ns : Nanos;
  req_manifest : CheckpointManifest
}.
#[global] Instance eta_SessionRequest : Eta SessionRequest :=
  fun r => mkRequest (req_command r) (req_workload r) (req_contract_generation r)
    (req_policy_generation r) (req_topology_generation r) (req_checkpoint r)
    (req_checkpoint_generation r) (req_requested_isolation r) (req_destination r)
    (req_requested_rate_bps r) (req_deadline_horizon_ns r) (req_manifest r).

Record CommandFence := mkFence {
  cf_epoch : CoordinatorEpoch;
  cf_policy_generation : PolicyGeneration;
  cf_topology_generation : TopologyGeneration;
  cf_contract_generation : WorkloadContractGeneration;
  cf_checkpoint_generation : option CheckpointGeneration;
  cf_attempt_sequence : option AttemptSequence
}.
#[global] Instance eta_CommandFence : Eta CommandFence :=
  fun r => mkFence (cf_epoch r) (cf_policy_generation r) (cf_topology_generation r)
    (cf_contract_generation r) (cf_checkpoint_generation r) (cf_attempt_sequence r).

Record WavePlan := mkWavePlan {
  wp_index : WaveIndex;
  wp_shards : list ShardIndex;
  wp_planned_bytes : Z
}.
#[global] Instance eta_WavePlan : Eta WavePlan :=
  fun r => mkWavePlan (wp_index r) (wp_shards r) (wp_planned_bytes r).

Record TrafficEnvelope := mkEnvelope {
  te_session : SessionId;
  te_sequence : AttemptSequence;
  te_isolation : IsolationClass;
  te_rate_bps : Z;
  te_burst_bytes : Z;
  te_wave_width : Z;
  te_waves : list WavePlan;
  te_path_class : option PathClassId;
  te_issued_at : Nanos;
  te_deadline_target : Nanos
}.
#[global] Instance eta_TrafficEnvelope : Eta TrafficEnvelope :=
  fun r => mkEnvelope (te_session r) (te_sequence r) (te_isolation r) (te_rate_bps r)
    (te_burst_bytes r) (te_wave_width r) (te_waves r) (te_path_class r) (te_issued_at r)
    (te_deadline_target r).

Record AdmissionDecision := mkDecision {
  ad_kind : DecisionKind;
  ad_reason : ReasonCode;
  ad_detail : string;
  ad_session : SessionId;
  ad_envelope : option TrafficEnvelope;
  ad_superseded : list SessionId;
  ad_retry_after : option Nanos;
  ad_epoch : CoordinatorEpoch;
  ad_decided_at : Nanos
}.
#[global] Instance eta_AdmissionDecision : Eta AdmissionDecision :=
  fun r => mkDecision (ad_kind r) (ad_reason r) (ad_detail r) (ad_session r) (ad_envelope
    r) (ad_superseded r) (ad_retry_after r) (ad_epoch r) (ad_decided_at r).

Definition admitted (d : AdmissionDecision) : bool := ad_kind d =e DecisionKind.Admit.

Record WaveGrant := mkWaveGrant {
  wg_session : SessionId;
  wg_attempt : TransferAttemptId;
  wg_sequence : AttemptSequence;
  wg_shard : ShardIndex;
  wg_wave : WaveIndex;
  wg_max_bytes : Z;
  wg_rate_bps : Z;
  wg_burst_bytes : Z;
  wg_issued_at : Nanos;
  wg_expires_at : Nanos;
  wg_epoch : CoordinatorEpoch
}.
#[global] Instance eta_WaveGrant : Eta WaveGrant :=
  fun r => mkWaveGrant (wg_session r) (wg_attempt r) (wg_sequence r) (wg_shard r) (wg_wave
    r) (wg_max_bytes r) (wg_rate_bps r) (wg_burst_bytes r) (wg_issued_at r) (wg_expires_at
    r) (wg_epoch r).

Record WaveOutcome := mkWaveOutcome {
  wo_granted : bool;
  wo_reason : ReasonCode;
  wo_detail : string;
  wo_grant : option WaveGrant;
  wo_retry_after : option Nanos;
  wo_decided_at : Nanos
}.
#[global] Instance eta_WaveOutcome : Eta WaveOutcome :=
  fun r => mkWaveOutcome (wo_granted r) (wo_reason r) (wo_detail r) (wo_grant r)
    (wo_retry_after r) (wo_decided_at r).

(** ** Evidence supplied by peers *)

Record SourceCompleteEvidence := mkSourceComplete {
  sce_session : SessionId;
  sce_attempt : TransferAttemptId;
  sce_sequence : AttemptSequence;
  sce_wave : WaveIndex;
  sce_shard : ShardIndex;
  sce_source_bytes : Z;
  sce_source_digest : Digest;
  sce_observed_at : Nanos
}.

Record TransferEvidence := mkTransferEvidence {
  tev_session : SessionId;
  tev_attempt : TransferAttemptId;
  tev_sequence : AttemptSequence;
  tev_shard : ShardIndex;
  tev_arrived_bytes : Z;
  tev_arrived_digest : Digest;
  tev_sink_acknowledged : bool;
  tev_observed_at : Nanos
}.

Record VerificationEvidence := mkVerificationEvidence {
  vev_session : SessionId;
  vev_attempt : TransferAttemptId;
  vev_sequence : AttemptSequence;
  vev_shard : ShardIndex;
  vev_verified_bytes : Z;
  vev_verified_digest : Digest;
  vev_outcome : VerificationOutcome;
  vev_verifier_identity : string;
  vev_observed_at : Nanos
}.

(** ** Accounting and events *)

Record AccountingSnapshot := mkAccounting {
  acc_bytes_admitted : Z;
  acc_bytes_transferred : Z;
  acc_bytes_verified : Z;
  acc_bytes_cancelled : Z;
  acc_bytes_wasted : Z;
  acc_bytes_unproven : Z;
  acc_bytes_deferred : Z;
  acc_granted_outstanding_bytes : Z;
  acc_sessions_admitted : Z;
  acc_sessions_deferred : Z;
  acc_sessions_denied : Z;
  acc_sessions_completed : Z;
  acc_sessions_cancelled : Z;
  acc_sessions_superseded : Z;
  acc_sessions_failed : Z;
  acc_commands_processed : Z;
  acc_active_sessions : Z;
  acc_active_attempts : Z
}.
#[global] Instance eta_AccountingSnapshot : Eta AccountingSnapshot :=
  fun r => mkAccounting (acc_bytes_admitted r) (acc_bytes_transferred r)
    (acc_bytes_verified r) (acc_bytes_cancelled r) (acc_bytes_wasted r)
    (acc_bytes_unproven r) (acc_bytes_deferred r) (acc_granted_outstanding_bytes r)
    (acc_sessions_admitted r) (acc_sessions_deferred r) (acc_sessions_denied r)
    (acc_sessions_completed r) (acc_sessions_cancelled r) (acc_sessions_superseded r)
    (acc_sessions_failed r) (acc_commands_processed r) (acc_active_sessions r)
    (acc_active_attempts r).

Definition AccountingSnapshot_default : AccountingSnapshot :=
  mkAccounting 0 0 0 0 0 0 0 0 0 0 0 0 0 0 0 0 0 0.

Definition at_baseline (a : AccountingSnapshot) : bool :=
  (acc_active_sessions a =? 0) && (acc_active_attempts a =? 0) &&
  (acc_granted_outstanding_bytes a =? 0).

(** The conservation identity, evaluated in 64-bit arithmetic as the code does. *)
Definition conserves (a : AccountingSnapshot) : bool :=
  acc_bytes_admitted a =?
  u64 (u64 (u64 (u64 (acc_bytes_transferred a + acc_bytes_wasted a) + acc_bytes_cancelled a)
              + acc_bytes_unproven a) + acc_granted_outstanding_bytes a).

Record FabricEvent := mkEvent {
  ev_kind : EventKind;
  ev_session : SessionId;
  ev_reason : ReasonCode;
  ev_detail : string;
  ev_at : Nanos
}.

(** ** Manifest digest and validation *)

Definition uuid_raw {T} (i : StrongId T) : list Z := uuid_bytes (id_value i).

Definition append_u32 (b : Digest) (v : Z) : Digest := builder_update b (be_bytes4 v).
Definition append_u64 (b : Digest) (v : Z) : Digest := builder_update b (be_bytes8 v).
Definition append_uuid {T} (b : Digest) (i : StrongId T) : Digest := builder_update b (uuid_raw i).
Definition append_digest (b : Digest) (d : Digest) : Digest :=
  append_u64 (append_u32 b (dg_crc d)) (dg_fnv d).

Definition append_shard (b : Digest) (s : ShardDescriptor) : Digest :=
  let b := append_u32 b (sc_value (sd_index s)) in
  let b := append_u64 b (sd_declared_bytes s) in
  let b := append_digest b (sd_declared_digest s) in
  append_u32 b (sc_value (sd_path_class s)).

Definition compute_manifest_digest (m : CheckpointManifest) : Digest :=
  let b := append_uuid builder_init (mf_checkpoint m) in
  let b := append_u64 b (gen_value (mf_generation m)) in
  let b := append_uuid b (mf_workload m) in
  let b := append_u64 b (gen_value (mf_contract_generation m)) in
  let b := append_u64 b (mf_total_bytes m) in
  let b := append_u32 b (u32 (Z.of_nat (length (mf_shards m)))) in
  foldl append_shard b (mf_shards m).

(** The shard loop of [validate_manifest], with the running [sum] and the
    [previous] index; [Val sum] when every shard passes. *)
Fixpoint validate_shards (total : Z) (shards : list ShardDescriptor) (sum : Z)
    (previous : option ShardIndex) : Result Z :=
  match shards with
  | [] => Val sum
  | shard :: rest =>
      if sd_declared_bytes shard =? 0 then
        Err (Status_error ErrorCode.InvalidArgument "manifest contains a zero-byte shard")
      else if match previous with
              | Some p => negb (sc_ltb p (sd_index shard))
              | None => false
              end then
        Err (Status_error ErrorCode.InvalidArgument
               "manifest shard indices must be strictly increasing and unique")
      else if (sum >? total) || (sd_declared_bytes shard >? u64 (total - sum)) then
        Err (Status_error ErrorCode.ImpossibleState
               "manifest shard bytes exceed the declared total")
      else validate_shards total rest (u64 (sum + sd_declared_bytes shard)) (Some (sd_index shard))
  end.

Definition validate_manifest (m : CheckpointManifest) (limits : Limits) : Status :=
  if id_is_nil (mf_checkpoint m) then
    Status_error ErrorCode.MissingField "manifest checkpoint identity is nil"
  else if id_is_nil (mf_workload m) then
    Status_error ErrorCode.MissingField "manifest workload identity is nil"
  else if gen_is_zero (mf_generation m) then
    Status_error ErrorCode.OutOfRange "checkpoint generation 0 is not a valid generation"
  else if gen_is_zero (mf_contract_generation m) then
    Status_error ErrorCode.OutOfRange "contract generation 0 is not a valid generation"
  else if Nat.eqb (length (mf_shards m)) 0 then
    Status_error ErrorCode.InvalidArgument "manifest declares no shards"
  else if Z.of_nat (length (mf_shards m)) >? lim_max_shards_per_checkpoint limits then
    Status_error ErrorCode.CollectionTooLarge "manifest shard count exceeds the configured bound"
  else if mf_total_bytes m =? 0 then
    Status_error ErrorCode.InvalidArgument "manifest declares zero total bytes"
  else if mf_total_bytes m >? lim_max_checkpoint_bytes limits then
    Status_error ErrorCode.OutOfRange "manifest total bytes exceeds the configured bound"
  else
    match validate_shards (mf_total_bytes m) (mf_shards m) 0 None with
    | Err s => s
    | Val sum =>
        if negb (sum =? mf_total_bytes m) then
          Status_error ErrorCode.ImpossibleState
            "manifest shard bytes do not sum to the declared total"
        else if negb (Digest_eqb (mf_manifest_digest m) (compute_manifest_digest m)) then
          Status_error ErrorCode.IntegrityFailure "manifest digest does not match its shard table"
        else Status_success
    end.

Definition ShardDescriptor_eqb (a b : ShardDescriptor) : bool :=
  sc_eqb (sd_index a) (sd_index b) && (sd_declared_bytes a =? sd_declared_bytes b) &&
  Digest_eqb (sd_declared_digest a) (sd_declared_digest b) &&
  sc_eqb (sd_path_class a) (sd_path_class b).

(** [std::equal] over two ranges of the same length. *)
Fixpoint shards_equal (a b : list ShardDescriptor) : bool :=
  match a, b with
  | x :: a', y :: b' => ShardDescriptor_eqb x y && shards_equal a' b'
  | _, _ => true
  end.

Definition manifests_equivalent (l r : CheckpointManifest) : bool :=
  if negb (mf_checkpoint l =e mf_checkpoint r) || negb (gen_eqb (mf_generation l) (mf_generation r))
     || negb (mf_workload l =e mf_workload r)
     || negb (gen_eqb (mf_contract_generation l) (mf_contract_generation r)) then false
  else if negb (mf_total_bytes l =? mf_total_bytes r) ||
          negb (Nat.eqb (length (mf_shards l)) (length (mf_shards r))) then false
  else shards_equal (mf_shards l) (mf_shards r).

Definition check_limit (value cap : Z) (what : string) : Status :=
  if value >? cap then
    Status_error ErrorCode.OutOfRange (what +:+ " exceeds the hard resource cap")%string
  else Status_success.

(** The envelope loop of [validate_policy]; [seen] is the [std::array<bool, 4>]
    of classes met so far. *)
Fixpoint validate_envelopes (envelopes : list IsolationEnvelopeConfig) (seen : list bool)
  : Result (list bool) :=
  match envelopes with
  | [] => Val seen
  | envelope :: rest =>
      let index := Z.to_nat (IsolationClass.value (iec_isolation envelope)) in
      if (length seen <=? index)%nat then
        Err (Status_error ErrorCode.UnsupportedValue
               "policy envelope names an unknown isolation class")
      else if nth index seen false then
        Err (Status_error ErrorCode.InvalidArgument "policy defines an isolation class twice")
      else
        let seen := <[index := true]> seen in
        if iec_ceiling_bps envelope =? 0 then
          Err (Status_error ErrorCode.InvalidArgument "policy envelope ceiling must be positive")
        else if iec_burst_window_ns envelope <=? 0 then
          Err (Status_error ErrorCode.InvalidArgument
                 "policy envelope burst window must be positive")
        else if iec_max_in_flight_sessions envelope =? 0 then
          Err (Status_error ErrorCode.InvalidArgument
                 "policy envelope session bound must be positive")
        else
          let status := check_limit (iec_max_in_flight_sessions envelope)
                          (lim_max_sessions kHardLimits) "policy envelope session bound" in
          if Status_ok status then validate_envelopes rest seen else Err status
  end.

(** The nested limits of [validate_policy], checked one after the other. *)
Definition validate_policy_limits (l : Limits) : Status :=
  let h := kHardLimits in
  seq_status (check_limit (lim_max_shards_per_checkpoint l) (lim_max_shards_per_checkpoint h)
                "limits.max_shards_per_checkpoint")
  (seq_status (check_limit (lim_max_checkpoint_bytes l) (lim_max_checkpoint_bytes h)
                "limits.max_checkpoint_bytes")
  (seq_status (check_limit (lim_max_sessions l) (lim_max_sessions h) "limits.max_sessions")
  (seq_status (check_limit (lim_max_attempts_in_flight l) (lim_max_attempts_in_flight h)
                "limits.max_attempts_in_flight")
  (seq_status (check_limit (lim_max_retained_history l) (lim_max_retained_history h)
                "limits.max_retained_history")
  (seq_status (check_limit (lim_max_wave_width l) (lim_max_wave_width h) "limits.max_wave_width")
  (seq_status (check_limit (lim_max_path_classes l) (lim_max_path_classes h)
                "limits.max_path_classes")
  (seq_status (check_limit (lim_max_sessions_per_workload l) (lim_max_sessions_per_workload h)
                "limits.max_sessions_per_workload")
  (seq_status (check_limit (lim_max_workloads l) (lim_max_workloads h) "limits.max_workloads")
  (seq_status (check_limit (lim_max_string_bytes l) (lim_max_string_bytes h)
                "limits.max_string_bytes")
  (check_limit (lim_max_supersession_chain l) (lim_max_supersession_chain h)
                "limits.max_supersession_chain")))))))))).

Definition validate_policy (p : PolicySnapshot) (limits : Limits) : Status :=
  if gen_is_zero (pol_generation p) then
    Status_error ErrorCode.OutOfRange "policy generation 0 is not a valid generation"
  else if negb (Nat.eqb (length (pol_envelopes p)) 4) then
    Status_error ErrorCode.InvalidArgument
      "policy must define exactly one envelope per isolation class"
  else
    match validate_envelopes (pol_envelopes p) [false; false; false; false] with
    | Err s => s
    | Val seen =>
        if existsb negb seen then
          Status_error ErrorCode.InvalidArgument "policy is missing an isolation class envelope"
        else if pol_max_wave_width p =? 0 then
          Status_error ErrorCode.InvalidArgument "policy wave width must be positive"
        else if pol_max_session_bytes p =? 0 then
          Status_error ErrorCode.InvalidArgument "policy session byte bound must be positive"
        else if pol_max_attempts_in_flight p =? 0 then
          Status_error ErrorCode.InvalidArgument "policy attempt bound must be positive"
        else if pol_retained_history p =? 0 then
          Status_error ErrorCode.InvalidArgument "policy retained history must be positive"
        else if pol_defer_horizon_ns p <=? 0 then
          Status_error ErrorCode.InvalidArgument "policy defer horizon must be positive"
        else if pol_default_deadline_ns p <=? 0 then
          Status_error ErrorCode.InvalidArgument "policy default deadline must be positive"
        else
          let h := kHardLimits in
          seq_status (check_limit (pol_max_wave_width p) (lim_max_wave_width h)
                        "policy wave width")
          (seq_status (check_limit (pol_max_sessions p) (lim_max_sessions h)
                        "policy session bound")
          (seq_status (check_limit (pol_max_attempts_in_flight p) (lim_max_attempts_in_flight h)
                        "policy attempt bound")
          (seq_status (check_limit (pol_retained_history p) (lim_max_retained_history h)
                        "policy retained history")
          (seq_status (check_limit (pol_max_session_bytes p) (lim_max_checkpoint_bytes h)
                        "policy session byte bound")
          (validate_policy_limits (pol_limits p))))))
    end.

Definition label_char_allowed (c : ascii) : bool :=
  let v := char_code c in
  ((97 <=? v) && (v <=? 122)) || ((65 <=? v) && (v <=? 90)) || ((48 <=? v) && (v <=? 57)) ||
  (v =? 46) || (v =? 95) || (v =? 45) || (v =? 58).
Definition is_bounded_label (text : string) (max_bytes : Z) : bool :=
  if Nat.eqb (String.length text) 0 || (Z.of_nat (String.length text) >? max_bytes) then false
  else forallb label_char_allowed (chars text).

(** The path-class loop of [validate_topology]; [ids] is the set of ids met. *)
Fixpoint validate_path_classes (paths : list PathClass) (ids : list Z) (limits : Limits) : Status :=
  match paths with
  | [] => Status_success
  | path :: rest =>
      if sc_value (pc_id path) =? 0 then
        Status_error ErrorCode.InvalidArgument "path class id 0 is reserved for the default path"
      else if existsb (fun i => i =? sc_value (pc_id path)) ids then
        Status_error ErrorCode.DuplicateIdentity "topology declares a path class id twice"
      else if pc_capacity_bps path =? 0 then
        Status_error ErrorCode.InvalidArgument "path class capacity must be positive"
      else if negb (String.eqb (pc_label path) "") &&
              negb (is_bounded_label (pc_label path) (lim_max_string_bytes limits)) then
        Status_error ErrorCode.InvalidSyntax "path class label is not a bounded identifier"
      else validate_path_classes rest (sc_value (pc_id path) :: ids) limits
  end.

Definition validate_topology (t : TopologySnapshot) (limits : Limits) : Status :=
  if gen_is_zero (topo_generation t) then
    Status_error ErrorCode.OutOfRange "topology generation 0 is not a valid generation"
  else if Nat.eqb (length (topo_path_classes t)) 0 then
    Status_error ErrorCode.InvalidArgument "topology declares no path classes"
  else if Z.of_nat (length (topo_path_classes t)) >? lim_max_path_classes limits then
    Status_error ErrorCode.CollectionTooLarge "topology path class count exceeds the bound"
  else validate_path_classes (topo_path_classes t) [] limits.

Definition validate_contract (c : WorkloadContract) (limits : Limits) : Status :=
  if id_is_nil (wc_workload c) then
    Status_error ErrorCode.MissingField "workload contract identity is nil"
  else if gen_is_zero (wc_generation c) then
    Status_error ErrorCode.OutOfRange "contract generation 0 is not a valid generation"
  else if wc_ceiling_bps c =? 0 then
    Status_error ErrorCode.InvalidArgument "contract ceiling must be positive"
  else if wc_floor_bps c >? wc_ceiling_bps c then
    Status_error ErrorCode.InvalidArgument "contract floor exceeds the contract ceiling"
  else if wc_max_in_flight_sessions c =? 0 then
    Status_error ErrorCode.InvalidArgument "contract session bound must be positive"
  else if wc_max_in_flight_sessions c >? lim_max_sessions_per_workload limits then
    Status_error ErrorCode.OutOfRange "contract session bound exceeds the configured cap"
  else if wc_max_shards_per_wave c =? 0 then
    Status_error ErrorCode.InvalidArgument "contract wave bound must be positive"
  else if wc_max_shards_per_wave c >? lim_max_shards_per_checkpoint limits then
    Status_error ErrorCode.OutOfRange "contract wave bound exceeds the configured cap"
  else if wc_deadline_budget_ns c <=? 0 then
    Status_error ErrorCode.InvalidArgument "contract deadline budget must be positive"
  else Status_success.

Definition find_envelope (p : PolicySnapshot) (isolation : IsolationClass)
  : option IsolationEnvelopeConfig :=
  find (fun e => iec_isolation e =e isolation) (pol_envelopes p).

Definition find_path_class (t : TopologySnapshot) (id : PathClassId) : option PathClass :=
  find (fun p => sc_eqb (pc_id p) id) (topo_path_classes t).

Definition default_path_class_for (t : TopologySnapshot) (destination : DestinationClass)
  : option PathClassId :=
  foldl (fun best path =>
    if negb (pc_destination path =e destination) then best
    else match best with
         | None => Some (pc_id path)
         | Some b => if sc_ltb (pc_id path) b then Some (pc_id path) else best
         end) None (topo_path_classes t).
