(* ===== verification/Time.v ===== *)
(** * Time: clocks and durations

    Models [ManualClock] of [include/ctf/time.hpp] and [format_duration] of
    [src/time.cpp].  [SteadyClock] reads the operating system; every operation
    that reads a clock takes the reading as an argument. *)

From stdpp Require Import base list strings.
From Stdlib Require Import Ascii.
From S2P Require Import Prelude Ids Model.

#[local] Open Scope string_scope.
#[local] Open Scope Z_scope.

(** ** The manual clock *)

Module ManualClock.
Record t := mk { now_ : Nanos }.
Definition now (c : t) : Nanos := now_ c.
Definition advance (delta : Nanos) (c : t) : t := if 0 <? delta then mk (s64 (now_ c + delta)) else c.
Definition set_to (value : Nanos) (c : t) : t := mk (if 0 <? value then value else 0).
End ManualClock.

(** ** Durations *)

Record DurationUnit := mkUnit { un_nanos : Z; un_suffix : string; un_decimals : nat }.
Definition duration_units : list DurationUnit :=
  [mkUnit kNanosPerSecond "s" 3; mkUnit kNanosPerMillisecond "ms" 3; mkUnit kNanosPerMicrosecond "us" 3].

(** The digits of the fraction, most significant first. *)
Fixpoint fraction_digits (decimals : nat) (remainder scale : Z) : list ascii :=
  match decimals with
  | O => []
  | S decimals' =>
      let scale := scale / 10 in
      char_of (48 + (remainder / scale) mod 10) :: fraction_digits decimals' remainder scale
  end.
(** [while (!fraction.empty() && fraction.back() == '0') fraction.pop_back()] *)
Fixpoint drop_zeros (digits : list ascii) : list ascii :=
  match digits with
  | c :: rest => if bool_decide (c = "0"%char) then drop_zeros rest else digits
  | [] => []
  end.
Definition trim_zeros (digits : list ascii) : list ascii := rev (drop_zeros (rev digits)).

Definition format_unit (magnitude : Z) (unit_ : DurationUnit) : list ascii :=
  let fraction := trim_zeros (fraction_digits (un_decimals unit_) (magnitude mod un_nanos unit_) (un_nanos unit_)) in
  (dec_text (magnitude / un_nanos unit_) ++
   match fraction with [] => [] | _ :: _ => "."%char :: fraction end ++ chars (un_suffix unit_))%list.
(** The first unit the magnitude reaches. *)
Fixpoint first_unit (magnitude : Z) (units : list DurationUnit) : list ascii :=
  match units with
  | [] => []
  | unit_ :: rest => if un_nanos unit_ <=? magnitude then format_unit magnitude unit_ else first_unit magnitude rest
  end.

Definition format_duration (value : Nanos) : string :=
  let negative := value <? 0 in
  let magnitude := if negative then u64 (u64 (- (value + 1)) + 1) else u64 value in
  text_of ((if negative then ["-"%char] else []) ++
    if magnitude <? kNanosPerMicrosecond then dec_text magnitude ++ chars "ns"
    else first_unit magnitude duration_units)%list.
