(* ===== verification/Fence.v ===== *)
(** * Fence: generation-bound authority

    Models [include/ctf/fence.hpp] and [src/fence.cpp].  A command fence is
    accepted exactly when every generation in it is the one the coordinator
    acts under; every refusal carries a fencing error code. *)

From stdpp Require Import base gmap list strings.
From S2P Require Import Prelude Status Ids Enums Model.

Record FenceContext := mkFenceContext {
  fc_epoch : CoordinatorEpoch;
  fc_policy_generation : PolicyGeneration;
  fc_topology_generation : TopologyGeneration;
  fc_contract_generation : WorkloadContractGeneration
}.

Record FenceVerdict := mkVerdict { fv_status : Status; fv_reason : ReasonCode }.
Definition fv_ok (v : FenceVerdict) : bool := Status_ok (fv_status v).

Definition reject (code : ErrorCode) (reason : ReasonCode) (detail : string) : FenceVerdict :=
  mkVerdict (Status_error code detail) reason.

Definition validate_fence (f : CommandFence) (current : FenceContext) : FenceVerdict :=
  if negb (gen_eqb (ep_incarnation (cf_epoch f)) (ep_incarnation (fc_epoch current))) then
    reject ErrorCode.ForeignEpoch ReasonCode.AuthorityStale
      "command epoch names a coordinator incarnation that is not current"
  else if gen_ltb (ep_term (cf_epoch f)) (ep_term (fc_epoch current)) then
    reject ErrorCode.StaleEpoch ReasonCode.AuthorityStale
      "command epoch term is older than the current term"
  else if gen_ltb (ep_term (fc_epoch current)) (ep_term (cf_epoch f)) then
    reject ErrorCode.ForeignEpoch ReasonCode.AuthorityStale
      "command epoch term was never issued by this coordinator"
  else if gen_ltb (cf_policy_generation f) (fc_policy_generation current) then
    reject ErrorCode.StalePolicyGeneration ReasonCode.PolicyGenerationStale
      "command policy generation is older than the active policy"
  else if gen_ltb (fc_policy_generation current) (cf_policy_generation f) then
    reject ErrorCode.NotAuthorized ReasonCode.PolicyGenerationStale
      "command policy generation is not a policy this coordinator issued"
  else if gen_ltb (cf_topology_generation f) (fc_topology_generation current) then
    reject ErrorCode.StaleTopologyGeneration ReasonCode.TopologyGenerationStale
      "command topology generation is older than the active topology"
  else if gen_ltb (fc_topology_generation current) (cf_topology_generation f) then
    reject ErrorCode.NotAuthorized ReasonCode.TopologyGenerationStale
      "command topology generation is not a topology this coordinator issued"
  else if gen_ltb (cf_contract_generation f) (fc_contract_generation current) then
    reject ErrorCode.StaleContractGeneration ReasonCode.ContractGenerationStale
      "command workload-contract generation is older than the active contract"
  else if gen_ltb (fc_contract_generation current) (cf_contract_generation f) then
    reject ErrorCode.NotAuthorized ReasonCode.ContractGenerationStale
      "command workload-contract generation is not a contract this coordinator issued"
  else mkVerdict Status_success ReasonCode.Admitted_.

Definition reason_for_fence_code (code : ErrorCode) : ReasonCode :=
  match code with
  | ErrorCode.StalePolicyGeneration => ReasonCode.PolicyGenerationStale
  | ErrorCode.StaleTopologyGeneration => ReasonCode.TopologyGenerationStale
  | ErrorCode.StaleContractGeneration => ReasonCode.ContractGenerationStale
  | ErrorCode.StaleCheckpointGeneration => ReasonCode.CheckpointGenerationStale
  | ErrorCode.StaleAttempt => ReasonCode.AttemptStale
  | ErrorCode.StaleEvidence => ReasonCode.EvidenceStale
  | ErrorCode.StaleEpoch | ErrorCode.ForeignEpoch => ReasonCode.AuthorityStale
  | ErrorCode.VerificationMismatch => ReasonCode.VerificationMismatch
  | _ => ReasonCode.Internal
  end.

(** The authority a fence claims, as the context that would accept it. *)
Definition fence_claims (f : CommandFence) : FenceContext :=
  mkFenceContext (cf_epoch f) (cf_policy_generation f) (cf_topology_generation f)
    (cf_contract_generation f).

Lemma gen_not_lt_eq {T} (a b : Generation T) :
  gen_ltb a b = false -> gen_ltb b a = false -> a = b.
Proof. unfold gen_ltb. intros. bool_facts. destruct a, b; cbn in *; f_equal; lia. Qed.
Lemma gen_eqb_eq {T} (a b : Generation T) : gen_eqb a b = true <-> a = b.
Proof.
  unfold gen_eqb. rewrite Z.eqb_eq. split; [destruct a, b; cbn; by intros ->|by intros ->].
Qed.
Lemma gen_ltb_irrefl {T} (a : Generation T) : gen_ltb a a = false.
Proof. apply Z.ltb_irrefl. Qed.

(** The two halves of a fence verdict: acceptance is exactly equality of the
    claimed authority with the current one. *)
Lemma validate_fence_spec f current :
  (fence_claims f = current /\ validate_fence f current = mkVerdict Status_success ReasonCode.Admitted_)
  \/ (fence_claims f <> current /\ fv_ok (validate_fence f current) = false
      /\ ErrorCode.is_fencing_code (st_code (fv_status (validate_fence f current))) = true
      /\ is_fencing_reason (fv_reason (validate_fence f current)) = true).
Proof.
  destruct f as [[fi ft] fp ftop fcg ? ?], current as [[ci ct] cp ctop ccg].
  unfold fence_claims, validate_fence; cbn.
  destruct (gen_eqb fi ci) eqn:E1; cbn; [apply gen_eqb_eq in E1 as ->|].
  2: { right; repeat split; try done. intros [=]; subst. by rewrite (proj2 (gen_eqb_eq _ _) eq_refl) in E1. }
  repeat match goal with
  | |- context [gen_ltb ?a ?b] =>
      lazymatch goal with
      | H : gen_ltb a b = false |- _ => fail
      | _ => destruct (gen_ltb a b) eqn:?
      end
  end; cbn;
  try (right; repeat split; try done; intros [=]; subst;
       match goal with H : gen_ltb ?a ?a = true |- _ => by rewrite gen_ltb_irrefl in H end).
  left; split; [|done]. f_equal; [f_equal|..]; by apply gen_not_lt_eq.
Qed.

Lemma validate_fence_ok_iff f current :
  fv_ok (validate_fence f current) = true <-> fence_claims f = current.
Proof. destruct (validate_fence_spec f current) as [[? ->]|(? & -> & _)]; naive_solver. Qed.
