(* ===== verification/Shaper.v ===== *)
(** * Shaper: deterministic integer rate shaping

    Models [src/shaper.hpp] and [src/shaper.cpp]: the token bucket in bytes,
    and the fabric-wide shaper with one bucket per isolation class, one per
    workload, and per-path rate reservations. *)

From stdpp Require Import base gmap list strings.
From S2P Require Import Prelude Status Ids Enums Model.

(** ** Token bucket *)

Definition refill_bytes (rate_bps elapsed_ns : Z) : Z :=
  if (rate_bps =? 0) || (elapsed_ns <=? 0) then 0
  else
    let elapsed := u64 (Z.min elapsed_ns kNanosPerSecond) in
    let whole := rate_bps / kNanosPerSecond in
    let remainder := rate_bps mod kNanosPerSecond in
    let from_whole := u64 (whole * elapsed) in
    let from_remainder := u64 (remainder * elapsed) / kNanosPerSecond in
    u64 (from_whole + from_remainder).

Definition burst_capacity (rate_bps burst_window_ns : Z) : Z :=
  if (rate_bps =? 0) || (burst_window_ns <=? 0) then 0
  else
    let window := u64 burst_window_ns in
    let whole := rate_bps / kNanosPerSecond in
    let remainder := rate_bps mod kNanosPerSecond in
    let capacity := u64 (u64 (whole * window) + u64 (remainder * window) / kNanosPerSecond) in
    let floor_capacity := rate_bps / 100 in
    if capacity <? floor_capacity then floor_capacity else capacity.

Record TokenBucket := mkBucket {
  tb_rate_bps : Z;
  tb_capacity_bytes : Z;
  tb_tokens : Z;
  tb_last_ns : Z;
  tb_configured : bool
}.
#[global] Instance eta_TokenBucket : Eta TokenBucket :=
  fun r => mkBucket (tb_rate_bps r) (tb_capacity_bytes r) (tb_tokens r) (tb_last_ns r)
    (tb_configured r).
Definition TokenBucket_default : TokenBucket := mkBucket 0 0 0 0 false.

(** [TokenBucket::configure] assigns every field. *)
Definition bucket_configure (rate_bps burst_window_ns now : Z) : TokenBucket :=
  let capacity := burst_capacity rate_bps (s64 burst_window_ns) in
  mkBucket rate_bps capacity capacity now true.

Definition bucket_refill (b : TokenBucket) (now : Z) : TokenBucket :=
  if negb (tb_configured b) || (now <=? tb_last_ns b) then b
  else
    let accrued := refill_bytes (tb_rate_bps b) (s64 (now - tb_last_ns b)) in
    let b := b <| tb_last_ns := now |> in
    if accrued =? 0 then b
    else if (tb_tokens b >=? tb_capacity_bytes b) ||
            (accrued >=? u64 (tb_capacity_bytes b - tb_tokens b)) then
      b <| tb_tokens := tb_capacity_bytes b |>
    else b <| tb_tokens := u64 (tb_tokens b + accrued) |>.

Definition bucket_try_consume (b : TokenBucket) (now bytes : Z) : bool * TokenBucket :=
  let b := bucket_refill b now in
  if bytes >? tb_tokens b then (false, b)
  else (true, b <| tb_tokens := u64 (tb_tokens b - bytes) |>).

Definition bucket_release (b : TokenBucket) (bytes : Z) : TokenBucket :=
  if (tb_tokens b >=? tb_capacity_bytes b) ||
     (bytes >=? u64 (tb_capacity_bytes b - tb_tokens b)) then
    b <| tb_tokens := tb_capacity_bytes b |>
  else b <| tb_tokens := u64 (tb_tokens b + bytes) |>.

Definition bucket_time_until (b : TokenBucket) (bytes : Z) : Z :=
  if negb (tb_configured b) || (tb_rate_bps b =? 0) then 0
  else
    let missing := if bytes >? tb_tokens b then bytes - tb_tokens b else 0 in
    if missing =? 0 then 0
    else s64 (s64 (u64 (missing * kNanosPerSecond) / tb_rate_bps b) + 1).

(** ** Fabric-wide shaper *)

Record ShaperVerdict := mkShaperVerdict {
  sv_admitted : bool;
  sv_reason : ReasonCode;
  sv_retry_after : Z;
  sv_detail : string
}.

Record RateShaper := mkShaper {
  sp_classes : gmap Z TokenBucket;
  sp_workloads : gmap WorkloadId TokenBucket;
  sp_path_reservations : gmap Z Z
}.
#[global] Instance eta_RateShaper : Eta RateShaper :=
  fun r => mkShaper (sp_classes r) (sp_workloads r) (sp_path_reservations r).
Definition RateShaper_default : RateShaper := mkShaper ∅ ∅ ∅.

Definition class_key (isolation : IsolationClass) : Z := IsolationClass.value isolation.

Definition configure_class (s : RateShaper) (isolation : IsolationClass)
    (ceiling_bps burst_window_ns now : Z) : RateShaper :=
  s <| sp_classes := <[class_key isolation :=
         bucket_configure ceiling_bps (u64 burst_window_ns) now]> (sp_classes s) |>.

Definition configure_workload (s : RateShaper) (workload : WorkloadId)
    (ceiling_bps burst_window_ns now : Z) : RateShaper :=
  s <| sp_workloads := <[workload :=
         bucket_configure ceiling_bps (u64 burst_window_ns) now]> (sp_workloads s) |>.

Definition drop_workload (s : RateShaper) (workload : WorkloadId) : RateShaper :=
  s <| sp_workloads := delete workload (sp_workloads s) |>.

Definition reserve_path_rate (s : RateShaper) (path : PathClassId) (rate_bps : Z)
  : bool * RateShaper :=
  match sp_path_reservations s !! sc_value path with
  | None =>
      (true, s <| sp_path_reservations := <[sc_value path := rate_bps]> (sp_path_reservations s) |>)
  | Some current =>
      if rate_bps >? UINT64_MAX - current then (false, s)
      else (true, s <| sp_path_reservations :=
                    <[sc_value path := u64 (current + rate_bps)]> (sp_path_reservations s) |>)
  end.

Definition release_path_rate (s : RateShaper) (path : PathClassId) (rate_bps : Z) : RateShaper :=
  match sp_path_reservations s !! sc_value path with
  | None => s
  | Some current =>
      s <| sp_path_reservations :=
        <[sc_value path := if rate_bps >=? current then 0 else current - rate_bps]>
          (sp_path_reservations s) |>
  end.

Definition reserved_path_rate (s : RateShaper) (path : PathClassId) : Z :=
  match sp_path_reservations s !! sc_value path with None => 0 | Some v => v end.

Definition shaper_refuse (reason : ReasonCode) (retry_after : Z) (detail : string) : ShaperVerdict :=
  mkShaperVerdict false reason retry_after detail.

(** [RateShaper::try_consume]: the verdict and the shaper after the call. *)
Definition shaper_try_consume (s : RateShaper) (isolation : IsolationClass) (workload : WorkloadId)
    (bytes now : Z) : ShaperVerdict * RateShaper :=
  match sp_classes s !! class_key isolation with
  | Some class_bucket =>
    if tb_configured class_bucket then
      match sp_workloads s !! workload with
      | Some workload_bucket =>
        if tb_configured workload_bucket then
          let cb := bucket_refill class_bucket now in
          let wb := bucket_refill workload_bucket now in
          let store s cb wb := s <| sp_classes := <[class_key isolation := cb]> (sp_classes s) |>
                                 <| sp_workloads := <[workload := wb]> (sp_workloads s) |> in
          if tb_tokens cb <? bytes then
            (shaper_refuse ReasonCode.ClassCeilingSaturated
               (s64 (now + bucket_time_until cb bytes)) "isolation-class ceiling has no credit",
             store s cb wb)
          else if tb_tokens wb <? bytes then
            (shaper_refuse ReasonCode.WorkloadCeilingSaturated
               (s64 (now + bucket_time_until wb bytes)) "workload ceiling has no credit",
             store s cb wb)
          else
            let '(class_ok, cb) := bucket_try_consume cb now bytes in
            let '(workload_ok, wb) := bucket_try_consume wb now bytes in
            if negb class_ok || negb workload_ok then
              (shaper_refuse ReasonCode.CreditUnavailable 0
                 "credit accounting disagreed at consumption time", store s cb wb)
            else (mkShaperVerdict true ReasonCode.Admitted_ 0 "", store s cb wb)
        else (shaper_refuse ReasonCode.WorkloadCeilingSaturated 0
                "no workload envelope is configured", s)
      | None => (shaper_refuse ReasonCode.WorkloadCeilingSaturated 0
                   "no workload envelope is configured", s)
      end
    else (shaper_refuse ReasonCode.ClassCeilingSaturated 0
            "no isolation-class envelope is configured", s)
  | None => (shaper_refuse ReasonCode.ClassCeilingSaturated 0
               "no isolation-class envelope is configured", s)
  end.

(** [RateShaper::release]. *)
Definition shaper_release (s : RateShaper) (isolation : IsolationClass) (workload : WorkloadId)
    (bytes now : Z) : RateShaper :=
  let s := match sp_classes s !! class_key isolation with
           | Some b => s <| sp_classes := <[class_key isolation :=
                             bucket_release (bucket_refill b now) bytes]> (sp_classes s) |>
           | None => s
           end in
  match sp_workloads s !! workload with
  | Some b => s <| sp_workloads := <[workload := bucket_release (bucket_refill b now) bytes]>
                                     (sp_workloads s) |>
  | None => s
  end.

Definition class_tokens_at (s : RateShaper) (isolation : IsolationClass) (now : Z)
  : Z * RateShaper :=
  match sp_classes s !! class_key isolation with
  | None => (0, s)
  | Some b =>
      let b := bucket_refill b now in
      (tb_tokens b, s <| sp_classes := <[class_key isolation := b]> (sp_classes s) |>)
  end.

Definition workload_tokens_at (s : RateShaper) (workload : WorkloadId) (now : Z)
  : Z * RateShaper :=
  match sp_workloads s !! workload with
  | None => (0, s)
  | Some b =>
      let b := bucket_refill b now in
      (tb_tokens b, s <| sp_workloads := <[workload := b]> (sp_workloads s) |>)
  end.

Definition class_time_until_at (s : RateShaper) (isolation : IsolationClass) (bytes now : Z)
  : Z * RateShaper :=
  match sp_classes s !! class_key isolation with
  | None => (0, s)
  | Some b =>
      let b := bucket_refill b now in
      (bucket_time_until b bytes, s <| sp_classes := <[class_key isolation := b]> (sp_classes s) |>)
  end.

(** Read-only accessors. *)
Definition class_tokens (s : RateShaper) (isolation : IsolationClass) : Z :=
  match sp_classes s !! class_key isolation with None => 0 | Some b => tb_tokens b end.
Definition workload_tokens (s : RateShaper) (workload : WorkloadId) : Z :=
  match sp_workloads s !! workload with None => 0 | Some b => tb_tokens b end.
Definition class_rate (s : RateShaper) (isolation : IsolationClass) : Z :=
  match sp_classes s !! class_key isolation with None => 0 | Some b => tb_rate_bps b end.
Definition workload_rate (s : RateShaper) (workload : WorkloadId) : Z :=
  match sp_workloads s !! workload with None => 0 | Some b => tb_rate_bps b end.
