(* ===== verification/EngineState.v ===== *)
(** * EngineState: the engine's state and its lock-held helpers

    Models the private part of [src/engine.cpp]: the shard, attempt, session
    and command records, [FabricEngine::Impl] and its helper functions.

    The engine is modelled by explicit state passing.  [Engine] holds the data
    members of [Impl] plus two things the C++ keeps outside it: [events_], the
    caller's optional [EventSink], and [ub_], which becomes true when the C++
    execution would read or write through a reference to a session that
    [prune_history] has erased.  A reference [SessionRecord&] into [sessions_]
    is the session's id, dereferenced through the map at each use, so the
    aliasing between the reference and the table is the code's.  Unordered maps
    are [gmap]s; a loop over one visits [map_to_list], an order the theorems
    never rely on.  The clock reading of a call is the argument [at_]. *)

From stdpp Require Import base gmap list strings.
From S2P Require Import Prelude Status Ids Hash Enums Model Fence Shaper.

Definition kMinGrantChunk : Z := 16 * 1024.
Definition kMaxGrantChunk : Z := 1 * 1024 * 1024.

Definition mix64 (hash value : Z) : Z := u64 (Z.lxor hash value * 0x100000001B3).

Record ShardRecord := mkShard {
  shr_index : ShardIndex;
  shr_declared_bytes : Z;
  shr_declared_digest : Digest;
  shr_path_class : PathClassId;
  shr_state : ShardState;
  shr_sequence : AttemptSequence;
  shr_attempt : option TransferAttemptId;
  shr_granted_bytes : Z;
  shr_transferred_bytes : Z;
  shr_verified_bytes : Z;
  shr_observed_digest : Digest;
  shr_has_observed_digest : bool;
  shr_source_complete : bool;
  shr_source_bytes : Z
}.
#[global] Instance eta_ShardRecord : Eta ShardRecord :=
  fun r => mkShard (shr_index r) (shr_declared_bytes r) (shr_declared_digest r)
    (shr_path_class r) (shr_state r) (shr_sequence r) (shr_attempt r) (shr_granted_bytes
    r) (shr_transferred_bytes r) (shr_verified_bytes r) (shr_observed_digest r)
    (shr_has_observed_digest r) (shr_source_complete r) (shr_source_bytes r).

Record AttemptRecord := mkAttempt {
  atr_id : TransferAttemptId;
  atr_sequence : AttemptSequence;
  atr_shard : ShardIndex;
  atr_wave : WaveIndex;
  atr_outcome : AttemptOutcome;
  atr_granted_bytes : Z;
  atr_delivered_bytes : Z;
  atr_observed_digest : Digest;
  atr_has_observed_digest : bool;
  atr_outstanding : bool;
  atr_granted_at : Nanos;
  atr_updated_at : Nanos
}.
#[global] Instance eta_AttemptRecord : Eta AttemptRecord :=
  fun r => mkAttempt (atr_id r) (atr_sequence r) (atr_shard r) (atr_wave r) (atr_outcome
    r) (atr_granted_bytes r) (atr_delivered_bytes r) (atr_observed_digest r)
    (atr_has_observed_digest r) (atr_outstanding r) (atr_granted_at r) (atr_updated_at r).

Record SessionRecord := mkSession {
  ses_id : SessionId;
  ses_request : SessionRequest;
  ses_state : SessionState;
  ses_evidence : EvidenceLevel;
  ses_durability : DurabilityAssertion;
  ses_envelope : TrafficEnvelope;
  ses_envelope_sequence : Z;
  ses_attempt_counter : Z;
  ses_shards : list ShardRecord;
  ses_attempts : list AttemptRecord;
  ses_timeline : list string;
  ses_admitted_bytes : Z;
  ses_transferred_bytes : Z;
  ses_verified_bytes : Z;
  ses_cancelled_bytes : Z;
  ses_wasted_bytes : Z;
  ses_unproven_bytes : Z;
  ses_outstanding_bytes : Z;
  ses_active_attempts : Z;
  ses_source_complete : bool;
  ses_paused : bool;
  ses_paused_from : SessionState;
  ses_reserved_path : option PathClassId;
  ses_reserved_rate_bps : Z;
  ses_created_at : Nanos;
  ses_updated_at : Nanos;
  ses_last_reason : ReasonCode;
  ses_last_detail : string;
  ses_stale_reason : string;
  ses_superseded_by : option SessionId
}.
#[global] Instance eta_SessionRecord : Eta SessionRecord :=
  fun r => mkSession (ses_id r) (ses_request r) (ses_state r) (ses_evidence r)
    (ses_durability r) (ses_envelope r) (ses_envelope_sequence r) (ses_attempt_counter r)
    (ses_shards r) (ses_attempts r) (ses_timeline r) (ses_admitted_bytes r)
    (ses_transferred_bytes r) (ses_verified_bytes r) (ses_cancelled_bytes r)
    (ses_wasted_bytes r) (ses_unproven_bytes r) (ses_outstanding_bytes r)
    (ses_active_attempts r) (ses_source_complete r) (ses_paused r) (ses_paused_from r)
    (ses_reserved_path r) (ses_reserved_rate_bps r) (ses_created_at r) (ses_updated_at r)
    (ses_last_reason r) (ses_last_detail r) (ses_stale_reason r) (ses_superseded_by r).

Record CommandRecord := mkCommand {
  cmd_session : SessionId;
  cmd_kind : DecisionKind;
  cmd_reason : ReasonCode;
  cmd_fingerprint : Z;
  cmd_has_session : bool
}.

Record PrunedTotals := mkPruned {
  pr_admitted : Z;
  pr_transferred : Z;
  pr_verified : Z;
  pr_cancelled : Z;
  pr_wasted : Z;
  pr_unproven : Z
}.
#[global] Instance eta_PrunedTotals : Eta PrunedTotals :=
  fun r => mkPruned (pr_admitted r) (pr_transferred r) (pr_verified r) (pr_cancelled r)
    (pr_wasted r) (pr_unproven r).

Record Engine := mkEngine {
  limits_ : Limits;
  policy_ : PolicySnapshot;
  topology_ : TopologySnapshot;
  contracts_ : gmap WorkloadId WorkloadContract;
  epoch_ : CoordinatorEpoch;
  shaper_ : RateShaper;
  sessions_ : gmap SessionId SessionRecord;
  by_workload_ : gmap WorkloadId (list SessionId);
  by_checkpoint_ : gmap CheckpointId (list SessionId);
  command_index_ : gmap CommandId CommandRecord;
  command_order_ : list CommandId;
  command_index_bound_ : Z;
  accounting_ : AccountingSnapshot;
  commands_processed_ : Z;
  shutting_down_ : bool;
  class_active_ : list Z;
  workload_active_ : gmap WorkloadId Z;
  terminal_order_ : list SessionId;
  pruned_ : PrunedTotals;
  retention_bound_ : Z;
  id_factory_ : IdFactory;
  config_status_ : Status;
  deadlines_ : list (Nanos * list SessionId);
  events_ : option (list FabricEvent);
  ub_ : bool
}.
#[global] Instance eta_Engine : Eta Engine :=
  fun r => mkEngine (limits_ r) (policy_ r) (topology_ r) (contracts_ r) (epoch_ r)
    (shaper_ r) (sessions_ r) (by_workload_ r) (by_checkpoint_ r) (command_index_ r)
    (command_order_ r) (command_index_bound_ r) (accounting_ r) (commands_processed_ r)
    (shutting_down_ r) (class_active_ r) (workload_active_ r) (terminal_order_ r) (pruned_
    r) (retention_bound_ r) (id_factory_ r) (config_status_ r) (deadlines_ r) (events_ r)
    (ub_ r).

(** ** References into the session table *)

Definition put_session (id : SessionId) (s : SessionRecord) (e : Engine) : Engine :=
  e <| sessions_ := <[id := s]> (sessions_ e) |>.
Definition set_accounting (a : AccountingSnapshot) (e : Engine) : Engine := e <| accounting_ := a |>.
Definition touch_dangling (e : Engine) : Engine := e <| ub_ := true |>.

(** Update the session and the aggregate accounting through the reference [id]. *)
Definition upd_both (id : SessionId)
    (f : SessionRecord -> AccountingSnapshot -> SessionRecord * AccountingSnapshot)
    (e : Engine) : Engine :=
  match sessions_ e !! id with
  | None => touch_dangling e
  | Some s => let '(s', a') := f s (accounting_ e) in set_accounting a' (put_session id s' e)
  end.

(** Update only the session through the reference [id]. *)
Definition with_session (id : SessionId) (f : SessionRecord -> SessionRecord) (e : Engine) : Engine :=
  match sessions_ e !! id with
  | None => touch_dangling e
  | Some s => put_session id (f s) e
  end.

Definition upd_accounting (f : AccountingSnapshot -> AccountingSnapshot) (e : Engine) : Engine :=
  set_accounting (f (accounting_ e)) e.

(** [if (events != nullptr) events->push_back(event)] *)
Definition push_event (ev : FabricEvent) (e : Engine) : Engine :=
  match events_ e with
  | None => e
  | Some l => e <| events_ := Some (l ++ [ev]) |>
  end.

(** ** Configuration *)

Definition configure_shaper (at_ : Nanos) (e : Engine) : Engine :=
  let s := foldl (fun s env =>
             configure_class s (iec_isolation env) (iec_ceiling_bps env)
               (s64 (iec_burst_window_ns env)) at_)
             (shaper_ e) (pol_envelopes (policy_ e)) in
  let s := foldl (fun s entry =>
             configure_workload s entry.1 (wc_ceiling_bps entry.2) (kNanosPerMillisecond * 100) at_)
             s (map_to_list (contracts_ e)) in
  e <| shaper_ := s |>.

Definition timeline_bound (e : Engine) : Z :=
  let bound := pol_retained_history (policy_ e) in if bound =? 0 then 1 else bound.

(** [erase(begin, begin + (size - bound))] when the size exceeds the bound. *)
Definition keep_last {A} (bound : Z) (l : list A) : list A :=
  if Z.of_nat (length l) >? bound then drop (Z.to_nat (Z.of_nat (length l) - bound)) l else l.

Definition append_timeline (bound : Z) (at_ : Nanos) (text : string) (s : SessionRecord)
  : SessionRecord :=
  s <| ses_timeline :=
    keep_last bound (ses_timeline s ++ [(int_to_string at_ +:+ " " +:+ text)%string]) |>.
(** [append_timeline] through a reference into the table. *)
Definition note_timeline (id : SessionId) (at_ : Nanos) (text : string) (e : Engine) : Engine :=
  with_session id (append_timeline (timeline_bound e) at_ text) e.

(** ** Lookups *)

(** The binary search of [shard_position]; [fuel] is the width of the range. *)
Fixpoint shard_search (fuel : nat) (shards : list ShardRecord) (index : ShardIndex)
    (low high : nat) : nat :=
  match fuel with
  | O => low
  | S fuel' =>
      if (low <? high)%nat then
        let mid := (low + (high - low) / 2)%nat in
        match shards !! mid with
        | Some shard =>
            if sc_ltb (shr_index shard) index then shard_search fuel' shards index (S mid) high
            else shard_search fuel' shards index low mid
        | None => low
        end
      else low
  end.

Definition shard_position (shards : list ShardRecord) (index : ShardIndex) : option nat :=
  let low := shard_search (length shards) shards index 0 (length shards) in
  match shards !! low with
  | Some shard => if sc_eqb (shr_index shard) index then Some low else None
  | None => None
  end.

Fixpoint wave_for_shard (waves : list WavePlan) (index : ShardIndex) : option WaveIndex :=
  match waves with
  | [] => None
  | plan :: rest =>
      if existsb (fun i => sc_eqb i index) (wp_shards plan) then Some (wp_index plan)
      else wave_for_shard rest index
  end.

(** [find_attempt]: the position of the first attempt with that id. *)
Fixpoint find_attempt (attempts : list AttemptRecord) (id : TransferAttemptId)
  : option (nat * AttemptRecord) :=
  match attempts with
  | [] => None
  | a :: rest =>
      if atr_id a =e id then Some (0%nat, a)
      else match find_attempt rest id with
           | Some (i, b) => Some (S i, b)
           | None => None
           end
  end.

(** ** Byte buckets *)

Definition release_path_reservation (id : SessionId) (e : Engine) : Engine :=
  match sessions_ e !! id with
  | None => touch_dangling e
  | Some s =>
      match ses_reserved_path s with
      | None => e
      | Some path =>
          put_session id (s <| ses_reserved_path := None |> <| ses_reserved_rate_bps := 0 |>)
            (e <| shaper_ := release_path_rate (shaper_ e) path (ses_reserved_rate_bps s) |>)
      end
  end.

Definition settle_reason (reason : ReasonCode) (detail : string) (s : SessionRecord)
  : SessionRecord :=
  s <| ses_last_reason := reason |> <| ses_last_detail := detail |>.

Definition mark_unproven_rec (bytes : Z) (s : SessionRecord) (a : AccountingSnapshot)
  : SessionRecord * AccountingSnapshot :=
  let bounded := Z.min bytes (ses_outstanding_bytes s) in
  (s <| ses_outstanding_bytes := ses_outstanding_bytes s - bounded |>
     <| ses_unproven_bytes := u64 (ses_unproven_bytes s + bounded) |>,
   a <| acc_granted_outstanding_bytes := u64 (acc_granted_outstanding_bytes a - bounded) |>
     <| acc_bytes_unproven := u64 (acc_bytes_unproven a + bounded) |>).
Definition mark_unproven (id : SessionId) (bytes : Z) (e : Engine) : Engine :=
  upd_both id (mark_unproven_rec bytes) e.
(** [mark_unproven(session, session.outstanding_bytes)] *)
Definition mark_all_unproven (id : SessionId) (e : Engine) : Engine :=
  upd_both id (fun s => mark_unproven_rec (ses_outstanding_bytes s) s) e.

Definition settle_cancelled_rec (s : SessionRecord) (a : AccountingSnapshot)
  : SessionRecord * AccountingSnapshot :=
  let remaining := ses_outstanding_bytes s in
  (s <| ses_outstanding_bytes := 0 |>
     <| ses_cancelled_bytes := u64 (ses_cancelled_bytes s + remaining) |>,
   a <| acc_granted_outstanding_bytes := u64 (acc_granted_outstanding_bytes a - remaining) |>
     <| acc_bytes_cancelled := u64 (acc_bytes_cancelled a + remaining) |>).
Definition settle_outstanding_as_cancelled (id : SessionId) (e : Engine) : Engine :=
  upd_both id settle_cancelled_rec e.

Definition release_attempt (outcome : AttemptOutcome) (a : AttemptRecord) : AttemptRecord :=
  if atr_outstanding a then a <| atr_outstanding := false |> <| atr_outcome := outcome |> else a.
Definition release_active_rec (outcome : AttemptOutcome) (s : SessionRecord)
    (a : AccountingSnapshot) : SessionRecord * AccountingSnapshot :=
  (s <| ses_attempts := map (release_attempt outcome) (ses_attempts s) |>
     <| ses_active_attempts := 0 |>,
   a <| acc_active_attempts := u32 (acc_active_attempts a - ses_active_attempts s) |>).
Definition release_active_attempts (id : SessionId) (outcome : AttemptOutcome) (e : Engine)
  : Engine := upd_both id (release_active_rec outcome) e.

(** The transferred-but-unverified remainder becomes wasted. *)
Definition waste_unverified_rec (s : SessionRecord) (a : AccountingSnapshot)
  : SessionRecord * AccountingSnapshot :=
  let unverified := if ses_transferred_bytes s >? ses_verified_bytes s
                    then ses_transferred_bytes s - ses_verified_bytes s else 0 in
  (s <| ses_transferred_bytes := ses_transferred_bytes s - unverified |>
     <| ses_wasted_bytes := u64 (ses_wasted_bytes s + unverified) |>,
   a <| acc_bytes_transferred := u64 (acc_bytes_transferred a - unverified) |>
     <| acc_bytes_wasted := u64 (acc_bytes_wasted a + unverified) |>).

(** ** Active-session bookkeeping *)

Definition workload_active (e : Engine) (workload : WorkloadId) : Z :=
  match workload_active_ e !! workload with None => 0 | Some n => n end.
Definition class_index (isolation : IsolationClass) : nat :=
  Z.to_nat (IsolationClass.value isolation).
Definition class_active (e : Engine) (isolation : IsolationClass) : Z :=
  nth (class_index isolation) (class_active_ e) 0.

(** [adjust_active(session, +1)] *)
Definition adjust_active_up (s : SessionRecord) (e : Engine) : Engine :=
  let workload := req_workload (ses_request s) in
  let k := class_index (te_isolation (ses_envelope s)) in
  let e := upd_accounting (fun a =>
             a <| acc_active_sessions := u32 (acc_active_sessions a + 1) |>) e in
  let e := e <| class_active_ := <[k := u32 (nth k (class_active_ e) 0 + 1)]> (class_active_ e) |> in
  e <| workload_active_ :=
    <[workload := u32 (workload_active e workload + 1)]> (workload_active_ e) |>.

(** [adjust_active(session, -1)] *)
Definition adjust_active_down (s : SessionRecord) (e : Engine) : Engine :=
  let workload := req_workload (ses_request s) in
  let k := class_index (te_isolation (ses_envelope s)) in
  let e := if acc_active_sessions (accounting_ e) >? 0
           then upd_accounting (fun a =>
                  a <| acc_active_sessions := acc_active_sessions a - 1 |>) e
           else e in
  let e := if nth k (class_active_ e) 0 >? 0
           then e <| class_active_ := <[k := nth k (class_active_ e) 0 - 1]> (class_active_ e) |>
           else e in
  match workload_active_ e !! workload with
  | None => e
  | Some n =>
      let n := if n >? 0 then n - 1 else n in
      if n =? 0 then e <| workload_active_ := delete workload (workload_active_ e) |>
      else e <| workload_active_ := <[workload := n]> (workload_active_ e) |>
  end.

Definition index_push {K} `{Countable K} (k : K) (id : SessionId) (m : gmap K (list SessionId))
  : gmap K (list SessionId) :=
  <[k := default [] (m !! k) ++ [id]]> m.

Definition index_session (e : Engine) (entry : SessionId * SessionRecord) : Engine :=
  e <| by_workload_ := index_push (req_workload (ses_request entry.2)) entry.1 (by_workload_ e) |>
    <| by_checkpoint_ :=
         index_push (req_checkpoint (ses_request entry.2)) entry.1 (by_checkpoint_ e) |>.
Definition rebuild_indexes (e : Engine) : Engine :=
  foldl index_session (e <| by_workload_ := ∅ |> <| by_checkpoint_ := ∅ |>)
    (map_to_list (sessions_ e)).

Definition note_terminal (id : SessionId) (e : Engine) : Engine :=
  match sessions_ e !! id with
  | None => touch_dangling e
  | Some s =>
      let e := adjust_active_down s e in
      e <| terminal_order_ := terminal_order_ e ++ [ses_id s] |>
  end.

(** ** Bounded history *)

Definition evict (id : SessionId) (s : SessionRecord) (e : Engine) : Engine :=
  let p := pruned_ e in
  e <| pruned_ := mkPruned (u64 (pr_admitted p + ses_admitted_bytes s))
                    (u64 (pr_transferred p + ses_transferred_bytes s))
                    (u64 (pr_verified p + ses_verified_bytes s))
                    (u64 (pr_cancelled p + ses_cancelled_bytes s))
                    (u64 (pr_wasted p + ses_wasted_bytes s))
                    (u64 (pr_unproven p + ses_unproven_bytes s)) |>
    <| sessions_ := delete id (sessions_ e) |>.

Definition session_count (e : Engine) : Z := Z.of_nat (size (sessions_ e)).

(** The eviction loop: the flag says whether anything was erased. *)
Fixpoint prune_loop (order : list SessionId) (target : Z) (erased_any : bool) (e : Engine)
  : bool * Engine :=
  match order with
  | [] => (erased_any, e <| terminal_order_ := [] |>)
  | id :: rest =>
      if session_count e >? target then
        match sessions_ e !! id with
        | None => prune_loop rest target erased_any e
        | Some s =>
            if negb (is_terminal (ses_state s)) then prune_loop rest target erased_any e
            else prune_loop rest target true (evict id s e)
        end
      else (erased_any, e <| terminal_order_ := order |>)
  end.

Definition prune_history (e : Engine) : Engine :=
  if session_count e <=? retention_bound_ e then e
  else
    let '(erased_any, e) :=
      prune_loop (terminal_order_ e) (retention_bound_ e * 3 / 4) false e in
    if erased_any then rebuild_indexes e else e.

(** ** Settling and progress *)

Definition wastes (state : SessionState) : bool :=
  (state =e SessionState.Superseded) || (state =e SessionState.Cancelled) ||
  (state =e SessionState.Failed).

Definition settle_terminal (id : SessionId) (state : SessionState) (reason : ReasonCode)
    (detail : string) (at_ : Nanos) (e : Engine) : Engine :=
  let e := release_active_attempts id
             (if state =e SessionState.Superseded then AttemptOutcome.Superseded
              else AttemptOutcome.Released) e in
  let e := if wastes state then upd_both id waste_unverified_rec e else e in
  let e := match sessions_ e !! id with
           | None => touch_dangling e
           | Some s => if negb (is_terminal (ses_state s)) then note_terminal id e else e
           end in
  let e := with_session id (fun s =>
             let s := settle_reason reason detail
                        (s <| ses_state := state |> <| ses_paused := false |>) in
             s <| ses_updated_at := at_ |>) e in
  let e := release_path_reservation id e in
  prune_history e.

Definition count_shards (p : ShardState -> bool) (shards : list ShardRecord) : Z :=
  Z.of_nat (length (List.filter (fun s => p (shr_state s)) shards)).
Definition shard_verified (st : ShardState) : bool := st =e ShardState.Verified.
Definition shard_settled (st : ShardState) : bool :=
  (st =e ShardState.Verified) || (st =e ShardState.Transferred).
Definition shard_unresolved (st : ShardState) : bool :=
  (st =e ShardState.InFlight) || (st =e ShardState.Granted) || (st =e ShardState.Ambiguous).

Definition all_verified (shards : list ShardRecord) : bool :=
  let total := u32 (Z.of_nat (length shards)) in
  (u32 (count_shards shard_verified shards) =? total) && (total >? 0).
Definition all_settled (shards : list ShardRecord) : bool :=
  let total := u32 (Z.of_nat (length shards)) in
  (u32 (count_shards shard_settled shards) =? total) && (total >? 0).

(** The evidence level and, outside the held states, the session state. *)
Definition progress_rec (s : SessionRecord) : SessionRecord :=
  let shards := ses_shards s in
  let s := s <| ses_evidence :=
             if all_verified shards then EvidenceLevel.VerifiedAtDestination
             else if all_settled shards then EvidenceLevel.Transferred
             else if ses_source_complete s then EvidenceLevel.SourceComplete
             else EvidenceLevel.None |> in
  if negb (is_terminal (ses_state s)) &&
     negb (ses_state s =e SessionState.RevalidationRequired) &&
     negb (ses_state s =e SessionState.Paused) &&
     negb (ses_state s =e SessionState.Deferred) then
    s <| ses_state :=
      if all_verified shards then SessionState.VerifiedAtDestination
      else if all_settled shards then SessionState.Transferred
      else if u32 (count_shards shard_unresolved shards) >? 0 then SessionState.Transferring
      else if ses_source_complete s then SessionState.SourceComplete
      else SessionState.Admitted_ |>
  else s.

Definition complete_under (p : PolicySnapshot) (shards : list ShardRecord) : bool :=
  if pol_require_destination_verification p then all_verified shards else all_settled shards.

Definition complete_rec (p : PolicySnapshot) (at_ : Nanos) (s : SessionRecord) : SessionRecord :=
  let s := settle_reason ReasonCode.Admitted_
    (if pol_require_destination_verification p then "all shards verified at destination"
     else "all shards transferred (destination verification not required by policy)")
    (s <| ses_state := SessionState.TrafficSessionComplete |>
       <| ses_evidence := if all_verified (ses_shards s) then EvidenceLevel.VerifiedAtDestination
                          else EvidenceLevel.Transferred |>) in
  s <| ses_updated_at := at_ |>.

Definition recompute_progress (id : SessionId) (at_ : Nanos) (e : Engine) : Engine :=
  let e := with_session id progress_rec e in
  match sessions_ e !! id with
  | None => touch_dangling e
  | Some s =>
      if complete_under (policy_ e) (ses_shards s) && negb (is_terminal (ses_state s)) then
        let e := with_session id (complete_rec (policy_ e) at_) e in
        let e := release_path_reservation id e in
        let e := upd_accounting (fun a =>
                   a <| acc_sessions_completed := u64 (acc_sessions_completed a + 1) |>) e in
        let e := with_session id (fun s => s <| ses_outstanding_bytes := 0 |>) e in
        let e := note_terminal id e in
        prune_history e
      else e
  end.

Definition attempt_shortfall (a : AttemptRecord) : Z :=
  if atr_granted_bytes a >? atr_delivered_bytes a
  then atr_granted_bytes a - atr_delivered_bytes a else 0.

Definition at_risk_bytes (s : SessionRecord) : Z :=
  foldl (fun acc a => if atr_outstanding a then u64 (acc + attempt_shortfall a) else acc) 0
    (ses_attempts s).

Definition release_attempts (s : SessionRecord) : SessionRecord :=
  s <| ses_attempts := map (fun a => a <| atr_outstanding := false |>) (ses_attempts s) |>
    <| ses_active_attempts := 0 |>.

(** ** Deadlines *)

(** [deadlines_[target].push_back(id)] in the ordered map. *)
Fixpoint deadline_push (target : Nanos) (id : SessionId) (dl : list (Nanos * list SessionId))
  : list (Nanos * list SessionId) :=
  match dl with
  | [] => [(target, [id])]
  | (d, ids) :: rest =>
      if target <? d then (target, [id]) :: dl
      else if target =? d then (d, ids ++ [id]) :: rest
      else (d, ids) :: deadline_push target id rest
  end.
Definition index_deadline (s : SessionRecord) (e : Engine) : Engine :=
  if te_deadline_target (ses_envelope s) >? 0
  then e <| deadlines_ := deadline_push (te_deadline_target (ses_envelope s)) (ses_id s)
                            (deadlines_ e) |>
  else e.

(** One session of the due list. *)
Definition enforce_one (deadline at_ : Nanos) (e : Engine) (id : SessionId) : Engine :=
  match sessions_ e !! id with
  | None => e
  | Some s =>
      if is_terminal (ses_state s) || negb (te_deadline_target (ses_envelope s) =? deadline) then e
      else
        let e := mark_all_unproven id e in
        let e := settle_terminal id SessionState.Failed ReasonCode.DeadlineUnreachable
                   "checkpoint deadline elapsed before completion" at_ e in
        let e := upd_accounting (fun a =>
                   a <| acc_sessions_failed := u64 (acc_sessions_failed a + 1) |>) e in
        let e := note_timeline id at_ "failed reason=DeadlineUnreachable" e in
        push_event (mkEvent EventKind.SessionDenied (ses_id s) ReasonCode.DeadlineUnreachable
                      "checkpoint deadline elapsed" at_) e
  end.

Fixpoint enforce_loop (dl : list (Nanos * list SessionId)) (at_ : Nanos) (e : Engine) : Engine :=
  match dl with
  | [] => e <| deadlines_ := [] |>
  | (deadline, due) :: rest =>
      if deadline >? at_ then e <| deadlines_ := dl |>
      else enforce_loop rest at_
             (foldl (enforce_one deadline at_) (e <| deadlines_ := rest |>) due)
  end.
Definition enforce_deadlines (at_ : Nanos) (e : Engine) : Engine :=
  enforce_loop (deadlines_ e) at_ e.

(** ** Command replay index *)

Definition fingerprint_request (r : SessionRequest) : Z :=
  let hash := foldl mix64 0xCBF29CE484222325 (uuid_raw (req_checkpoint r)) in
  let hash := mix64 hash (gen_value (req_checkpoint_generation r)) in
  let hash := foldl mix64 hash (uuid_raw (req_workload r)) in
  let hash := mix64 hash (gen_value (req_contract_generation r)) in
  let hash := mix64 hash (gen_value (req_policy_generation r)) in
  let hash := mix64 hash (gen_value (req_topology_generation r)) in
  let hash := mix64 hash (IsolationClass.value (req_requested_isolation r)) in
  let hash := mix64 hash (DestinationClass.value (req_destination r)) in
  let hash := mix64 hash (req_requested_rate_bps r) in
  let hash := mix64 hash (u64 (req_deadline_horizon_ns r)) in
  let hash := mix64 hash (mf_total_bytes (req_manifest r)) in
  let hash := mix64 hash (Z.of_nat (length (mf_shards (req_manifest r)))) in
  let manifest_digest := compute_manifest_digest (req_manifest r) in
  let hash := mix64 hash (dg_crc manifest_digest) in
  mix64 hash (dg_fnv manifest_digest).

(** [while (command_order_.size() > bound)] drop the oldest command. *)
Fixpoint trim_commands (bound : Z) (order : list CommandId) (index : gmap CommandId CommandRecord)
  : list CommandId * gmap CommandId CommandRecord :=
  match order with
  | [] => ([], index)
  | front :: rest =>
      if Z.of_nat (length order) >? bound then trim_commands bound rest (delete front index)
      else (order, index)
  end.

Definition command_bound (e : Engine) : Z := Z.max 64 (Z.min (timeline_bound e * 4) 4096).

Definition remember_command (command : CommandId) (record : CommandRecord) (e : Engine) : Engine :=
  let e := e <| command_index_bound_ := command_bound e |> in
  let e := match command_index_ e !! command with
           | Some _ => e
           | None =>
               let '(order, index) := trim_commands (command_index_bound_ e)
                                        (command_order_ e ++ [command]) (command_index_ e) in
               e <| command_order_ := order |> <| command_index_ := index |>
           end in
  e <| command_index_ := <[command := record]> (command_index_ e) |>.

Definition make_decision (e : Engine) (kind : DecisionKind) (reason : ReasonCode) (detail : string)
    (session : SessionId) (at_ : Nanos) : AdmissionDecision :=
  mkDecision kind reason detail session None [] None (epoch_ e) at_.

(** ** Envelopes and rates *)

Definition WavePlan_default : WavePlan := mkWavePlan (mkScalar 0) [] 0.

(** The wave loop of [build_envelope], with the waves emitted so far, the open
    plan and its shard count. *)
Fixpoint wave_loop (shards : list ShardDescriptor) (wave_width : Z) (waves : list WavePlan)
    (plan : WavePlan) (in_wave : Z) : list WavePlan :=
  match shards with
  | [] => if Nat.eqb (length (wp_shards plan)) 0 then waves else waves ++ [plan]
  | shard :: rest =>
      let '(waves, plan, in_wave) :=
        if in_wave =? wave_width then
          let next := WavePlan_default in
          (waves ++ [plan],
           next <| wp_index := mkScalar (u32 (sc_value (wp_index next) + 1)) |>, 0)
        else (waves, plan, in_wave) in
      let plan := plan <| wp_shards := wp_shards plan ++ [sd_index shard] |>
                       <| wp_planned_bytes := u64 (wp_planned_bytes plan + sd_declared_bytes shard) |> in
      wave_loop rest wave_width waves plan (u32 (in_wave + 1))
  end.

Definition build_envelope (request : SessionRequest) (session : SessionId)
    (isolation : IsolationClass) (path : PathClassId) (rate_bps burst_bytes wave_width : Z)
    (now deadline_target : Nanos) (envelope_sequence : Z) : TrafficEnvelope :=
  mkEnvelope session (mkGen envelope_sequence) isolation rate_bps burst_bytes wave_width
    (wave_loop (mf_shards (req_manifest request)) wave_width [] WavePlan_default 0)
    (Some path) now deadline_target.

Definition ceil_rate (bytes : Z) (horizon_ns : Nanos) : Z :=
  if horizon_ns <=? 0 then UINT64_MAX
  else
    let horizon := horizon_ns in
    let whole := bytes / horizon in
    let remainder := bytes mod horizon in
    let rate := u64 (whole * kNanosPerSecond) in
    u64 (rate + u64 (u64 (u64 (remainder * kNanosPerSecond) + horizon) - 1) / horizon).

Record RatePlan := mkRatePlan {
  rp_ok : bool;
  rp_rate_bps : Z;
  rp_reason : ReasonCode;
  rp_detail : string;
  rp_retry_after : option Nanos
}.
Definition rate_refused (reason : ReasonCode) (detail : string) (retry_after : option Nanos)
  : RatePlan := mkRatePlan false 0 reason detail retry_after.

Definition request_horizon (request : SessionRequest) (contract : WorkloadContract) : Nanos :=
  if req_deadline_horizon_ns request >? 0 then req_deadline_horizon_ns request
  else wc_deadline_budget_ns contract.

Definition plan_rate (request : SessionRequest) (contract : WorkloadContract)
    (envelope : IsolationEnvelopeConfig) (path : PathClass) (now : Nanos) (e : Engine) : RatePlan :=
  let class_ceiling := iec_ceiling_bps envelope in
  let workload_ceiling := wc_ceiling_bps contract in
  let hard_ceiling := Z.min class_ceiling workload_ceiling in
  let path_reserved := reserved_path_rate (shaper_ e) (pc_id path) in
  let path_headroom := if pc_capacity_bps path >? path_reserved
                       then pc_capacity_bps path - path_reserved else 0 in
  let requested := if req_requested_rate_bps request =? 0 then hard_ceiling
                   else req_requested_rate_bps request in
  let retry_after := Some (s64 (now + pol_defer_horizon_ns (policy_ e))) in
  if requested >? class_ceiling then
    rate_refused ReasonCode.RequestedRateUnsupported
      "requested rate exceeds the isolation-class ceiling" None
  else if requested >? workload_ceiling then
    rate_refused ReasonCode.RequestedRateUnsupported
      "requested rate exceeds the workload-contract ceiling" None
  else
    let horizon := request_horizon request contract in
    let required := ceil_rate (mf_total_bytes (req_manifest request)) horizon in
    if required >? class_ceiling then
      rate_refused ReasonCode.DeadlineUnreachable
        "deadline cannot be met even at the isolation-class ceiling" None
    else
      let rate := Z.min (Z.max requested required) hard_ceiling in
      if rate >? path_headroom then
        rate_refused ReasonCode.PathCapacityUnavailable
          "path class has no unreserved capacity for this session" retry_after
      else if rate =? 0 then
        rate_refused ReasonCode.CreditUnavailable
          "no rate can be granted under current obligations" retry_after
      else mkRatePlan true rate ReasonCode.Admitted_ "" None.

(** ** Supersession and fence checks *)

Definition apply_supersession (target by_ : SessionId) (at_ : Nanos) (e : Engine)
  : Engine :=
  let e := mark_all_unproven target e in
  let e := settle_terminal target SessionState.Superseded ReasonCode.SupersededByNewerGeneration
             ("superseded by checkpoint generation of session " +:+ id_to_string by_)%string at_ e in
  let e := with_session target (fun s => s <| ses_superseded_by := Some by_ |>) e in
  let e := upd_accounting (fun a =>
             a <| acc_sessions_superseded := u64 (acc_sessions_superseded a + 1) |>) e in
  let e := note_timeline target at_ ("superseded by=" +:+ id_to_string by_)%string e in
  push_event (mkEvent EventKind.SessionSuperseded target ReasonCode.SupersededByNewerGeneration
                (id_to_string by_) at_) e.

Definition fabric_context (e : Engine) (contract_generation : WorkloadContractGeneration)
  : FenceContext :=
  mkFenceContext (epoch_ e) (pol_generation (policy_ e)) (topo_generation (topology_ e))
    contract_generation.

Definition check_fence_status (f : CommandFence) (e : Engine) : Status :=
  fv_status (validate_fence f (fabric_context e (cf_contract_generation f))).

Definition validate_workload_fence (s : SessionRecord) (f : CommandFence) (e : Engine) : Status :=
  match contracts_ e !! req_workload (ses_request s) with
  | None => Status_error ErrorCode.StaleContractGeneration
              "workload contract is no longer configured"
  | Some contract =>
      if negb (gen_eqb (cf_contract_generation f) (wc_generation contract)) then
        Status_error (if gen_ltb (cf_contract_generation f) (wc_generation contract)
                      then ErrorCode.StaleContractGeneration else ErrorCode.NotAuthorized)
          "command contract generation is not the active contract generation"
      else Status_success
  end.

Definition validate_checkpoint_generation (s : SessionRecord) (f : CommandFence) : Status :=
  match cf_checkpoint_generation f with
  | None => Status_success
  | Some g =>
      if negb (gen_eqb g (req_checkpoint_generation (ses_request s))) then
        Status_error ErrorCode.StaleCheckpointGeneration
          "command carries a checkpoint generation other than the session's"
      else Status_success
  end.
