(* ===== verification/EngineTable.v ===== *)
(** * EngineTable: what the helpers do to the session table

    Frame lemmas for the lock-held helpers of [EngineState].  Every helper
    touches at most the session it is given and otherwise only evicts, so the
    table after a call is a submap of the table before it with that one entry
    replaced.  [evolves R] lifts this to a relation between whole engines. *)

From stdpp Require Import base gmap list strings relations.
From S2P Require Import Prelude Status Ids Hash Enums Model Fence Shaper EngineState.

(** ** Exact tables of the reference helpers *)

Lemma with_session_table id f e s :
  sessions_ e !! id = Some s -> sessions_ (with_session id f e) = <[id := f s]> (sessions_ e).
Proof. intros H. unfold with_session. by rewrite H. Qed.

Lemma upd_both_table id f e s :
  sessions_ e !! id = Some s ->
  sessions_ (upd_both id f e) = <[id := (f s (accounting_ e)).1]> (sessions_ e).
Proof. intros H. unfold upd_both. rewrite H. by destruct (f s (accounting_ e)). Qed.

Lemma push_event_table ev e : sessions_ (push_event ev e) = sessions_ e.
Proof. unfold push_event. by destruct (events_ e). Qed.
Lemma adjust_active_down_table s e : sessions_ (adjust_active_down s e) = sessions_ e.
Proof.
  unfold adjust_active_down. destruct (acc_active_sessions _ >? 0), (nth _ _ _ >? 0);
    (destruct (workload_active_ _ !! _); [destruct (_ =? 0)|]); reflexivity.
Qed.
Lemma note_terminal_table id e : sessions_ (note_terminal id e) = sessions_ e.
Proof.
  unfold note_terminal. destruct (sessions_ e !! id); [|done]. cbn. apply adjust_active_down_table.
Qed.
Lemma index_deadline_table s e : sessions_ (index_deadline s e) = sessions_ e.
Proof. unfold index_deadline. by destruct (_ >? _). Qed.
Lemma remember_command_table c r e : sessions_ (remember_command c r e) = sessions_ e.
Proof.
  unfold remember_command. destruct (command_index_ _ !! c); [done|].
  by destruct (trim_commands _ _ _).
Qed.
Lemma rebuild_indexes_table e : sessions_ (rebuild_indexes e) = sessions_ e.
Proof.
  unfold rebuild_indexes.
  assert (forall l e', sessions_ (foldl index_session e' l) = sessions_ e') as H.
  { induction l as [|x l IH]; intros e'; [done|]. cbn. by rewrite IH. }
  by rewrite H.
Qed.

(** ** Eviction *)

Lemma prune_loop_table order target flag e :
  sessions_ (prune_loop order target flag e).2 ⊆ sessions_ e.
Proof.
  revert flag e; induction order as [|id rest IH]; intros flag e; cbn; [done|].
  destruct (_ >? _); [|done]. destruct (sessions_ e !! id) as [s|]; [|apply IH].
  destruct (negb _); [apply IH|]. etrans; [apply IH|]. apply delete_subseteq.
Qed.
Lemma prune_history_table e : sessions_ (prune_history e) ⊆ sessions_ e.
Proof.
  unfold prune_history. destruct (_ <=? _); [done|].
  pose proof (prune_loop_table (terminal_order_ e) (retention_bound_ e * 3 / 4) false e).
  destruct (prune_loop _ _ _ _) as [[] e']; [|done]. by rewrite rebuild_indexes_table.
Qed.

(** ** Explicit results of the settling helpers *)

Definition unreserved (s : SessionRecord) : SessionRecord :=
  match ses_reserved_path s with
  | None => s
  | Some _ => s <| ses_reserved_path := None |> <| ses_reserved_rate_bps := 0 |>
  end.

Lemma release_path_table id e s :
  sessions_ e !! id = Some s ->
  sessions_ (release_path_reservation id e) = <[id := unreserved s]> (sessions_ e).
Proof.
  intros H. unfold release_path_reservation, unreserved. rewrite H.
  destruct (ses_reserved_path s); [done|]. by rewrite insert_id.
Qed.

(** The record [settle_terminal] leaves behind. *)
Definition settled (state : SessionState) (reason : ReasonCode) (detail : string) (at_ : Nanos)
    (s : SessionRecord) : SessionRecord :=
  let s := (release_active_rec (if state =e SessionState.Superseded then AttemptOutcome.Superseded
                                else AttemptOutcome.Released) s AccountingSnapshot_default).1 in
  let s := if wastes state then (waste_unverified_rec s AccountingSnapshot_default).1 else s in
  let s := settle_reason reason detail (s <| ses_state := state |> <| ses_paused := false |>) in
  unreserved (s <| ses_updated_at := at_ |>).

Lemma settle_terminal_table id state reason detail at_ e s :
  sessions_ e !! id = Some s ->
  sessions_ (settle_terminal id state reason detail at_ e) ⊆
    <[id := settled state reason detail at_ s]> (sessions_ e).
Proof.
  intros H. unfold settle_terminal.
  set (e1 := release_active_attempts _ _ _).
  assert (sessions_ e1 = <[id := (release_active_rec (if state =e SessionState.Superseded
            then AttemptOutcome.Superseded else AttemptOutcome.Released) s
            AccountingSnapshot_default).1]> (sessions_ e)) as H1
    by exact (upd_both_table id _ e s H).
  set (s1 := (release_active_rec _ _ _).1) in H1.
  set (e2 := if wastes state then _ else _).
  assert (exists s2, s2 = (if wastes state then (waste_unverified_rec s1
            AccountingSnapshot_default).1 else s1) /\
          sessions_ e2 = <[id := s2]> (sessions_ e)) as (s2 & Es2 & H2).
  { eexists; split; [reflexivity|]. subst e2. destruct (wastes state); [|done].
    rewrite (upd_both_table id _ e1 s1) by (rewrite H1; apply lookup_insert_eq).
    by rewrite H1, insert_insert_eq. }
  rewrite H2, lookup_insert_eq.
  set (e3 := if negb _ then _ else _).
  assert (sessions_ e3 = <[id := s2]> (sessions_ e)) as H3.
  { subst e3. destruct (negb _); [|done]. by rewrite note_terminal_table. }
  etrans; [apply prune_history_table|].
  erewrite release_path_table.
  2: { erewrite with_session_table; [apply lookup_insert_eq|]. rewrite H3. apply lookup_insert_eq. }
  erewrite with_session_table by (rewrite H3; apply lookup_insert_eq).
  rewrite H3, !insert_insert_eq. apply reflexive_eq. f_equal.
  rewrite Es2. unfold settled. fold s1. reflexivity.
Qed.

(** The record [recompute_progress] leaves behind. *)
Definition progressed (p : PolicySnapshot) (at_ : Nanos) (s : SessionRecord) : SessionRecord :=
  let s := progress_rec s in
  if complete_under p (ses_shards s) && negb (is_terminal (ses_state s))
  then (unreserved (complete_rec p at_ s)) <| ses_outstanding_bytes := 0 |>
  else s.

Lemma recompute_progress_table id at_ e s :
  sessions_ e !! id = Some s ->
  sessions_ (recompute_progress id at_ e) ⊆
    <[id := progressed (policy_ e) at_ s]> (sessions_ e).
Proof.
  intros H. unfold recompute_progress, progressed.
  assert (policy_ (with_session id progress_rec e) = policy_ e) as ->
    by (unfold with_session; by rewrite H).
  set (e1 := with_session _ _ _).
  assert (sessions_ e1 = <[id := progress_rec s]> (sessions_ e)) as H1
    by (apply with_session_table; done).
  rewrite H1, lookup_insert_eq. destruct (complete_under _ _ && _); [|by rewrite H1].
  etrans; [apply prune_history_table|]. rewrite note_terminal_table.
  erewrite with_session_table.
  2: { unfold upd_accounting; cbn. erewrite release_path_table; [apply lookup_insert_eq|].
       erewrite with_session_table; [apply lookup_insert_eq|]. rewrite H1. apply lookup_insert_eq. }
  unfold upd_accounting; cbn. erewrite release_path_table.
  2: { erewrite with_session_table; [apply lookup_insert_eq|]. rewrite H1. apply lookup_insert_eq. }
  erewrite with_session_table by (rewrite H1; apply lookup_insert_eq).
  by rewrite H1, !insert_insert_eq.
Qed.

(** ** Relational frames *)

Section evolves.
Context (R : SessionRecord -> SessionRecord -> Prop).

(** Every session of [e'] comes from the session of [e] with its id. *)
Definition evolves (e e' : Engine) : Prop :=
  forall id s', sessions_ e' !! id = Some s' -> exists s, sessions_ e !! id = Some s /\ R s s'.

Context `{!PreOrder R}.

Lemma evolves_sub e e' : sessions_ e' ⊆ sessions_ e -> evolves e e'.
Proof. intros H id s' Hs. exists s'. split; [|done]. by eapply lookup_weaken. Qed.
Lemma evolves_eq e e' : sessions_ e' = sessions_ e -> evolves e e'.
Proof. intros H. apply evolves_sub. by rewrite H. Qed.
Lemma evolves_refl e : evolves e e.
Proof. by apply evolves_sub. Qed.
Lemma evolves_trans e1 e2 e3 : evolves e1 e2 -> evolves e2 e3 -> evolves e1 e3.
Proof.
  intros H12 H23 id s3 H3. destruct (H23 id s3 H3) as (s2 & H2 & ?).
  destruct (H12 id s2 H2) as (s1 & ? & ?). exists s1. split; [done|]. by trans s2.
Qed.

Lemma evolves_at e e' id s s' :
  sessions_ e !! id = Some s -> R s s' -> sessions_ e' ⊆ <[id := s']> (sessions_ e) ->
  evolves e e'.
Proof.
  intros Hs HR Hsub k v Hk. eapply lookup_weaken in Hk; [|exact Hsub].
  apply lookup_insert_Some in Hk as [[<- <-]|[_ Hk]]; [by exists s|]. by exists v.
Qed.

Lemma evolves_with_session id f e :
  (forall s, sessions_ e !! id = Some s -> R s (f s)) -> evolves e (with_session id f e).
Proof.
  intros Hf. destruct (sessions_ e !! id) as [s|] eqn:Hs.
  - eapply evolves_at; [done|by apply Hf|]. by erewrite with_session_table.
  - apply evolves_eq. unfold with_session. by rewrite Hs.
Qed.
Lemma evolves_upd_both id f e :
  (forall s, sessions_ e !! id = Some s -> R s (f s (accounting_ e)).1) ->
  evolves e (upd_both id f e).
Proof.
  intros Hf. destruct (sessions_ e !! id) as [s|] eqn:Hs.
  - eapply evolves_at; [done|by apply Hf|]. by erewrite upd_both_table.
  - apply evolves_eq. unfold upd_both. by rewrite Hs.
Qed.
Lemma evolves_settle_terminal id state reason detail at_ e :
  (forall s, sessions_ e !! id = Some s -> R s (settled state reason detail at_ s)) ->
  evolves e (settle_terminal id state reason detail at_ e).
Proof.
  intros Hf. destruct (sessions_ e !! id) as [s|] eqn:Hs.
  - eapply evolves_at; [done|by apply Hf|]. by apply settle_terminal_table.
  - apply evolves_sub. unfold settle_terminal. etrans; [apply prune_history_table|].
    unfold release_active_attempts, upd_both, with_session, release_path_reservation. rewrite Hs.
    destruct (wastes state); cbn; repeat (rewrite Hs; cbn); done.
Qed.
Lemma evolves_recompute id at_ e :
  (forall s, sessions_ e !! id = Some s -> R s (progressed (policy_ e) at_ s)) ->
  evolves e (recompute_progress id at_ e).
Proof.
  intros Hf. destruct (sessions_ e !! id) as [s|] eqn:Hs.
  - eapply evolves_at; [done|by apply Hf|]. by apply recompute_progress_table.
  - apply evolves_eq. unfold recompute_progress, with_session. rewrite Hs. cbn. by rewrite Hs.
Qed.

Lemma evolves_foldl {B} (f : Engine -> B -> Engine) l e :
  (forall e b, evolves e (f e b)) -> evolves e (foldl f e l).
Proof.
  intros Hf. revert e; induction l as [|b l IH]; intros e; cbn; [apply evolves_refl|].
  eapply evolves_trans; [apply Hf|apply IH].
Qed.
End evolves.

(** An invariant of every session is carried along a relation that keeps it. *)
Definition all_sessions (P : SessionRecord -> Prop) (e : Engine) : Prop :=
  forall id s, sessions_ e !! id = Some s -> P s.
Lemma evolves_all (R : SessionRecord -> SessionRecord -> Prop) (P : SessionRecord -> Prop) e e' :
  (forall s s', R s s' -> P s -> P s') -> evolves R e e' -> all_sessions P e -> all_sessions P e'.
Proof. intros HR He HP id s' Hs'. destruct (He id s' Hs') as (s & Hs & HRs). eauto. Qed.
Lemma evolves_mono (R R' : SessionRecord -> SessionRecord -> Prop) e e' :
  (forall s s', R s s' -> R' s s') -> evolves R e e' -> evolves R' e e'.
Proof. intros HR He id s' Hs'. destruct (He id s' Hs') as (s & Hs & HRs). eauto. Qed.

(** ** What the helpers leave alone

    [authority] collects the parts of the engine no lock-held helper writes:
    the configuration, the epoch, the identity factory, the replay index and
    the bytes-admitted counter. *)

Definition authority (e : Engine) :=
  (limits_ e, policy_ e, topology_ e, contracts_ e, epoch_ e, id_factory_ e, shutting_down_ e,
   (command_index_ e, command_order_ e), acc_bytes_admitted (accounting_ e)).

Lemma authority_with_session id f e : authority (with_session id f e) = authority e.
Proof. unfold with_session. by destruct (sessions_ e !! id). Qed.
Lemma authority_note id at_ text e : authority (note_timeline id at_ text e) = authority e.
Proof. apply authority_with_session. Qed.
Lemma authority_push_event ev e : authority (push_event ev e) = authority e.
Proof. unfold push_event. by destruct (events_ e). Qed.
Lemma authority_upd_both id f e :
  (forall s a, acc_bytes_admitted (f s a).2 = acc_bytes_admitted a) ->
  authority (upd_both id f e) = authority e.
Proof.
  intros Hf. unfold upd_both. destruct (sessions_ e !! id) as [s|]; [|done].
  specialize (Hf s (accounting_ e)). destruct (f s (accounting_ e)) as [s' a'].
  unfold authority; cbn in *. by rewrite Hf.
Qed.
Lemma authority_upd_accounting f e :
  (forall a, acc_bytes_admitted (f a) = acc_bytes_admitted a) ->
  authority (upd_accounting f e) = authority e.
Proof. intros Hf. unfold authority. cbn. by rewrite Hf. Qed.
Lemma authority_release_path id e : authority (release_path_reservation id e) = authority e.
Proof.
  unfold release_path_reservation. destruct (sessions_ e !! id) as [s|]; [|done].
  by destruct (ses_reserved_path s).
Qed.
Lemma authority_adjust_down s e : authority (adjust_active_down s e) = authority e.
Proof.
  unfold adjust_active_down. destruct (acc_active_sessions _ >? 0), (nth _ _ _ >? 0);
    (destruct (workload_active_ _ !! _); [destruct (_ =? 0)|]); reflexivity.
Qed.
Lemma authority_note_terminal id e : authority (note_terminal id e) = authority e.
Proof.
  unfold note_terminal. destruct (sessions_ e !! id) as [s|]; [|done].
  exact (authority_adjust_down s e).
Qed.
Lemma authority_prune_loop order target flag e :
  authority (prune_loop order target flag e).2 = authority e.
Proof.
  revert flag e; induction order as [|id rest IH]; intros flag e; cbn; [done|].
  destruct (_ >? _); [|done]. destruct (sessions_ e !! id) as [s|]; [|apply IH].
  destruct (negb _); [apply IH|]. by rewrite IH.
Qed.
Lemma authority_rebuild e : authority (rebuild_indexes e) = authority e.
Proof.
  unfold rebuild_indexes.
  assert (forall l e', authority (foldl index_session e' l) = authority e') as H.
  { induction l as [|x l IH]; intros e'; [done|]. cbn. by rewrite IH. }
  by rewrite H.
Qed.
Lemma authority_prune e : authority (prune_history e) = authority e.
Proof.
  unfold prune_history. destruct (_ <=? _); [done|].
  pose proof (authority_prune_loop (terminal_order_ e) (retention_bound_ e * 3 / 4) false e).
  destruct (prune_loop _ _ _ _) as [[] e']; [|done]. by rewrite authority_rebuild.
Qed.
Lemma authority_touch e : authority (touch_dangling e) = authority e.
Proof. done. Qed.
#[export] Hint Rewrite authority_touch authority_with_session authority_note authority_push_event
  authority_release_path authority_note_terminal authority_prune : authority.

Lemma authority_settle_terminal id state reason detail at_ e :
  authority (settle_terminal id state reason detail at_ e) = authority e.
Proof.
  unfold settle_terminal. autorewrite with authority.
  set (e1 := release_active_attempts _ _ _).
  assert (authority e1 = authority e) as <- by (by apply authority_upd_both).
  set (e2 := if wastes state then _ else _).
  assert (authority e2 = authority e1) as <-
    by (subst e2; destruct (wastes state); [by apply authority_upd_both|done]).
  destruct (sessions_ e2 !! id); [|done]. destruct (negb _); by autorewrite with authority.
Qed.
Lemma authority_recompute id at_ e : authority (recompute_progress id at_ e) = authority e.
Proof.
  unfold recompute_progress. destruct (sessions_ _ !! id); [|by autorewrite with authority].
  destruct (_ && _); autorewrite with authority; [|done].
  rewrite authority_upd_accounting by done. by autorewrite with authority.
Qed.
Lemma authority_mark_unproven id e : authority (mark_all_unproven id e) = authority e.
Proof. by apply authority_upd_both. Qed.
#[export] Hint Rewrite authority_settle_terminal authority_recompute authority_mark_unproven
  : authority.

Lemma authority_enforce_one deadline at_ e id : authority (enforce_one deadline at_ e id) = authority e.
Proof.
  unfold enforce_one. destruct (sessions_ e !! id) as [s|]; [|done]. destruct (_ || _); [done|].
  autorewrite with authority. rewrite authority_upd_accounting by done.
  by autorewrite with authority.
Qed.
Lemma authority_enforce_deadlines at_ e : authority (enforce_deadlines at_ e) = authority e.
Proof.
  unfold enforce_deadlines. generalize (deadlines_ e) as dl. intros dl. revert e.
  induction dl as [|[d due] rest IH]; intros e; cbn; [done|]. destruct (d >? at_); [done|].
  rewrite IH. apply (foldl_inv (fun x => authority x = authority e)); [done|].
  intros a id _ Ha. by rewrite authority_enforce_one.
Qed.
#[export] Hint Rewrite authority_enforce_deadlines : authority.

Lemma enforce_deadlines_evolves R `{!PreOrder R} at_ e :
  (forall id deadline e', evolves R e' (enforce_one deadline at_ e' id)) ->
  evolves R e (enforce_deadlines at_ e).
Proof.
  intros H1. unfold enforce_deadlines. generalize (deadlines_ e) as dl. intros dl. revert e.
  induction dl as [|[d due] rest IH]; intros e; cbn; [by apply evolves_eq|].
  destruct (d >? at_); [by apply evolves_eq|].
  eapply evolves_trans; [done| |apply IH].
  eapply evolves_trans; [done| |apply evolves_foldl; [done|intros; apply H1]].
  by apply evolves_eq.
Qed.

(** ** Chaining frames backwards through a handler *)

Section chain.
Context (R : SessionRecord -> SessionRecord -> Prop) `{!PreOrder R}.

Lemma chain_eq e x y : evolves R e x -> sessions_ y = sessions_ x -> evolves R e y.
Proof. intros H Hy id s'. rewrite Hy. apply H. Qed.
Lemma chain_with_session id f e x :
  evolves R e x -> (forall s, sessions_ x !! id = Some s -> R s (f s)) ->
  evolves R e (with_session id f x).
Proof. intros H Hf. eapply evolves_trans; [done|exact H|]. by apply evolves_with_session. Qed.
Lemma chain_upd_both id f e x :
  evolves R e x -> (forall s a, sessions_ x !! id = Some s -> R s (f s a).1) ->
  evolves R e (upd_both id f x).
Proof.
  intros H Hf. eapply evolves_trans; [done|exact H|]. apply evolves_upd_both; [done|].
  intros s Hs. by apply Hf.
Qed.
Lemma chain_settle id state reason detail at_ e x :
  evolves R e x ->
  (forall s, sessions_ x !! id = Some s -> R s (settled state reason detail at_ s)) ->
  evolves R e (settle_terminal id state reason detail at_ x).
Proof. intros H Hf. eapply evolves_trans; [done|exact H|]. by apply evolves_settle_terminal. Qed.
Lemma chain_recompute id at_ e x :
  evolves R e x ->
  (forall s, sessions_ x !! id = Some s -> R s (progressed (policy_ x) at_ s)) ->
  evolves R e (recompute_progress id at_ x).
Proof. intros H Hf. eapply evolves_trans; [done|exact H|]. by apply evolves_recompute. Qed.
Lemma chain_push ev e x : evolves R e x -> evolves R e (push_event ev x).
Proof. intros H. eapply chain_eq; [exact H|]. apply push_event_table. Qed.
Lemma chain_accounting f e x : evolves R e x -> evolves R e (upd_accounting f x).
Proof. intros H. by eapply chain_eq. Qed.
Lemma chain_touch e x : evolves R e x -> evolves R e (touch_dangling x).
Proof. intros H. by eapply chain_eq. Qed.
Lemma chain_remember c r e x : evolves R e x -> evolves R e (remember_command c r x).
Proof. intros H. eapply chain_eq; [exact H|]. apply remember_command_table. Qed.
Lemma chain_index s e x : evolves R e x -> evolves R e (index_deadline s x).
Proof. intros H. eapply chain_eq; [exact H|]. apply index_deadline_table. Qed.
End chain.

(** Lookups after an update through a reference. *)
Lemma with_session_lookup id f e s :
  sessions_ e !! id = Some s -> sessions_ (with_session id f e) !! id = Some (f s).
Proof. intros H. rewrite (with_session_table _ _ _ _ H). apply lookup_insert_eq. Qed.
Lemma with_session_none id f e :
  sessions_ e !! id = None -> sessions_ (with_session id f e) = sessions_ e.
Proof. intros H. unfold with_session. by rewrite H. Qed.
Lemma upd_both_lookup id f e s :
  sessions_ e !! id = Some s -> sessions_ (upd_both id f e) !! id = Some (f s (accounting_ e)).1.
Proof. intros H. rewrite (upd_both_table _ _ _ _ H). apply lookup_insert_eq. Qed.

(** ** The secondary indexes

    [by_workload_] and [by_checkpoint_] list, without repetition, exactly the
    live sessions with that key.  [keys] is what the invariant reads. *)

Definition requests (e : Engine) : gmap SessionId SessionRequest := ses_request <$> sessions_ e.

Definition index_ok {K} `{Countable K} (key : SessionRequest -> K)
    (idx : gmap K (list SessionId)) (m : gmap SessionId SessionRequest) : Prop :=
  forall k, NoDup (default [] (idx !! k)) /\
            forall id, id ∈ default [] (idx !! k) <-> exists r, m !! id = Some r /\ key r = k.

Definition keys (e : Engine) := (by_workload_ e, by_checkpoint_ e, requests e).
Definition idx_ok_k (k : gmap WorkloadId (list SessionId) * gmap CheckpointId (list SessionId) *
                         gmap SessionId SessionRequest) : Prop :=
  index_ok req_workload k.1.1 k.2 /\ index_ok req_checkpoint k.1.2 k.2.
Definition idx_ok (e : Engine) : Prop := idx_ok_k (keys e).

Lemma requests_insert id s s' (m : gmap SessionId SessionRecord) :
  m !! id = Some s -> ses_request s' = ses_request s ->
  ses_request <$> <[id := s']> m = ses_request <$> m.
Proof.
  intros Hs Hr. rewrite fmap_insert, Hr. apply insert_id. by rewrite lookup_fmap, Hs.
Qed.

Lemma keys_with_session id f e :
  (forall s, ses_request (f s) = ses_request s) -> keys (with_session id f e) = keys e.
Proof.
  intros Hf. unfold with_session. destruct (sessions_ e !! id) as [s|] eqn:Hs; [|done].
  unfold keys, requests. cbn. by rewrite (requests_insert id s).
Qed.
Lemma keys_upd_both id f e :
  (forall s a, ses_request (f s a).1 = ses_request s) -> keys (upd_both id f e) = keys e.
Proof.
  intros Hf. unfold upd_both. destruct (sessions_ e !! id) as [s|] eqn:Hs; [|done].
  specialize (Hf s (accounting_ e)). destruct (f s (accounting_ e)) as [s' a'].
  unfold keys, requests. cbn in *. by rewrite (requests_insert id s).
Qed.
Lemma keys_push_event ev e : keys (push_event ev e) = keys e.
Proof. unfold push_event. by destruct (events_ e). Qed.
Lemma keys_release_path id e : keys (release_path_reservation id e) = keys e.
Proof.
  unfold release_path_reservation. destruct (sessions_ e !! id) as [s|] eqn:Hs; [|done].
  destruct (ses_reserved_path s); [|done]. unfold keys, requests. cbn.
  by rewrite (requests_insert id s).
Qed.
Lemma keys_adjust_down s e : keys (adjust_active_down s e) = keys e.
Proof.
  unfold adjust_active_down. destruct (acc_active_sessions _ >? 0), (nth _ _ _ >? 0);
    (destruct (workload_active_ _ !! _); [destruct (_ =? 0)|]); reflexivity.
Qed.
Lemma keys_note_terminal id e : keys (note_terminal id e) = keys e.
Proof.
  unfold note_terminal. destruct (sessions_ e !! id) as [s|]; [|done].
  exact (keys_adjust_down s e).
Qed.
Lemma keys_note id at_ text e : keys (note_timeline id at_ text e) = keys e.
Proof. by apply keys_with_session. Qed.
Lemma keys_index_deadline s e : keys (index_deadline s e) = keys e.
Proof. unfold index_deadline. by destruct (_ >? _). Qed.
Lemma keys_remember c r e : keys (remember_command c r e) = keys e.
Proof.
  unfold remember_command. destruct (command_index_ _ !! c); [done|].
  by destruct (trim_commands _ _ _).
Qed.
#[export] Hint Rewrite keys_push_event keys_release_path keys_note_terminal keys_note
  keys_index_deadline keys_remember : keys.

(** Adding one entry to an index. *)
Lemma index_push_lookup {K} `{Countable K} (k k' : K) id (idx : gmap K (list SessionId)) :
  default [] (index_push k id idx !! k') =
  if bool_decide (k' = k) then default [] (idx !! k) ++ [id] else default [] (idx !! k').
Proof.
  unfold index_push. case_bool_decide as E; [subst; by rewrite lookup_insert_eq|].
  by rewrite lookup_insert_ne.
Qed.
Lemma index_push_ok {K} `{Countable K} (key : SessionRequest -> K) idx m id r :
  index_ok key idx m -> m !! id = None ->
  index_ok key (index_push (key r) id idx) (<[id := r]> m).
Proof.
  intros Hi Hid k. rewrite index_push_lookup. destruct (Hi k) as [Hnd Hel].
  assert (id ∉ default [] (idx !! k)) as Hni.
  { rewrite Hel. intros (x & Hx & _). congruence. }
  case_bool_decide as E; [subst k|].
  - split; [apply NoDup_app; split_and!; [done|set_solver|apply NoDup_singleton]|].
    intros i. rewrite elem_of_app, Hel, list_elem_of_singleton. split.
    + intros [(x & Hx & Hk)| ->]; [|exists r; by rewrite lookup_insert_eq].
      exists x. rewrite lookup_insert_ne; [done|]. congruence.
    + intros (x & [[<- <-]|[? Hx]]%lookup_insert_Some & Hk); eauto.
  - split; [done|]. intros i. rewrite Hel. split.
    + intros (x & Hx & Hk). exists x. rewrite lookup_insert_ne; [done|]. congruence.
    + intros (x & [[<- <-]|[? Hx]]%lookup_insert_Some & Hk); [congruence|eauto].
Qed.

(** Rebuilding from the table establishes the invariant. *)
Lemma index_foldl_ok l e m :
  NoDup l.*1 -> (forall id s, (id, s) ∈ l -> m !! id = None) ->
  index_ok req_workload (by_workload_ e) m -> index_ok req_checkpoint (by_checkpoint_ e) m ->
  let e' := foldl index_session e l in
  let m' := foldl (fun m x => <[x.1 := ses_request x.2]> m) m l in
  index_ok req_workload (by_workload_ e') m' /\ index_ok req_checkpoint (by_checkpoint_ e') m'.
Proof.
  revert e m; induction l as [|[id s] l IH]; intros e m Hnd Hm Hw Hc; [done|].
  apply NoDup_cons in Hnd as [Hni Hnd]. cbn. apply IH; [done| |..].
  - intros i x Hx. rewrite lookup_insert_ne; [apply (Hm i x); set_solver|].
    intros <-. apply Hni. apply list_elem_of_fmap. by exists (id, x).
  - apply (index_push_ok req_workload); [done|]. apply (Hm id s). set_solver.
  - apply (index_push_ok req_checkpoint); [done|]. apply (Hm id s). set_solver.
Qed.

Lemma index_ok_empty {K} `{Countable K} (key : SessionRequest -> K) : index_ok key ∅ ∅.
Proof.
  intros k. rewrite lookup_empty. split; [apply NoDup_nil_2|]. intros id. cbn.
  split; [set_solver|]. intros (r & Hr & _). by rewrite lookup_empty in Hr.
Qed.

Lemma requests_foldl l (m : gmap SessionId SessionRecord) :
  ses_request <$> foldl (fun m x => <[x.1 := x.2]> m) m l =
  foldl (fun m x => <[x.1 := ses_request x.2]> m) (ses_request <$> m) l.
Proof. revert m; induction l as [|x l IH]; intros m; [done|]. cbn. by rewrite IH, fmap_insert. Qed.
Lemma foldl_insert_map_to_list (m : gmap SessionId SessionRecord) :
  foldl (fun m x => <[x.1 := x.2]> m) ∅ (map_to_list m) = m.
Proof.
  rewrite <-(list_to_map_to_list m) at 2.
  assert (forall l (m : gmap SessionId SessionRecord), NoDup l.*1 ->
    (forall i, i ∈ l.*1 -> m !! i = None) ->
    foldl (fun m x => <[x.1 := x.2]> m) m l = list_to_map l ∪ m) as Hgen.
  { induction l as [|[i x] l IH]; intros m0 Hnd Hm; cbn; [by rewrite map_empty_union|].
    apply NoDup_cons in Hnd as [Hni Hnd]. rewrite IH; [|done|].
    - rewrite <-insert_union_l, <-insert_union_r; [done|]. by apply not_elem_of_list_to_map.
    - intros j Hj. rewrite lookup_insert_ne; [apply Hm; set_solver|]. by intros <-. }
  rewrite Hgen; [by rewrite map_union_empty|apply NoDup_fst_map_to_list|].
  intros. apply lookup_empty.
Qed.

Lemma idx_rebuild e : idx_ok (rebuild_indexes e).
Proof.
  unfold rebuild_indexes. set (e0 := e <| by_workload_ := ∅ |> <| by_checkpoint_ := ∅ |>).
  destruct (index_foldl_ok (map_to_list (sessions_ e)) e0 ∅) as [Hw Hc].
  - apply NoDup_fst_map_to_list.
  - intros. apply lookup_empty.
  - apply index_ok_empty.
  - apply index_ok_empty.
  - assert (requests (foldl index_session e0 (map_to_list (sessions_ e))) =
            foldl (fun m x => <[x.1 := ses_request x.2]> m) ∅ (map_to_list (sessions_ e))) as Hr.
    { unfold requests. change (foldl index_session e0 (map_to_list (sessions_ e))) with
        (rebuild_indexes e). rewrite rebuild_indexes_table.
      rewrite <-(foldl_insert_map_to_list (sessions_ e)) at 1.
      by rewrite requests_foldl, fmap_empty. }
    split; cbn; rewrite Hr; done.
Qed.

Lemma prune_loop_flag order target e : (prune_loop order target true e).1 = true.
Proof.
  revert e; induction order as [|id rest IH]; intros e; cbn; [done|].
  destruct (_ >? _); [|done]. destruct (sessions_ e !! id); [|apply IH].
  destruct (negb _); apply IH.
Qed.
Lemma prune_loop_keys order target e :
  (prune_loop order target false e).1 = false -> keys (prune_loop order target false e).2 = keys e.
Proof.
  revert e; induction order as [|id rest IH]; intros e; cbn; [done|].
  destruct (_ >? _); [|done]. destruct (sessions_ e !! id); [|apply IH].
  destruct (negb _); [apply IH|]. by rewrite prune_loop_flag.
Qed.
Lemma idx_prune e : idx_ok e -> idx_ok (prune_history e).
Proof.
  intros Hi. unfold prune_history. destruct (_ <=? _); [done|].
  pose proof (prune_loop_keys (terminal_order_ e) (retention_bound_ e * 3 / 4) e) as Hk.
  destruct (prune_loop _ _ _ _) as [[] e']; [apply idx_rebuild|]. cbn in Hk.
  unfold idx_ok. by rewrite Hk.
Qed.

Lemma idx_keys e e' : keys e' = keys e -> idx_ok e -> idx_ok e'.
Proof. unfold idx_ok. by intros ->. Qed.

Lemma idx_settle_terminal id state reason detail at_ e :
  idx_ok e -> idx_ok (settle_terminal id state reason detail at_ e).
Proof.
  intros Hi. unfold settle_terminal. apply idx_prune.
  eapply idx_keys; [|exact Hi]. autorewrite with keys. rewrite keys_with_session by done.
  set (e1 := release_active_attempts _ _ _).
  assert (keys e1 = keys e) as <- by (by apply keys_upd_both).
  set (e2 := if wastes state then _ else _).
  assert (keys e2 = keys e1) as <-
    by (subst e2; destruct (wastes state); [by apply keys_upd_both|done]).
  destruct (sessions_ e2 !! id); [|done]. destruct (negb _); by autorewrite with keys.
Qed.

Lemma progress_rec_request s : ses_request (progress_rec s) = ses_request s.
Proof. unfold progress_rec. by destruct (_ && _). Qed.
Lemma idx_recompute id at_ e : idx_ok e -> idx_ok (recompute_progress id at_ e).
Proof.
  intros Hi. unfold recompute_progress.
  apply (idx_keys _ (with_session id progress_rec e)) in Hi;
    [|by apply keys_with_session; intros; apply progress_rec_request].
  set (e1 := with_session id progress_rec e) in *.
  destruct (sessions_ e1 !! id) as [s|]; [|done]. destruct (_ && _); [|done].
  apply idx_prune. eapply idx_keys; [|exact Hi]. autorewrite with keys.
  rewrite keys_with_session by done. unfold upd_accounting. cbn.
  change (keys (release_path_reservation id (with_session id (complete_rec (policy_ e1) at_) e1)) =
          keys e1).
  autorewrite with keys. by rewrite keys_with_session.
Qed.

Lemma idx_enforce_deadlines at_ e : idx_ok e -> idx_ok (enforce_deadlines at_ e).
Proof.
  unfold enforce_deadlines. generalize (deadlines_ e) as dl. intros dl. revert e.
  induction dl as [|[d due] rest IH]; intros e Hi; cbn; [done|]. destruct (d >? at_); [done|].
  apply IH. apply foldl_inv; [done|]. intros a id _ Ha. unfold enforce_one.
  destruct (sessions_ a !! id) as [s|]; [|done]. destruct (_ || _); [done|].
  eapply idx_keys; [autorewrite with keys; reflexivity|].
  apply (idx_settle_terminal id _ _ _ at_). eapply idx_keys; [|exact Ha]. by apply keys_upd_both.
Qed.

(** ** Updates at one id leave the other sessions alone *)

Definition others (t : SessionId) (e e' : Engine) : Prop :=
  forall k s, k <> t -> sessions_ e' !! k = Some s -> sessions_ e !! k = Some s.

Lemma others_sub t e x s' : sessions_ x ⊆ <[t := s']> (sessions_ e) -> others t e x.
Proof.
  intros H k s Hk Hs. eapply lookup_weaken in Hs; [|exact H]. by rewrite lookup_insert_ne in Hs.
Qed.
Lemma others_trans t e1 e2 e3 : others t e1 e2 -> others t e2 e3 -> others t e1 e3.
Proof. intros H1 H2 k s Hk Hs. eauto. Qed.
Lemma others_with_session t f e : others t e (with_session t f e).
Proof.
  destruct (sessions_ e !! t) as [s|] eqn:Hs.
  - eapply others_sub. by rewrite (with_session_table _ _ _ _ Hs).
  - unfold with_session. rewrite Hs. by intros k s.
Qed.
Lemma others_upd_both t f e : others t e (upd_both t f e).
Proof.
  destruct (sessions_ e !! t) as [s|] eqn:Hs.
  - eapply others_sub. by rewrite (upd_both_table _ _ _ _ Hs).
  - unfold upd_both. rewrite Hs. by intros k s.
Qed.
Lemma others_evolves e x : evolves eq e x -> forall t, others t e x.
Proof. intros H t k s _ Hs. destruct (H k s Hs) as (s0 & Hs0 & <-). done. Qed.
Lemma others_settle t state reason detail at_ e :
  others t e (settle_terminal t state reason detail at_ e).
Proof.
  destruct (sessions_ e !! t) as [s|] eqn:Hs.
  - eapply others_sub. by apply settle_terminal_table.
  - apply others_evolves, evolves_settle_terminal; [apply _|]. intros s Hs'. congruence.
Qed.

Lemma others_eq t e x y : sessions_ y = sessions_ x -> others t e x -> others t e y.
Proof. intros H Hx k s. rewrite H. apply Hx. Qed.

Lemma others_supersession t by_ at_ e : others t e (apply_supersession t by_ at_ e).
Proof.
  unfold apply_supersession. eapply others_eq; [apply push_event_table|].
  eapply others_trans; [|apply (others_with_session t)].
  eapply others_eq; [reflexivity|].
  eapply others_trans; [|apply others_with_session].
  eapply others_trans; [|apply others_settle].
  apply (others_upd_both t).
Qed.
