(* ===== verification/EngineAuthority.v ===== *)
(** * EngineAuthority: construction, authority changes, restart

    Models the "Construction and authority" part of [src/engine.cpp] with the
    persistable state of [include/ctf/engine.hpp]: the engine constructor,
    [apply_policy], [apply_topology], [upsert_contract], [advance_epoch],
    [restore] and [export_snapshot]. *)

From stdpp Require Import base gmap list strings.
From S2P Require Import Prelude Status Ids Hash Enums Model Fence Shaper EngineState.

Record EngineConfig := mkConfig {
  cfg_policy : PolicySnapshot;
  cfg_topology : TopologySnapshot;
  cfg_contracts : list WorkloadContract;
  cfg_epoch : CoordinatorEpoch;
  cfg_limits : Limits;
  cfg_identity_seed : Z
}.
#[global] Instance eta_EngineConfig : Eta EngineConfig :=
  fun r => mkConfig (cfg_policy r) (cfg_topology r) (cfg_contracts r) (cfg_epoch r)
    (cfg_limits r) (cfg_identity_seed r).

Record PersistedShard := mkPShard {
  ps_index : ShardIndex;
  ps_state : ShardState;
  ps_sequence : AttemptSequence;
  ps_granted_bytes : Z;
  ps_transferred_bytes : Z;
  ps_verified_bytes : Z;
  ps_observed_digest : Digest;
  ps_has_observed_digest : bool;
  ps_attempt : option TransferAttemptId;
  ps_source_complete : bool;
  ps_source_bytes : Z
}.

Record PersistedAttempt := mkPAttempt {
  pa_id : TransferAttemptId;
  pa_sequence : AttemptSequence;
  pa_shard : ShardIndex;
  pa_wave : WaveIndex;
  pa_outcome : AttemptOutcome;
  pa_granted_bytes : Z;
  pa_delivered_bytes : Z;
  pa_observed_digest : Digest;
  pa_has_observed_digest : bool;
  pa_outstanding : bool;
  pa_granted_at : Nanos;
  pa_updated_at : Nanos
}.

Record PersistedSession := mkPSession {
  psn_session : SessionId;
  psn_request : SessionRequest;
  psn_state : SessionState;
  psn_evidence : EvidenceLevel;
  psn_envelope : TrafficEnvelope;
  psn_envelope_sequence : Z;
  psn_attempt_counter : Z;
  psn_shards : list PersistedShard;
  psn_attempts : list PersistedAttempt;
  psn_timeline : list string;
  psn_admitted_bytes : Z;
  psn_transferred_bytes : Z;
  psn_verified_bytes : Z;
  psn_cancelled_bytes : Z;
  psn_wasted_bytes : Z;
  psn_unproven_bytes : Z;
  psn_outstanding_bytes : Z;
  psn_active_attempts : Z;
  psn_source_complete : bool;
  psn_paused : bool;
  psn_created_at : Nanos;
  psn_updated_at : Nanos;
  psn_last_reason : ReasonCode;
  psn_last_detail : string;
  psn_stale_reason : string;
  psn_superseded_by : option SessionId
}.
#[global] Instance eta_PersistedSession : Eta PersistedSession :=
  fun r => mkPSession (psn_session r) (psn_request r) (psn_state r) (psn_evidence r)
    (psn_envelope r) (psn_envelope_sequence r) (psn_attempt_counter r) (psn_shards r)
    (psn_attempts r) (psn_timeline r) (psn_admitted_bytes r) (psn_transferred_bytes r)
    (psn_verified_bytes r) (psn_cancelled_bytes r) (psn_wasted_bytes r)
    (psn_unproven_bytes r) (psn_outstanding_bytes r) (psn_active_attempts r)
    (psn_source_complete r) (psn_paused r) (psn_created_at r) (psn_updated_at r)
    (psn_last_reason r) (psn_last_detail r) (psn_stale_reason r) (psn_superseded_by r).

Record EngineSnapshot := mkSnapshot {
  snap_epoch : CoordinatorEpoch;
  snap_policy_generation : PolicyGeneration;
  snap_topology_generation : TopologyGeneration;
  snap_contract_generations : list (WorkloadId * WorkloadContractGeneration);
  snap_sessions : list PersistedSession;
  snap_accounting : AccountingSnapshot;
  snap_commands_processed : Z
}.
#[global] Instance eta_EngineSnapshot : Eta EngineSnapshot :=
  fun r => mkSnapshot (snap_epoch r) (snap_policy_generation r) (snap_topology_generation
    r) (snap_contract_generations r) (snap_sessions r) (snap_accounting r)
    (snap_commands_processed r).

(** ** Construction *)

(** [emplace]: the first contract for a workload wins. *)
Definition emplace_contract (m : gmap WorkloadId WorkloadContract) (c : WorkloadContract)
  : gmap WorkloadId WorkloadContract :=
  match m !! wc_workload c with Some _ => m | None => <[wc_workload c := c]> m end.

Fixpoint first_failure (l : list Status) : Status :=
  match l with
  | [] => Status_success
  | s :: rest => if Status_ok s then first_failure rest else s
  end.

Definition config_check (policy : PolicySnapshot) (topology : TopologySnapshot)
    (contracts : gmap WorkloadId WorkloadContract) (epoch : CoordinatorEpoch) (limits : Limits)
  : Status :=
  seq_status (validate_policy policy limits)
  (seq_status (validate_topology topology limits)
  (seq_status (if Nat.eqb (size contracts) 0
               then Status_error ErrorCode.InvalidArgument
                      "engine requires at least one workload contract"
               else Status_success)
  (seq_status (first_failure (map (fun entry => validate_contract entry.2 limits)
                                (map_to_list contracts)))
     (if gen_is_zero (ep_incarnation epoch) || gen_is_zero (ep_term epoch)
      then Status_error ErrorCode.InvalidArgument "engine requires a non-zero coordinator epoch"
      else Status_success)))).

Definition PrunedTotals_default : PrunedTotals := mkPruned 0 0 0 0 0 0.

Definition engine_init (config : EngineConfig) (at_ : Nanos) : Engine :=
  let contracts := foldl emplace_contract ∅ (cfg_contracts config) in
  let status := config_check (cfg_policy config) (cfg_topology config) contracts
                  (cfg_epoch config) (cfg_limits config) in
  let e := mkEngine (cfg_limits config) (cfg_policy config) (cfg_topology config) contracts
             (cfg_epoch config) RateShaper_default ∅ ∅ ∅ ∅ [] 256 AccountingSnapshot_default 0
             false [0; 0; 0; 0] ∅ [] PrunedTotals_default 2048
             (mt_seed (cfg_identity_seed config)) status [] None false in
  if negb (Status_ok status) then e <| shutting_down_ := true |>
  else
    let e := e <| retention_bound_ :=
               Z.max 64 (Z.min (lim_max_sessions (limits_ e))
                           (pol_retained_history (policy_ e) * 8)) |> in
    let e := e <| command_index_bound_ := command_bound e |> in
    configure_shaper at_ e.

Definition current_fence (e : Engine) (workload : WorkloadId)
    (checkpoint_generation : option CheckpointGeneration)
    (attempt_sequence : option AttemptSequence) : CommandFence :=
  mkFence (epoch_ e) (pol_generation (policy_ e)) (topo_generation (topology_ e))
    (match contracts_ e !! workload with None => mkGen 0 | Some c => wc_generation c end)
    checkpoint_generation attempt_sequence.

(** ** Authority changes *)

Definition session_ids (e : Engine) : list SessionId := (map_to_list (sessions_ e)).*1.

(** One session of the loops that fence active sessions after an authority change. *)
Definition require_revalidation_one (stale_reason timeline_text : string) (reason : ReasonCode)
    (at_ : Nanos) (e : Engine) (id : SessionId) : Engine :=
  match sessions_ e !! id with
  | None => e
  | Some s =>
      if negb (is_active (ses_state s)) || (ses_state s =e SessionState.RevalidationRequired) then e
      else
        let e := with_session id (fun s =>
                   s <| ses_state := SessionState.RevalidationRequired |>
                     <| ses_stale_reason := stale_reason |> <| ses_updated_at := at_ |>) e in
        let e := note_timeline id at_ timeline_text e in
        push_event (mkEvent EventKind.RevalidationRequired_ (ses_id s) reason stale_reason at_) e
  end.

Definition apply_policy (policy : PolicySnapshot) (at_ : Nanos) (e : Engine) : Status * Engine :=
  if negb (gen_ltb (pol_generation (policy_ e)) (pol_generation policy)) then
    (Status_error ErrorCode.StalePolicyGeneration
       "new policy generation must be greater than the active generation", e)
  else
    let validation := validate_policy policy (limits_ e) in
    if negb (Status_ok validation) then (validation, e)
    else
      let e := configure_shaper at_ (e <| policy_ := policy |>) in
      (Status_success,
       foldl (require_revalidation_one "policy generation advanced after this envelope was issued"
                "revalidation required: policy generation" ReasonCode.PolicyGenerationStale at_)
         e (session_ids e)).

Definition apply_topology (topology : TopologySnapshot) (at_ : Nanos) (e : Engine)
  : Status * Engine :=
  if negb (gen_ltb (topo_generation (topology_ e)) (topo_generation topology)) then
    (Status_error ErrorCode.StaleTopologyGeneration
       "new topology generation must be greater than the active generation", e)
  else
    let validation := validate_topology topology (limits_ e) in
    if negb (Status_ok validation) then (validation, e)
    else
      let e := e <| topology_ := topology |> in
      (Status_success,
       foldl (require_revalidation_one
                "topology generation advanced after this envelope was issued"
                "revalidation required: topology generation" ReasonCode.TopologyGenerationStale at_)
         e (session_ids e)).

Definition upsert_contract (contract : WorkloadContract) (at_ : Nanos) (e : Engine)
  : Status * Engine :=
  let workload := wc_workload contract in
  let existing := contracts_ e !! workload in
  if match existing with
     | Some old => negb (gen_ltb (wc_generation old) (wc_generation contract))
     | None => false
     end then
    (Status_error ErrorCode.StaleContractGeneration
       "new contract generation must be greater than the active generation", e)
  else
    let validation := validate_contract contract (limits_ e) in
    if negb (Status_ok validation) then (validation, e)
    else if (Z.of_nat (size (contracts_ e)) >=? lim_max_workloads (limits_ e)) &&
            negb (bool_decide (is_Some existing)) then
      (Status_error ErrorCode.ResourceExhausted "workload contract bound reached", e)
    else
      let e := e <| shaper_ := configure_workload (shaper_ e) workload (wc_ceiling_bps contract)
                                 (kNanosPerMillisecond * 100) at_ |>
                 <| contracts_ := <[workload := contract]> (contracts_ e) |> in
      let e := push_event (mkEvent EventKind.RevalidationRequired_ id_nil
                             ReasonCode.ContractGenerationStale
                             ("workload contract generation " +:+
                              gen_to_string (wc_generation contract) +:+ " applied")%string at_) e in
      (Status_success,
       match by_workload_ e !! workload with
       | None => e
       | Some ids =>
           foldl (require_revalidation_one
                    "workload contract generation advanced after this envelope was issued"
                    "revalidation required: contract generation"
                    ReasonCode.ContractGenerationStale at_) e ids
       end).

(** ** Restart *)

Definition unsettled_outcome (o : AttemptOutcome) : bool :=
  (o =e AttemptOutcome.Granted) || (o =e AttemptOutcome.InFlight) ||
  (o =e AttemptOutcome.DeliveredUnacked).

Definition ambiguate_attempt (at_ : Nanos) (a : AttemptRecord) : AttemptRecord :=
  if unsettled_outcome (atr_outcome a)
  then a <| atr_outcome := AttemptOutcome.Ambiguous |> <| atr_updated_at := at_ |> else a.

Definition reopen_shard (sh : ShardRecord) : ShardRecord :=
  if (shr_state sh =e ShardState.Granted) || (shr_state sh =e ShardState.InFlight) then
    sh <| shr_state := ShardState.Pending |> <| shr_sequence := mkGen 0 |>
       <| shr_attempt := None |> <| shr_granted_bytes := 0 |>
  else sh.

Definition restart_text : string := "coordinator restarted: authority must be re-established".

Definition advance_epoch_one (at_ : Nanos) (e : Engine) (id : SessionId) : Engine :=
  match sessions_ e !! id with
  | None => e
  | Some s =>
      if is_terminal (ses_state s) then e
      else
        let e := mark_unproven id (at_risk_bytes s) e in
        let e := with_session id (fun s =>
                   s <| ses_attempts := map (ambiguate_attempt at_) (ses_attempts s) |>) e in
        let e := upd_both id (fun s a =>
                   (s, a <| acc_active_attempts :=
                            u32 (acc_active_attempts a - ses_active_attempts s) |>)) e in
        let e := with_session id (fun s =>
                   let s := release_attempts s in
                   s <| ses_shards := map reopen_shard (ses_shards s) |>
                     <| ses_state := SessionState.RevalidationRequired |>
                     <| ses_paused := false |> <| ses_stale_reason := restart_text |>
                     <| ses_updated_at := at_ |>) e in
        let e := note_timeline id at_ "revalidation required: coordinator restart" e in
        push_event (mkEvent EventKind.RevalidationRequired_ (ses_id s) ReasonCode.AuthorityStale
                      restart_text at_) e
  end.

Definition advance_epoch (epoch : CoordinatorEpoch) (at_ : Nanos) (e : Engine) : Status * Engine :=
  if negb (epoch_ltb (epoch_ e) epoch) then
    (Status_error ErrorCode.StaleEpoch "new epoch must be greater than the active epoch", e)
  else
    let e := e <| epoch_ := epoch |> <| deadlines_ := [] |> in
    (Status_success, foldl (advance_epoch_one at_) e (session_ids e)).

(** *** Restore *)

Fixpoint restore_shards (shards : list PersistedShard) (descriptors : list ShardDescriptor)
  : Result (list ShardRecord) :=
  match shards, descriptors with
  | shard :: shards', d :: descriptors' =>
      if negb (sc_eqb (ps_index shard) (sd_index d)) then
        Err (Status_error ErrorCode.CorruptState
               "persisted shard ordering does not match the manifest")
      else match restore_shards shards' descriptors' with
           | Err s => Err s
           | Val out =>
               Val (mkShard (ps_index shard) (sd_declared_bytes d) (sd_declared_digest d)
                      (sd_path_class d) (ps_state shard) (ps_sequence shard) (ps_attempt shard)
                      (ps_granted_bytes shard) (ps_transferred_bytes shard)
                      (ps_verified_bytes shard) (ps_observed_digest shard)
                      (ps_has_observed_digest shard) (ps_source_complete shard)
                      (ps_source_bytes shard) :: out)
           end
  | _, _ => Val []
  end.

Definition restore_attempt (a : PersistedAttempt) : AttemptRecord :=
  let outstanding := unsettled_outcome (pa_outcome a) in
  mkAttempt (pa_id a) (pa_sequence a) (pa_shard a) (pa_wave a)
    (if outstanding then AttemptOutcome.Ambiguous else pa_outcome a)
    (pa_granted_bytes a) (pa_delivered_bytes a) (pa_observed_digest a)
    (pa_has_observed_digest a) outstanding (pa_granted_at a) (pa_updated_at a).

(** The per-session checks and the record they build. *)
Definition restore_session (limits : Limits) (restored : gmap SessionId SessionRecord)
    (p : PersistedSession) : Result SessionRecord :=
  if id_is_nil (psn_session p) then
    Err (Status_error ErrorCode.CorruptState "persisted session has a nil identity")
  else if bool_decide (is_Some (restored !! psn_session p)) then
    Err (Status_error ErrorCode.DuplicateIdentity "persisted state repeats a session id")
  else
    let manifest_status := validate_manifest (req_manifest (psn_request p)) limits in
    if negb (Status_ok manifest_status) then
      Err (Status_error ErrorCode.CorruptState
             ("persisted session manifest is invalid: " +:+ Status_to_string manifest_status)%string)
    else if negb (Nat.eqb (length (psn_shards p))
                    (length (mf_shards (req_manifest (psn_request p))))) then
      Err (Status_error ErrorCode.CorruptState
             "persisted session shard table does not match its manifest")
    else if is_terminal (psn_state p) && negb (psn_outstanding_bytes p =? 0) then
      Err (Status_error ErrorCode.CorruptState
             "terminal persisted session retains outstanding authority")
    else
      match restore_shards (psn_shards p) (mf_shards (req_manifest (psn_request p))) with
      | Err s => Err s
      | Val shards =>
          Val (mkSession (psn_session p) (psn_request p) (psn_state p) (psn_evidence p)
                 DurabilityAssertion_default (psn_envelope p) (psn_envelope_sequence p)
                 (psn_attempt_counter p) shards (map restore_attempt (psn_attempts p))
                 (psn_timeline p) (psn_admitted_bytes p) (psn_transferred_bytes p)
                 (psn_verified_bytes p) (psn_cancelled_bytes p) (psn_wasted_bytes p)
                 (psn_unproven_bytes p) (psn_outstanding_bytes p) 0 (psn_source_complete p)
                 false SessionState.Admitted_ None 0 (psn_created_at p) (psn_updated_at p)
                 (psn_last_reason p) (psn_last_detail p) (psn_stale_reason p)
                 (psn_superseded_by p))
      end.

Fixpoint restore_table (limits : Limits) (sessions : list PersistedSession)
    (restored : gmap SessionId SessionRecord) : Result (gmap SessionId SessionRecord) :=
  match sessions with
  | [] => Val restored
  | p :: rest =>
      match restore_session limits restored p with
      | Err s => Err s
      | Val record => restore_table limits rest (<[psn_session p := record]> restored)
      end
  end.

(** The conservative post-pass over one restored session. *)
Definition restore_one (at_ : Nanos) (e : Engine) (id : SessionId) : Engine :=
  match sessions_ e !! id with
  | None => e
  | Some s =>
      if is_terminal (ses_state s) then e
      else
        let e := mark_unproven id (at_risk_bytes s) e in
        let stale := if String.eqb (ses_stale_reason s) "" then restart_text
                     else ses_stale_reason s in
        let e := with_session id (fun s =>
                   let s := release_attempts s in
                   s <| ses_shards := map reopen_shard (ses_shards s) |>
                     <| ses_state := SessionState.RevalidationRequired |>
                     <| ses_paused := false |> <| ses_stale_reason := stale |>
                     <| ses_updated_at := at_ |>) e in
        let e := note_timeline id at_ "restored: revalidation required" e in
        push_event (mkEvent EventKind.RevalidationRequired_ (ses_id s) ReasonCode.AuthorityStale
                      stale at_) e
  end.

(** Counters derived from the restored table. *)
Definition recount_one (e : Engine) (entry : SessionId * SessionRecord) : Engine :=
  let s := entry.2 in
  let e := upd_accounting (fun a =>
             a <| acc_granted_outstanding_bytes :=
                  u64 (acc_granted_outstanding_bytes a + ses_outstanding_bytes s) |>) e in
  if is_active (ses_state s) then adjust_active_up s e
  else e <| terminal_order_ := terminal_order_ e ++ [ses_id s] |>.

Definition restore_install (table : gmap SessionId SessionRecord) (snapshot : EngineSnapshot)
    (e : Engine) : Engine :=
  let e := rebuild_indexes (e <| sessions_ := table |>) in
  let e := e <| accounting_ := snap_accounting snapshot |>
             <| commands_processed_ := snap_commands_processed snapshot |>
             <| epoch_ := snap_epoch snapshot |>
             <| command_index_ := ∅ |> <| command_order_ := [] |> in
  upd_accounting (fun a => a <| acc_active_attempts := 0 |>) e.

Definition restore_recount (e : Engine) : Engine :=
  let e := e <| class_active_ := [0; 0; 0; 0] |> <| workload_active_ := ∅ |>
             <| terminal_order_ := [] |> in
  let e := upd_accounting (fun a => a <| acc_active_sessions := 0 |>
                                     <| acc_granted_outstanding_bytes := 0 |>) e in
  let e := foldl recount_one e (map_to_list (sessions_ e)) in
  let e := e <| deadlines_ := [] |> in
  foldl (fun e entry => if negb (is_terminal (ses_state entry.2))
                        then index_deadline entry.2 e else e) e (map_to_list (sessions_ e)).

Definition restore (snapshot : EngineSnapshot) (at_ : Nanos) (e : Engine) : Status * Engine :=
  if negb (conserves (snap_accounting snapshot)) then
    (Status_error ErrorCode.CorruptState "persisted accounting does not conserve bytes", e)
  else if gen_ltb (pol_generation (policy_ e)) (snap_policy_generation snapshot) then
    (Status_error ErrorCode.StalePolicyGeneration
       "configured policy is older than the persisted policy generation", e)
  else if gen_ltb (topo_generation (topology_ e)) (snap_topology_generation snapshot) then
    (Status_error ErrorCode.StaleTopologyGeneration
       "configured topology is older than the persisted topology generation", e)
  else if Z.of_nat (length (snap_sessions snapshot)) >? lim_max_sessions (limits_ e) then
    (Status_error ErrorCode.ResourceExhausted
       "persisted session count exceeds the configured bound", e)
  else
    match restore_table (limits_ e) (snap_sessions snapshot) ∅ with
    | Err s => (s, e)
    | Val table =>
        let e := restore_install table snapshot e in
        let e := foldl (restore_one at_) e (session_ids e) in
        (Status_success, restore_recount e)
    end.

(** *** Export *)

Definition persist_shard (sh : ShardRecord) : PersistedShard :=
  mkPShard (shr_index sh) (shr_state sh) (shr_sequence sh) (shr_granted_bytes sh)
    (shr_transferred_bytes sh) (shr_verified_bytes sh) (shr_observed_digest sh)
    (shr_has_observed_digest sh) (shr_attempt sh) (shr_source_complete sh) (shr_source_bytes sh).

Definition persist_attempt (a : AttemptRecord) : PersistedAttempt :=
  mkPAttempt (atr_id a) (atr_sequence a) (atr_shard a) (atr_wave a) (atr_outcome a)
    (atr_granted_bytes a) (atr_delivered_bytes a) (atr_observed_digest a)
    (atr_has_observed_digest a) (atr_outstanding a) (atr_granted_at a) (atr_updated_at a).

Definition persist_session (s : SessionRecord) : PersistedSession :=
  mkPSession (ses_id s) (ses_request s) (ses_state s) (ses_evidence s) (ses_envelope s)
    (ses_envelope_sequence s) (ses_attempt_counter s) (map persist_shard (ses_shards s))
    (map persist_attempt (ses_attempts s)) (ses_timeline s) (ses_admitted_bytes s)
    (ses_transferred_bytes s) (ses_verified_bytes s) (ses_cancelled_bytes s)
    (ses_wasted_bytes s) (ses_unproven_bytes s) (ses_outstanding_bytes s)
    (ses_active_attempts s) (ses_source_complete s) (ses_paused s) (ses_created_at s)
    (ses_updated_at s) (ses_last_reason s) (ses_last_detail s) (ses_stale_reason s)
    (ses_superseded_by s).

(** [seen_workloads.insert(workload).second] gates each pushed record. *)
Definition push_generation (acc : gset WorkloadId * list (WorkloadId * WorkloadContractGeneration))
    (entry : WorkloadId * WorkloadContractGeneration)
  : gset WorkloadId * list (WorkloadId * WorkloadContractGeneration) :=
  if bool_decide (entry.1 ∈ acc.1) then acc else ({[entry.1]} ∪ acc.1, acc.2 ++ [entry]).

Definition export_snapshot (e : Engine) : EngineSnapshot :=
  let from_sessions := map (fun entry : SessionId * SessionRecord =>
        (req_workload (ses_request entry.2), req_contract_generation (ses_request entry.2)))
        (map_to_list (sessions_ e)) in
  let from_contracts := map (fun entry : WorkloadId * WorkloadContract =>
        (entry.1, wc_generation entry.2)) (map_to_list (contracts_ e)) in
  mkSnapshot (epoch_ e) (pol_generation (policy_ e)) (topo_generation (topology_ e))
    (foldl push_generation (∅, []) (from_sessions ++ from_contracts)).2
    (map (fun entry => persist_session entry.2) (map_to_list (sessions_ e)))
    (accounting_ e) (commands_processed_ e).
