(* ===== verification/EngineAdmission.v ===== *)
(** * EngineAdmission: admission and revalidation

    Models [FabricEngine::submit_session] and [FabricEngine::revalidate_session]
    of [src/engine.cpp].  [submit_session] is split where the code's comments
    split it: fence agreement, command replay, the guards in their fixed order,
    the scan of existing sessions, and the admission itself. *)

From stdpp Require Import base gmap list strings.
From S2P Require Import Prelude Status Ids Hash Enums Model Fence Shaper EngineState.
From S2P Require Import EngineAuthority.

(** The preamble of every client command: count it and observe time. *)
Definition begin_command (at_ : Nanos) (e : Engine) : Engine :=
  enforce_deadlines at_ (e <| commands_processed_ := u64 (commands_processed_ e + 1) |>).

Definition submit_deny (request : SessionRequest) (reason : ReasonCode) (detail : string)
    (at_ : Nanos) (e : Engine) : Result AdmissionDecision * Engine :=
  let e := upd_accounting (fun a =>
             a <| acc_sessions_denied := u64 (acc_sessions_denied a + 1) |>) e in
  let e := remember_command (req_command request)
             (mkCommand id_nil DecisionKind.Deny reason (fingerprint_request request) false) e in
  let e := push_event (mkEvent EventKind.SessionDenied id_nil reason detail at_) e in
  (Val (make_decision e DecisionKind.Deny reason detail id_nil at_), e).

Definition submit_defer (request : SessionRequest) (reason : ReasonCode) (detail : string)
    (retry_after : Nanos) (deferred_bytes : Z) (at_ : Nanos) (e : Engine)
  : Result AdmissionDecision * Engine :=
  let e := upd_accounting (fun a =>
             a <| acc_sessions_deferred := u64 (acc_sessions_deferred a + 1) |>
               <| acc_bytes_deferred := u64 (acc_bytes_deferred a + deferred_bytes) |>) e in
  let e := remember_command (req_command request)
             (mkCommand id_nil DecisionKind.Defer reason (fingerprint_request request) false) e in
  let e := push_event (mkEvent EventKind.SessionDeferred id_nil reason detail at_) e in
  let decision := make_decision e DecisionKind.Defer reason detail id_nil at_ in
  (Val (decision <| ad_retry_after := Some retry_after |>), e).

(** Agreement of the request's generations with its fence. *)
Definition request_agrees (request : SessionRequest) (fence : CommandFence) : Status :=
  if negb (gen_eqb (req_policy_generation request) (cf_policy_generation fence)) then
    Status_error ErrorCode.StalePolicyGeneration
      "request policy generation contradicts the command fence"
  else if negb (gen_eqb (req_topology_generation request) (cf_topology_generation fence)) then
    Status_error ErrorCode.StaleTopologyGeneration
      "request topology generation contradicts the command fence"
  else if negb (gen_eqb (req_contract_generation request) (cf_contract_generation fence)) then
    Status_error ErrorCode.StaleContractGeneration
      "request contract generation contradicts the command fence"
  else Status_success.

(** Replay of a command id already in the index. *)
Definition submit_replay (request : SessionRequest) (record : CommandRecord) (at_ : Nanos)
    (e : Engine) : Result AdmissionDecision :=
  if negb (cmd_fingerprint record =? fingerprint_request request) then
    Err (Status_error ErrorCode.ReplayDetected "command id was used for a different request")
  else
    let decision := make_decision e (cmd_kind record) ReasonCode.DuplicateCommand
                      "idempotent replay of a decided command" (cmd_session record) at_ in
    Val (if cmd_has_session record then
           match sessions_ e !! cmd_session record with
           | Some s => decision <| ad_envelope := Some (ses_envelope s) |>
           | None => decision
           end
         else decision).

Definition manifest_matches (request : SessionRequest) : bool :=
  let m := req_manifest request in
  (mf_checkpoint m =e req_checkpoint request) &&
  gen_eqb (mf_generation m) (req_checkpoint_generation request) &&
  (mf_workload m =e req_workload request) &&
  gen_eqb (mf_contract_generation m) (req_contract_generation request).

(** Traffic is never admitted into a class laxer than its contract. *)
Definition resolve_isolation (requested contract : IsolationClass) : IsolationClass :=
  if isolation_rank requested <=? isolation_rank contract then requested else contract.

Definition shard_path_permitted (t : TopologySnapshot) (destination : DestinationClass)
    (shard : ShardDescriptor) : bool :=
  if sc_value (sd_path_class shard) =? 0 then true
  else match find_path_class t (sd_path_class shard) with
       | None => false
       | Some path => pc_destination path =e destination
       end.

(** The scan of the sessions already known for the checkpoint. *)
Inductive ScanVerdict :=
| ScanDeny (reason : ReasonCode) (detail : string)
| ScanDuplicate (existing : SessionId) (envelope : TrafficEnvelope)
| ScanTargets (targets : list SessionId).

Fixpoint scan_existing (request : SessionRequest) (ids : list SessionId)
    (sessions : gmap SessionId SessionRecord) (targets : list SessionId) : ScanVerdict :=
  match ids with
  | [] => ScanTargets targets
  | id :: rest =>
      match sessions !! id with
      | None => scan_existing request rest sessions targets
      | Some existing =>
          let generation := req_checkpoint_generation (ses_request existing) in
          if gen_ltb (req_checkpoint_generation request) generation then
            ScanDeny ReasonCode.CheckpointGenerationStale
              "a newer checkpoint generation has already been admitted for this checkpoint"
          else if negb (is_active (ses_state existing)) then
            scan_existing request rest sessions targets
          else if gen_eqb generation (req_checkpoint_generation request) then
            if manifests_equivalent (req_manifest (ses_request existing)) (req_manifest request)
            then ScanDuplicate (ses_id existing) (ses_envelope existing)
            else ScanDeny ReasonCode.ManifestMismatch
                   "checkpoint generation already has an active session with a different manifest"
          else scan_existing request rest sessions (targets ++ [id])
      end
  end.

Definition initial_shard (path_id : PathClassId) (d : ShardDescriptor) : ShardRecord :=
  mkShard (sd_index d) (sd_declared_bytes d) (sd_declared_digest d)
    (if sc_value (sd_path_class d) =? 0 then path_id else sd_path_class d)
    ShardState.Pending (mkGen 0) None 0 0 0 Digest_default false false 0.

Definition wave_width_for (contract : WorkloadContract) (policy : PolicySnapshot) (shards : Z) : Z :=
  Z.max 1 (Z.min (Z.min (wc_max_shards_per_wave contract) (pol_max_wave_width policy)) (u32 shards)).
Definition burst_for (rate_bps : Z) : Z := Z.max (rate_bps / 10) (64 * 1024).

(** The session record of an admitted request, before it enters the table. *)
Definition new_session (request : SessionRequest) (contract : WorkloadContract)
    (isolation : IsolationClass) (path_id : PathClassId) (rate_bps : Z) (id : SessionId)
    (at_ : Nanos) (e : Engine) : SessionRecord :=
  let manifest := req_manifest request in
  let envelope := build_envelope request id isolation path_id rate_bps (burst_for rate_bps)
                    (wave_width_for contract (policy_ e) (Z.of_nat (length (mf_shards manifest))))
                    at_ (s64 (at_ + request_horizon request contract)) 1 in
  let s := mkSession id request SessionState.Admitted_ EvidenceLevel.None
             DurabilityAssertion_default envelope 1 0
             (map (initial_shard path_id) (mf_shards manifest)) [] []
             (mf_total_bytes manifest) 0 0 0 0 0 (mf_total_bytes manifest) 0 false false
             SessionState.Admitted_ (Some path_id) rate_bps at_ at_ ReasonCode.Admitted_ "admitted"
             "" None in
  append_timeline (timeline_bound e) at_
    ("admitted class=" +:+ IsolationClass.to_string isolation +:+ " rate=" +:+
     nat_to_string rate_bps +:+ "B/s waves=" +:+
     nat_to_string (Z.of_nat (length (te_waves envelope))))%string s.

(** [sessions_.emplace(id, session)] *)
Definition emplace_session (id : SessionId) (s : SessionRecord) (e : Engine) : Engine :=
  match sessions_ e !! id with Some _ => e | None => put_session id s e end.

Definition install_session (request : SessionRequest) (s : SessionRecord) (targets : list SessionId)
    (at_ : Nanos) (e : Engine) : Engine :=
  let total := mf_total_bytes (req_manifest request) in
  let e := foldl (fun e target => apply_supersession target (ses_id s) at_ e) e targets in
  let e := upd_accounting (fun a =>
             a <| acc_bytes_admitted := u64 (acc_bytes_admitted a + total) |>
               <| acc_granted_outstanding_bytes := u64 (acc_granted_outstanding_bytes a + total) |>
               <| acc_sessions_admitted := u64 (acc_sessions_admitted a + 1) |>) e in
  let e := adjust_active_up s e in
  let e := e <| by_workload_ := index_push (req_workload request) (ses_id s) (by_workload_ e) |>
             <| by_checkpoint_ :=
                  index_push (req_checkpoint request) (ses_id s) (by_checkpoint_ e) |> in
  let e := index_deadline s e in
  emplace_session (ses_id s) s e.

Definition admit_session (request : SessionRequest) (contract : WorkloadContract)
    (isolation : IsolationClass) (path_id : PathClassId) (rate_bps : Z)
    (targets : list SessionId) (at_ : Nanos) (e : Engine) : Result AdmissionDecision * Engine :=
  let '(uuid, factory) := IdFactory_next (id_factory_ e) in
  let id : SessionId := mkId uuid in
  let e := e <| id_factory_ := factory |> in
  let s := new_session request contract isolation path_id rate_bps id at_ e in
  let '(reserved, shaper) := reserve_path_rate (shaper_ e) path_id rate_bps in
  if negb reserved then
    submit_deny request ReasonCode.ResourceLimit "path class reservation overflow" at_ e
  else
    let e := e <| shaper_ := shaper |> in
    let e := install_session request s targets at_ e in
    let e := remember_command (req_command request)
               (mkCommand id DecisionKind.Admit ReasonCode.Admitted_
                  (fingerprint_request request) true) e in
    let decision := make_decision e DecisionKind.Admit ReasonCode.Admitted_
                      (if Nat.eqb (length targets) 0 then "admitted"
                       else "admitted; superseded an older checkpoint generation") id at_ in
    let decision := decision <| ad_envelope := ses_envelope <$> sessions_ e !! id |>
                             <| ad_superseded := targets |> in
    (Val decision,
     push_event (mkEvent EventKind.SessionAdmitted id ReasonCode.Admitted_ "admitted" at_) e).

(** Capacity and rate: the last guards before admission. *)
Definition submit_capacity (request : SessionRequest) (contract : WorkloadContract)
    (isolation : IsolationClass) (envelope_config : IsolationEnvelopeConfig) (path : PathClass)
    (path_id : PathClassId) (targets : list SessionId) (at_ : Nanos) (e : Engine)
  : Result AdmissionDecision * Engine :=
  let total := mf_total_bytes (req_manifest request) in
  let retry := s64 (at_ + pol_defer_horizon_ns (policy_ e)) in
  let active := acc_active_sessions (accounting_ e) in
  let available_slots := if active <? pol_max_sessions (policy_ e)
                         then pol_max_sessions (policy_ e) - active else 0 in
  if available_slots =? 0 then
    submit_defer request ReasonCode.FabricSessionLimit "fabric session bound reached" retry total at_ e
  else if workload_active e (req_workload request) >=? wc_max_in_flight_sessions contract then
    submit_defer request ReasonCode.SessionLimitPerWorkload "workload session bound reached"
      retry total at_ e
  else if class_active e isolation >=? iec_max_in_flight_sessions envelope_config then
    submit_defer request ReasonCode.ClassCeilingSaturated "isolation-class session bound reached"
      retry total at_ e
  else
    let rate_plan := plan_rate request contract envelope_config path at_ e in
    if negb (rp_ok rate_plan) then
      if (rp_reason rate_plan =e ReasonCode.RequestedRateUnsupported) ||
         (rp_reason rate_plan =e ReasonCode.DeadlineUnreachable) then
        submit_deny request (rp_reason rate_plan) (rp_detail rate_plan) at_ e
      else submit_defer request (rp_reason rate_plan) (rp_detail rate_plan)
             (default retry (rp_retry_after rate_plan)) total at_ e
    else admit_session request contract isolation path_id (rp_rate_bps rate_plan) targets at_ e.

(** Existing sessions of the checkpoint, then the supersession and size bounds. *)
Definition submit_existing (request : SessionRequest) (contract : WorkloadContract)
    (isolation : IsolationClass) (envelope_config : IsolationEnvelopeConfig) (path : PathClass)
    (path_id : PathClassId) (at_ : Nanos) (e : Engine) : Result AdmissionDecision * Engine :=
  match scan_existing request (default [] (by_checkpoint_ e !! req_checkpoint request))
          (sessions_ e) [] with
  | ScanDeny reason detail => submit_deny request reason detail at_ e
  | ScanDuplicate existing envelope =>
      let decision := make_decision e DecisionKind.Admit ReasonCode.DuplicateCommand
                        "identical checkpoint generation already has an active session"
                        existing at_ in
      (Val (decision <| ad_envelope := Some envelope |>),
       remember_command (req_command request)
         (mkCommand existing DecisionKind.Admit ReasonCode.Admitted_
            (fingerprint_request request) true) e)
  | ScanTargets targets =>
      if negb (Nat.eqb (length targets) 0) && negb (wc_allow_supersession contract) then
        submit_deny request ReasonCode.SupersessionDeniedByPolicy
          "workload contract forbids superseding an active checkpoint generation" at_ e
      else if Z.of_nat (length targets) >? lim_max_supersession_chain (limits_ e) then
        submit_deny request ReasonCode.ResourceLimit
          "supersession chain exceeds the configured bound" at_ e
      else if mf_total_bytes (req_manifest request) >? pol_max_session_bytes (policy_ e) then
        submit_deny request ReasonCode.CheckpointTooLarge
          "checkpoint exceeds the per-session byte bound" at_ e
      else submit_capacity request contract isolation envelope_config path path_id targets at_ e
  end.

(** Contract, manifest, isolation and destination guards. *)
Definition submit_decide (request : SessionRequest) (at_ : Nanos) (e : Engine)
  : Result AdmissionDecision * Engine :=
  if shutting_down_ e then
    submit_deny request ReasonCode.FabricShuttingDown "fabric is shutting down" at_ e
  else
    match contracts_ e !! req_workload request with
    | None => submit_deny request ReasonCode.UnknownWorkload
                "workload contract is not configured" at_ e
    | Some contract =>
      if negb (gen_eqb (req_contract_generation request) (wc_generation contract)) then
        submit_deny request ReasonCode.ContractGenerationStale
          "request carries a workload-contract generation that is not current" at_ e
      else
        let manifest_status := validate_manifest (req_manifest request) (limits_ e) in
        if negb (Status_ok manifest_status) then
          submit_deny request ReasonCode.ManifestInvalid (Status_to_string manifest_status) at_ e
        else if negb (manifest_matches request) then
          submit_deny request ReasonCode.ManifestMismatch
            "manifest identity contradicts the request envelope" at_ e
        else
          let isolation := resolve_isolation (req_requested_isolation request)
                             (wc_isolation contract) in
          match find_envelope (policy_ e) isolation with
          | None => submit_deny request ReasonCode.Internal
                      "isolation class has no configured envelope" at_ e
          | Some envelope_config =>
            match default_path_class_for (topology_ e) (req_destination request) with
            | None => submit_deny request ReasonCode.DestinationNotPermitted
                        "topology has no path class for the requested destination" at_ e
            | Some path_id =>
              if negb (forallb (shard_path_permitted (topology_ e) (req_destination request))
                         (mf_shards (req_manifest request))) then
                submit_deny request ReasonCode.DestinationNotPermitted
                  "shard names a path class that is absent or serves another destination" at_ e
              else
                match find_path_class (topology_ e) path_id with
                | None => submit_deny request ReasonCode.DestinationNotPermitted
                            "topology path class is not resolvable" at_ e
                | Some path =>
                    submit_existing request contract isolation envelope_config path path_id at_ e
                end
            end
          end
    end.

Definition submit_session (request : SessionRequest) (fence : CommandFence) (at_ : Nanos)
    (e : Engine) : Result AdmissionDecision * Engine :=
  let e := begin_command at_ e in
  let verdict := validate_fence fence (fabric_context e (cf_contract_generation fence)) in
  if negb (fv_ok verdict) then
    (Err (fv_status verdict),
     push_event (mkEvent EventKind.FenceRejected id_nil (fv_reason verdict)
                   (st_detail (fv_status verdict)) at_) e)
  else
    let agreement := request_agrees request fence in
    if negb (Status_ok agreement) then (Err agreement, e)
    else
      match command_index_ e !! req_command request with
      | Some record => (submit_replay request record at_ e, e)
      | None => submit_decide request at_ e
      end.

(** ** Revalidation *)

Definition revalidate_failed (id : SessionId) (reason : ReasonCode) (detail : string)
    (at_ : Nanos) (e : Engine) : Result AdmissionDecision * Engine :=
  let e := settle_terminal id SessionState.Failed reason detail at_ e in
  let e := upd_accounting (fun a =>
             a <| acc_sessions_failed := u64 (acc_sessions_failed a + 1) |>) e in
  (Val (make_decision e DecisionKind.Deny reason detail id at_), e).

(** [session.state = Failed; session.stale_reason.clear();] *)
Definition set_failed (s : SessionRecord) : SessionRecord :=
  s <| ses_state := SessionState.Failed |> <| ses_stale_reason := "" |>.

Definition revalidate_admit (id : SessionId) (s : SessionRecord) (contract : WorkloadContract)
    (path_id : PathClassId) (rate_bps : Z) (at_ : Nanos) (e : Engine)
  : Result AdmissionDecision * Engine :=
  let e := release_path_reservation id e in
  let '(reserved, shaper) := reserve_path_rate (shaper_ e) path_id rate_bps in
  if negb reserved then
    (Err (Status_error ErrorCode.ResourceExhausted "path class reservation overflow"), e)
  else
    let e := e <| shaper_ := shaper |> in
    let sequence := u64 (ses_envelope_sequence s + 1) in
    let envelope := build_envelope (ses_request s) (ses_id s) (te_isolation (ses_envelope s))
                      path_id rate_bps (burst_for rate_bps)
                      (wave_width_for contract (policy_ e) (Z.of_nat (length (ses_shards s))))
                      at_ (s64 (at_ + request_horizon (ses_request s) contract)) sequence in
    let e := with_session id (fun s =>
               s <| ses_reserved_path := Some path_id |> <| ses_reserved_rate_bps := rate_bps |>
                 <| ses_envelope_sequence := sequence |> <| ses_envelope := envelope |>
                 <| ses_state := SessionState.Admitted_ |> <| ses_paused := false |>
                 <| ses_stale_reason := "" |> <| ses_updated_at := at_ |>
                 <| ses_last_reason := ReasonCode.Admitted_ |>
                 <| ses_last_detail := "revalidated" |>) e in
    let e := index_deadline (s <| ses_envelope := envelope |>) e in
    let e := note_timeline id at_
               ("revalidated envelope_sequence=" +:+ nat_to_string sequence)%string e in
    let decision := make_decision e DecisionKind.Admit ReasonCode.Admitted_
                      "revalidated under current authority" id at_ in
    (Val (decision <| ad_envelope := Some envelope |>),
     push_event (mkEvent EventKind.SessionAdmitted id ReasonCode.Admitted_ "revalidated" at_) e).

Definition revalidate_decide (id : SessionId) (s : SessionRecord) (at_ : Nanos) (e : Engine)
  : Result AdmissionDecision * Engine :=
  match contracts_ e !! req_workload (ses_request s) with
  | None =>
      revalidate_failed id ReasonCode.UnknownWorkload "workload contract is no longer configured"
        at_ (with_session id set_failed e)
  | Some contract =>
      let path_id := default (mkScalar 0) (te_path_class (ses_envelope s)) in
      match find_envelope (policy_ e) (te_isolation (ses_envelope s)),
            find_path_class (topology_ e) path_id with
      | Some envelope_config, Some path =>
          let rate_plan := plan_rate (ses_request s) contract envelope_config path at_ e in
          if negb (rp_ok rate_plan) then
            if (rp_reason rate_plan =e ReasonCode.RequestedRateUnsupported) ||
               (rp_reason rate_plan =e ReasonCode.DeadlineUnreachable) then
              revalidate_failed id (rp_reason rate_plan) (rp_detail rate_plan) at_
                (mark_all_unproven id (with_session id set_failed e))
            else
              let e := with_session id (fun s =>
                         s <| ses_state := SessionState.Deferred |>
                           <| ses_stale_reason :=
                                ("revalidation deferred: " +:+ rp_detail rate_plan)%string |>
                           <| ses_updated_at := at_ |>) e in
              let decision := make_decision e DecisionKind.Defer (rp_reason rate_plan)
                                (rp_detail rate_plan) id at_ in
              (Val (decision <| ad_retry_after :=
                      Some (default (s64 (at_ + pol_defer_horizon_ns (policy_ e)))
                              (rp_retry_after rate_plan)) |>), e)
          else revalidate_admit id s contract path_id (rp_rate_bps rate_plan) at_ e
      | _, _ =>
          (Val (make_decision e DecisionKind.Defer ReasonCode.DestinationNotPermitted
                  "current topology no longer serves this session's path" id at_), e)
      end
  end.

Definition revalidate_session (id : SessionId) (fence : CommandFence) (at_ : Nanos) (e : Engine)
  : Result AdmissionDecision * Engine :=
  let e := begin_command at_ e in
  match sessions_ e !! id with
  | None => (Err (Status_error ErrorCode.NotFound "session is not known to this incarnation"), e)
  | Some s =>
      let contract_generation :=
        match contracts_ e !! req_workload (ses_request s) with
        | None => mkGen 0
        | Some c => wc_generation c
        end in
      let verdict := validate_fence fence (fabric_context e contract_generation) in
      if negb (fv_ok verdict) then
        (Err (fv_status verdict),
         push_event (mkEvent EventKind.FenceRejected id (fv_reason verdict)
                       (st_detail (fv_status verdict)) at_) e)
      else
        let checkpoint_status := validate_checkpoint_generation s fence in
        if negb (Status_ok checkpoint_status) then (Err checkpoint_status, e)
        else if negb (ses_state s =e SessionState.RevalidationRequired) &&
                negb (ses_state s =e SessionState.Deferred) then
          (Err (Status_error ErrorCode.InvalidStateTransition
                  "session does not require revalidation"), e)
        else if shutting_down_ e then
          (Err (Status_error ErrorCode.ShuttingDown "fabric is shutting down"), e)
        else revalidate_decide id s at_ e
  end.
