(* ===== verification/EngineLifecycle.v ===== *)
(** * EngineLifecycle: pause, resume, cancel and wave credit

    Models [pause_session], [resume_session], [cancel_session] and
    [request_wave] of [src/engine.cpp]. *)

From stdpp Require Import base gmap list strings.
From S2P Require Import Prelude Status Ids Hash Enums Model Fence Shaper EngineState.
From S2P Require Import EngineAuthority EngineAdmission.

Definition not_known : Status := Status_error ErrorCode.NotFound "session is not known".

Definition pause_session (id : SessionId) (fence : CommandFence) (reason : string) (at_ : Nanos)
    (e : Engine) : Status * Engine :=
  let e := begin_command at_ e in
  match sessions_ e !! id with
  | None => (not_known, e)
  | Some s =>
      let fence_status := check_fence_status fence e in
      if negb (Status_ok fence_status) then (fence_status, e)
      else
        let workload_status := validate_workload_fence s fence e in
        if negb (Status_ok workload_status) then (workload_status, e)
        else if is_terminal (ses_state s) then
          (Status_error ErrorCode.InvalidStateTransition "session is already terminal", e)
        else if ses_state s =e SessionState.RevalidationRequired then
          (Status_error ErrorCode.RevalidationRequired
             "session must be revalidated before it can be paused", e)
        else if ses_paused s then
          (Status_error ErrorCode.AlreadyExists "session is already paused", e)
        else
          let e := with_session id (fun s =>
                     settle_reason ReasonCode.Admitted_ reason
                       (s <| ses_paused := true |> <| ses_paused_from := ses_state s |>
                          <| ses_state := SessionState.Paused |> <| ses_updated_at := at_ |>)) e in
          let e := note_timeline id at_ "paused" e in
          (Status_success,
           push_event (mkEvent EventKind.SessionPaused id ReasonCode.Admitted_ "paused" at_) e)
  end.

Definition resume_session (id : SessionId) (fence : CommandFence) (at_ : Nanos) (e : Engine)
  : Status * Engine :=
  let e := begin_command at_ e in
  match sessions_ e !! id with
  | None => (not_known, e)
  | Some s =>
      let fence_status := check_fence_status fence e in
      if negb (Status_ok fence_status) then (fence_status, e)
      else
        let workload_status := validate_workload_fence s fence e in
        if negb (Status_ok workload_status) then (workload_status, e)
        else if negb (ses_paused s) then
          (Status_error ErrorCode.InvalidStateTransition "session is not paused", e)
        else
          let e := with_session id (fun s =>
                     s <| ses_paused := false |> <| ses_state := ses_paused_from s |>
                       <| ses_updated_at := at_ |>) e in
          let e := note_timeline id at_ "resumed" e in
          (Status_success,
           push_event (mkEvent EventKind.SessionResumed id ReasonCode.Admitted_ "resumed" at_) e)
  end.

Definition cancel_session (id : SessionId) (fence : CommandFence) (reason : ReasonCode)
    (detail : string) (at_ : Nanos) (e : Engine) : Status * Engine :=
  let e := begin_command at_ e in
  match sessions_ e !! id with
  | None => (not_known, e)
  | Some s =>
      let fence_status := check_fence_status fence e in
      if negb (Status_ok fence_status) then (fence_status, e)
      else if is_terminal (ses_state s) then
        (Status_error ErrorCode.InvalidStateTransition "session is already terminal", e)
      else
        let e := settle_outstanding_as_cancelled id e in
        let e := settle_terminal id SessionState.Cancelled reason detail at_ e in
        let e := upd_accounting (fun a =>
                   a <| acc_sessions_cancelled := u64 (acc_sessions_cancelled a + 1) |>) e in
        let e := note_timeline id at_
                   ("cancelled reason=" +:+ ReasonCode.to_string reason)%string e in
        (Status_success,
         push_event (mkEvent EventKind.SessionCancelled id reason "cancelled" at_) e)
  end.

(** ** Wave credit *)

Definition wave_deferred (reason : ReasonCode) (detail : string) (retry_after : Nanos) (at_ : Nanos)
  : Result WaveOutcome := Val (mkWaveOutcome false reason detail None (Some retry_after) at_).

(** The guards on the session, in the code's order. *)
Definition wave_session_guard (s : SessionRecord) (fence : CommandFence) (at_ : Nanos) (e : Engine)
  : Status :=
  seq_status (check_fence_status fence e)
  (seq_status (validate_workload_fence s fence e)
  (seq_status (validate_checkpoint_generation s fence)
     (if (ses_state s =e SessionState.RevalidationRequired) ||
         (ses_state s =e SessionState.Deferred) then
        Status_error ErrorCode.RevalidationRequired
          "session must be revalidated before requesting credit"
      else if ses_paused s || (ses_state s =e SessionState.Paused) then
        Status_error ErrorCode.Deferred "session is paused"
      else if is_terminal (ses_state s) then
        match ses_superseded_by s with
        | Some _ => Status_error ErrorCode.Superseded
                      "session was superseded by a newer checkpoint generation"
        | None => Status_error ErrorCode.InvalidStateTransition
                    "session is terminal and cannot be granted credit"
        end
      else if at_ >=? te_deadline_target (ses_envelope s) then
        Status_error ErrorCode.DeadlineUnreachable "checkpoint deadline has elapsed"
      else Status_success))).

Definition unsettled_attempt (s : SessionRecord) (shard : ShardRecord) : bool :=
  match shr_attempt shard with
  | None => false
  | Some a => match find_attempt (ses_attempts s) a with
              | Some (_, previous) => atr_outstanding previous
              | None => false
              end
  end.

(** The guards on the shard. *)
Definition wave_shard_guard (s : SessionRecord) (shard : ShardRecord) (fence : CommandFence)
  : Status :=
  if (shr_state shard =e ShardState.Verified) || (shr_state shard =e ShardState.Transferred) then
    Status_error ErrorCode.InvalidStateTransition "shard already reached its transfer target"
  else if shr_state shard =e ShardState.Ambiguous then
    Status_error ErrorCode.AmbiguousOutcome
      "shard outcome is ambiguous; resend the shard is refused until it is resolved by verification or cancellation"
  else if match cf_attempt_sequence fence, shr_attempt shard with
          | Some q, Some _ => negb (gen_eqb q (shr_sequence shard))
          | _, _ => false
          end then
    Status_error ErrorCode.StaleAttempt
      "command carries an attempt sequence older than the shard's attempt"
  else if unsettled_attempt s shard then
    Status_error ErrorCode.AmbiguousOutcome
      "shard has an unsettled attempt; report its evidence or mark it ambiguous first"
  else Status_success.

Definition shard_remaining (shard : ShardRecord) : Z :=
  if shr_declared_bytes shard >? shr_transferred_bytes shard
  then shr_declared_bytes shard - shr_transferred_bytes shard else 0.

(** The session after a grant of [chunk] bytes to the shard at [pos]. *)
Definition grant_rec (bound : Z) (pos : nat) (shard : ShardRecord) (grant : WaveGrant) (chunk : Z)
    (at_ : Nanos) (s : SessionRecord) : SessionRecord :=
  let attempt := mkAttempt (wg_attempt grant) (wg_sequence grant) (wg_shard grant) (wg_wave grant)
                   AttemptOutcome.InFlight chunk 0 Digest_default false true at_ at_ in
  let s := s <| ses_attempt_counter := gen_value (wg_sequence grant) |>
             <| ses_attempts := keep_last bound (ses_attempts s ++ [attempt]) |>
             <| ses_shards := <[pos := shard <| shr_state := ShardState.InFlight |>
                                             <| shr_sequence := wg_sequence grant |>
                                             <| shr_attempt := Some (wg_attempt grant) |>
                                             <| shr_granted_bytes := chunk |>]> (ses_shards s) |>
             <| ses_active_attempts := u32 (ses_active_attempts s + 1) |> in
  let s := if (ses_state s =e SessionState.Admitted_) || (ses_state s =e SessionState.SourceComplete)
           then s <| ses_state := SessionState.Transferring |> else s in
  s <| ses_updated_at := at_ |>.

(** Issue the grant once the shaper has consumed [chunk] bytes of credit. *)
Definition issue_grant (id : SessionId) (s : SessionRecord) (shard_index : ShardIndex) (pos : nat)
    (shard : ShardRecord) (chunk : Z) (at_ : Nanos) (e : Engine) : Result WaveOutcome * Engine :=
  let '(uuid, factory) := IdFactory_next (id_factory_ e) in
  let e := e <| id_factory_ := factory |> in
  let sequence := mkGen (u64 (ses_attempt_counter s + 1)) in
  let wave := default (mkScalar 0) (wave_for_shard (te_waves (ses_envelope s)) shard_index) in
  let grant := mkWaveGrant id (mkId uuid) sequence shard_index wave chunk
                 (te_rate_bps (ses_envelope s)) (te_burst_bytes (ses_envelope s)) at_
                 (s64 (at_ + kNanosPerSecond)) (epoch_ e) in
  let e := with_session id (grant_rec (timeline_bound e) pos shard grant chunk at_) e in
  let e := upd_accounting (fun a =>
             a <| acc_active_attempts := u32 (acc_active_attempts a + 1) |>) e in
  let e := note_timeline id at_
             ("grant shard=" +:+ sc_to_string shard_index +:+ " bytes=" +:+ nat_to_string chunk +:+
              " attempt=" +:+ id_to_string (wg_attempt grant))%string e in
  (Val (mkWaveOutcome true ReasonCode.Admitted_ "" (Some grant) None at_),
   push_event (mkEvent EventKind.WaveGranted id ReasonCode.Admitted_
                 ("granted " +:+ nat_to_string chunk +:+ " bytes")%string at_) e).

(** Credit: the class bucket first, then both buckets. *)
Definition wave_credit (id : SessionId) (s : SessionRecord) (shard_index : ShardIndex) (pos : nat)
    (shard : ShardRecord) (at_ : Nanos) (e : Engine) : Result WaveOutcome * Engine :=
  let remaining := shard_remaining shard in
  if remaining =? 0 then
    (Err (Status_error ErrorCode.InvalidStateTransition "shard has no bytes left to grant"), e)
  else
    let useful := Z.min remaining kMinGrantChunk in
    let isolation := te_isolation (ses_envelope s) in
    let '(available, shaper) := class_tokens_at (shaper_ e) isolation at_ in
    let e := e <| shaper_ := shaper |> in
    if available <? useful then
      let '(wait, shaper) := class_time_until_at (shaper_ e) isolation useful at_ in
      let e := e <| shaper_ := shaper |> in
      let detail := "isolation-class credit is below the minimum useful grant"%string in
      (wave_deferred ReasonCode.ClassCeilingSaturated detail (s64 (at_ + wait)) at_,
       push_event (mkEvent EventKind.SessionDeferred id ReasonCode.ClassCeilingSaturated detail at_) e)
    else
      let chunk := Z.min (Z.min remaining kMaxGrantChunk) available in
      let '(verdict, shaper) := shaper_try_consume (shaper_ e) isolation
                                  (req_workload (ses_request s)) chunk at_ in
      let e := e <| shaper_ := shaper |> in
      if negb (sv_admitted verdict) then
        (wave_deferred (sv_reason verdict) (sv_detail verdict) (sv_retry_after verdict) at_,
         push_event (mkEvent EventKind.SessionDeferred id (sv_reason verdict) (sv_detail verdict) at_) e)
      else issue_grant id s shard_index pos shard chunk at_ e.

Definition request_wave (id : SessionId) (shard_index : ShardIndex) (fence : CommandFence)
    (at_ : Nanos) (e : Engine) : Result WaveOutcome * Engine :=
  let e := begin_command at_ e in
  match sessions_ e !! id with
  | None => (Err not_known, e)
  | Some s =>
      let guard := wave_session_guard s fence at_ e in
      if negb (Status_ok guard) then (Err guard, e)
      else if acc_active_attempts (accounting_ e) >=? pol_max_attempts_in_flight (policy_ e) then
        (wave_deferred ReasonCode.ResourceLimit "fabric attempt bound reached"
           (s64 (at_ + pol_defer_horizon_ns (policy_ e))) at_, e)
      else
        match shard_position (ses_shards s) shard_index with
        | None => (Err (Status_error ErrorCode.NotFound "session manifest has no such shard"), e)
        | Some pos =>
            match ses_shards s !! pos with
            | None => (Err (Status_error ErrorCode.NotFound "session manifest has no such shard"), e)
            | Some shard =>
                let shard_guard := wave_shard_guard s shard fence in
                if negb (Status_ok shard_guard) then (Err shard_guard, e)
                else wave_credit id s shard_index pos shard at_ e
            end
        end
  end.
