(* ===== verification/EngineEvidence.v ===== *)
(** * EngineEvidence: evidence correlation

    Models [report_source_complete], [report_transfer], [report_verification],
    [report_ambiguous] and [record_durability_assertion] of [src/engine.cpp]. *)

From stdpp Require Import base gmap list strings.
From S2P Require Import Prelude Status Ids Hash Enums Model Fence Shaper EngineState.
From S2P Require Import EngineAuthority EngineAdmission EngineLifecycle.

(** The guards shared by the three evidence reports: the session exists, the
    fence and the contract generation are current, the session is not terminal. *)
Definition evidence_guard (s : SessionRecord) (fence : CommandFence) (stale : string) (e : Engine)
  : Status :=
  seq_status (check_fence_status fence e)
  (seq_status (validate_workload_fence s fence e)
     (if is_terminal (ses_state s) then Status_error ErrorCode.InvalidStateTransition stale
      else Status_success)).

Definition no_such_shard : Status :=
  Status_error ErrorCode.NotFound "session manifest has no such shard".

(** The shard a report names, with its position. *)
Definition locate_shard (s : SessionRecord) (index : ShardIndex) : option (nat * ShardRecord) :=
  match shard_position (ses_shards s) index with
  | None => None
  | Some pos => match ses_shards s !! pos with None => None | Some sh => Some (pos, sh) end
  end.

Definition set_shard (pos : nat) (sh : ShardRecord) (s : SessionRecord) : SessionRecord :=
  s <| ses_shards := <[pos := sh]> (ses_shards s) |>.
Definition set_attempt (pos : nat) (a : AttemptRecord) (s : SessionRecord) : SessionRecord :=
  s <| ses_attempts := <[pos := a]> (ses_attempts s) |>.

(** Recompute progress and log a completion that this report caused. *)
Definition settle_progress (id : SessionId) (at_ : Nanos) (e : Engine) : Engine :=
  let e := recompute_progress id at_ e in
  match sessions_ e !! id with
  | None => touch_dangling e
  | Some s =>
      if ses_state s =e SessionState.TrafficSessionComplete then
        let e := note_timeline id at_ "completed" e in
        push_event (mkEvent EventKind.SessionCompleted (ses_id s) ReasonCode.Admitted_
                      "traffic session complete" at_) e
      else e
  end.

(** [if (session.active_attempts > 0) { --session...; --accounting...; }] *)
Definition drop_active_attempt (s : SessionRecord) (a : AccountingSnapshot)
  : SessionRecord * AccountingSnapshot :=
  if ses_active_attempts s >? 0 then
    (s <| ses_active_attempts := ses_active_attempts s - 1 |>,
     a <| acc_active_attempts := u32 (acc_active_attempts a - 1) |>)
  else (s, a).

(** ** Source completion *)

Definition source_complete_rec (pos : nat) (sh : ShardRecord) (bytes : Z) (at_ : Nanos)
    (s : SessionRecord) : SessionRecord :=
  let sh := sh <| shr_source_complete := true |> <| shr_source_bytes := bytes |> in
  let sh := if (shr_state sh =e ShardState.Pending) || (shr_state sh =e ShardState.Granted)
            then sh <| shr_state := ShardState.InFlight |> else sh in
  let s := set_shard pos sh s in
  s <| ses_source_complete := forallb shr_source_complete (ses_shards s) |>
    <| ses_updated_at := at_ |>.

Definition report_source_complete (ev : SourceCompleteEvidence) (fence : CommandFence) (at_ : Nanos)
    (e : Engine) : Status * Engine :=
  let e := begin_command at_ e in
  let id := sce_session ev in
  match sessions_ e !! id with
  | None => (not_known, e)
  | Some s =>
      let guard := evidence_guard s fence "session is terminal; source-complete evidence is stale" e in
      if negb (Status_ok guard) then (guard, e)
      else
        match locate_shard s (sce_shard ev) with
        | None => (no_such_shard, e)
        | Some (pos, sh) =>
            if sce_source_bytes ev >? shr_declared_bytes sh then
              (Status_error ErrorCode.ImpossibleState
                 "source-complete evidence exceeds the declared shard size", e)
            else if shr_source_complete sh && negb (shr_source_bytes sh =? sce_source_bytes ev) then
              (Status_error ErrorCode.ImpossibleState
                 "source-complete evidence contradicts a previous report", e)
            else
              let e := with_session id (source_complete_rec pos sh (sce_source_bytes ev) at_) e in
              let e := settle_progress id at_ e in
              (Status_success,
               push_event (mkEvent EventKind.SourceCompleteObserved (ses_id s) ReasonCode.Admitted_
                             ("source complete for shard " +:+ sc_to_string (sce_shard ev))%string
                             at_) e)
        end
  end.

(** ** Transfer evidence *)

(** The refusal an attempt's recorded outcome causes, if any. *)
Definition transfer_outcome_guard (o : AttemptOutcome) : Status :=
  match o with
  | AttemptOutcome.Ambiguous =>
      Status_error ErrorCode.AmbiguousOutcome "attempt outcome is already recorded as ambiguous"
  | AttemptOutcome.Failed =>
      Status_error ErrorCode.InvalidStateTransition "attempt already failed; its evidence is stale"
  | AttemptOutcome.Released | AttemptOutcome.Superseded =>
      Status_error ErrorCode.StaleEvidence
        "attempt was released or superseded; its evidence is stale"
  | AttemptOutcome.Granted | AttemptOutcome.InFlight | AttemptOutcome.DeliveredUnacked
  | AttemptOutcome.DeliveredAcked | AttemptOutcome.Verified => Status_success
  end.

(** The attempt after the evidence is recorded, before the acknowledgement. *)
Definition observe_attempt (ev : TransferEvidence) (at_ : Nanos) (a : AttemptRecord) : AttemptRecord :=
  a <| atr_delivered_bytes := tev_arrived_bytes ev |>
    <| atr_observed_digest := tev_arrived_digest ev |>
    <| atr_has_observed_digest := true |> <| atr_updated_at := at_ |>.

(** Book [newly] acknowledged bytes on the session, its shard and attempt, and
    the aggregate accounting. *)
Definition acknowledge_rec (ev : TransferEvidence) (newly : Z) (pos : nat) (sh : ShardRecord)
    (apos : nat) (att : AttemptRecord) (s : SessionRecord) (a : AccountingSnapshot)
  : SessionRecord * AccountingSnapshot :=
  let att := att <| atr_outcome := AttemptOutcome.DeliveredAcked |> <| atr_outstanding := false |> in
  let sh := sh <| shr_transferred_bytes := u64 (shr_transferred_bytes sh + newly) |>
               <| shr_observed_digest := tev_arrived_digest ev |>
               <| shr_has_observed_digest := true |> in
  let sh := if (shr_transferred_bytes sh >=? shr_declared_bytes sh) &&
               negb (shr_state sh =e ShardState.Verified)
            then sh <| shr_state := ShardState.Transferred |> else sh in
  let s := set_shard pos sh (set_attempt apos att s) in
  let s := s <| ses_outstanding_bytes :=
                  if newly >? ses_outstanding_bytes s then 0 else ses_outstanding_bytes s - newly |>
             <| ses_transferred_bytes := u64 (ses_transferred_bytes s + newly) |> in
  let a := a <| acc_granted_outstanding_bytes :=
                  acc_granted_outstanding_bytes a - Z.min newly (acc_granted_outstanding_bytes a) |>
             <| acc_bytes_transferred := u64 (acc_bytes_transferred a + newly) |> in
  drop_active_attempt s a.

Definition transfer_apply (ev : TransferEvidence) (s : SessionRecord) (pos : nat) (sh : ShardRecord)
    (apos : nat) (att : AttemptRecord) (at_ : Nanos) (e : Engine) : Status * Engine :=
  let id := tev_session ev in
  let newly := tev_arrived_bytes ev - atr_delivered_bytes att in
  let att := observe_attempt ev at_ att in
  let e := with_session id (set_attempt apos att) e in
  if tev_sink_acknowledged ev && (newly >? ses_outstanding_bytes s) then
    (Status_error ErrorCode.ImpossibleState
       "transfer evidence exceeds the session's outstanding authority", e)
  else
    let e := if tev_sink_acknowledged ev
             then upd_both id (acknowledge_rec ev newly pos sh apos att) e
             else with_session id
                    (set_attempt apos (att <| atr_outcome := AttemptOutcome.DeliveredUnacked |>)) e in
    let e := settle_progress id at_ e in
    (Status_success,
     push_event (mkEvent EventKind.TransferObserved (ses_id s) ReasonCode.Admitted_
                   (if tev_sink_acknowledged ev then "transfer acknowledged by sink"
                    else "bytes observed without sink acknowledgement") at_) e).

Definition report_transfer (ev : TransferEvidence) (fence : CommandFence) (at_ : Nanos) (e : Engine)
  : Status * Engine :=
  let e := begin_command at_ e in
  match sessions_ e !! tev_session ev with
  | None => (not_known, e)
  | Some s =>
      let guard := evidence_guard s fence "session is terminal; transfer evidence is stale" e in
      if negb (Status_ok guard) then (guard, e)
      else
        match locate_shard s (tev_shard ev) with
        | None => (no_such_shard, e)
        | Some (pos, sh) =>
            if negb (shr_attempt sh =e Some (tev_attempt ev)) then
              (Status_error ErrorCode.StaleAttempt
                 "transfer evidence names an attempt that is not current for this shard", e)
            else
              match find_attempt (ses_attempts s) (tev_attempt ev) with
              | None => (Status_error ErrorCode.NotFound "attempt is not known", e)
              | Some (apos, att) =>
                  let outcome_guard := transfer_outcome_guard (atr_outcome att) in
                  if negb (gen_eqb (atr_sequence att) (tev_sequence ev)) then
                    (Status_error ErrorCode.StaleAttempt
                       "transfer evidence carries a stale attempt sequence", e)
                  else if negb (Status_ok outcome_guard) then (outcome_guard, e)
                  else if tev_arrived_bytes ev >? atr_granted_bytes att then
                    (Status_error ErrorCode.ImpossibleState
                       "transfer evidence exceeds the granted byte budget", e)
                  else if atr_delivered_bytes att >? tev_arrived_bytes ev then
                    (Status_error ErrorCode.ImpossibleState
                       "transfer evidence would reduce delivered bytes for this attempt", e)
                  else transfer_apply ev s pos sh apos att at_ e
              end
        end
  end.

(** ** Verification evidence *)

(** A verification that fails the session: the shard and attempt are failed,
    the session is settled and counted. *)
Definition verification_failed (id : SessionId) (pos apos : nat) (sh : ShardRecord)
    (att : AttemptRecord) (detail : string) (at_ : Nanos) (e : Engine) : Engine :=
  let e := with_session id (fun s =>
             set_attempt apos (att <| atr_outcome := AttemptOutcome.Failed |>)
               (set_shard pos (sh <| shr_state := ShardState.Failed |>) s)) e in
  let e := settle_terminal id SessionState.Failed ReasonCode.VerificationMismatch detail at_ e in
  upd_accounting (fun a => a <| acc_sessions_failed := u64 (acc_sessions_failed a + 1) |>) e.

(** Reading [session.id] for an event after [settle_terminal]. *)
Definition read_through (id : SessionId) (e : Engine) : Engine :=
  match events_ e, sessions_ e !! id with
  | Some _, None => touch_dangling e
  | _, _ => e
  end.

Definition verified_rec (ev : VerificationEvidence) (pos apos : nat) (sh : ShardRecord)
    (att : AttemptRecord) (s : SessionRecord) (a : AccountingSnapshot)
  : SessionRecord * AccountingSnapshot :=
  let delta := if vev_verified_bytes ev >? shr_verified_bytes sh
               then vev_verified_bytes ev - shr_verified_bytes sh else 0 in
  let sh := sh <| shr_verified_bytes := vev_verified_bytes ev |>
               <| shr_observed_digest := vev_verified_digest ev |>
               <| shr_has_observed_digest := true |> <| shr_state := ShardState.Verified |> in
  let s := set_attempt apos (att <| atr_outcome := AttemptOutcome.Verified |>) (set_shard pos sh s) in
  (s <| ses_verified_bytes := u64 (ses_verified_bytes s + delta) |>,
   a <| acc_bytes_verified := u64 (acc_bytes_verified a + delta) |>).

Definition verify_success (ev : VerificationEvidence) (s : SessionRecord) (pos : nat)
    (sh : ShardRecord) (apos : nat) (att : AttemptRecord) (at_ : Nanos) (e : Engine)
  : Status * Engine :=
  let id := vev_session ev in
  if negb (vev_verified_bytes ev =? shr_declared_bytes sh) then
    let detail := "verified byte count does not match the declared shard size"%string in
    (Status_error ErrorCode.VerificationMismatch detail,
     verification_failed id pos apos sh att detail at_ e)
  else if negb (Digest_is_zero (shr_declared_digest sh)) &&
          negb (Digest_eqb (vev_verified_digest ev) (shr_declared_digest sh)) then
    let detail := "destination digest does not match the declared digest"%string in
    let e := read_through id (verification_failed id pos apos sh att detail at_ e) in
    (Status_error ErrorCode.VerificationMismatch detail,
     push_event (mkEvent EventKind.VerificationObserved (ses_id s) ReasonCode.VerificationMismatch
                   "digest mismatch at destination" at_) e)
  else
    let e := upd_both id (verified_rec ev pos apos sh att) e in
    let e := settle_progress id at_ e in
    (Status_success,
     push_event (mkEvent EventKind.VerificationObserved (ses_id s) ReasonCode.Admitted_
                   ("verification observed for shard " +:+ sc_to_string (vev_shard ev))%string at_) e).

(** Truncation: the shard is re-armed; its arrived bytes are wasted and
    admitted again for the retry. *)
Definition truncated_rec (pos apos : nat) (sh : ShardRecord) (att : AttemptRecord) (at_ : Nanos)
    (s : SessionRecord) (a : AccountingSnapshot) : SessionRecord * AccountingSnapshot :=
  let already := shr_transferred_bytes sh in
  let sh := sh <| shr_state := ShardState.Pending |> <| shr_sequence := mkGen 0 |>
               <| shr_transferred_bytes := 0 |> <| shr_granted_bytes := 0 |>
               <| shr_attempt := None |> in
  let was_outstanding := atr_outstanding att in
  let att := att <| atr_outcome := AttemptOutcome.Failed |> <| atr_outstanding := false |> in
  let s := set_attempt apos att (set_shard pos sh s) in
  let '(s, a) := if was_outstanding then drop_active_attempt s a else (s, a) in
  (s <| ses_transferred_bytes :=
          if ses_transferred_bytes s >? already then ses_transferred_bytes s - already else 0 |>
     <| ses_wasted_bytes := u64 (ses_wasted_bytes s + already) |>
     <| ses_outstanding_bytes := u64 (ses_outstanding_bytes s + already) |>
     <| ses_admitted_bytes := u64 (ses_admitted_bytes s + already) |>
     <| ses_updated_at := at_ |>,
   a <| acc_bytes_transferred :=
          acc_bytes_transferred a - Z.min already (acc_bytes_transferred a) |>
     <| acc_bytes_wasted := u64 (acc_bytes_wasted a + already) |>
     <| acc_granted_outstanding_bytes := u64 (acc_granted_outstanding_bytes a + already) |>
     <| acc_bytes_admitted := u64 (acc_bytes_admitted a + already) |>).

Definition verify_truncated (ev : VerificationEvidence) (s : SessionRecord) (pos : nat)
    (sh : ShardRecord) (apos : nat) (att : AttemptRecord) (at_ : Nanos) (e : Engine) : Engine :=
  let id := vev_session ev in
  let e := upd_both id (truncated_rec pos apos sh att at_) e in
  let e := note_timeline id at_
             ("shard " +:+ sc_to_string (vev_shard ev) +:+ " truncated; retry permitted")%string e in
  let e := recompute_progress id at_ e in
  push_event (mkEvent EventKind.VerificationObserved (ses_id s) ReasonCode.VerificationMismatch
                "truncated transfer; shard re-armed" at_) (read_through id e).

(** The sink could not say what happened. *)
Definition ambiguous_rec (pos apos : nat) (sh : ShardRecord) (att : AttemptRecord) (at_ : Nanos)
    (s : SessionRecord) (a : AccountingSnapshot) : SessionRecord * AccountingSnapshot :=
  let s := set_attempt apos (att <| atr_outcome := AttemptOutcome.Ambiguous |>
                                 <| atr_outstanding := false |>)
             (set_shard pos (sh <| shr_state := ShardState.Ambiguous |>) s) in
  let '(s, a) := drop_active_attempt s a in
  let '(s, a) := mark_unproven_rec (attempt_shortfall att) s a in
  (settle_reason ReasonCode.AmbiguousSinkOutcome "destination outcome is ambiguous"
     (s <| ses_updated_at := at_ |>), a).

Definition verify_ambiguous (ev : VerificationEvidence) (s : SessionRecord) (pos : nat)
    (sh : ShardRecord) (apos : nat) (att : AttemptRecord) (at_ : Nanos) (e : Engine) : Engine :=
  let id := vev_session ev in
  let e := upd_both id (ambiguous_rec pos apos sh att at_) e in
  let e := note_timeline id at_
             ("shard " +:+ sc_to_string (vev_shard ev) +:+
              " outcome ambiguous; unproven bytes recorded")%string e in
  let e := recompute_progress id at_ e in
  push_event (mkEvent EventKind.AmbiguityRecorded (ses_id s) ReasonCode.AmbiguousSinkOutcome
                "destination outcome is ambiguous" at_) (read_through id e).

Definition verification_apply (ev : VerificationEvidence) (s : SessionRecord) (pos : nat)
    (sh : ShardRecord) (apos : nat) (att : AttemptRecord) (at_ : Nanos) (e : Engine)
  : Status * Engine :=
  match vev_outcome ev with
  | VerificationOutcome.Verified => verify_success ev s pos sh apos att at_ e
  | VerificationOutcome.DigestMismatch =>
      let e := read_through (vev_session ev)
                 (verification_failed (vev_session ev) pos apos sh att
                    "destination reported a digest mismatch" at_ e) in
      (Status_success,
       push_event (mkEvent EventKind.VerificationObserved (ses_id s) ReasonCode.VerificationMismatch
                     "digest mismatch" at_) e)
  | VerificationOutcome.Truncated => (Status_success, verify_truncated ev s pos sh apos att at_ e)
  | VerificationOutcome.Ambiguous | VerificationOutcome.Rejected =>
      (Status_success, verify_ambiguous ev s pos sh apos att at_ e)
  end.

Definition report_verification (ev : VerificationEvidence) (fence : CommandFence) (at_ : Nanos)
    (e : Engine) : Status * Engine :=
  let e := begin_command at_ e in
  match sessions_ e !! vev_session ev with
  | None => (not_known, e)
  | Some s =>
      let guard := evidence_guard s fence "session is terminal; verification evidence is stale" e in
      if negb (Status_ok guard) then (guard, e)
      else
        match locate_shard s (vev_shard ev) with
        | None => (no_such_shard, e)
        | Some (pos, sh) =>
            let stale := Status_error ErrorCode.StaleAttempt
                           "verification evidence carries a stale attempt sequence" in
            if negb (shr_attempt sh =e Some (vev_attempt ev)) then
              (Status_error ErrorCode.StaleAttempt
                 "verification evidence names an attempt that is not current", e)
            else
              match find_attempt (ses_attempts s) (vev_attempt ev) with
              | None => (stale, e)
              | Some (apos, att) =>
                  let acked := (atr_outcome att =e AttemptOutcome.DeliveredAcked) ||
                               (atr_outcome att =e AttemptOutcome.Verified) in
                  if negb (gen_eqb (atr_sequence att) (vev_sequence ev)) then (stale, e)
                  else if negb acked && (vev_outcome ev =e VerificationOutcome.Verified) then
                    (Status_error ErrorCode.StaleEvidence
                       "verification claims success for bytes the fabric never saw arrive", e)
                  else verification_apply ev s pos sh apos att at_ e
              end
        end
  end.

(** ** Ambiguity reports and durability assertions *)

Definition mark_ambiguous_shard (att : AttemptRecord) (s : SessionRecord) : SessionRecord :=
  match locate_shard s (atr_shard att) with
  | None => s
  | Some (pos, sh) =>
      if negb (shr_state sh =e ShardState.Verified) && negb (shr_state sh =e ShardState.Transferred)
      then set_shard pos (sh <| shr_state := ShardState.Ambiguous |>) s else s
  end.

Definition report_ambiguous_rec (apos : nat) (att : AttemptRecord) (cause : string) (at_ : Nanos)
    (s : SessionRecord) (a : AccountingSnapshot) : SessionRecord * AccountingSnapshot :=
  let was_outstanding := atr_outstanding att in
  let '(s, a) := if was_outstanding then drop_active_attempt s a else (s, a) in
  let s := mark_ambiguous_shard att s in
  let s := set_attempt apos (att <| atr_outstanding := false |>
                                 <| atr_outcome := AttemptOutcome.Ambiguous |>
                                 <| atr_updated_at := at_ |>) s in
  let '(s, a) := mark_unproven_rec (attempt_shortfall att) s a in
  (settle_reason ReasonCode.AmbiguousSinkOutcome cause (s <| ses_updated_at := at_ |>), a).

Definition report_ambiguous (id : SessionId) (attempt_id : TransferAttemptId)
    (sequence : AttemptSequence) (cause : string) (fence : CommandFence) (at_ : Nanos) (e : Engine)
  : Status * Engine :=
  let e := begin_command at_ e in
  match sessions_ e !! id with
  | None => (not_known, e)
  | Some s =>
      let fence_status := check_fence_status fence e in
      if negb (Status_ok fence_status) then (fence_status, e)
      else if is_terminal (ses_state s) then
        (Status_error ErrorCode.InvalidStateTransition
           "session is terminal; ambiguity report is stale", e)
      else
        match find_attempt (ses_attempts s) attempt_id with
        | None => (Status_error ErrorCode.NotFound "attempt is not known", e)
        | Some (apos, att) =>
            if negb (gen_eqb (atr_sequence att) sequence) then
              (Status_error ErrorCode.StaleAttempt "ambiguity report carries a stale sequence", e)
            else
              let e := upd_both id (report_ambiguous_rec apos att cause at_) e in
              let e := note_timeline id at_ ("ambiguity recorded: " +:+ cause)%string e in
              let e := recompute_progress id at_ e in
              (Status_success,
               push_event (mkEvent EventKind.AmbiguityRecorded id ReasonCode.AmbiguousSinkOutcome
                             cause at_) e)
        end
  end.

Definition record_durability_assertion (id : SessionId) (assertion : DurabilityAssertion)
    (fence : CommandFence) (at_ : Nanos) (e : Engine) : Status * Engine :=
  let e := e <| commands_processed_ := u64 (commands_processed_ e + 1) |> in
  match sessions_ e !! id with
  | None => (not_known, e)
  | Some s =>
      let fence_status := check_fence_status fence e in
      if negb (Status_ok fence_status) then (fence_status, e)
      else if (da_status assertion =e DurabilityStatus.ExternallyAsserted) &&
              (Nat.eqb (String.length (da_backend_identity assertion)) 0 ||
               (Z.of_nat (String.length (da_backend_identity assertion)) >?
                  lim_max_string_bytes (limits_ e))) then
        (Status_error ErrorCode.InvalidArgument
           "durability assertion must name a bounded backend identity", e)
      else if (da_status assertion =e DurabilityStatus.ExternallyAsserted) &&
              negb (ses_evidence s =e EvidenceLevel.VerifiedAtDestination) &&
              negb (ses_evidence s =e EvidenceLevel.Transferred) then
        (Status_error ErrorCode.NotDurable
           "durability cannot be asserted before destination evidence exists", e)
      else
        let assertion := assertion <| da_observed_at := at_ |> in
        let e := with_session id (fun s =>
                   s <| ses_durability := assertion |> <| ses_updated_at := at_ |>) e in
        let e := note_timeline id at_
                   ("durability assertion recorded: " +:+
                    DurabilityStatus.to_string (da_status assertion) +:+ " backend=" +:+
                    da_backend_identity assertion)%string e in
        (Status_success,
         push_event (mkEvent EventKind.DurabilityAsserted id ReasonCode.Admitted_
                       "external durability assertion recorded" at_) e)
  end.
