(* ===== verification/EngineInspect.v ===== *)
(** * EngineInspect: inspection, self-check and shutdown

    Models [view_session], [list_sessions], [explain], [accounting],
    [poll_deadlines], [check_invariants], [session_count], [timeline_entries]
    and [begin_shutdown] of [src/engine.cpp]. *)

From stdpp Require Import base gmap list strings.
From S2P Require Import Prelude Status Ids Hash Enums Model Fence Shaper EngineState.
From S2P Require Import EngineAuthority EngineAdmission EngineLifecycle.

Record ShardProgress := mkShardProgress {
  spr_index : ShardIndex;
  spr_state : ShardState;
  spr_declared_bytes : Z;
  spr_transferred_bytes : Z;
  spr_verified_bytes : Z;
  spr_sequence : AttemptSequence;
  spr_attempt : option TransferAttemptId;
  spr_declared_digest : Digest;
  spr_observed_digest : option Digest
}.

Record SessionView := mkSessionView {
  sv_session : SessionId;
  sv_checkpoint : CheckpointId;
  sv_checkpoint_generation : CheckpointGeneration;
  sv_workload : WorkloadId;
  sv_contract_generation : WorkloadContractGeneration;
  sv_isolation : IsolationClass;
  sv_destination : DestinationClass;
  sv_state : SessionState;
  sv_evidence : EvidenceLevel;
  sv_durability : DurabilityStatus;
  sv_declared_bytes : Z;
  sv_transferred_bytes : Z;
  sv_verified_bytes : Z;
  sv_shards_total : Z;
  sv_shards_transferred : Z;
  sv_shards_verified : Z;
  sv_shards_ambiguous : Z;
  sv_last_reason : option ReasonCode;
  sv_last_detail : string;
  sv_stale_reason : string;
  sv_superseded_by : option SessionId;
  sv_envelope : option TrafficEnvelope;
  sv_shards : list ShardProgress;
  sv_created_at : Nanos;
  sv_updated_at : Nanos;
  sv_deadline_target : option Nanos
}.

Record SessionSummary := mkSessionSummary {
  ss_session : SessionId;
  ss_checkpoint : CheckpointId;
  ss_checkpoint_generation : CheckpointGeneration;
  ss_workload : WorkloadId;
  ss_state : SessionState;
  ss_evidence : EvidenceLevel;
  ss_declared_bytes : Z;
  ss_transferred_bytes : Z;
  ss_verified_bytes : Z;
  ss_updated_at : Nanos
}.

(** Network evidence is never storage durability. *)
Definition durable_checkpoint_success (v : SessionView) : bool := false.

Definition shard_progress (sh : ShardRecord) : ShardProgress :=
  mkShardProgress (shr_index sh) (shr_state sh) (shr_declared_bytes sh) (shr_transferred_bytes sh)
    (shr_verified_bytes sh) (shr_sequence sh) (shr_attempt sh) (shr_declared_digest sh)
    (if shr_has_observed_digest sh then Some (shr_observed_digest sh) else None).

Definition session_view (s : SessionRecord) : SessionView :=
  let r := ses_request s in
  mkSessionView (ses_id s) (req_checkpoint r) (req_checkpoint_generation r) (req_workload r)
    (req_contract_generation r) (te_isolation (ses_envelope s)) (req_destination r)
    (ses_state s) (ses_evidence s) (da_status (ses_durability s))
    (mf_total_bytes (req_manifest r)) (ses_transferred_bytes s) (ses_verified_bytes s)
    (u32 (Z.of_nat (length (ses_shards s))))
    (u32 (count_shards shard_settled (ses_shards s)))
    (u32 (count_shards shard_verified (ses_shards s)))
    (u32 (count_shards (fun st => st =e ShardState.Ambiguous) (ses_shards s)))
    (Some (ses_last_reason s)) (ses_last_detail s) (ses_stale_reason s) (ses_superseded_by s)
    (Some (ses_envelope s)) (map shard_progress (ses_shards s)) (ses_created_at s)
    (ses_updated_at s)
    (if te_deadline_target (ses_envelope s) >? 0
     then Some (te_deadline_target (ses_envelope s)) else None).

Definition view_session (id : SessionId) (e : Engine) : Result SessionView :=
  match sessions_ e !! id with
  | None => Err not_known
  | Some s => Val (session_view s)
  end.

Definition session_summary (s : SessionRecord) : SessionSummary :=
  let r := ses_request s in
  mkSessionSummary (ses_id s) (req_checkpoint r) (req_checkpoint_generation r) (req_workload r)
    (ses_state s) (ses_evidence s) (mf_total_bytes (req_manifest r)) (ses_transferred_bytes s)
    (ses_verified_bytes s) (ses_updated_at s).

Definition summary_before (l r : SessionSummary) : bool :=
  if negb (ss_updated_at l =? ss_updated_at r) then ss_updated_at l <? ss_updated_at r
  else id_ltb (ss_session l) (ss_session r).

(** [std::sort] with that comparison, as an insertion sort. *)
Fixpoint insert_summary (x : SessionSummary) (l : list SessionSummary) : list SessionSummary :=
  match l with
  | [] => [x]
  | y :: rest => if summary_before y x then y :: insert_summary x rest else x :: l
  end.
Definition sort_summaries (l : list SessionSummary) : list SessionSummary :=
  foldr insert_summary [] l.

Definition list_bound (limit : Z) (e : Engine) : Z :=
  Z.min (if limit =? 0 then 64 else limit) (lim_max_sessions (limits_ e)).

(** The sessions the listing visits, at most [list_bound] of them kept. *)
Definition list_sessions (workload : option WorkloadId) (limit : Z) (e : Engine)
  : list SessionSummary :=
  let bound := Z.to_nat (list_bound limit e) in
  match workload with
  | Some w =>
      let ids := default [] (by_workload_ e !! w) in
      take bound (map session_summary (omap (fun id => sessions_ e !! id) ids))
  | None =>
      sort_summaries (take bound (map (fun entry => session_summary entry.2)
                                    (map_to_list (sessions_ e))))
  end.

Record Explanation := mkExplanation {
  ex_session : SessionId;
  ex_summary : string;
  ex_timeline : list string
}.

Definition explain (id : SessionId) (e : Engine) : Result Explanation :=
  match sessions_ e !! id with
  | None => Err not_known
  | Some s =>
      Val (mkExplanation (ses_id s)
           ("state=" +:+ SessionState.to_string (ses_state s) +:+
            " evidence=" +:+ EvidenceLevel.to_string (ses_evidence s) +:+
            " declared=" +:+ nat_to_string (mf_total_bytes (req_manifest (ses_request s))) +:+
            " transferred=" +:+ nat_to_string (ses_transferred_bytes s) +:+
            " verified=" +:+ nat_to_string (ses_verified_bytes s) +:+
            " outstanding=" +:+ nat_to_string (ses_outstanding_bytes s) +:+
            " cancelled=" +:+ nat_to_string (ses_cancelled_bytes s) +:+
            " unproven=" +:+ nat_to_string (ses_unproven_bytes s) +:+
            " wasted=" +:+ nat_to_string (ses_wasted_bytes s) +:+
            " durability=" +:+ DurabilityStatus.to_string (da_status (ses_durability s)))%string
           (ses_timeline s))
  end.

Definition poll_deadlines (at_ : Nanos) (e : Engine) : Status * Engine :=
  (Status_success, enforce_deadlines at_ e).

Definition timeline_entries (e : Engine) : Z :=
  map_sum (fun s => Z.of_nat (length (ses_timeline s)) + Z.of_nat (length (ses_attempts s)))
    (sessions_ e).

Definition begin_shutdown (at_ : Nanos) (e : Engine) : Status * Engine :=
  if shutting_down_ e then
    (Status_error ErrorCode.ShuttingDown "fabric is already shutting down", e)
  else
    (Status_success,
     push_event (mkEvent EventKind.Shutdown id_nil ReasonCode.FabricShuttingDown
                   "fabric is shutting down" at_) (e <| shutting_down_ := true |>)).

(** ** The engine's self-check *)

Fixpoint shard_order_matches (shards : list ShardRecord) (descriptors : list ShardDescriptor) : bool :=
  match shards, descriptors with
  | sh :: shards', d :: descriptors' =>
      sc_eqb (shr_index sh) (sd_index d) && shard_order_matches shards' descriptors'
  | _, _ => true
  end.

Definition imbalance (detail : string) : Status :=
  Status_error ErrorCode.AccountingImbalance detail.
Definition corrupt (detail : string) : Status := Status_error ErrorCode.CorruptState detail.
Definition require_that (b : bool) (s : Status) : Status := if b then Status_success else s.

(** The checks on one session, in order. *)
Definition check_session (p : PolicySnapshot) (s : SessionRecord) : Status :=
  let all_shards_verified := forallb (fun sh => shr_state sh =e ShardState.Verified) (ses_shards s) in
  seq_status (require_that (Nat.eqb (length (ses_shards s))
                              (length (mf_shards (req_manifest (ses_request s)))))
                (corrupt "session shard table diverged from its manifest"))
  (seq_status (require_that (shard_order_matches (ses_shards s)
                               (mf_shards (req_manifest (ses_request s))))
                 (corrupt "session shard ordering diverged"))
  (seq_status (require_that (ses_transferred_bytes s <=? ses_admitted_bytes s)
                 (imbalance "session transferred more bytes than were admitted"))
  (seq_status (require_that (ses_verified_bytes s <=? ses_transferred_bytes s)
                 (imbalance "session verified more bytes than were transferred"))
  (seq_status (require_that
                 (u64 (u64 (u64 (u64 (ses_transferred_bytes s + ses_wasted_bytes s) +
                                 ses_cancelled_bytes s) + ses_unproven_bytes s) +
                       ses_outstanding_bytes s) =? ses_admitted_bytes s)
                 (imbalance "session byte buckets do not sum to its admitted bytes"))
  (seq_status (require_that (ses_outstanding_bytes s <=? ses_admitted_bytes s)
                 (imbalance "session outstanding exceeds admitted bytes"))
  (seq_status (require_that (ses_verified_bytes s <=? ses_transferred_bytes s)
                 (imbalance "session verified more bytes than it currently counts as transferred"))
  (seq_status (require_that
                 (negb (is_terminal (ses_state s) && (negb (ses_outstanding_bytes s =? 0) ||
                                                       negb (ses_active_attempts s =? 0))))
                 (imbalance "terminal session retains outstanding authority"))
  (seq_status (require_that
                 (id_is_nil (te_session (ses_envelope s)) ||
                  (te_session (ses_envelope s) =e ses_id s))
                 (corrupt "envelope is bound to a different session"))
  (seq_status (require_that
                 (negb (ses_evidence s =e EvidenceLevel.VerifiedAtDestination) || all_shards_verified)
                 (corrupt "session claims verified evidence with an unverified shard"))
     (require_that
        (negb ((ses_state s =e SessionState.TrafficSessionComplete) &&
               pol_require_destination_verification p) || all_shards_verified)
        (corrupt "completed session has an unverified shard"))))))))))).

(** A 64-bit running sum over the session table, from the pruned total. *)
Definition sum64 (start : Z) (f : SessionRecord -> Z) (e : Engine) : Z :=
  foldl (fun acc entry => u64 (acc + f entry.2)) start (map_to_list (sessions_ e)).
Definition sum32 (f : SessionRecord -> Z) (e : Engine) : Z :=
  foldl (fun acc entry => u32 (acc + f entry.2)) 0 (map_to_list (sessions_ e)).
Definition active_weight (s : SessionRecord) : Z := if is_active (ses_state s) then 1 else 0.

Definition check_aggregates (e : Engine) : Status :=
  let a := accounting_ e in
  let p := pruned_ e in
  seq_status (require_that
    ((sum64 (pr_admitted p) ses_admitted_bytes e =? acc_bytes_admitted a) &&
     (sum64 (pr_transferred p) ses_transferred_bytes e =? acc_bytes_transferred a) &&
     (sum64 (pr_verified p) ses_verified_bytes e =? acc_bytes_verified a) &&
     (sum64 (pr_cancelled p) ses_cancelled_bytes e =? acc_bytes_cancelled a) &&
     (sum64 (pr_wasted p) ses_wasted_bytes e =? acc_bytes_wasted a) &&
     (sum64 (pr_unproven p) ses_unproven_bytes e =? acc_bytes_unproven a) &&
     (sum64 0 ses_outstanding_bytes e =? acc_granted_outstanding_bytes a))
    (imbalance "aggregate accounting disagrees with per-session accounting"))
  (require_that
    ((sum32 active_weight e =? acc_active_sessions a) &&
     (sum32 ses_active_attempts e =? acc_active_attempts a))
    (imbalance "active counters disagree with live session state")).

Definition known_ids (e : Engine) (ids : list SessionId) : bool :=
  forallb (fun id => bool_decide (is_Some (sessions_ e !! id))) ids.

Definition check_indexes (e : Engine) : Status :=
  seq_status (require_that
    (forallb (fun entry => known_ids e entry.2) (map_to_list (by_workload_ e)))
    (corrupt "workload index references an unknown session"))
  (seq_status (require_that
    (forallb (fun entry => known_ids e entry.2) (map_to_list (by_checkpoint_ e)))
    (corrupt "checkpoint index references an unknown session"))
  (seq_status (require_that
    (map_sum (fun ids => Z.of_nat (length ids)) (by_workload_ e) =? session_count e)
    (corrupt "index size disagrees with the session table"))
  (require_that (Z.of_nat (size (command_index_ e)) <=? command_index_bound_ e)
    (Status_error ErrorCode.ResourceExhausted "command replay index exceeds its bound")))).

Definition check_invariants (e : Engine) : Status :=
  seq_status (require_that (conserves (accounting_ e))
    (imbalance "bytes_admitted != transferred + wasted + cancelled + unproven + outstanding"))
  (seq_status (first_failure (map (fun entry => check_session (policy_ e) entry.2)
                                (map_to_list (sessions_ e))))
  (seq_status (check_aggregates e) (check_indexes e))).
