(* ===== verification/Wire.v ===== *)
(** * Wire: the byte codec and the framing

    Models the [Encoder] and [Decoder] classes and the frame functions of
    [include/ctf/wire.hpp] and [src/wire.cpp].  Both classes carry a sticky
    status: the first failure is kept and every later read returns a default
    without moving the offset.  An operation of the encoder is a function on
    [Encoder]; an operation of the decoder is a state transformer [Dec A]; a
    [decode] overload, which fills in a value it is given, is a function
    [R -> Dec R]. *)

From stdpp Require Import base gmap list strings.
From Stdlib Require Import Ascii.
From S2P Require Import Prelude Status Ids Bytes Hash Enums Model.

Definition kFrameMagic : Z := 0x31465443.
Definition kFrameHeaderBytes : nat := 32.
Definition kMaxPayloadBytes : Z := 2 ^ 20.
Definition kMaxStringBytes : Z := 512.
Definition kMaxCollectionElements : Z := 2 ^ 20.
Definition kMaxFrameBytes : Z := Z.of_nat kFrameHeaderBytes + kMaxPayloadBytes.
Definition kProtocolVersion : Z := 1.
Definition kHeaderChecksumCoverage : nat := 24.

(** ** Big-endian integers *)

(** The bytes of [value], most significant first, as [put_u16], [put_u32],
    [put_u64] and [Encoder::integer] write them. *)
Definition be_bytes (width : nat) (value : Z) : list Z :=
  map (fun i => Z.land (Z.shiftr value (8 * Z.of_nat (width - 1 - i))) 255) (seq 0 width).

Definition get_u16 (bytes : list Z) : Z :=
  match bytes with
  | [b0; b1] => u16 (Z.lor (Z.shiftl b0 8) b1)
  | _ => 0
  end.
Definition get_u32 (bytes : list Z) : Z := be_combine u32 bytes.
Definition get_u64 (bytes : list Z) : Z := be_combine u64 bytes.

(** ** Encoder *)

Record Encoder := mkEncoder { enc_raw : list Z; enc_status : Status }.
Definition Enc := Encoder -> Encoder.

Definition Encoder_default : Encoder := mkEncoder [] Status_success.
Definition enc_ok (e : Encoder) : bool := Status_ok (enc_status e).
Definition enc_fail (code : ErrorCode) (detail : string) : Enc := fun e =>
  if enc_ok e then mkEncoder (enc_raw e) (Status_error code detail) else e.
Definition enc_append (bytes : list Z) : Enc := fun e =>
  mkEncoder (enc_raw e ++ bytes) (enc_status e).

(** [a ;> b]: the statement [a] and then the statement [b]. *)
Definition enc_seq (a b : Enc) : Enc := fun e => b (a e).
Notation "a ';>' b" := (enc_seq a b) (at level 62, right associativity) : ctf_scope.

Definition integer (value : Z) (width : nat) : Enc := enc_append (be_bytes width value).
Definition enc_u8 (value : Z) : Enc := enc_append [value].
Definition enc_u16 (value : Z) : Enc := integer value 2.
Definition enc_u32 (value : Z) : Enc := integer value 4.
Definition enc_u64 (value : Z) : Enc := integer value 8.
Definition enc_i64 (value : Z) : Enc := enc_u64 (u64 value).
Definition enc_boolean (value : bool) : Enc := enc_u8 (if value then 1 else 0).

Definition enc_bytes (data : list Z) : Enc := fun e =>
  if Z.of_nat (length data) >? kMaxPayloadBytes then
    enc_fail ErrorCode.PayloadTooLarge "byte field exceeds the maximum payload size" e
  else (enc_u32 (u32 (Z.of_nat (length data))) ;> enc_append data) e.

(** The bytes of a [std::string]. *)
Definition string_bytes (text : string) : list Z := bytes_from_string (chars text).

Definition enc_string (text : string) : Enc := fun e =>
  let data := string_bytes text in
  if Z.of_nat (length data) >? kMaxStringBytes then
    enc_fail ErrorCode.StringTooLong "string field exceeds the maximum string size" e
  else if negb (is_valid_utf8 data) then
    enc_fail ErrorCode.InvalidUtf8 "string field is not valid UTF-8" e
  else (enc_u16 (u16 (Z.of_nat (length data))) ;> enc_append data) e.

Definition enc_uuid (id : Uuid128) : Enc := enc_append (uuid_bytes id).

(** ** Decoder *)

Record Decoder := mkDecoder {
  dec_data : list Z;
  dec_limits : Limits;
  dec_offset : nat;
  dec_status : Status
}.
#[global] Instance eta_Decoder : Eta Decoder :=
  fun r => mkDecoder (dec_data r) (dec_limits r) (dec_offset r) (dec_status r).

Definition Dec (A : Type) := Decoder -> A * Decoder.

Definition Decoder_init (data : list Z) (limits : Limits) : Decoder :=
  mkDecoder data limits 0 Status_success.
Definition dec_ok (d : Decoder) : bool := Status_ok (dec_status d).
Definition remaining (d : Decoder) : nat := (length (dec_data d) - dec_offset d)%nat.
Definition at_end (d : Decoder) : bool := Nat.eqb (dec_offset d) (length (dec_data d)).

Definition dec_return {A} (a : A) : Dec A := fun d => (a, d).
Definition dec_bind {A B} (m : Dec A) (k : A -> Dec B) : Dec B :=
  fun d => let '(a, d') := m d in k a d'.
Notation "x <-- m ; k" := (dec_bind m (fun x => k))
  (at level 63, m at next level, right associativity) : ctf_scope.

Definition dec_fail {A} (code : ErrorCode) (detail : string) (a : A) : Dec A := fun d =>
  (a, if dec_ok d then d <| dec_status := Status_error code detail |> else d).

(** [require], then the bytes it made sure of. *)
Definition require (count : nat) : Dec bool := fun d =>
  if (remaining d <? count)%nat then
    dec_fail ErrorCode.TruncatedInput "message ended before the declared length" false d
  else (true, d).
Definition view (count : nat) (d : Decoder) : list Z := take count (drop (dec_offset d) (dec_data d)).
Definition advance (count : nat) (d : Decoder) : Decoder :=
  d <| dec_offset := (dec_offset d + count)%nat |>.

(** [u8], [u16], [u32], [u64] and [uuid]: read [count] bytes or return [zero]. *)
Definition dec_fixed {A} (count : nat) (get : list Z -> A) (zero : A) : Dec A := fun d =>
  if negb (dec_ok d) then (zero, d)
  else
    let '(available, d) := require count d in
    if negb available then (zero, d) else (get (view count d), advance count d).

Definition dec_u8 : Dec Z := dec_fixed 1 (fun bytes => hd 0 bytes) 0.
Definition dec_u16 : Dec Z := dec_fixed 2 get_u16 0.
Definition dec_u32 : Dec Z := dec_fixed 4 get_u32 0.
Definition dec_u64 : Dec Z := dec_fixed 8 get_u64 0.
Definition dec_i64 : Dec Z := x <-- dec_u64; dec_return (s64 x).
Definition dec_uuid : Dec Uuid128 := dec_fixed 16 mkUuid Uuid128_nil.

Definition dec_boolean : Dec bool :=
  raw <-- dec_u8; fun d =>
  if negb (dec_ok d) then (false, d)
  else if raw >? 1 then
    dec_fail ErrorCode.NonCanonicalEncoding "boolean field must be exactly 0 or 1" false d
  else (raw =? 1, d).

Definition dec_bytes : Dec (list Z) :=
  length <-- dec_u32; fun d =>
  if negb (dec_ok d) then ([], d)
  else if length >? kMaxPayloadBytes then
    dec_fail ErrorCode.PayloadTooLarge "byte field exceeds the maximum payload size" [] d
  else
    let '(available, d) := require (Z.to_nat length) d in
    if negb available then ([], d)
    else (view (Z.to_nat length) d, advance (Z.to_nat length) d).

Definition dec_string : Dec string :=
  length <-- dec_u16; fun d =>
  if negb (dec_ok d) then (""%string, d)
  else if length >? kMaxStringBytes then
    dec_fail ErrorCode.StringTooLong "string field exceeds the maximum string size" ""%string d
  else
    let '(available, d) := require (Z.to_nat length) d in
    if negb available then (""%string, d)
    else
      let bytes := view (Z.to_nat length) d in
      if negb (is_valid_utf8 bytes) then
        dec_fail ErrorCode.InvalidUtf8 "string field is not valid UTF-8" ""%string d
      else (text_of (string_from_bytes bytes), advance (Z.to_nat length) d).

Definition collection_count : Dec Z :=
  count <-- dec_u32; fun d =>
  if negb (dec_ok d) then (0, d)
  else if count >? kMaxCollectionElements then
    dec_fail ErrorCode.CollectionTooLarge "collection count exceeds the protocol bound" 0 d
  else if count >? Z.of_nat (remaining d) then
    dec_fail ErrorCode.TruncatedInput "collection count exceeds the remaining message bytes" 0 d
  else (count, d).

Definition expect_end : Dec Status := fun d =>
  if negb (dec_ok d) then (dec_status d, d)
  else if negb (at_end d) then
    let '(_, d) := dec_fail ErrorCode.TrailingGarbage
                     "message has trailing bytes after the payload" tt d in
    (dec_status d, d)
  else (Status_success, d).

(** ** Enumerations and identities *)

(** [decode_enum]: [of_value] finds the enumerator with that number, which is
    the test against the name table; [zero] is [static_cast<E>(0)]. *)
Definition encode_enum {E} (value : E -> Z) (x : E) : Enc := enc_u8 (value x).
Definition decode_enum {E} (of_value : Z -> option E) (zero : E) : Dec E :=
  raw <-- dec_u8;
  match of_value raw with
  | Some x => dec_return x
  | None => dec_fail ErrorCode.UnsupportedValue "enum value is not in the supported set" zero
  end.

Definition encode_ErrorCode (c : ErrorCode) : Enc := enc_u16 (ErrorCode.value c).
Definition decode_ErrorCode : Dec ErrorCode :=
  raw <-- dec_u16;
  match ErrorCode.of_value raw with
  | Some c => dec_return c
  | None => dec_fail ErrorCode.UnsupportedValue "error code is not in the supported set"
              ErrorCode.Internal
  end.

Definition encode_id {T} (i : StrongId T) : Enc := enc_uuid (id_value i).
Definition decode_id {T} : Dec (StrongId T) := u <-- dec_uuid; dec_return (mkId u).

Definition encode_scalar {T} (s : StrongScalar T) : Enc := enc_u64 (sc_value s).
Definition decode_scalar {T} : Dec (StrongScalar T) :=
  raw <-- dec_u64;
  if raw >? UINT32_MAX then
    dec_fail ErrorCode.OutOfRange "scalar value exceeds its declared width" (mkScalar 0)
  else dec_return (mkScalar raw).

Definition encode_gen {T} (g : Generation T) : Enc := enc_u64 (gen_value g).
Definition decode_gen {T} : Dec (Generation T) := x <-- dec_u64; dec_return (mkGen x).

Definition encode_Digest (g : Digest) : Enc := enc_u32 (dg_crc g) ;> enc_u64 (dg_fnv g).
Definition decode_Digest : Dec Digest :=
  crc <-- dec_u32; fnv <-- dec_u64; dec_return (mkDigest crc fnv).

Definition encode_CoordinatorEpoch (p : CoordinatorEpoch) : Enc :=
  encode_gen (ep_incarnation p) ;> encode_gen (ep_term p).
Definition decode_CoordinatorEpoch : Dec CoordinatorEpoch :=
  incarnation <-- decode_gen; term <-- decode_gen; dec_return (mkEpoch incarnation term).

(** ** Fields of a record

    The statements the [decode] overloads are made of.  Each is a function
    from the value as filled in so far to the decoder action that fills in
    more of it. *)

(** [value.f = m;] *)
Definition into {R T} (f : R -> T) `{Setter R T f} (m : Dec T) (value : R) : Dec R :=
  x <-- m; dec_return (value <| f := x |>).
(** [decode(decoder, value.f);] for a record [f] *)
Definition into_sub {R T} (f : R -> T) `{Setter R T f} (g : T -> Dec T) (value : R) : Dec R :=
  x <-- g (f value); dec_return (value <| f := x |>).
Definition dec_then {R} (f g : R -> Dec R) (value : R) : Dec R := x <-- f value; g x.
Notation "f >=> g" := (dec_then f g) (at level 62, right associativity) : ctf_scope.
(** [if (!decoder.ok()) { return; }] before the rest of the body *)
Definition guard_ok {R} (rest : R -> Dec R) (value : R) : Dec R := fun d =>
  if dec_ok d then rest value d else (value, d).
Definition done {R} (value : R) : Dec R := dec_return value.

(** [encoder.boolean(o.has_value()); if (o.has_value()) { encode(encoder, o.value()); }] *)
Definition encode_optional {T} (enc : T -> Enc) (o : option T) : Enc :=
  match o with
  | Some x => enc_boolean true ;> enc x
  | None => enc_boolean false
  end.
(** [if (decoder.boolean()) { T x; decode(decoder, x); value.f = x; } else { value.f.reset(); }] *)
Definition optional {R T} (f : R -> option T) `{Setter R (option T) f} (m : Dec T) (value : R)
  : Dec R :=
  present <-- dec_boolean;
  if (present : bool) then x <-- m; dec_return (value <| f := Some x |>)
  else dec_return (value <| f := None |>).

Definition encode_items {T} (enc : T -> Enc) (l : list T) : Enc := fun e =>
  foldl (fun e x => enc x e) e l.
(** [encoder.u32(l.size()); for (x : l) { encode(encoder, x); }] *)
Definition encode_list {T} (enc : T -> Enc) (l : list T) : Enc :=
  enc_u32 (u32 (Z.of_nat (length l))) ;> encode_items enc l.
(** The loop that decodes [count] elements and stops at the first failure. *)
Fixpoint decode_items {T} (count : nat) (m : Dec T) (out : list T) : Dec (list T) :=
  match count with
  | O => dec_return out
  | S count' =>
      x <-- m; fun d =>
      if negb (dec_ok d) then (out, d) else decode_items count' m (out ++ [x]) d
  end.
(** The statements from [collection_count] to the end of the loop, and then the
    [rest] of the body, which every failure on the way returns before. *)
Definition items {R T} (f : R -> list T) `{Setter R (list T) f} (bound : Limits -> Z)
    (detail : string) (m : Dec T) (rest : R -> Dec R) (value : R) : Dec R :=
  count <-- collection_count; fun d =>
  if negb (dec_ok d) then (value, d)
  else if count >? bound (dec_limits d) then dec_fail ErrorCode.CollectionTooLarge detail value d
  else
    let '(out, d) := decode_items (Z.to_nat count) m [] d in
    guard_ok rest (value <| f := out |>) d.

(** ** Payloads *)

(** [encode_payload]: the encoder's status is not consulted. *)
Definition encode_payload {T} (enc : T -> Enc) (value : T) : list Z :=
  enc_raw (enc value Encoder_default).

Definition decode_payload {T} (dec : T -> Dec T) (initial : T) (payload : list Z) (limits : Limits)
  : Result T :=
  let '(value, d) := dec initial (Decoder_init payload limits) in
  if negb (dec_ok d) then Err (dec_status d)
  else
    let '(end_status, _) := expect_end d in
    if negb (Status_ok end_status) then Err end_status else Val value.

(** ** Framing *)

Record FrameHeader := mkFrameHeader {
  fh_protocol_version : Z;
  fh_message_type : Z;
  fh_flags : Z;
  fh_sequence : Z;
  fh_payload_bytes : Z;
  fh_payload_crc : Z
}.

(** The first 24 bytes of a frame: what the header checksum covers. *)
Definition frame_prefix (header : FrameHeader) (payload : list Z) : list Z :=
  be_bytes 4 kFrameMagic ++ be_bytes 2 (fh_protocol_version header) ++
  be_bytes 2 (fh_message_type header) ++ be_bytes 4 (fh_flags header) ++
  be_bytes 8 (fh_sequence header) ++ be_bytes 4 (u32 (Z.of_nat (length payload))).

Definition encode_frame (header : FrameHeader) (payload : list Z) : Result (list Z) :=
  if Z.of_nat (length payload) >? kMaxPayloadBytes then
    Err (Status_error ErrorCode.PayloadTooLarge "frame payload exceeds the protocol bound")
  else
    let prefix := frame_prefix header payload in
    Val (prefix ++ be_bytes 4 (crc32c prefix 0) ++ be_bytes 4 (crc32c payload 0) ++ payload).

(** The [count] bytes of [raw] from [offset]. *)
Definition at_offset (offset count : nat) (raw : list Z) : list Z := take count (drop offset raw).

Definition decode_frame (frame : list Z) : Result (list Z * FrameHeader) :=
  if (length frame <? kFrameHeaderBytes)%nat then
    Err (Status_error ErrorCode.TruncatedInput "frame is shorter than its header")
  else if negb (get_u32 (at_offset 0 4 frame) =? kFrameMagic) then
    Err (Status_error ErrorCode.InvalidSyntax "frame magic does not match")
  else
    let version := get_u16 (at_offset 4 2 frame) in
    if negb (version =? kProtocolVersion) then
      Err (Status_error ErrorCode.VersionIncompatible "frame protocol version is not supported")
    else
      let declared_crc := get_u32 (at_offset kHeaderChecksumCoverage 4 frame) in
      let computed_crc := crc32c (take kHeaderChecksumCoverage frame) 0 in
      if negb (declared_crc =? computed_crc) then
        Err (Status_error ErrorCode.IntegrityFailure "frame header checksum does not match")
      else
        let payload_bytes := get_u32 (at_offset 20 4 frame) in
        if payload_bytes >? kMaxPayloadBytes then
          Err (Status_error ErrorCode.PayloadTooLarge "frame declares an oversized payload")
        else
          let expected := (kFrameHeaderBytes + Z.to_nat payload_bytes)%nat in
          if negb (Nat.eqb (length frame) expected) then
            Err (Status_error (if (length frame <? expected)%nat then ErrorCode.TruncatedInput
                               else ErrorCode.TrailingGarbage)
                   "frame length does not match its declared payload size")
          else
            let payload := at_offset kFrameHeaderBytes (Z.to_nat payload_bytes) frame in
            if negb (get_u32 (at_offset 28 4 frame) =? crc32c payload 0) then
              Err (Status_error ErrorCode.IntegrityFailure "frame payload checksum does not match")
            else
              Val (payload,
                   mkFrameHeader version (get_u16 (at_offset 6 2 frame))
                     (get_u32 (at_offset 8 4 frame)) (get_u64 (at_offset 12 8 frame))
                     payload_bytes (get_u32 (at_offset 28 4 frame))).
