(* ===== verification/Codec.v ===== *)
(** * Codec: the wire form of the domain model

    Models the [encode] and [decode] overloads of [src/wire.cpp] for the records
    of the domain model, one pair of definitions per overload pair, statement by
    statement. *)

From stdpp Require Import base gmap list strings.
From S2P Require Import Prelude Status Ids Bytes Hash Enums Model Fence Shaper.
From S2P Require Import EngineState EngineAuthority EngineAdmission EngineLifecycle.
From S2P Require Import EngineInspect Wire.

#[global] Instance eta_ShardDescriptor : Eta ShardDescriptor :=
  fun r => mkShardDescriptor (sd_index r) (sd_declared_bytes r) (sd_declared_digest r)
    (sd_path_class r).
#[global] Instance eta_SourceCompleteEvidence : Eta SourceCompleteEvidence :=
  fun r => mkSourceComplete (sce_session r) (sce_attempt r) (sce_sequence r) (sce_wave r)
    (sce_shard r) (sce_source_bytes r) (sce_source_digest r) (sce_observed_at r).
#[global] Instance eta_TransferEvidence : Eta TransferEvidence :=
  fun r => mkTransferEvidence (tev_session r) (tev_attempt r) (tev_sequence r) (tev_shard r)
    (tev_arrived_bytes r) (tev_arrived_digest r) (tev_sink_acknowledged r) (tev_observed_at r).
#[global] Instance eta_VerificationEvidence : Eta VerificationEvidence :=
  fun r => mkVerificationEvidence (vev_session r) (vev_attempt r) (vev_sequence r) (vev_shard r)
    (vev_verified_bytes r) (vev_verified_digest r) (vev_outcome r) (vev_verifier_identity r)
    (vev_observed_at r).
#[global] Instance eta_ShardProgress : Eta ShardProgress :=
  fun r => mkShardProgress (spr_index r) (spr_state r) (spr_declared_bytes r)
    (spr_transferred_bytes r) (spr_verified_bytes r) (spr_sequence r) (spr_attempt r)
    (spr_declared_digest r) (spr_observed_digest r).
#[global] Instance eta_SessionView : Eta SessionView :=
  fun r => mkSessionView (sv_session r) (sv_checkpoint r) (sv_checkpoint_generation r)
    (sv_workload r) (sv_contract_generation r) (sv_isolation r) (sv_destination r) (sv_state r)
    (sv_evidence r) (sv_durability r) (sv_declared_bytes r) (sv_transferred_bytes r)
    (sv_verified_bytes r) (sv_shards_total r) (sv_shards_transferred r) (sv_shards_verified r)
    (sv_shards_ambiguous r) (sv_last_reason r) (sv_last_detail r) (sv_stale_reason r)
    (sv_superseded_by r) (sv_envelope r) (sv_shards r) (sv_created_at r) (sv_updated_at r)
    (sv_deadline_target r).
#[global] Instance eta_SessionSummary : Eta SessionSummary :=
  fun r => mkSessionSummary (ss_session r) (ss_checkpoint r) (ss_checkpoint_generation r)
    (ss_workload r) (ss_state r) (ss_evidence r) (ss_declared_bytes r) (ss_transferred_bytes r)
    (ss_verified_bytes r) (ss_updated_at r).
#[global] Instance eta_Explanation : Eta Explanation :=
  fun r => mkExplanation (ex_session r) (ex_summary r) (ex_timeline r).
#[global] Instance eta_FabricEvent : Eta FabricEvent :=
  fun r => mkEvent (ev_kind r) (ev_session r) (ev_reason r) (ev_detail r) (ev_at r).

(** ** Default-initialised values *)

Definition ShardDescriptor_default : ShardDescriptor :=
  mkShardDescriptor (mkScalar 0) 0 Digest_default (mkScalar 0).
Definition CheckpointManifest_default : CheckpointManifest :=
  mkManifest id_nil (mkGen 0) id_nil (mkGen 0) 0 [] Digest_default 0.
Definition IsolationEnvelopeConfig_default : IsolationEnvelopeConfig :=
  mkEnvelopeConfig IsolationClass.TrainingBulk 0 (kNanosPerSecond / 10) 16.
Definition PathClass_default : PathClass :=
  mkPathClass (mkScalar 0) DestinationClass.LocalAttachedStore 0 false "".
Definition SessionRequest_default : SessionRequest :=
  mkRequest id_nil id_nil (mkGen 0) (mkGen 0) (mkGen 0) id_nil (mkGen 0) IsolationClass.TrainingBulk
    DestinationClass.LocalAttachedStore 0 0 CheckpointManifest_default.
Definition CommandFence_default : CommandFence :=
  mkFence (mkEpoch (mkGen 0) (mkGen 0)) (mkGen 0) (mkGen 0) (mkGen 0) None None.
Definition TrafficEnvelope_default : TrafficEnvelope :=
  mkEnvelope id_nil (mkGen 0) IsolationClass.TrainingBulk 0 0 0 [] None 0 0.
Definition AdmissionDecision_default : AdmissionDecision :=
  mkDecision DecisionKind.Deny ReasonCode.Internal "" id_nil None [] None (mkEpoch (mkGen 0) (mkGen 0)) 0.
Definition WaveGrant_default : WaveGrant :=
  mkWaveGrant id_nil id_nil (mkGen 0) (mkScalar 0) (mkScalar 0) 0 0 0 0 0 (mkEpoch (mkGen 0) (mkGen 0)).
Definition WaveOutcome_default : WaveOutcome := mkWaveOutcome false ReasonCode.Admitted_ "" None None 0.
Definition ShardProgress_default : ShardProgress :=
  mkShardProgress (mkScalar 0) ShardState.Pending 0 0 0 (mkGen 0) None Digest_default None.
Definition SourceCompleteEvidence_default : SourceCompleteEvidence :=
  mkSourceComplete id_nil id_nil (mkGen 0) (mkScalar 0) (mkScalar 0) 0 Digest_default 0.
Definition TransferEvidence_default : TransferEvidence :=
  mkTransferEvidence id_nil id_nil (mkGen 0) (mkScalar 0) 0 Digest_default false 0.
Definition VerificationEvidence_default : VerificationEvidence :=
  mkVerificationEvidence id_nil id_nil (mkGen 0) (mkScalar 0) 0 Digest_default
    VerificationOutcome.Ambiguous "" 0.
Definition SessionSummary_default : SessionSummary :=
  mkSessionSummary id_nil id_nil (mkGen 0) id_nil SessionState.Submitted EvidenceLevel.None 0 0 0 0.

(** ** Codecs *)

Definition encode_ShardDescriptor (value : ShardDescriptor) : Enc :=
  encode_scalar (sd_index value) ;>
  enc_u64 (sd_declared_bytes value) ;>
  encode_Digest (sd_declared_digest value) ;>
  encode_scalar (sd_path_class value).
Definition decode_ShardDescriptor : ShardDescriptor -> Dec ShardDescriptor :=
  into sd_index decode_scalar >=>
  into sd_declared_bytes dec_u64 >=>
  into sd_declared_digest decode_Digest >=>
  into sd_path_class decode_scalar.

Definition encode_CheckpointManifest (value : CheckpointManifest) : Enc :=
  encode_id (mf_checkpoint value) ;>
  encode_gen (mf_generation value) ;>
  encode_id (mf_workload value) ;>
  encode_gen (mf_contract_generation value) ;>
  enc_u64 (mf_total_bytes value) ;>
  encode_list encode_ShardDescriptor (mf_shards value) ;>
  encode_Digest (mf_manifest_digest value) ;>
  enc_i64 (mf_declared_at value).
Definition decode_CheckpointManifest : CheckpointManifest -> Dec CheckpointManifest :=
  into mf_checkpoint decode_id >=>
  into mf_generation decode_gen >=>
  into mf_workload decode_id >=>
  into mf_contract_generation decode_gen >=>
  into mf_total_bytes dec_u64 >=>
  items mf_shards lim_max_shards_per_checkpoint
    "manifest shard count exceeds the configured bound"
    (decode_ShardDescriptor ShardDescriptor_default) (
  into mf_manifest_digest decode_Digest >=>
  into mf_declared_at dec_i64).

Definition encode_Limits (value : Limits) : Enc :=
  enc_u32 (lim_max_shards_per_checkpoint value) ;>
  enc_u64 (lim_max_checkpoint_bytes value) ;>
  enc_u32 (lim_max_sessions value) ;>
  enc_u32 (lim_max_attempts_in_flight value) ;>
  enc_u32 (lim_max_retained_history value) ;>
  enc_u32 (lim_max_wave_width value) ;>
  enc_u32 (lim_max_path_classes value) ;>
  enc_u32 (lim_max_sessions_per_workload value) ;>
  enc_u32 (lim_max_workloads value) ;>
  enc_u64 (lim_max_identity_text_bytes value) ;>
  enc_u64 (lim_max_string_bytes value) ;>
  enc_u32 (lim_max_supersession_chain value).
Definition decode_Limits : Limits -> Dec Limits :=
  into lim_max_shards_per_checkpoint dec_u32 >=>
  into lim_max_checkpoint_bytes dec_u64 >=>
  into lim_max_sessions dec_u32 >=>
  into lim_max_attempts_in_flight dec_u32 >=>
  into lim_max_retained_history dec_u32 >=>
  into lim_max_wave_width dec_u32 >=>
  into lim_max_path_classes dec_u32 >=>
  into lim_max_sessions_per_workload dec_u32 >=>
  into lim_max_workloads dec_u32 >=>
  (fun value =>
     identity_bytes <-- dec_u64; string_bytes <-- dec_u64;
     guard_ok (fun value =>
       (into lim_max_supersession_chain dec_u32)
         (value <| lim_max_identity_text_bytes := identity_bytes |>
                <| lim_max_string_bytes := string_bytes |>)) value).

Definition encode_IsolationEnvelopeConfig (value : IsolationEnvelopeConfig) : Enc :=
  encode_enum IsolationClass.value (iec_isolation value) ;>
  enc_u64 (iec_ceiling_bps value) ;>
  enc_u64 (iec_burst_window_ns value) ;>
  enc_u32 (iec_max_in_flight_sessions value).
Definition decode_IsolationEnvelopeConfig : IsolationEnvelopeConfig -> Dec IsolationEnvelopeConfig :=
  into iec_isolation (decode_enum IsolationClass.of_value IsolationClass.TrainingCritical) >=>
  into iec_ceiling_bps dec_u64 >=>
  into iec_burst_window_ns dec_u64 >=>
  into iec_max_in_flight_sessions dec_u32.

Definition encode_PolicySnapshot (value : PolicySnapshot) : Enc :=
  encode_gen (pol_generation value) ;>
  encode_list encode_IsolationEnvelopeConfig (pol_envelopes value) ;>
  enc_u32 (pol_max_wave_width value) ;>
  enc_u64 (pol_max_session_bytes value) ;>
  enc_u32 (pol_max_sessions value) ;>
  enc_u32 (pol_max_attempts_in_flight value) ;>
  enc_u32 (pol_retained_history value) ;>
  enc_boolean (pol_require_destination_verification value) ;>
  enc_i64 (pol_defer_horizon_ns value) ;>
  enc_i64 (pol_default_deadline_ns value) ;>
  enc_u64 (u64 (pol_minimum_rate_bps_for_admission value)) ;>
  encode_Limits (pol_limits value).
Definition decode_PolicySnapshot : PolicySnapshot -> Dec PolicySnapshot :=
  into pol_generation decode_gen >=>
  items pol_envelopes (fun _ => 8)
    "policy declares too many isolation envelopes"
    (decode_IsolationEnvelopeConfig IsolationEnvelopeConfig_default) (
  into pol_max_wave_width dec_u32 >=>
  into pol_max_session_bytes dec_u64 >=>
  into pol_max_sessions dec_u32 >=>
  into pol_max_attempts_in_flight dec_u32 >=>
  into pol_retained_history dec_u32 >=>
  into pol_require_destination_verification dec_boolean >=>
  into pol_defer_horizon_ns dec_i64 >=>
  into pol_default_deadline_ns dec_i64 >=>
  into pol_minimum_rate_bps_for_admission dec_i64 >=>
  into_sub pol_limits decode_Limits).

Definition encode_PathClass (value : PathClass) : Enc :=
  encode_scalar (pc_id value) ;>
  encode_enum DestinationClass.value (pc_destination value) ;>
  enc_u64 (pc_capacity_bps value) ;>
  enc_boolean (pc_synthetic value) ;>
  enc_string (pc_label value).
Definition decode_PathClass : PathClass -> Dec PathClass :=
  into pc_id decode_scalar >=>
  into pc_destination (decode_enum DestinationClass.of_value DestinationClass.LocalAttachedStore) >=>
  into pc_capacity_bps dec_u64 >=>
  into pc_synthetic dec_boolean >=>
  into pc_label dec_string.

Definition encode_TopologySnapshot (value : TopologySnapshot) : Enc :=
  encode_gen (topo_generation value) ;>
  encode_list encode_PathClass (topo_path_classes value).
Definition decode_TopologySnapshot : TopologySnapshot -> Dec TopologySnapshot :=
  into topo_generation decode_gen >=>
  items topo_path_classes lim_max_path_classes
    "topology declares too many path classes" (decode_PathClass PathClass_default) done.

Definition encode_WorkloadContract (value : WorkloadContract) : Enc :=
  encode_id (wc_workload value) ;>
  encode_gen (wc_generation value) ;>
  encode_enum IsolationClass.value (wc_isolation value) ;>
  enc_u64 (wc_ceiling_bps value) ;>
  enc_u64 (wc_floor_bps value) ;>
  enc_u32 (wc_max_in_flight_sessions value) ;>
  enc_u32 (wc_max_shards_per_wave value) ;>
  enc_boolean (wc_allow_supersession value) ;>
  enc_i64 (wc_deadline_budget_ns value).
Definition decode_WorkloadContract : WorkloadContract -> Dec WorkloadContract :=
  into wc_workload decode_id >=>
  into wc_generation decode_gen >=>
  into wc_isolation (decode_enum IsolationClass.of_value IsolationClass.TrainingCritical) >=>
  into wc_ceiling_bps dec_u64 >=>
  into wc_floor_bps dec_u64 >=>
  into wc_max_in_flight_sessions dec_u32 >=>
  into wc_max_shards_per_wave dec_u32 >=>
  into wc_allow_supersession dec_boolean >=>
  into wc_deadline_budget_ns dec_i64.

Definition encode_SessionRequest (value : SessionRequest) : Enc :=
  encode_id (req_command value) ;>
  encode_id (req_workload value) ;>
  encode_gen (req_contract_generation value) ;>
  encode_gen (req_policy_generation value) ;>
  encode_gen (req_topology_generation value) ;>
  encode_id (req_checkpoint value) ;>
  encode_gen (req_checkpoint_generation value) ;>
  encode_enum IsolationClass.value (req_requested_isolation value) ;>
  encode_enum DestinationClass.value (req_destination value) ;>
  enc_u64 (req_requested_rate_bps value) ;>
  enc_i64 (req_deadline_horizon_ns value) ;>
  encode_CheckpointManifest (req_manifest value).
Definition decode_SessionRequest : SessionRequest -> Dec SessionRequest :=
  into req_command decode_id >=>
  into req_workload decode_id >=>
  into req_contract_generation decode_gen >=>
  into req_policy_generation decode_gen >=>
  into req_topology_generation decode_gen >=>
  into req_checkpoint decode_id >=>
  into req_checkpoint_generation decode_gen >=>
  into req_requested_isolation (decode_enum IsolationClass.of_value IsolationClass.TrainingCritical) >=>
  into req_destination (decode_enum DestinationClass.of_value DestinationClass.LocalAttachedStore) >=>
  into req_requested_rate_bps dec_u64 >=>
  into req_deadline_horizon_ns dec_i64 >=>
  into_sub req_manifest decode_CheckpointManifest.

Definition encode_CommandFence (value : CommandFence) : Enc :=
  encode_CoordinatorEpoch (cf_epoch value) ;>
  encode_gen (cf_policy_generation value) ;>
  encode_gen (cf_topology_generation value) ;>
  encode_gen (cf_contract_generation value) ;>
  encode_optional encode_gen (cf_checkpoint_generation value) ;>
  encode_optional encode_gen (cf_attempt_sequence value).
Definition decode_CommandFence : CommandFence -> Dec CommandFence :=
  into cf_epoch decode_CoordinatorEpoch >=>
  into cf_policy_generation decode_gen >=>
  into cf_topology_generation decode_gen >=>
  into cf_contract_generation decode_gen >=>
  optional cf_checkpoint_generation decode_gen >=>
  guard_ok (
  optional cf_attempt_sequence decode_gen).

Definition encode_WavePlan (value : WavePlan) : Enc :=
  encode_scalar (wp_index value) ;>
  encode_list encode_scalar (wp_shards value) ;>
  enc_u64 (wp_planned_bytes value).
Definition decode_WavePlan : WavePlan -> Dec WavePlan :=
  into wp_index decode_scalar >=>
  items wp_shards lim_max_shards_per_checkpoint
    "wave plan declares too many shards" decode_scalar (
  into wp_planned_bytes dec_u64).

Definition encode_TrafficEnvelope (value : TrafficEnvelope) : Enc :=
  encode_id (te_session value) ;>
  encode_gen (te_sequence value) ;>
  encode_enum IsolationClass.value (te_isolation value) ;>
  enc_u64 (te_rate_bps value) ;>
  enc_u64 (te_burst_bytes value) ;>
  enc_u32 (te_wave_width value) ;>
  encode_list encode_WavePlan (te_waves value) ;>
  encode_optional encode_scalar (te_path_class value) ;>
  enc_i64 (te_issued_at value) ;>
  enc_i64 (te_deadline_target value).
Definition decode_TrafficEnvelope : TrafficEnvelope -> Dec TrafficEnvelope :=
  into te_session decode_id >=>
  into te_sequence decode_gen >=>
  into te_isolation (decode_enum IsolationClass.of_value IsolationClass.TrainingCritical) >=>
  into te_rate_bps dec_u64 >=>
  into te_burst_bytes dec_u64 >=>
  into te_wave_width dec_u32 >=>
  items te_waves lim_max_shards_per_checkpoint
    "envelope declares too many waves" (decode_WavePlan WavePlan_default) (
  optional te_path_class decode_scalar >=>
  into te_issued_at dec_i64 >=>
  into te_deadline_target dec_i64).

Definition encode_AdmissionDecision (value : AdmissionDecision) : Enc :=
  encode_enum DecisionKind.value (ad_kind value) ;>
  encode_enum ReasonCode.value (ad_reason value) ;>
  enc_string (ad_detail value) ;>
  encode_id (ad_session value) ;>
  encode_optional encode_TrafficEnvelope (ad_envelope value) ;>
  encode_list encode_id (ad_superseded value) ;>
  encode_optional enc_i64 (ad_retry_after value) ;>
  encode_CoordinatorEpoch (ad_epoch value) ;>
  enc_i64 (ad_decided_at value).
Definition decode_AdmissionDecision : AdmissionDecision -> Dec AdmissionDecision :=
  into ad_kind (decode_enum DecisionKind.of_value DecisionKind.Admit) >=>
  into ad_reason (decode_enum ReasonCode.of_value ReasonCode.Admitted_) >=>
  into ad_detail dec_string >=>
  into ad_session decode_id >=>
  optional ad_envelope (decode_TrafficEnvelope TrafficEnvelope_default) >=>
  guard_ok (
  items ad_superseded (fun l => u32 (lim_max_supersession_chain l * 8))
    "decision lists too many superseded sessions" decode_id (
  optional ad_retry_after dec_i64 >=>
  into ad_epoch decode_CoordinatorEpoch >=>
  into ad_decided_at dec_i64)).

Definition encode_WaveGrant (value : WaveGrant) : Enc :=
  encode_id (wg_session value) ;>
  encode_id (wg_attempt value) ;>
  encode_gen (wg_sequence value) ;>
  encode_scalar (wg_shard value) ;>
  encode_scalar (wg_wave value) ;>
  enc_u64 (wg_max_bytes value) ;>
  enc_u64 (wg_rate_bps value) ;>
  enc_u64 (wg_burst_bytes value) ;>
  enc_i64 (wg_issued_at value) ;>
  enc_i64 (wg_expires_at value) ;>
  encode_CoordinatorEpoch (wg_epoch value).
Definition decode_WaveGrant : WaveGrant -> Dec WaveGrant :=
  into wg_session decode_id >=>
  into wg_attempt decode_id >=>
  into wg_sequence decode_gen >=>
  into wg_shard decode_scalar >=>
  into wg_wave decode_scalar >=>
  into wg_max_bytes dec_u64 >=>
  into wg_rate_bps dec_u64 >=>
  into wg_burst_bytes dec_u64 >=>
  into wg_issued_at dec_i64 >=>
  into wg_expires_at dec_i64 >=>
  into wg_epoch decode_CoordinatorEpoch.

Definition encode_WaveOutcome (value : WaveOutcome) : Enc :=
  enc_boolean (wo_granted value) ;>
  encode_enum ReasonCode.value (wo_reason value) ;>
  enc_string (wo_detail value) ;>
  encode_optional encode_WaveGrant (wo_grant value) ;>
  encode_optional enc_i64 (wo_retry_after value) ;>
  enc_i64 (wo_decided_at value).
Definition decode_WaveOutcome : WaveOutcome -> Dec WaveOutcome :=
  into wo_granted dec_boolean >=>
  into wo_reason (decode_enum ReasonCode.of_value ReasonCode.Admitted_) >=>
  into wo_detail dec_string >=>
  optional wo_grant (decode_WaveGrant WaveGrant_default) >=>
  guard_ok (
  optional wo_retry_after dec_i64 >=>
  into wo_decided_at dec_i64).

Definition encode_SourceCompleteEvidence (value : SourceCompleteEvidence) : Enc :=
  encode_id (sce_session value) ;>
  encode_id (sce_attempt value) ;>
  encode_gen (sce_sequence value) ;>
  encode_scalar (sce_wave value) ;>
  encode_scalar (sce_shard value) ;>
  enc_u64 (sce_source_bytes value) ;>
  encode_Digest (sce_source_digest value) ;>
  enc_i64 (sce_observed_at value).
Definition decode_SourceCompleteEvidence : SourceCompleteEvidence -> Dec SourceCompleteEvidence :=
  into sce_session decode_id >=>
  into sce_attempt decode_id >=>
  into sce_sequence decode_gen >=>
  into sce_wave decode_scalar >=>
  into sce_shard decode_scalar >=>
  into sce_source_bytes dec_u64 >=>
  into sce_source_digest decode_Digest >=>
  into sce_observed_at dec_i64.

Definition encode_TransferEvidence (value : TransferEvidence) : Enc :=
  encode_id (tev_session value) ;>
  encode_id (tev_attempt value) ;>
  encode_gen (tev_sequence value) ;>
  encode_scalar (tev_shard value) ;>
  enc_u64 (tev_arrived_bytes value) ;>
  encode_Digest (tev_arrived_digest value) ;>
  enc_boolean (tev_sink_acknowledged value) ;>
  enc_i64 (tev_observed_at value).
Definition decode_TransferEvidence : TransferEvidence -> Dec TransferEvidence :=
  into tev_session decode_id >=>
  into tev_attempt decode_id >=>
  into tev_sequence decode_gen >=>
  into tev_shard decode_scalar >=>
  into tev_arrived_bytes dec_u64 >=>
  into tev_arrived_digest decode_Digest >=>
  into tev_sink_acknowledged dec_boolean >=>
  into tev_observed_at dec_i64.

Definition encode_VerificationEvidence (value : VerificationEvidence) : Enc :=
  encode_id (vev_session value) ;>
  encode_id (vev_attempt value) ;>
  encode_gen (vev_sequence value) ;>
  encode_scalar (vev_shard value) ;>
  enc_u64 (vev_verified_bytes value) ;>
  encode_Digest (vev_verified_digest value) ;>
  encode_enum VerificationOutcome.value (vev_outcome value) ;>
  enc_string (vev_verifier_identity value) ;>
  enc_i64 (vev_observed_at value).
Definition decode_VerificationEvidence : VerificationEvidence -> Dec VerificationEvidence :=
  into vev_session decode_id >=>
  into vev_attempt decode_id >=>
  into vev_sequence decode_gen >=>
  into vev_shard decode_scalar >=>
  into vev_verified_bytes dec_u64 >=>
  into vev_verified_digest decode_Digest >=>
  into vev_outcome (decode_enum VerificationOutcome.of_value VerificationOutcome.Verified) >=>
  into vev_verifier_identity dec_string >=>
  into vev_observed_at dec_i64.

Definition encode_DurabilityAssertion (value : DurabilityAssertion) : Enc :=
  encode_enum DurabilityStatus.value (da_status value) ;>
  enc_string (da_backend_identity value) ;>
  encode_Digest (da_evidence_digest value) ;>
  enc_i64 (da_observed_at value).
Definition decode_DurabilityAssertion : DurabilityAssertion -> Dec DurabilityAssertion :=
  into da_status (decode_enum DurabilityStatus.of_value DurabilityStatus.NotEstablished) >=>
  into da_backend_identity dec_string >=>
  into da_evidence_digest decode_Digest >=>
  into da_observed_at dec_i64.

Definition encode_ShardProgress (value : ShardProgress) : Enc :=
  encode_scalar (spr_index value) ;>
  encode_enum ShardState.value (spr_state value) ;>
  enc_u64 (spr_declared_bytes value) ;>
  enc_u64 (spr_transferred_bytes value) ;>
  enc_u64 (spr_verified_bytes value) ;>
  encode_gen (spr_sequence value) ;>
  encode_optional encode_id (spr_attempt value) ;>
  encode_Digest (spr_declared_digest value) ;>
  encode_optional encode_Digest (spr_observed_digest value).
Definition decode_ShardProgress : ShardProgress -> Dec ShardProgress :=
  into spr_index decode_scalar >=>
  into spr_state (decode_enum ShardState.of_value ShardState.Pending) >=>
  into spr_declared_bytes dec_u64 >=>
  into spr_transferred_bytes dec_u64 >=>
  into spr_verified_bytes dec_u64 >=>
  into spr_sequence decode_gen >=>
  optional spr_attempt decode_id >=>
  guard_ok (
  into spr_declared_digest decode_Digest >=>
  optional spr_observed_digest decode_Digest).

Definition encode_SessionView (value : SessionView) : Enc :=
  encode_id (sv_session value) ;>
  encode_id (sv_checkpoint value) ;>
  encode_gen (sv_checkpoint_generation value) ;>
  encode_id (sv_workload value) ;>
  encode_gen (sv_contract_generation value) ;>
  encode_enum IsolationClass.value (sv_isolation value) ;>
  encode_enum DestinationClass.value (sv_destination value) ;>
  encode_enum SessionState.value (sv_state value) ;>
  encode_enum EvidenceLevel.value (sv_evidence value) ;>
  encode_enum DurabilityStatus.value (sv_durability value) ;>
  enc_u64 (sv_declared_bytes value) ;>
  enc_u64 (sv_transferred_bytes value) ;>
  enc_u64 (sv_verified_bytes value) ;>
  enc_u32 (sv_shards_total value) ;>
  enc_u32 (sv_shards_transferred value) ;>
  enc_u32 (sv_shards_verified value) ;>
  enc_u32 (sv_shards_ambiguous value) ;>
  encode_optional (encode_enum ReasonCode.value) (sv_last_reason value) ;>
  enc_string (sv_last_detail value) ;>
  enc_string (sv_stale_reason value) ;>
  encode_optional encode_id (sv_superseded_by value) ;>
  encode_optional encode_TrafficEnvelope (sv_envelope value) ;>
  encode_list encode_ShardProgress (sv_shards value) ;>
  enc_i64 (sv_created_at value) ;>
  enc_i64 (sv_updated_at value) ;>
  encode_optional enc_i64 (sv_deadline_target value).
Definition decode_SessionView : SessionView -> Dec SessionView :=
  into sv_session decode_id >=>
  into sv_checkpoint decode_id >=>
  into sv_checkpoint_generation decode_gen >=>
  into sv_workload decode_id >=>
  into sv_contract_generation decode_gen >=>
  into sv_isolation (decode_enum IsolationClass.of_value IsolationClass.TrainingCritical) >=>
  into sv_destination (decode_enum DestinationClass.of_value DestinationClass.LocalAttachedStore) >=>
  into sv_state (decode_enum SessionState.of_value SessionState.Submitted) >=>
  into sv_evidence (decode_enum EvidenceLevel.of_value EvidenceLevel.None) >=>
  into sv_durability (decode_enum DurabilityStatus.of_value DurabilityStatus.NotEstablished) >=>
  into sv_declared_bytes dec_u64 >=>
  into sv_transferred_bytes dec_u64 >=>
  into sv_verified_bytes dec_u64 >=>
  into sv_shards_total dec_u32 >=>
  into sv_shards_transferred dec_u32 >=>
  into sv_shards_verified dec_u32 >=>
  into sv_shards_ambiguous dec_u32 >=>
  optional sv_last_reason (decode_enum ReasonCode.of_value ReasonCode.Admitted_) >=>
  guard_ok (
  into sv_last_detail dec_string >=>
  into sv_stale_reason dec_string >=>
  optional sv_superseded_by decode_id >=>
  guard_ok (
  optional sv_envelope (decode_TrafficEnvelope TrafficEnvelope_default) >=>
  guard_ok (
  items sv_shards lim_max_shards_per_checkpoint
    "session view lists too many shards" (decode_ShardProgress ShardProgress_default) (
  into sv_created_at dec_i64 >=>
  into sv_updated_at dec_i64 >=>
  optional sv_deadline_target dec_i64)))).

Definition encode_SessionSummary (value : SessionSummary) : Enc :=
  encode_id (ss_session value) ;>
  encode_id (ss_checkpoint value) ;>
  encode_gen (ss_checkpoint_generation value) ;>
  encode_id (ss_workload value) ;>
  encode_enum SessionState.value (ss_state value) ;>
  encode_enum EvidenceLevel.value (ss_evidence value) ;>
  enc_u64 (ss_declared_bytes value) ;>
  enc_u64 (ss_transferred_bytes value) ;>
  enc_u64 (ss_verified_bytes value) ;>
  enc_i64 (ss_updated_at value).
Definition decode_SessionSummary : SessionSummary -> Dec SessionSummary :=
  into ss_session decode_id >=>
  into ss_checkpoint decode_id >=>
  into ss_checkpoint_generation decode_gen >=>
  into ss_workload decode_id >=>
  into ss_state (decode_enum SessionState.of_value SessionState.Submitted) >=>
  into ss_evidence (decode_enum EvidenceLevel.of_value EvidenceLevel.None) >=>
  into ss_declared_bytes dec_u64 >=>
  into ss_transferred_bytes dec_u64 >=>
  into ss_verified_bytes dec_u64 >=>
  into ss_updated_at dec_i64.

Definition encode_AccountingSnapshot (value : AccountingSnapshot) : Enc :=
  enc_u64 (acc_bytes_admitted value) ;>
  enc_u64 (acc_bytes_transferred value) ;>
  enc_u64 (acc_bytes_verified value) ;>
  enc_u64 (acc_bytes_cancelled value) ;>
  enc_u64 (acc_bytes_wasted value) ;>
  enc_u64 (acc_bytes_unproven value) ;>
  enc_u64 (acc_bytes_deferred value) ;>
  enc_u64 (acc_granted_outstanding_bytes value) ;>
  enc_u64 (acc_sessions_admitted value) ;>
  enc_u64 (acc_sessions_deferred value) ;>
  enc_u64 (acc_sessions_denied value) ;>
  enc_u64 (acc_sessions_completed value) ;>
  enc_u64 (acc_sessions_cancelled value) ;>
  enc_u64 (acc_sessions_superseded value) ;>
  enc_u64 (acc_sessions_failed value) ;>
  enc_u64 (acc_commands_processed value) ;>
  enc_u32 (acc_active_sessions value) ;>
  enc_u32 (acc_active_attempts value).
Definition decode_AccountingSnapshot : AccountingSnapshot -> Dec AccountingSnapshot :=
  into acc_bytes_admitted dec_u64 >=>
  into acc_bytes_transferred dec_u64 >=>
  into acc_bytes_verified dec_u64 >=>
  into acc_bytes_cancelled dec_u64 >=>
  into acc_bytes_wasted dec_u64 >=>
  into acc_bytes_unproven dec_u64 >=>
  into acc_bytes_deferred dec_u64 >=>
  into acc_granted_outstanding_bytes dec_u64 >=>
  into acc_sessions_admitted dec_u64 >=>
  into acc_sessions_deferred dec_u64 >=>
  into acc_sessions_denied dec_u64 >=>
  into acc_sessions_completed dec_u64 >=>
  into acc_sessions_cancelled dec_u64 >=>
  into acc_sessions_superseded dec_u64 >=>
  into acc_sessions_failed dec_u64 >=>
  into acc_commands_processed dec_u64 >=>
  into acc_active_sessions dec_u32 >=>
  into acc_active_attempts dec_u32.

Definition encode_Explanation (value : Explanation) : Enc :=
  encode_id (ex_session value) ;>
  enc_string (ex_summary value) ;>
  encode_list enc_string (ex_timeline value).
Definition decode_Explanation : Explanation -> Dec Explanation :=
  into ex_session decode_id >=>
  into ex_summary dec_string >=>
  items ex_timeline (fun _ => 4096)
    "explanation lists too many timeline entries" dec_string done.

Definition encode_FabricEvent (value : FabricEvent) : Enc :=
  encode_enum EventKind.value (ev_kind value) ;>
  encode_id (ev_session value) ;>
  encode_enum ReasonCode.value (ev_reason value) ;>
  enc_string (ev_detail value) ;>
  enc_i64 (ev_at value).
Definition decode_FabricEvent : FabricEvent -> Dec FabricEvent :=
  into ev_kind (decode_enum EventKind.of_value EventKind.SessionSubmitted) >=>
  into ev_session decode_id >=>
  into ev_reason (decode_enum ReasonCode.of_value ReasonCode.Admitted_) >=>
  into ev_detail dec_string >=>
  into ev_at dec_i64.

(** The two fields of a [ContractGenerationRecord], as the hello response and the
    snapshot list them. *)
Definition encode_ContractGenerationRecord (r : WorkloadId * WorkloadContractGeneration) : Enc :=
  encode_id r.1 ;> encode_gen r.2.
Definition decode_ContractGenerationRecord : Dec (WorkloadId * WorkloadContractGeneration) :=
  workload <-- decode_id; generation <-- decode_gen; dec_return (workload, generation).
