(* ===== verification/Protocol.v ===== *)
(** * Protocol: messages and the framed channel

    Models [include/ctf/protocol.hpp] and [src/protocol.cpp]: the message types
    and which response answers which request, the payload records with their
    codecs, and [MessageChannel] over a byte stream that is a parameter of the
    model. *)

From stdpp Require Import base gmap list strings.
From S2P Require Import Prelude Status Ids Bytes Hash Enums Model Fence Shaper.
From S2P Require Import EngineState EngineAuthority EngineAdmission EngineLifecycle.
From S2P Require Import EngineInspect Wire Codec.

Module MessageType.
Inductive MessageType :=
| HelloRequest
| HelloResponse
| SubmitSession
| DecisionResponse
| RevalidateSession
| RequestWave
| WaveResponse
| ReportSourceComplete
| ReportTransfer
| ReportVerification
| ReportAmbiguous
| CancelSession
| PauseSession
| ResumeSession
| RecordDurability
| QuerySession
| SessionViewResponse
| QuerySessions
| SessionListResponse
| QueryAccounting
| AccountingResponse
| QueryExplain
| ExplanationResponse
| QueryInvariants
| StatusResponse
| ShutdownRequest
| ShardBegin
| ShardData
| ShardEnd
| ShardAck.
#[global] Instance MessageType_eq_dec : EqDecision MessageType.
Proof. solve_decision. Defined.
Definition value (x : MessageType) : Z :=
  match x with
  | HelloRequest => 1
  | HelloResponse => 2
  | SubmitSession => 16
  | DecisionResponse => 17
  | RevalidateSession => 18
  | RequestWave => 19
  | WaveResponse => 20
  | ReportSourceComplete => 21
  | ReportTransfer => 22
  | ReportVerification => 23
  | ReportAmbiguous => 24
  | CancelSession => 25
  | PauseSession => 26
  | ResumeSession => 27
  | RecordDurability => 28
  | QuerySession => 32
  | SessionViewResponse => 33
  | QuerySessions => 34
  | SessionListResponse => 35
  | QueryAccounting => 36
  | AccountingResponse => 37
  | QueryExplain => 38
  | ExplanationResponse => 39
  | QueryInvariants => 40
  | StatusResponse => 48
  | ShutdownRequest => 56
  | ShardBegin => 64
  | ShardData => 65
  | ShardEnd => 66
  | ShardAck => 67
  end.
Definition all : list MessageType :=
  [HelloRequest; HelloResponse; SubmitSession; DecisionResponse; RevalidateSession;
   RequestWave; WaveResponse; ReportSourceComplete; ReportTransfer; ReportVerification;
   ReportAmbiguous; CancelSession; PauseSession; ResumeSession; RecordDurability; QuerySession;
   SessionViewResponse; QuerySessions; SessionListResponse; QueryAccounting;
   AccountingResponse; QueryExplain; ExplanationResponse; QueryInvariants; StatusResponse;
   ShutdownRequest; ShardBegin; ShardData; ShardEnd; ShardAck].
Definition to_string (x : MessageType) : string :=
  match x with
  | HelloRequest => "HelloRequest"
  | HelloResponse => "HelloResponse"
  | SubmitSession => "SubmitSession"
  | DecisionResponse => "DecisionResponse"
  | RevalidateSession => "RevalidateSession"
  | RequestWave => "RequestWave"
  | WaveResponse => "WaveResponse"
  | ReportSourceComplete => "ReportSourceComplete"
  | ReportTransfer => "ReportTransfer"
  | ReportVerification => "ReportVerification"
  | ReportAmbiguous => "ReportAmbiguous"
  | CancelSession => "CancelSession"
  | PauseSession => "PauseSession"
  | ResumeSession => "ResumeSession"
  | RecordDurability => "RecordDurability"
  | QuerySession => "QuerySession"
  | SessionViewResponse => "SessionViewResponse"
  | QuerySessions => "QuerySessions"
  | SessionListResponse => "SessionListResponse"
  | QueryAccounting => "QueryAccounting"
  | AccountingResponse => "AccountingResponse"
  | QueryExplain => "QueryExplain"
  | ExplanationResponse => "ExplanationResponse"
  | QueryInvariants => "QueryInvariants"
  | StatusResponse => "StatusResponse"
  | ShutdownRequest => "ShutdownRequest"
  | ShardBegin => "ShardBegin"
  | ShardData => "ShardData"
  | ShardEnd => "ShardEnd"
  | ShardAck => "ShardAck"
  end.
(** [static_cast<MessageType>(raw)] and [is_known_message]. *)
Definition of_value (raw : Z) : option MessageType := find (fun x => value x =? raw) all.
Definition is_request (x : MessageType) : bool :=
  match x with
  | HelloRequest | SubmitSession | RevalidateSession | RequestWave | ReportSourceComplete
  | ReportTransfer | ReportVerification | ReportAmbiguous | CancelSession | PauseSession
  | ResumeSession | RecordDurability | QuerySession | QuerySessions | QueryAccounting
  | QueryExplain | QueryInvariants | ShutdownRequest | ShardBegin | ShardData | ShardEnd => true
  | HelloResponse | DecisionResponse | WaveResponse | SessionViewResponse | SessionListResponse
  | AccountingResponse | ExplanationResponse | StatusResponse | ShardAck => false
  end.
Definition response_for (request : MessageType) : option MessageType :=
  match request with
  | HelloRequest => Some HelloResponse
  | HelloResponse | DecisionResponse | WaveResponse | SessionViewResponse | SessionListResponse
  | AccountingResponse | ExplanationResponse | StatusResponse | ShardBegin | ShardAck => None
  | SubmitSession | RevalidateSession => Some DecisionResponse
  | RequestWave => Some WaveResponse
  | ReportSourceComplete | ReportTransfer | ReportVerification | ReportAmbiguous
  | CancelSession | PauseSession | ResumeSession | RecordDurability | QueryInvariants
  | ShutdownRequest => Some StatusResponse
  | QuerySession => Some SessionViewResponse
  | QuerySessions => Some SessionListResponse
  | QueryAccounting => Some AccountingResponse
  | QueryExplain => Some ExplanationResponse
  | ShardData | ShardEnd => Some ShardAck
  end.
End MessageType.
Notation MessageType := MessageType.MessageType.

Module ClientKind.
Inductive ClientKind := Sender | Sink | Operator | Observer.
#[global] Instance ClientKind_eq_dec : EqDecision ClientKind.
Proof. solve_decision. Defined.
Definition value (x : ClientKind) : Z :=
  match x with Sender => 0 | Sink => 1 | Operator => 2 | Observer => 3 end.
Definition all : list ClientKind := [Sender; Sink; Operator; Observer].
Definition to_string (x : ClientKind) : string :=
  match x with
  | Sender => "Sender" | Sink => "Sink" | Operator => "Operator" | Observer => "Observer"
  end.
Definition of_value (raw : Z) : option ClientKind := find (fun x => value x =? raw) all.
End ClientKind.
Notation ClientKind := ClientKind.ClientKind.

(** ** Payloads *)

Record ShardBeginPayload := mkShardBeginPayload {
  sbp_session : SessionId;
  sbp_attempt : TransferAttemptId;
  sbp_sequence : AttemptSequence;
  sbp_checkpoint : CheckpointId;
  sbp_checkpoint_generation : CheckpointGeneration;
  sbp_workload : WorkloadId;
  sbp_shard : ShardIndex;
  sbp_declared_bytes : Z;
  sbp_declared_digest : Digest
}.
#[global] Instance eta_ShardBeginPayload : Eta ShardBeginPayload :=
  fun r => mkShardBeginPayload (sbp_session r) (sbp_attempt r) (sbp_sequence r) (sbp_checkpoint r)
    (sbp_checkpoint_generation r) (sbp_workload r) (sbp_shard r) (sbp_declared_bytes r)
    (sbp_declared_digest r).
Definition ShardBeginPayload_default : ShardBeginPayload :=
  mkShardBeginPayload id_nil id_nil (mkGen 0) id_nil (mkGen 0) id_nil (mkScalar 0) 0 Digest_default.

Record ShardDataPayload := mkShardDataPayload {
  sdp_attempt : TransferAttemptId;
  sdp_sequence : AttemptSequence;
  sdp_offset : Z;
  sdp_data : list Z
}.
#[global] Instance eta_ShardDataPayload : Eta ShardDataPayload :=
  fun r => mkShardDataPayload (sdp_attempt r) (sdp_sequence r) (sdp_offset r) (sdp_data r).
Definition ShardDataPayload_default : ShardDataPayload :=
  mkShardDataPayload id_nil (mkGen 0) 0 [].

Record ShardEndPayload := mkShardEndPayload {
  sep_bytes_sent : Z;
  sep_sent_digest : Digest;
  sep_truncated : bool
}.
#[global] Instance eta_ShardEndPayload : Eta ShardEndPayload :=
  fun r => mkShardEndPayload (sep_bytes_sent r) (sep_sent_digest r) (sep_truncated r).
Definition ShardEndPayload_default : ShardEndPayload :=
  mkShardEndPayload 0 Digest_default false.

Record ShardAckPayload := mkShardAckPayload {
  sap_bytes_received : Z;
  sap_verified : bool;
  sap_truncated : bool;
  sap_received_digest : Digest;
  sap_detail : string
}.
#[global] Instance eta_ShardAckPayload : Eta ShardAckPayload :=
  fun r => mkShardAckPayload (sap_bytes_received r) (sap_verified r) (sap_truncated r)
    (sap_received_digest r) (sap_detail r).
Definition ShardAckPayload_default : ShardAckPayload :=
  mkShardAckPayload 0 false false Digest_default "".

Record HelloRequest := mkHelloRequest {
  hrq_kind : ClientKind;
  hrq_identity : string
}.
#[global] Instance eta_HelloRequest : Eta HelloRequest :=
  fun r => mkHelloRequest (hrq_kind r) (hrq_identity r).
Definition HelloRequest_default : HelloRequest :=
  mkHelloRequest ClientKind.Operator "".

Record HelloResponse := mkHelloResponse {
  hrs_epoch : CoordinatorEpoch;
  hrs_policy_generation : PolicyGeneration;
  hrs_topology_generation : TopologyGeneration;
  hrs_contracts : list (WorkloadId * WorkloadContractGeneration);
  hrs_limits : Limits;
  hrs_server_label : string
}.
#[global] Instance eta_HelloResponse : Eta HelloResponse :=
  fun r => mkHelloResponse (hrs_epoch r) (hrs_policy_generation r) (hrs_topology_generation r)
    (hrs_contracts r) (hrs_limits r) (hrs_server_label r).
Definition HelloResponse_default : HelloResponse :=
  mkHelloResponse (mkEpoch (mkGen 0) (mkGen 0)) (mkGen 0) (mkGen 0) [] Limits_default "".

Record SubmitRequest := mkSubmitRequest {
  sbr_request : SessionRequest;
  sbr_fence : CommandFence
}.
#[global] Instance eta_SubmitRequest : Eta SubmitRequest :=
  fun r => mkSubmitRequest (sbr_request r) (sbr_fence r).
Definition SubmitRequest_default : SubmitRequest :=
  mkSubmitRequest SessionRequest_default CommandFence_default.

Record SessionQuery := mkSessionQuery {
  sq_session : SessionId
}.
#[global] Instance eta_SessionQuery : Eta SessionQuery :=
  fun r => mkSessionQuery (sq_session r).
Definition SessionQuery_default : SessionQuery :=
  mkSessionQuery id_nil.

Record SessionsQuery := mkSessionsQuery {
  ssq_has_workload : bool;
  ssq_workload : WorkloadId;
  ssq_limit : Z
}.
#[global] Instance eta_SessionsQuery : Eta SessionsQuery :=
  fun r => mkSessionsQuery (ssq_has_workload r) (ssq_workload r) (ssq_limit r).
Definition SessionsQuery_default : SessionsQuery :=
  mkSessionsQuery false id_nil 64.

Record CancelRequest := mkCancelRequest {
  cr_session : SessionId;
  cr_fence : CommandFence;
  cr_reason : ReasonCode;
  cr_detail : string
}.
#[global] Instance eta_CancelRequest : Eta CancelRequest :=
  fun r => mkCancelRequest (cr_session r) (cr_fence r) (cr_reason r) (cr_detail r).
Definition CancelRequest_default : CancelRequest :=
  mkCancelRequest id_nil CommandFence_default ReasonCode.CancelledByOperator "".

Record PauseRequest := mkPauseRequest {
  pr_session : SessionId;
  pr_fence : CommandFence;
  pr_reason : string
}.
#[global] Instance eta_PauseRequest : Eta PauseRequest :=
  fun r => mkPauseRequest (pr_session r) (pr_fence r) (pr_reason r).
Definition PauseRequest_default : PauseRequest :=
  mkPauseRequest id_nil CommandFence_default "".

Record ResumeRequest := mkResumeRequest {
  rr_session : SessionId;
  rr_fence : CommandFence
}.
#[global] Instance eta_ResumeRequest : Eta ResumeRequest :=
  fun r => mkResumeRequest (rr_session r) (rr_fence r).
Definition ResumeRequest_default : ResumeRequest :=
  mkResumeRequest id_nil CommandFence_default.

Record RevalidateRequest := mkRevalidateRequest {
  rvr_session : SessionId;
  rvr_fence : CommandFence
}.
#[global] Instance eta_RevalidateRequest : Eta RevalidateRequest :=
  fun r => mkRevalidateRequest (rvr_session r) (rvr_fence r).
Definition RevalidateRequest_default : RevalidateRequest :=
  mkRevalidateRequest id_nil CommandFence_default.

Record WaveRequest := mkWaveRequest {
  wr_session : SessionId;
  wr_shard : ShardIndex;
  wr_fence : CommandFence
}.
#[global] Instance eta_WaveRequest : Eta WaveRequest :=
  fun r => mkWaveRequest (wr_session r) (wr_shard r) (wr_fence r).
Definition WaveRequest_default : WaveRequest :=
  mkWaveRequest id_nil (mkScalar 0) CommandFence_default.

Record AmbiguityRequest := mkAmbiguityRequest {
  ar_session : SessionId;
  ar_attempt : TransferAttemptId;
  ar_sequence : AttemptSequence;
  ar_cause : string;
  ar_fence : CommandFence
}.
#[global] Instance eta_AmbiguityRequest : Eta AmbiguityRequest :=
  fun r => mkAmbiguityRequest (ar_session r) (ar_attempt r) (ar_sequence r) (ar_cause r)
    (ar_fence r).
Definition AmbiguityRequest_default : AmbiguityRequest :=
  mkAmbiguityRequest id_nil id_nil (mkGen 0) "" CommandFence_default.

Record SourceCompleteRequest := mkSourceCompleteRequest {
  scr_evidence : SourceCompleteEvidence;
  scr_fence : CommandFence
}.
#[global] Instance eta_SourceCompleteRequest : Eta SourceCompleteRequest :=
  fun r => mkSourceCompleteRequest (scr_evidence r) (scr_fence r).
Definition SourceCompleteRequest_default : SourceCompleteRequest :=
  mkSourceCompleteRequest SourceCompleteEvidence_default CommandFence_default.

Record TransferReport := mkTransferReport {
  tr_evidence : TransferEvidence;
  tr_fence : CommandFence
}.
#[global] Instance eta_TransferReport : Eta TransferReport :=
  fun r => mkTransferReport (tr_evidence r) (tr_fence r).
Definition TransferReport_default : TransferReport :=
  mkTransferReport TransferEvidence_default CommandFence_default.

Record VerificationReport := mkVerificationReport {
  vr_evidence : VerificationEvidence;
  vr_fence : CommandFence
}.
#[global] Instance eta_VerificationReport : Eta VerificationReport :=
  fun r => mkVerificationReport (vr_evidence r) (vr_fence r).
Definition VerificationReport_default : VerificationReport :=
  mkVerificationReport VerificationEvidence_default CommandFence_default.

Record DurabilityRequest := mkDurabilityRequest {
  dr_session : SessionId;
  dr_assertion : DurabilityAssertion;
  dr_fence : CommandFence
}.
#[global] Instance eta_DurabilityRequest : Eta DurabilityRequest :=
  fun r => mkDurabilityRequest (dr_session r) (dr_assertion r) (dr_fence r).
Definition DurabilityRequest_default : DurabilityRequest :=
  mkDurabilityRequest id_nil DurabilityAssertion_default CommandFence_default.

Record SessionListResponse := mkSessionListResponse {
  slr_sessions : list SessionSummary
}.
#[global] Instance eta_SessionListResponse : Eta SessionListResponse :=
  fun r => mkSessionListResponse (slr_sessions r).
Definition SessionListResponse_default : SessionListResponse :=
  mkSessionListResponse [].

Record StatusPayload := mkStatusPayload {
  sp_code : ErrorCode;
  sp_reason : ReasonCode;
  sp_detail : string
}.
#[global] Instance eta_StatusPayload : Eta StatusPayload :=
  fun r => mkStatusPayload (sp_code r) (sp_reason r) (sp_detail r).
Definition StatusPayload_default : StatusPayload :=
  mkStatusPayload ErrorCode.Ok ReasonCode.Admitted_ "".

(** ** Payload codecs *)

Definition encode_ShardBeginPayload (value : ShardBeginPayload) : Enc :=
  encode_id (sbp_session value) ;>
  encode_id (sbp_attempt value) ;>
  encode_gen (sbp_sequence value) ;>
  encode_id (sbp_checkpoint value) ;>
  encode_gen (sbp_checkpoint_generation value) ;>
  encode_id (sbp_workload value) ;>
  encode_scalar (sbp_shard value) ;>
  enc_u64 (sbp_declared_bytes value) ;>
  encode_Digest (sbp_declared_digest value).
Definition decode_ShardBeginPayload : ShardBeginPayload -> Dec ShardBeginPayload :=
  into sbp_session decode_id >=>
  into sbp_attempt decode_id >=>
  into sbp_sequence decode_gen >=>
  into sbp_checkpoint decode_id >=>
  into sbp_checkpoint_generation decode_gen >=>
  into sbp_workload decode_id >=>
  into sbp_shard decode_scalar >=>
  into sbp_declared_bytes dec_u64 >=>
  into sbp_declared_digest decode_Digest.

Definition encode_ShardDataPayload (value : ShardDataPayload) : Enc :=
  encode_id (sdp_attempt value) ;>
  encode_gen (sdp_sequence value) ;>
  enc_u64 (sdp_offset value) ;>
  enc_bytes (sdp_data value).
Definition decode_ShardDataPayload : ShardDataPayload -> Dec ShardDataPayload :=
  into sdp_attempt decode_id >=>
  into sdp_sequence decode_gen >=>
  into sdp_offset dec_u64 >=>
  into sdp_data dec_bytes.

Definition encode_ShardEndPayload (value : ShardEndPayload) : Enc :=
  enc_u64 (sep_bytes_sent value) ;>
  encode_Digest (sep_sent_digest value) ;>
  enc_boolean (sep_truncated value).
Definition decode_ShardEndPayload : ShardEndPayload -> Dec ShardEndPayload :=
  into sep_bytes_sent dec_u64 >=>
  into sep_sent_digest decode_Digest >=>
  into sep_truncated dec_boolean.

Definition encode_ShardAckPayload (value : ShardAckPayload) : Enc :=
  enc_u64 (sap_bytes_received value) ;>
  enc_boolean (sap_verified value) ;>
  enc_boolean (sap_truncated value) ;>
  encode_Digest (sap_received_digest value) ;>
  enc_string (sap_detail value).
Definition decode_ShardAckPayload : ShardAckPayload -> Dec ShardAckPayload :=
  into sap_bytes_received dec_u64 >=>
  into sap_verified dec_boolean >=>
  into sap_truncated dec_boolean >=>
  into sap_received_digest decode_Digest >=>
  into sap_detail dec_string.

Definition encode_HelloRequest (value : HelloRequest) : Enc :=
  enc_u8 (ClientKind.value (hrq_kind value)) ;>
  enc_string (hrq_identity value).
Definition decode_HelloRequest (value : HelloRequest) : Dec HelloRequest :=
  raw <-- dec_u8;
  guard_ok (fun value =>
    match ClientKind.of_value raw with
    | Some kind => into hrq_identity dec_string (value <| hrq_kind := kind |>)
    | None => dec_fail ErrorCode.UnsupportedValue "client kind is not in the supported set" value
    end) value.

Definition encode_HelloResponse (value : HelloResponse) : Enc :=
  encode_CoordinatorEpoch (hrs_epoch value) ;>
  encode_gen (hrs_policy_generation value) ;>
  encode_gen (hrs_topology_generation value) ;>
  encode_list encode_ContractGenerationRecord (hrs_contracts value) ;>
  encode_Limits (hrs_limits value) ;>
  enc_string (hrs_server_label value).
Definition decode_HelloResponse : HelloResponse -> Dec HelloResponse :=
  into hrs_epoch decode_CoordinatorEpoch >=>
  into hrs_policy_generation decode_gen >=>
  into hrs_topology_generation decode_gen >=>
  items hrs_contracts lim_max_workloads
    "hello declares too many contracts" decode_ContractGenerationRecord (
  into_sub hrs_limits decode_Limits >=>
  into hrs_server_label dec_string).

Definition encode_SubmitRequest (value : SubmitRequest) : Enc :=
  encode_SessionRequest (sbr_request value) ;>
  encode_CommandFence (sbr_fence value).
Definition decode_SubmitRequest : SubmitRequest -> Dec SubmitRequest :=
  into_sub sbr_request decode_SessionRequest >=>
  into_sub sbr_fence decode_CommandFence.

Definition encode_SessionQuery (value : SessionQuery) : Enc :=
  encode_id (sq_session value).
Definition decode_SessionQuery : SessionQuery -> Dec SessionQuery :=
  into sq_session decode_id.

Definition encode_SessionsQuery (value : SessionsQuery) : Enc :=
  enc_boolean (ssq_has_workload value) ;>
  encode_id (ssq_workload value) ;>
  enc_u32 (ssq_limit value).
Definition decode_SessionsQuery : SessionsQuery -> Dec SessionsQuery :=
  into ssq_has_workload dec_boolean >=>
  into ssq_workload decode_id >=>
  into ssq_limit dec_u32.

Definition encode_CancelRequest (value : CancelRequest) : Enc :=
  encode_id (cr_session value) ;>
  encode_CommandFence (cr_fence value) ;>
  encode_enum ReasonCode.value (cr_reason value) ;>
  enc_string (cr_detail value).
Definition decode_CancelRequest : CancelRequest -> Dec CancelRequest :=
  into cr_session decode_id >=>
  into_sub cr_fence decode_CommandFence >=>
  into cr_reason (decode_enum ReasonCode.of_value ReasonCode.Admitted_) >=>
  into cr_detail dec_string.

Definition encode_PauseRequest (value : PauseRequest) : Enc :=
  encode_id (pr_session value) ;>
  encode_CommandFence (pr_fence value) ;>
  enc_string (pr_reason value).
Definition decode_PauseRequest : PauseRequest -> Dec PauseRequest :=
  into pr_session decode_id >=>
  into_sub pr_fence decode_CommandFence >=>
  into pr_reason dec_string.

Definition encode_ResumeRequest (value : ResumeRequest) : Enc :=
  encode_id (rr_session value) ;>
  encode_CommandFence (rr_fence value).
Definition decode_ResumeRequest : ResumeRequest -> Dec ResumeRequest :=
  into rr_session decode_id >=>
  into_sub rr_fence decode_CommandFence.

Definition encode_RevalidateRequest (value : RevalidateRequest) : Enc :=
  encode_id (rvr_session value) ;>
  encode_CommandFence (rvr_fence value).
Definition decode_RevalidateRequest : RevalidateRequest -> Dec RevalidateRequest :=
  into rvr_session decode_id >=>
  into_sub rvr_fence decode_CommandFence.

Definition encode_WaveRequest (value : WaveRequest) : Enc :=
  encode_id (wr_session value) ;>
  encode_scalar (wr_shard value) ;>
  encode_CommandFence (wr_fence value).
Definition decode_WaveRequest : WaveRequest -> Dec WaveRequest :=
  into wr_session decode_id >=>
  into wr_shard decode_scalar >=>
  into_sub wr_fence decode_CommandFence.

Definition encode_AmbiguityRequest (value : AmbiguityRequest) : Enc :=
  encode_id (ar_session value) ;>
  encode_id (ar_attempt value) ;>
  encode_gen (ar_sequence value) ;>
  enc_string (ar_cause value) ;>
  encode_CommandFence (ar_fence value).
Definition decode_AmbiguityRequest : AmbiguityRequest -> Dec AmbiguityRequest :=
  into ar_session decode_id >=>
  into ar_attempt decode_id >=>
  into ar_sequence decode_gen >=>
  into ar_cause dec_string >=>
  into_sub ar_fence decode_CommandFence.

Definition encode_SourceCompleteRequest (value : SourceCompleteRequest) : Enc :=
  encode_SourceCompleteEvidence (scr_evidence value) ;>
  encode_CommandFence (scr_fence value).
Definition decode_SourceCompleteRequest : SourceCompleteRequest -> Dec SourceCompleteRequest :=
  into_sub scr_evidence decode_SourceCompleteEvidence >=>
  into_sub scr_fence decode_CommandFence.

Definition encode_TransferReport (value : TransferReport) : Enc :=
  encode_TransferEvidence (tr_evidence value) ;>
  encode_CommandFence (tr_fence value).
Definition decode_TransferReport : TransferReport -> Dec TransferReport :=
  into_sub tr_evidence decode_TransferEvidence >=>
  into_sub tr_fence decode_CommandFence.

Definition encode_VerificationReport (value : VerificationReport) : Enc :=
  encode_VerificationEvidence (vr_evidence value) ;>
  encode_CommandFence (vr_fence value).
Definition decode_VerificationReport : VerificationReport -> Dec VerificationReport :=
  into_sub vr_evidence decode_VerificationEvidence >=>
  into_sub vr_fence decode_CommandFence.

Definition encode_DurabilityRequest (value : DurabilityRequest) : Enc :=
  encode_id (dr_session value) ;>
  encode_DurabilityAssertion (dr_assertion value) ;>
  encode_CommandFence (dr_fence value).
Definition decode_DurabilityRequest : DurabilityRequest -> Dec DurabilityRequest :=
  into dr_session decode_id >=>
  into_sub dr_assertion decode_DurabilityAssertion >=>
  into_sub dr_fence decode_CommandFence.

Definition encode_SessionListResponse (value : SessionListResponse) : Enc :=
  encode_list encode_SessionSummary (slr_sessions value).
Definition decode_SessionListResponse : SessionListResponse -> Dec SessionListResponse :=
  items slr_sessions lim_max_sessions
    "session list exceeds the configured bound" (decode_SessionSummary SessionSummary_default) done.

Definition encode_StatusPayload (value : StatusPayload) : Enc :=
  encode_ErrorCode (sp_code value) ;>
  encode_enum ReasonCode.value (sp_reason value) ;>
  enc_string (sp_detail value).
Definition decode_StatusPayload : StatusPayload -> Dec StatusPayload :=
  into sp_code decode_ErrorCode >=>
  into sp_reason (decode_enum ReasonCode.of_value ReasonCode.Admitted_) >=>
  into sp_detail dec_string.

(** ** The channel *)

Record Message := mkMessage { msg_type : MessageType; msg_sequence : Z; msg_payload : list Z }.

(** What [net::TcpSocket] offers the channel.  [stream_read n s] returns at most
    [n] bytes, none when the peer has closed. *)
Class ByteStream (S : Type) := {
  stream_write : list Z -> S -> Status * S;
  stream_read : nat -> S -> Result (list Z) * S
}.

Record MessageChannel (S : Type) := mkChannel {
  ch_socket : S;
  ch_send_sequence : Z;
  ch_last_received_sequence : Z;
  ch_received_any : bool
}.
Arguments mkChannel {S}.
Arguments ch_socket {S}.
Arguments ch_send_sequence {S}.
Arguments ch_last_received_sequence {S}.
Arguments ch_received_any {S}.

Section channel.
Context {S : Type} `{ByteStream S}.

Definition channel_open (socket : S) : MessageChannel S := mkChannel socket 0 0 false.
Definition with_socket (c : MessageChannel S) (socket : S) : MessageChannel S :=
  mkChannel socket (ch_send_sequence c) (ch_last_received_sequence c) (ch_received_any c).

(** The loop of [read_exactly].  Every iteration but the last adds at least one
    byte, so [fuel] equal to the size of the buffer is enough. *)
Fixpoint read_exactly (fuel : nat) (size : nat) (buffer : list Z) (socket : S)
  : Result (list Z) * S :=
  if (length buffer <? size)%nat then
    match fuel with
    | O => (Err (Status_error ErrorCode.Internal ""), socket)
    | Datatypes.S fuel' =>
        match stream_read (size - length buffer) socket with
        | (Err status, socket) => (Err status, socket)
        | (Val [], socket) =>
            (Err (Status_error ErrorCode.PeerClosed "peer closed the connection"), socket)
        | (Val chunk, socket) => read_exactly fuel' size (buffer ++ chunk) socket
        end
    end
  else (Val buffer, socket).

Definition send (type : MessageType) (payload : list Z) (c : MessageChannel S)
  : Status * MessageChannel S :=
  let sequence := u64 (ch_send_sequence c + 1) in
  let c := mkChannel (ch_socket c) sequence (ch_last_received_sequence c) (ch_received_any c) in
  let header := mkFrameHeader kProtocolVersion (MessageType.value type) 0 sequence
                  (u32 (Z.of_nat (length payload))) 0 in
  match encode_frame header payload with
  | Err status => (status, c)
  | Val frame =>
      let '(status, socket) := stream_write frame (ch_socket c) in (status, with_socket c socket)
  end.

(** The whole frame: the header, then as many bytes as it declares. *)
Definition read_frame (socket : S) : Result (list Z) * S :=
  match read_exactly kFrameHeaderBytes kFrameHeaderBytes [] socket with
  | (Err status, socket) => (Err status, socket)
  | (Val header_bytes, socket) =>
      if negb (get_u32 (at_offset 0 4 header_bytes) =? kFrameMagic) then
        (Err (Status_error ErrorCode.InvalidSyntax "frame magic does not match"), socket)
      else
        let payload_bytes := get_u32 (at_offset 20 4 header_bytes) in
        if payload_bytes >? kMaxPayloadBytes then
          (Err (Status_error ErrorCode.PayloadTooLarge "peer declared an oversized frame payload"),
           socket)
        else if payload_bytes >? 0 then
          match read_exactly (Z.to_nat payload_bytes) (Z.to_nat payload_bytes) [] socket with
          | (Err status, socket) => (Err status, socket)
          | (Val payload, socket) => (Val (header_bytes ++ payload), socket)
          end
        else (Val header_bytes, socket)
  end.

(** [receive] once the frame has been read. *)
Definition accept_frame (frame : list Z) (c : MessageChannel S) : Result Message * MessageChannel S :=
  match decode_frame frame with
  | Err status => (Err status, c)
  | Val (payload, header) =>
      match MessageType.of_value (fh_message_type header) with
      | None =>
          (Err (Status_error ErrorCode.UnknownMessageType "peer sent an unknown message type"), c)
      | Some type =>
          if ch_received_any c && (fh_sequence header <=? ch_last_received_sequence c) then
            (Err (Status_error ErrorCode.SequenceViolation
                    "peer repeated or rewound a frame sequence number"), c)
          else
            (Val (mkMessage type (fh_sequence header) payload),
             mkChannel (ch_socket c) (ch_send_sequence c) (fh_sequence header) true)
      end
  end.

Definition receive (c : MessageChannel S) : Result Message * MessageChannel S :=
  match read_frame (ch_socket c) with
  | (Err status, socket) => (Err status, with_socket c socket)
  | (Val frame, socket) => accept_frame frame (with_socket c socket)
  end.
End channel.
