(* ===== verification/Snapshot.v ===== *)
(** * Snapshot: the persistent form of the engine's state

    Models the codecs of [src/store.cpp]: the persisted shard, attempt and
    session, the whole engine snapshot, and the journal record that wraps a
    snapshot in the files, with its magic, version and checksum. *)

From stdpp Require Import base gmap list strings.
From Stdlib Require Import Ascii.
From S2P Require Import Prelude Status Ids Bytes Hash Enums Model Fence Shaper.
From S2P Require Import EngineState EngineAuthority EngineAdmission EngineLifecycle.
From S2P Require Import EngineInspect Wire Codec.

#[global] Instance eta_PersistedShard : Eta PersistedShard :=
  fun r => mkPShard (ps_index r) (ps_state r) (ps_sequence r) (ps_granted_bytes r)
    (ps_transferred_bytes r) (ps_verified_bytes r) (ps_observed_digest r)
    (ps_has_observed_digest r) (ps_attempt r) (ps_source_complete r) (ps_source_bytes r).
#[global] Instance eta_PersistedAttempt : Eta PersistedAttempt :=
  fun r => mkPAttempt (pa_id r) (pa_sequence r) (pa_shard r) (pa_wave r) (pa_outcome r)
    (pa_granted_bytes r) (pa_delivered_bytes r) (pa_observed_digest r) (pa_has_observed_digest r)
    (pa_outstanding r) (pa_granted_at r) (pa_updated_at r).

(** ** Default-initialised values *)

Definition PersistedShard_default : PersistedShard :=
  mkPShard (mkScalar 0) ShardState.Pending (mkGen 0) 0 0 0 Digest_default false None false 0.
Definition PersistedAttempt_default : PersistedAttempt :=
  mkPAttempt id_nil (mkGen 0) (mkScalar 0) (mkScalar 0) AttemptOutcome.Granted 0 0 Digest_default
    false false 0 0.
Definition PersistedSession_default : PersistedSession :=
  mkPSession id_nil SessionRequest_default SessionState.Submitted EvidenceLevel.None
    TrafficEnvelope_default 0 0 [] [] [] 0 0 0 0 0 0 0 0 false false 0 0 ReasonCode.Admitted_ "" ""
    None.
Definition EngineSnapshot_default : EngineSnapshot :=
  mkSnapshot (mkEpoch (mkGen 0) (mkGen 0)) (mkGen 0) (mkGen 0) [] [] AccountingSnapshot_default 0.

(** ** Codecs *)

Definition encode_PersistedShard (value : PersistedShard) : Enc :=
  encode_scalar (ps_index value) ;>
  encode_enum ShardState.value (ps_state value) ;>
  encode_gen (ps_sequence value) ;>
  enc_u64 (ps_granted_bytes value) ;>
  enc_u64 (ps_transferred_bytes value) ;>
  enc_u64 (ps_verified_bytes value) ;>
  encode_Digest (ps_observed_digest value) ;>
  enc_boolean (ps_has_observed_digest value) ;>
  encode_optional encode_id (ps_attempt value) ;>
  enc_boolean (ps_source_complete value) ;>
  enc_u64 (ps_source_bytes value).
Definition decode_PersistedShard : PersistedShard -> Dec PersistedShard :=
  into ps_index decode_scalar >=>
  into ps_state (decode_enum ShardState.of_value ShardState.Pending) >=>
  into ps_sequence decode_gen >=>
  into ps_granted_bytes dec_u64 >=>
  into ps_transferred_bytes dec_u64 >=>
  into ps_verified_bytes dec_u64 >=>
  into ps_observed_digest decode_Digest >=>
  into ps_has_observed_digest dec_boolean >=>
  optional ps_attempt decode_id >=>
  guard_ok (
  into ps_source_complete dec_boolean >=>
  into ps_source_bytes dec_u64).

Definition encode_PersistedAttempt (value : PersistedAttempt) : Enc :=
  encode_id (pa_id value) ;>
  encode_gen (pa_sequence value) ;>
  encode_scalar (pa_shard value) ;>
  encode_scalar (pa_wave value) ;>
  encode_enum AttemptOutcome.value (pa_outcome value) ;>
  enc_u64 (pa_granted_bytes value) ;>
  enc_u64 (pa_delivered_bytes value) ;>
  encode_Digest (pa_observed_digest value) ;>
  enc_boolean (pa_has_observed_digest value) ;>
  enc_boolean (pa_outstanding value) ;>
  enc_i64 (pa_granted_at value) ;>
  enc_i64 (pa_updated_at value).
Definition decode_PersistedAttempt : PersistedAttempt -> Dec PersistedAttempt :=
  into pa_id decode_id >=>
  into pa_sequence decode_gen >=>
  into pa_shard decode_scalar >=>
  into pa_wave decode_scalar >=>
  into pa_outcome (decode_enum AttemptOutcome.of_value AttemptOutcome.Granted) >=>
  into pa_granted_bytes dec_u64 >=>
  into pa_delivered_bytes dec_u64 >=>
  into pa_observed_digest decode_Digest >=>
  into pa_has_observed_digest dec_boolean >=>
  into pa_outstanding dec_boolean >=>
  into pa_granted_at dec_i64 >=>
  into pa_updated_at dec_i64.

Definition encode_PersistedSession (value : PersistedSession) : Enc :=
  encode_id (psn_session value) ;>
  encode_SessionRequest (psn_request value) ;>
  encode_enum SessionState.value (psn_state value) ;>
  encode_enum EvidenceLevel.value (psn_evidence value) ;>
  encode_TrafficEnvelope (psn_envelope value) ;>
  enc_u64 (psn_envelope_sequence value) ;>
  enc_u64 (psn_attempt_counter value) ;>
  encode_list encode_PersistedShard (psn_shards value) ;>
  encode_list encode_PersistedAttempt (psn_attempts value) ;>
  encode_list enc_string (psn_timeline value) ;>
  enc_u64 (psn_admitted_bytes value) ;>
  enc_u64 (psn_transferred_bytes value) ;>
  enc_u64 (psn_verified_bytes value) ;>
  enc_u64 (psn_cancelled_bytes value) ;>
  enc_u64 (psn_wasted_bytes value) ;>
  enc_u64 (psn_unproven_bytes value) ;>
  enc_u64 (psn_outstanding_bytes value) ;>
  enc_u32 (psn_active_attempts value) ;>
  enc_boolean (psn_source_complete value) ;>
  enc_boolean (psn_paused value) ;>
  enc_i64 (psn_created_at value) ;>
  enc_i64 (psn_updated_at value) ;>
  encode_enum ReasonCode.value (psn_last_reason value) ;>
  enc_string (psn_last_detail value) ;>
  enc_string (psn_stale_reason value) ;>
  encode_optional encode_id (psn_superseded_by value).
Definition decode_PersistedSession : PersistedSession -> Dec PersistedSession :=
  into psn_session decode_id >=>
  into_sub psn_request decode_SessionRequest >=>
  into psn_state (decode_enum SessionState.of_value SessionState.Submitted) >=>
  into psn_evidence (decode_enum EvidenceLevel.of_value EvidenceLevel.None) >=>
  into_sub psn_envelope decode_TrafficEnvelope >=>
  into psn_envelope_sequence dec_u64 >=>
  into psn_attempt_counter dec_u64 >=>
  items psn_shards lim_max_shards_per_checkpoint
    "persisted session lists too many shards" (decode_PersistedShard PersistedShard_default) (
  items psn_attempts lim_max_retained_history
    "persisted session lists too many attempts"
    (decode_PersistedAttempt PersistedAttempt_default) (
  items psn_timeline lim_max_retained_history
    "persisted session lists too many timeline entries" dec_string (
  into psn_admitted_bytes dec_u64 >=>
  into psn_transferred_bytes dec_u64 >=>
  into psn_verified_bytes dec_u64 >=>
  into psn_cancelled_bytes dec_u64 >=>
  into psn_wasted_bytes dec_u64 >=>
  into psn_unproven_bytes dec_u64 >=>
  into psn_outstanding_bytes dec_u64 >=>
  into psn_active_attempts dec_u32 >=>
  into psn_source_complete dec_boolean >=>
  into psn_paused dec_boolean >=>
  into psn_created_at dec_i64 >=>
  into psn_updated_at dec_i64 >=>
  into psn_last_reason (decode_enum ReasonCode.of_value ReasonCode.Admitted_) >=>
  into psn_last_detail dec_string >=>
  into psn_stale_reason dec_string >=>
  optional psn_superseded_by decode_id))).
(** The statements of [encode_snapshot]; [limits] is not used by the source. *)
Definition encode_EngineSnapshot (value : EngineSnapshot) : Enc :=
  encode_CoordinatorEpoch (snap_epoch value) ;>
  encode_gen (snap_policy_generation value) ;>
  encode_gen (snap_topology_generation value) ;>
  encode_list encode_ContractGenerationRecord (snap_contract_generations value) ;>
  encode_list encode_PersistedSession (snap_sessions value) ;>
  encode_AccountingSnapshot (snap_accounting value) ;>
  enc_u64 (snap_commands_processed value).
Definition encode_snapshot (snapshot : EngineSnapshot) : list Z :=
  encode_payload encode_EngineSnapshot snapshot.

(** The statements of [decode_snapshot] before [expect_end].  Its early returns
    hand back the status of the decoder, or the error that [items] leaves in it. *)
Definition decode_EngineSnapshot : EngineSnapshot -> Dec EngineSnapshot :=
  into snap_epoch decode_CoordinatorEpoch >=>
  into snap_policy_generation decode_gen >=>
  into snap_topology_generation decode_gen >=>
  items snap_contract_generations lim_max_workloads
    "snapshot declares too many contracts" decode_ContractGenerationRecord (
  items snap_sessions lim_max_sessions
    "snapshot declares too many sessions" (decode_PersistedSession PersistedSession_default) (
  into_sub snap_accounting decode_AccountingSnapshot >=>
  into snap_commands_processed dec_u64)).
Definition decode_snapshot (data : list Z) (limits : Limits) : Result EngineSnapshot :=
  decode_payload decode_EngineSnapshot EngineSnapshot_default data limits.

(** ** Journal records *)

Definition kJournalMagic : Z := 0x4A465443.
Definition kJournalHeaderBytes : nat := 28.
Definition kMaxLabelBytes : Z := 64.
Definition kPersistenceFormatVersion : Z := 1.

Record JournalRecord := mkRecord {
  jr_sequence : Z;
  jr_label : string;
  jr_payload : list Z
}.

(** Header bytes 0 to 23. *)
Definition journal_prefix (record : JournalRecord) : list Z :=
  be_bytes 4 kJournalMagic ++ be_bytes 2 kPersistenceFormatVersion ++ [0; 0] ++
  be_bytes 8 (jr_sequence record) ++ be_bytes 4 (u32 (Z.of_nat (length (jr_payload record)))) ++
  be_bytes 2 (Z.of_nat (length (string_bytes (jr_label record)))) ++ [0; 0].

(** An oversized label or payload is encoded as no bytes at all. *)
Definition encode_journal_record (record : JournalRecord) : list Z :=
  let label := string_bytes (jr_label record) in
  if (Z.of_nat (length label) >? kMaxLabelBytes) ||
     (Z.of_nat (length (jr_payload record)) >? kMaxPayloadBytes) then []
  else
    let header := journal_prefix record in
    let crc := crc32c header 0 in
    let crc := crc32c label crc in
    let crc := crc32c (jr_payload record) crc in
    header ++ be_bytes 4 crc ++ label ++ jr_payload record.

(** The record at the front of [data] and the number of bytes it takes. *)
Definition decode_journal_record (data : list Z) : Result (JournalRecord * nat) :=
  if (length data <? kJournalHeaderBytes)%nat then
    Err (Status_error ErrorCode.TruncatedInput "journal record header is incomplete")
  else if negb (get_u32 (at_offset 0 4 data) =? kJournalMagic) then
    Err (Status_error ErrorCode.InvalidSyntax "journal record magic does not match")
  else if negb (get_u16 (at_offset 4 2 data) =? kPersistenceFormatVersion) then
    Err (Status_error ErrorCode.VersionIncompatible "journal record version is not supported")
  else if negb (nth 6 data 0 =? 0) || negb (nth 7 data 0 =? 0) ||
          negb (nth 22 data 0 =? 0) || negb (nth 23 data 0 =? 0) then
    Err (Status_error ErrorCode.NonCanonicalEncoding "journal record reserved fields are non-zero")
  else
    let sequence := get_u64 (at_offset 8 8 data) in
    let payload_bytes := get_u32 (at_offset 16 4 data) in
    let label_bytes := get_u16 (at_offset 20 2 data) in
    if label_bytes >? kMaxLabelBytes then
      Err (Status_error ErrorCode.StringTooLong "journal record label is too long")
    else if payload_bytes >? kMaxPayloadBytes then
      Err (Status_error ErrorCode.PayloadTooLarge "journal record payload is too large")
    else
      let total := (kJournalHeaderBytes + Z.to_nat label_bytes + Z.to_nat payload_bytes)%nat in
      if (length data <? total)%nat then
        Err (Status_error ErrorCode.TruncatedInput "journal record payload is incomplete")
      else
        let declared_crc := get_u32 (at_offset 24 4 data) in
        let label := at_offset kJournalHeaderBytes (Z.to_nat label_bytes) data in
        let payload := at_offset (kJournalHeaderBytes + Z.to_nat label_bytes)
                         (Z.to_nat payload_bytes) data in
        let crc := crc32c (take 24 data) 0 in
        let crc := crc32c label crc in
        let crc := crc32c payload crc in
        if negb (crc =? declared_crc) then
          Err (Status_error ErrorCode.IntegrityFailure "journal record checksum does not match")
        else
          Val (mkRecord sequence (text_of (string_from_bytes label)) payload, total).
