(* ===== verification/Store.v ===== *)
(** * Store: the persistent store

    Models [PersistentStore] of [include/ctf/store.hpp] and [src/store.cpp] over
    the three files it keeps.  What the operating system does is an argument of
    each operation: a [WriteFault] says how far one write got and which call of
    it failed, a [ReadFault] whether a file could be sized and opened.  A crash in
    the middle of an operation leaves the disk as some fault at that point does,
    so the faults also stand for the crash points. *)

From stdpp Require Import base gmap list strings.
From Stdlib Require Import Ascii.
From S2P Require Import Prelude Status Ids Bytes Hash Enums Model Fence Shaper.
From S2P Require Import EngineState EngineAuthority EngineAdmission EngineLifecycle.
From S2P Require Import EngineInspect Wire Codec Snapshot.

Record LoadReport := mkReport {
  rep_snapshot_present : bool;
  rep_journal_present : bool;
  rep_torn_tail : bool;
  rep_corrupt_prefix : bool;
  rep_version_mismatch : bool;
  rep_snapshot_sequence : Z;
  rep_journal_records_applied : Z;
  rep_discarded_bytes : Z;
  rep_notes : list string
}.
#[global] Instance eta_LoadReport : Eta LoadReport :=
  fun r => mkReport (rep_snapshot_present r) (rep_journal_present r) (rep_torn_tail r)
    (rep_corrupt_prefix r) (rep_version_mismatch r) (rep_snapshot_sequence r)
    (rep_journal_records_applied r) (rep_discarded_bytes r) (rep_notes r).
Definition LoadReport_default : LoadReport := mkReport false false false false false 0 0 0 [].

Record StoreConfig := mkStoreConfig {
  sc_directory : string;
  sc_limits : Limits;
  sc_max_journal_bytes : Z;
  sc_max_journal_records : Z
}.
(** The member initialisers of [StoreConfig]. *)
Definition StoreConfig_default (directory : string) (limits : Limits) : StoreConfig :=
  mkStoreConfig directory limits (2 ^ 22) 2048.

Record PersistentStore := mkStore {
  config_ : StoreConfig;
  sequence_ : Z;
  journal_records_ : Z;
  journal_bytes_ : Z
}.
#[global] Instance eta_PersistentStore : Eta PersistentStore :=
  fun r => mkStore (config_ r) (sequence_ r) (journal_records_ r) (journal_bytes_ r).

Definition PersistentStore_init (config : StoreConfig) : PersistentStore := mkStore config 0 0 0.

(** ** Files *)

(** The contents of the temporary file, the snapshot and the journal, where they
    exist. *)
Record Disk := mkDisk {
  disk_temp : option (list Z);
  disk_snapshot : option (list Z);
  disk_journal : option (list Z)
}.

Record WriteFault := mkWriteFault {
  wf_open : bool;       (* [fopen] succeeds *)
  wf_write : bool;      (* [fwrite] takes all the bytes *)
  wf_fflush : bool;
  wf_fsync : bool;
  wf_fclose : bool;
  wf_landed : nat       (* bytes that reach the file when the write fails *)
}.
Definition no_fault : WriteFault := mkWriteFault true true true true true 0.
Record ReadFault := mkReadFault { rf_size : bool; rf_open : bool }.
Definition read_fine : ReadFault := mkReadFault true true.

Definition io_failure (detail path : string) : Status :=
  Status_error ErrorCode.IoFailure (detail +:+ path).

Definition flush_file (fault : WriteFault) (path : string) : Status :=
  if negb (wf_fflush fault) then io_failure "failed to flush " path
  else if negb (wf_fsync fault) then io_failure "failed to flush device buffers for " path
  else Status_success.

(** The status and the new contents of the file.  Success means that all of
    [data] is in the file; after a failure some of it may be. *)
Definition write_file_flushed (fault : WriteFault) (path : string) (data : list Z) (append : bool)
    (file : option (list Z)) : Status * option (list Z) :=
  if negb (wf_open fault) then (io_failure "cannot open " path, file)
  else
    let ok := if Nat.eqb (length data) 0 then true else wf_write fault in
    let status := if (ok : bool) then flush_file fault path
                  else io_failure "short write to " path in
    let status := if negb (wf_fclose fault) && Status_ok status
                  then io_failure "failed to close " path else status in
    let before := if append then default [] file else [] in
    (status, Some (before ++ if Status_ok status then data else take (wf_landed fault) data)).

Definition max_file_bytes : Z := kMaxPayloadBytes + 4096.

Definition read_file_bytes (fault : ReadFault) (path : string) (file : list Z) : Result (list Z) :=
  if negb (rf_size fault) then Err (io_failure "cannot size " path)
  else if Z.of_nat (length file) >? max_file_bytes then
    Err (Status_error ErrorCode.PayloadTooLarge "persisted file exceeds the maximum supported size")
  else if negb (rf_open fault) then Err (io_failure "cannot read " path)
  else Val file.

(** [atomic_replace] of the snapshot by the temporary file; a refusal carries the
    platform's message. *)
Definition atomic_replace (refusal : option string) (disk : Disk) : Status * Disk :=
  match refusal with
  | Some message =>
      (Status_error ErrorCode.IoFailure ("atomic replace failed: " +:+ message), disk)
  | None => (Status_success, mkDisk None (disk_temp disk) (disk_journal disk))
  end.

(** ** Operations *)

(** [directory / name] *)
Definition path_join (directory name : string) : string :=
  if String.eqb directory "" then name
  else match last (chars directory) with
       | Some c => if Ascii.eqb c "/" then directory +:+ name else directory +:+ "/" +:+ name
       | None => name
       end.
Definition snapshot_path (st : PersistentStore) : string :=
  path_join (sc_directory (config_ st)) "fabric.snapshot".
Definition journal_path (st : PersistentStore) : string :=
  path_join (sc_directory (config_ st)) "fabric.journal".

(** [refusal] is the message of [create_directories] when it fails. *)
Definition store_open (refusal : option string) (is_directory : bool) (st : PersistentStore)
  : Status * PersistentStore :=
  if String.eqb (sc_directory (config_ st)) "" then
    (Status_error ErrorCode.InvalidArgument "store directory must not be empty", st)
  else match refusal with
  | Some message =>
      (Status_error ErrorCode.IoFailure ("cannot create store directory: " +:+ message), st)
  | None =>
      if negb is_directory then
        (Status_error ErrorCode.IoFailure "store path is not a directory", st)
      else (Status_success, mkStore (config_ st) 0 0 0)
  end.

Definition has_state (disk : Disk) : bool :=
  bool_decide (is_Some (disk_snapshot disk)) || bool_decide (is_Some (disk_journal disk)).

Definition note (text : string) (local : LoadReport) : LoadReport :=
  local <| rep_notes := rep_notes local ++ [text] |>.

(** The part of [load] that reads the snapshot file; the report is what has been
    stored through the pointer, if anything has. *)
Definition load_snapshot (fault : ReadFault) (st : PersistentStore) (file : list Z)
    (local : LoadReport) : Result EngineSnapshot * option LoadReport * LoadReport :=
  match read_file_bytes fault (snapshot_path st) file with
  | Err status => (Err status, None, local)
  | Val raw =>
      match decode_journal_record raw with
      | Err status =>
          let local := local <| rep_corrupt_prefix := true |>
            <| rep_version_mismatch := bool_decide (st_code status = ErrorCode.VersionIncompatible) |> in
          (Err status, Some (note ("snapshot rejected: " +:+ Status_to_string status) local), local)
      | Val (record, consumed) =>
          if negb (Nat.eqb consumed (length raw)) then
            let local := local <| rep_corrupt_prefix := true |> in
            (Err (Status_error ErrorCode.TrailingGarbage "snapshot has trailing bytes"),
             Some (note "snapshot has trailing bytes after its record" local), local)
          else
            let local := local <| rep_snapshot_sequence := jr_sequence record |> in
            match decode_snapshot (jr_payload record) (sc_limits (config_ st)) with
            | Err status =>
                let local := local <| rep_corrupt_prefix := true |>
                  <| rep_version_mismatch :=
                       bool_decide (st_code status = ErrorCode.VersionIncompatible) |> in
                (Err status,
                 Some (note ("snapshot payload rejected: " +:+ Status_to_string status) local), local)
            | Val state => (Val state, None, local)
            end
      end
  end.

Definition discard_tail (raw : list Z) (text : string) (local : LoadReport) : LoadReport :=
  note text (local <| rep_torn_tail := true |>
    <| rep_discarded_bytes := u64 (rep_discarded_bytes local + Z.of_nat (length raw)) |>).

(** The loop over the journal.  [raw] is what is left of it; every iteration
    that goes on consumes a record, of 28 bytes at least, so the length of the
    journal is enough fuel. *)
Fixpoint journal_loop (fuel : nat) (limits : Limits) (raw : list Z) (last_sequence : Z)
    (state : EngineSnapshot) (local : LoadReport) : EngineSnapshot * LoadReport :=
  match fuel with
  | O => (state, local)
  | S fuel' =>
      if Nat.eqb (length raw) 0 then (state, local)
      else match decode_journal_record raw with
      | Err status =>
          (state, discard_tail raw ("journal tail discarded: " +:+ Status_to_string status) local)
      | Val (record, consumed) =>
          if jr_sequence record <=? last_sequence then
            (state, discard_tail raw
                      "journal repeats or rewinds a sequence number; tail discarded" local)
          else match decode_snapshot (jr_payload record) limits with
          | Err status =>
              (state, discard_tail raw
                        ("journal record '" +:+ jr_label record +:+ "' rejected: " +:+
                         Status_to_string status) local)
          | Val decoded =>
              journal_loop fuel' limits (drop consumed raw) (jr_sequence record) decoded
                (local <| rep_journal_records_applied :=
                            u64 (rep_journal_records_applied local + 1) |>)
          end
      end
  end.

(** The part of [load] after the snapshot file. *)
Definition load_journal (fault : ReadFault) (st : PersistentStore) (disk : Disk)
    (state : EngineSnapshot) (local : LoadReport) : Result EngineSnapshot * option LoadReport :=
  match disk_journal disk with
  | Some file =>
      let local := local <| rep_journal_present := true |> in
      match read_file_bytes fault (journal_path st) file with
      | Err status => (Err status, None)
      | Val raw =>
          let '(state, local) := journal_loop (length raw) (sc_limits (config_ st)) raw
                                   (rep_snapshot_sequence local) state local in
          (Val state, Some local)
      end
  | None =>
      if negb (rep_snapshot_present local) then
        (Err (Status_error ErrorCode.NotFound "no persisted state"), Some local)
      else (Val state, Some local)
  end.

Definition load (snapshot_fault journal_fault : ReadFault) (st : PersistentStore) (disk : Disk)
  : Result EngineSnapshot * option LoadReport :=
  let local := LoadReport_default in
  match disk_snapshot disk with
  | Some file =>
      match load_snapshot snapshot_fault st file (local <| rep_snapshot_present := true |>) with
      | (Err status, report, _) => (Err status, report)
      | (Val state, _, local) => load_journal journal_fault st disk state local
      end
  | None => load_journal journal_fault st disk EngineSnapshot_default local
  end.

(** The faults of the three steps of [persist]. *)
Record PersistFaults := mkPersistFaults {
  pf_temp : WriteFault;
  pf_replace : option string;
  pf_journal : WriteFault
}.
Definition persist_fine : PersistFaults := mkPersistFaults no_fault None no_fault.

Definition persist (faults : PersistFaults) (snapshot : EngineSnapshot) (st : PersistentStore)
    (disk : Disk) : Status * PersistentStore * Disk :=
  let st := st <| sequence_ := u64 (sequence_ st + 1) |> in
  let record := mkRecord (sequence_ st) "snapshot" (encode_snapshot snapshot) in
  if Nat.eqb (length (jr_payload record)) 0 && negb (Nat.eqb (length (snap_sessions snapshot)) 0) then
    (Status_error ErrorCode.Internal "snapshot encoding produced an empty payload", st, disk)
  else
  let encoded := encode_journal_record record in
  if Nat.eqb (length encoded) 0 then
    (Status_error ErrorCode.Internal "journal encoding failed", st, disk)
  else
  let '(write_status, temp) :=
    write_file_flushed (pf_temp faults) (snapshot_path st +:+ ".tmp") encoded false
      (disk_temp disk) in
  let disk := mkDisk temp (disk_snapshot disk) (disk_journal disk) in
  if negb (Status_ok write_status) then (write_status, st, disk)
  else
  let '(replace_status, disk) := atomic_replace (pf_replace faults) disk in
  if negb (Status_ok replace_status) then (replace_status, st, disk)
  else
  let st := st <| sequence_ := u64 (sequence_ st + 1) |> in
  let rotated := mkRecord (sequence_ st) "snapshot" (jr_payload record) in
  let rotated_encoded := encode_journal_record rotated in
  if Nat.eqb (length rotated_encoded) 0 then
    (Status_error ErrorCode.Internal "journal encoding failed", st, disk)
  else
  let '(journal_status, journal) :=
    write_file_flushed (pf_journal faults) (journal_path st) rotated_encoded false
      (disk_journal disk) in
  let disk := mkDisk (disk_temp disk) (disk_snapshot disk) journal in
  if negb (Status_ok journal_status) then (journal_status, st, disk)
  else
    (Status_success,
     st <| journal_records_ := 1 |> <| journal_bytes_ := Z.of_nat (length rotated_encoded) |>,
     disk).

Definition append (fault : WriteFault) (faults : PersistFaults) (label : string)
    (snapshot : EngineSnapshot) (st : PersistentStore) (disk : Disk)
  : Status * PersistentStore * Disk :=
  let payload := encode_snapshot snapshot in
  let before := sequence_ st in
  let st := st <| sequence_ := u64 (before + 1) |> in
  let encoded := encode_journal_record (mkRecord (sequence_ st) label payload) in
  if Nat.eqb (length encoded) 0 then
    (Status_error ErrorCode.Internal "journal encoding failed",
     st <| sequence_ := u64 (sequence_ st - 1) |>, disk)
  else
  let '(write_status, journal) :=
    write_file_flushed fault (journal_path st) encoded true (disk_journal disk) in
  let disk := mkDisk (disk_temp disk) (disk_snapshot disk) journal in
  if negb (Status_ok write_status) then (write_status, st, disk)
  else
  let st := st <| journal_records_ := u32 (journal_records_ st + 1) |>
               <| journal_bytes_ := u64 (journal_bytes_ st + Z.of_nat (length encoded)) |> in
  if (journal_bytes_ st >? sc_max_journal_bytes (config_ st)) ||
     (journal_records_ st >? sc_max_journal_records (config_ st)) then
    persist faults snapshot st disk
  else (Status_success, st, disk).
