(* ===== verification/Service.v ===== *)
(** * Service: the coordinator

    Models [include/ctf/service.hpp] and [src/service.cpp]: the handling of one
    message on one connection, the life of a connection, start and shutdown, and
    the bound on live connections.  A handler runs here from start to end; its
    interleaving with the other threads, one critical section at a time, is in
    [Threads].  The clock and the faults of the disk are arguments: a [Moment]
    holds those that one message meets. *)

From stdpp Require Import base gmap list strings.
From Stdlib Require Import Ascii.
From S2P Require Import Prelude Status Ids Bytes Hash Enums Model Fence Shaper.
From S2P Require Import EngineState EngineAuthority EngineAdmission EngineLifecycle EngineEvidence.
From S2P Require Import EngineInspect Wire Codec Protocol Snapshot Store.

Record CoordinatorConfig := mkCoordinatorConfig {
  cc_bind_host : string;
  cc_port : Z;
  cc_data_directory : string;
  cc_policy : PolicySnapshot;
  cc_topology : TopologySnapshot;
  cc_contracts : list WorkloadContract;
  cc_limits : Limits;
  cc_worker_threads : Z;
  cc_max_pending_connections : Z;
  cc_persist : bool;
  cc_identity_seed : Z;
  cc_label : string
}.

Record ServiceStats := mkStats {
  stat_connections_accepted : Z;
  stat_connections_rejected : Z;
  stat_messages_processed : Z;
  stat_protocol_errors : Z;
  stat_durable_writes : Z;
  stat_durable_write_failures : Z;
  stat_sessions_served : Z
}.
#[global] Instance eta_ServiceStats : Eta ServiceStats :=
  fun r => mkStats (stat_connections_accepted r) (stat_connections_rejected r)
    (stat_messages_processed r) (stat_protocol_errors r) (stat_durable_writes r)
    (stat_durable_write_failures r) (stat_sessions_served r).
Definition ServiceStats_default : ServiceStats := mkStats 0 0 0 0 0 0 0.

(** The service once its engine exists, with the disk under its store. *)
Record Server := mkServer {
  srv_config : CoordinatorConfig;
  srv_engine : Engine;
  srv_store : option PersistentStore;
  srv_disk : Disk;
  srv_load_report : LoadReport;
  srv_stats : ServiceStats;
  srv_running : bool;
  srv_stop_requested : bool;
  srv_stop : bool;
  srv_peer_shutdown : bool
}.
#[global] Instance eta_Server : Eta Server :=
  fun r => mkServer (srv_config r) (srv_engine r) (srv_store r) (srv_disk r) (srv_load_report r)
    (srv_stats r) (srv_running r) (srv_stop_requested r) (srv_stop r) (srv_peer_shutdown r).

Record Moment := mkMoment {
  mo_now : Nanos;
  mo_append : WriteFault;
  mo_persist : PersistFaults
}.
Definition calm (now : Nanos) : Moment := mkMoment now no_fault persist_fine.

Definition upd_stats (f : ServiceStats -> ServiceStats) (sv : Server) : Server :=
  sv <| srv_stats := f (srv_stats sv) |>.
Definition note_connection_accepted : Server -> Server :=
  upd_stats (fun s => s <| stat_connections_accepted := u64 (stat_connections_accepted s + 1) |>).
Definition note_connection_rejected : Server -> Server :=
  upd_stats (fun s => s <| stat_connections_rejected := u64 (stat_connections_rejected s + 1) |>).
Definition note_message : Server -> Server :=
  upd_stats (fun s => s <| stat_messages_processed := u64 (stat_messages_processed s + 1) |>).
Definition note_protocol_error : Server -> Server :=
  upd_stats (fun s => s <| stat_protocol_errors := u64 (stat_protocol_errors s + 1) |>).
Definition note_durable (ok : bool) : Server -> Server :=
  upd_stats (fun s =>
    if ok then s <| stat_durable_writes := u64 (stat_durable_writes s + 1) |>
    else s <| stat_durable_write_failures := u64 (stat_durable_write_failures s + 1) |>).

(** The durability point: [Impl::persist]. *)
Definition service_persist (mo : Moment) (label : string) (sv : Server) : Status * Server :=
  match srv_store sv with
  | Some st =>
      if negb (cc_persist (srv_config sv)) then (Status_success, sv)
      else
        let '(status, st, disk) := append (mo_append mo) (mo_persist mo) label
                                     (export_snapshot (srv_engine sv)) st (srv_disk sv) in
        (status, note_durable (Status_ok status)
                   (sv <| srv_store := Some st |> <| srv_disk := disk |>))
  | None => (Status_success, sv)
  end.

(** [Impl::request_stop] *)
Definition stop_server (sv : Server) : Server :=
  sv <| srv_stop := true |> <| srv_stop_requested := true |>.

Definition status_payload (status : Status) (reason : ReasonCode) : StatusPayload :=
  mkStatusPayload (st_code status) reason (st_detail status).

(** [FabricEngine::contracts]: sorted by workload. *)
Fixpoint insert_contract (x : WorkloadContract) (l : list WorkloadContract) : list WorkloadContract :=
  match l with
  | [] => [x]
  | y :: rest => if id_ltb (wc_workload y) (wc_workload x) then y :: insert_contract x rest else x :: l
  end.
Definition engine_contracts (e : Engine) : list WorkloadContract :=
  foldr insert_contract [] (map snd (map_to_list (contracts_ e))).

(** ** One message *)

Section connection.
Context {S : Type} `{ByteStream S}.

(** A connection: the service and the channel. *)
Record Conn := mkConn { cn_server : Server; cn_channel : MessageChannel S }.
Definition Handler := Conn -> Status * Conn.

Definition with_server (f : Server -> Server) (c : Conn) : Conn :=
  mkConn (f (cn_server c)) (cn_channel c).
(** [channel.send(type, encode_payload(value))] *)
Definition send_payload {T} (type : MessageType) (enc : T -> Enc) (value : T) : Handler := fun c =>
  let '(status, channel) := send type (encode_payload enc value) (cn_channel c) in
  (status, mkConn (cn_server c) channel).

Definition respond (payload : StatusPayload) : Handler :=
  send_payload MessageType.StatusResponse encode_StatusPayload payload.
Definition fail (code : ErrorCode) (detail : string) (reason : ReasonCode) : Handler := fun c =>
  respond (mkStatusPayload code reason detail) (with_server note_protocol_error c).
Definition fail_status (status : Status) (reason : ReasonCode) : Handler :=
  fail (st_code status) (st_detail status) reason.

(** Decode the request, or answer with the decoder's error. *)
Definition with_request {T} (dec : T -> Dec T) (initial : T) (message : Message) (k : T -> Handler)
  : Handler := fun c =>
  match decode_payload dec initial (msg_payload message) (cc_limits (srv_config (cn_server c))) with
  | Err status => fail_status status ReasonCode.Internal c
  | Val request => k request c
  end.
(** Run an operation of the engine. *)
Definition with_engine {A} (op : Engine -> A * Engine) (k : A -> Handler) : Handler := fun c =>
  let '(a, e) := op (srv_engine (cn_server c)) in
  k a (with_server (fun sv => sv <| srv_engine := e |>) c).
(** Reach the durability point, or answer with its error. *)
Definition with_durable (mo : Moment) (label : string) (k : Handler) : Handler := fun c =>
  let '(durable, sv) := service_persist mo label (cn_server c) in
  let c := mkConn sv (cn_channel c) in
  if negb (Status_ok durable) then fail_status durable ReasonCode.Internal c else k c.

Definition finish_command (mo : Moment) (label : string) (status : Status) : Handler :=
  if negb (Status_ok status) then fail_status status (reason_for_fence_code (st_code status))
  else with_durable mo label
         (respond (mkStatusPayload ErrorCode.Ok ReasonCode.Admitted_ (label +:+ " accepted"))).

(** An admission decision: [SubmitSession] and [RevalidateSession]. *)
Definition finish_decision (mo : Moment) (label : string) (decision : Result AdmissionDecision)
  : Handler :=
  match decision with
  | Err status => fail_status status (reason_for_fence_code (st_code status))
  | Val decision =>
      with_durable mo label
        (send_payload MessageType.DecisionResponse encode_AdmissionDecision decision)
  end.

Definition handle_submit (mo : Moment) (message : Message) : Handler :=
  with_request decode_SubmitRequest SubmitRequest_default message (fun r =>
  with_engine (submit_session (sbr_request r) (sbr_fence r) (mo_now mo))
    (finish_decision mo "submit-session")).
Definition handle_revalidate (mo : Moment) (message : Message) : Handler :=
  with_request decode_RevalidateRequest RevalidateRequest_default message (fun r =>
  with_engine (revalidate_session (rvr_session r) (rvr_fence r) (mo_now mo))
    (finish_decision mo "revalidate-session")).

Definition handle_wave (mo : Moment) (kind : ClientKind) (message : Message) : Handler :=
  with_request decode_WaveRequest WaveRequest_default message (fun r =>
  if negb (bool_decide (kind = ClientKind.Sender)) then
    fail ErrorCode.NotAuthorized "only a sender may request checkpoint traffic credit"
      ReasonCode.AuthorityStale
  else
  with_engine (request_wave (wr_session r) (wr_shard r) (wr_fence r) (mo_now mo)) (fun outcome =>
  match outcome with
  | Err status => fail_status status (reason_for_fence_code (st_code status))
  | Val outcome =>
      let answer := send_payload MessageType.WaveResponse encode_WaveOutcome outcome in
      if wo_granted outcome then with_durable mo "wave-grant" answer else answer
  end)).

Definition handle_source_complete (mo : Moment) (message : Message) : Handler :=
  with_request decode_SourceCompleteRequest SourceCompleteRequest_default message (fun r =>
  with_engine (report_source_complete (scr_evidence r) (scr_fence r) (mo_now mo))
    (finish_command mo "source-complete")).
Definition handle_transfer (mo : Moment) (message : Message) : Handler :=
  with_request decode_TransferReport TransferReport_default message (fun r =>
  with_engine (report_transfer (tr_evidence r) (tr_fence r) (mo_now mo))
    (finish_command mo "transfer-evidence")).
Definition handle_verification (mo : Moment) (kind : ClientKind) (identity : string)
    (message : Message) : Handler :=
  with_request decode_VerificationReport VerificationReport_default message (fun r =>
  if negb (bool_decide (kind = ClientKind.Sink)) then
    fail ErrorCode.NotAuthorized "only a sink may report destination verification evidence"
      ReasonCode.AuthorityStale
  else
  with_engine (report_verification ((vr_evidence r) <| vev_verifier_identity := identity |>)
                 (vr_fence r) (mo_now mo))
    (finish_command mo "verification-evidence")).
Definition handle_ambiguous (mo : Moment) (message : Message) : Handler :=
  with_request decode_AmbiguityRequest AmbiguityRequest_default message (fun r =>
  with_engine (report_ambiguous (ar_session r) (ar_attempt r) (ar_sequence r) (ar_cause r)
                 (ar_fence r) (mo_now mo))
    (finish_command mo "ambiguity")).
Definition handle_cancel (mo : Moment) (message : Message) : Handler :=
  with_request decode_CancelRequest CancelRequest_default message (fun r =>
  with_engine (cancel_session (cr_session r) (cr_fence r) (cr_reason r) (cr_detail r) (mo_now mo))
    (finish_command mo "cancel")).
Definition handle_pause (mo : Moment) (message : Message) : Handler :=
  with_request decode_PauseRequest PauseRequest_default message (fun r =>
  with_engine (pause_session (pr_session r) (pr_fence r) (pr_reason r) (mo_now mo))
    (finish_command mo "pause")).
Definition handle_resume (mo : Moment) (message : Message) : Handler :=
  with_request decode_ResumeRequest ResumeRequest_default message (fun r =>
  with_engine (resume_session (rr_session r) (rr_fence r) (mo_now mo))
    (finish_command mo "resume")).
Definition handle_durability (mo : Moment) (message : Message) : Handler :=
  with_request decode_DurabilityRequest DurabilityRequest_default message (fun r =>
  with_engine (record_durability_assertion (dr_session r) (dr_assertion r) (dr_fence r) (mo_now mo))
    (finish_command mo "durability-assertion")).

Definition handle_query_session (message : Message) : Handler :=
  with_request decode_SessionQuery SessionQuery_default message (fun r c =>
  match view_session (sq_session r) (srv_engine (cn_server c)) with
  | Err status => fail_status status ReasonCode.SessionNotFound c
  | Val view => send_payload MessageType.SessionViewResponse encode_SessionView view c
  end).
Definition handle_query_sessions (message : Message) : Handler :=
  with_request decode_SessionsQuery SessionsQuery_default message (fun r c =>
  let workload := if ssq_has_workload r then Some (ssq_workload r) else None in
  let sessions := list_sessions workload (ssq_limit r) (srv_engine (cn_server c)) in
  send_payload MessageType.SessionListResponse encode_SessionListResponse
    (mkSessionListResponse sessions) c).
Definition handle_query_accounting : Handler := fun c =>
  send_payload MessageType.AccountingResponse encode_AccountingSnapshot
    (accounting_ (srv_engine (cn_server c))) c.
Definition handle_query_explain (message : Message) : Handler :=
  with_request decode_SessionQuery SessionQuery_default message (fun r c =>
  match explain (sq_session r) (srv_engine (cn_server c)) with
  | Err status => fail_status status ReasonCode.SessionNotFound c
  | Val explanation => send_payload MessageType.ExplanationResponse encode_Explanation explanation c
  end).
Definition handle_query_invariants : Handler := fun c =>
  respond (status_payload (check_invariants (srv_engine (cn_server c))) ReasonCode.Internal) c.

Definition handle_shutdown (mo : Moment) (kind : ClientKind) : Handler :=
  if negb (bool_decide (kind = ClientKind.Operator)) &&
     negb (bool_decide (kind = ClientKind.Observer)) then
    fail ErrorCode.NotAuthorized "only an operator connection may request shutdown"
      ReasonCode.Internal
  else
  with_engine (begin_shutdown (mo_now mo)) (fun _ c =>
  let '(durable, sv) := service_persist mo "shutdown" (cn_server c) in
  let '(sent, c) := respond (status_payload durable ReasonCode.FabricShuttingDown)
                      (mkConn sv (cn_channel c)) in
  (sent, with_server (fun sv => stop_server (sv <| srv_peer_shutdown := true |>)) c)).

Definition dispatch (mo : Moment) (kind : ClientKind) (identity : string) (message : Message)
  : Handler :=
  match msg_type message with
  | MessageType.HelloRequest =>
      fail ErrorCode.InvalidStateTransition "hello was already completed on this connection"
        ReasonCode.Internal
  | MessageType.SubmitSession => handle_submit mo message
  | MessageType.RevalidateSession => handle_revalidate mo message
  | MessageType.RequestWave => handle_wave mo kind message
  | MessageType.ReportSourceComplete => handle_source_complete mo message
  | MessageType.ReportTransfer => handle_transfer mo message
  | MessageType.ReportVerification => handle_verification mo kind identity message
  | MessageType.ReportAmbiguous => handle_ambiguous mo message
  | MessageType.CancelSession => handle_cancel mo message
  | MessageType.PauseSession => handle_pause mo message
  | MessageType.ResumeSession => handle_resume mo message
  | MessageType.RecordDurability => handle_durability mo message
  | MessageType.QuerySession => handle_query_session message
  | MessageType.QuerySessions => handle_query_sessions message
  | MessageType.QueryAccounting => handle_query_accounting
  | MessageType.QueryExplain => handle_query_explain message
  | MessageType.QueryInvariants => handle_query_invariants
  | MessageType.ShutdownRequest => handle_shutdown mo kind
  | MessageType.HelloResponse | MessageType.DecisionResponse | MessageType.WaveResponse
  | MessageType.SessionViewResponse | MessageType.SessionListResponse
  | MessageType.AccountingResponse | MessageType.ExplanationResponse
  | MessageType.StatusResponse =>
      fail ErrorCode.InvalidStateTransition "peer sent a response where a request was expected"
        ReasonCode.Internal
  | MessageType.ShardBegin | MessageType.ShardData | MessageType.ShardEnd | MessageType.ShardAck =>
      fail ErrorCode.UnknownMessageType "message type is not handled" ReasonCode.Internal
  end.

(** ** One connection *)

Definition hello_response (sv : Server) : HelloResponse :=
  let e := srv_engine sv in
  mkHelloResponse (epoch_ e) (pol_generation (policy_ e)) (topo_generation (topology_ e))
    (map (fun c => (wc_workload c, wc_generation c)) (engine_contracts e)) (limits_ e)
    (cc_label (srv_config sv)).

(** The loop over the messages of a connection, one [Moment] per message. *)
Fixpoint serve (moments : list Moment) (kind : ClientKind) (identity : string) (c : Conn) : Conn :=
  match moments with
  | [] => c
  | mo :: moments =>
      if srv_stop (cn_server c) then c
      else
        let '(message, channel) := receive (cn_channel c) in
        let c := mkConn (cn_server c) channel in
        match message with
        | Err status =>
            if bool_decide (st_code status = ErrorCode.PeerClosed) ||
               bool_decide (st_code status = ErrorCode.ShuttingDown) then c
            else (fail_status status ReasonCode.Internal c).2
        | Val message =>
            let '(status, c) := dispatch mo kind identity message (with_server note_message c) in
            if negb (Status_ok status) && bool_decide (st_code status = ErrorCode.ShuttingDown) then c
            else serve moments kind identity c
        end
  end.

(** The handshake of [handle_connection]: the connection after it, and who the
    peer is when it succeeded. *)
Definition handshake (c : Conn) : Conn * option (ClientKind * string) :=
  let '(first, channel) := receive (cn_channel c) in
  let c := mkConn (cn_server c) channel in
  match first with
  | Err _ => (with_server note_protocol_error c, None)
  | Val first =>
      if negb (bool_decide (msg_type first = MessageType.HelloRequest)) then
        ((fail ErrorCode.InvalidStateTransition
            "first message on a connection must be a hello request" ReasonCode.Internal c).2, None)
      else match decode_payload decode_HelloRequest HelloRequest_default (msg_payload first)
                   (cc_limits (srv_config (cn_server c))) with
      | Err status => ((fail_status status ReasonCode.Internal c).2, None)
      | Val hello =>
          let identity := if String.eqb (hrq_identity hello) "" then "anonymous"%string
                          else hrq_identity hello in
          let c := with_server note_message c in
          let '(sent, c) := send_payload MessageType.HelloResponse encode_HelloResponse
                              (hello_response (cn_server c)) c in
          (c, if negb (Status_ok sent) then None else Some (hrq_kind hello, identity))
      end
  end.

(** [handle_connection], up to the closing of the socket. *)
Definition handle_connection (moments : list Moment) (c : Conn) : Conn :=
  match handshake c with
  | (c, None) => c
  | (c, Some (kind, identity)) => serve moments kind identity c
  end.
End connection.
Arguments Conn : clear implicits.
Arguments Handler : clear implicits.

(** ** Live connections *)

(** [dispatch_connection]: whether a new connection is served when [active] are. *)
Definition connection_bound (config : CoordinatorConfig) : Z :=
  Z.max (if cc_max_pending_connections config =? 0 then 64 else cc_max_pending_connections config)
    (cc_worker_threads config).
Definition dispatch_connection (active : Z) (sv : Server) : Z * Server :=
  let sv := note_connection_accepted sv in
  if connection_bound (srv_config sv) <=? active then (active, note_connection_rejected sv)
  else (active + 1, sv).

(** ** Start and shutdown *)

Record StartEnv := mkStartEnv {
  se_created : Nanos;              (* the clock when the engine is constructed *)
  se_restored : Nanos;             (* when a snapshot is restored *)
  se_advanced : Nanos;             (* when the epoch is advanced *)
  se_directory_refusal : option string;
  se_is_directory : bool;
  se_snapshot_read : ReadFault;
  se_journal_read : ReadFault;
  se_bind : Status;                (* the status of binding the listener *)
  se_boot : PersistFaults
}.

Definition engine_config (config : CoordinatorConfig) : EngineConfig :=
  mkConfig (cc_policy config) (cc_topology config) (cc_contracts config)
    (mkEpoch (mkGen 1) (mkGen 1)) (cc_limits config) (cc_identity_seed config).

(** The final snapshot of [wait], after the threads have been joined. *)
Definition wait (faults : PersistFaults) (sv : Server) : Status * Server :=
  let sv := sv <| srv_stop := true |> in
  match srv_store sv with
  | Some st =>
      if negb (cc_persist (srv_config sv)) then (Status_success, sv <| srv_running := false |>)
      else
        let '(status, st, disk) := persist faults (export_snapshot (srv_engine sv)) st (srv_disk sv) in
        let sv := note_durable (Status_ok status)
                    (sv <| srv_store := Some st |> <| srv_disk := disk |>) in
        if negb (Status_ok status) then (status, sv)
        else (Status_success, sv <| srv_running := false |>)
  | None => (Status_success, sv <| srv_running := false |>)
  end.
Definition shutdown (faults : PersistFaults) (sv : Server) : Status * Server :=
  wait faults (stop_server sv).

(** The part of [start] that opens the store and restores what it holds: the
    store, the report, the engine and, when a state was restored, the incarnation
    it was written under.  [report] is the report so far; a failure discards the
    engine. *)
Definition start_restore (env : StartEnv) (config : CoordinatorConfig) (report : LoadReport)
    (disk : Disk) (e : Engine)
  : Result (option PersistentStore * LoadReport * Engine * option IncarnationId) :=
  if negb (cc_persist config) then Val (None, report, e, None)
  else
    let st := PersistentStore_init (StoreConfig_default (cc_data_directory config) (cc_limits config)) in
    let '(opened, st) := store_open (se_directory_refusal env) (se_is_directory env) st in
    if negb (Status_ok opened) then Err opened
    else if negb (has_state disk) then Val (Some st, report, e, None)
    else
      let '(snapshot, loaded) := load (se_snapshot_read env) (se_journal_read env) st disk in
      match snapshot with
      | Err status =>
          Err (Status_error (st_code status) ("persisted state was refused: " +:+ st_detail status))
      | Val snapshot =>
          let '(restored, e) := restore snapshot (se_restored env) e in
          if negb (Status_ok restored) then
            Err (Status_error (st_code restored) ("restore refused: " +:+ st_detail restored))
          else Val (Some st, default report loaded, e,
                    Some (ep_incarnation (snap_epoch snapshot)))
      end.

(** The part of [start] that makes a restart a new incarnation. *)
Definition start_epoch (env : StartEnv) (previous : option IncarnationId) (e : Engine)
  : Status * Engine :=
  match previous with
  | Some incarnation =>
      advance_epoch (mkEpoch (mkGen (u64 (gen_value incarnation + 1))) (mkGen 1)) (se_advanced env) e
  | None => (Status_success, e)
  end.

(** The part of [start] from the binding of the listener on.  [None] is a call that
    does not return: when the boot snapshot fails, [start] calls [wait] inside the
    block that holds [persist_mutex_], and [wait] ends with a snapshot of its own
    under the same mutex, which is not recursive (file [ThreadsStop],
    [deadlocked_run]). *)
Definition start_serving (env : StartEnv) (sv : Server) : option (Status * option Server) :=
  if negb (Status_ok (se_bind env)) then Some (se_bind env, Some sv)
  else
    let sv := sv <| srv_running := true |> <| srv_stop_requested := false |> in
    match srv_store sv with
    | Some st =>
        let '(durable, st, disk) :=
          persist (se_boot env) (export_snapshot (srv_engine sv)) st (srv_disk sv) in
        let sv := note_durable (Status_ok durable)
                    (sv <| srv_store := Some st |> <| srv_disk := disk |>) in
        if negb (Status_ok durable) then None
        else Some (Status_success, Some sv)
    | None => Some (Status_success, Some sv)
    end.

(** [start] on a service that is not running.  [prior] is what an earlier start of
    the same object left: its counters, its report and its stop token, which
    nothing clears. *)
Definition start_over (prior : option Server) (env : StartEnv) (config : CoordinatorConfig)
    (disk : Disk) : option (Status * option Server) :=
  let e := engine_init (engine_config config) (se_created env) in
  if negb (Status_ok (config_status_ e)) then Some (config_status_ e, None)
  else match start_restore env config (from_option srv_load_report LoadReport_default prior) disk e with
  | Err status => Some (status, None)
  | Val (st, report, e, previous) =>
      let '(advanced, e) := start_epoch env previous e in
      let sv := mkServer config e st disk report (from_option srv_stats ServiceStats_default prior)
                  false (from_option srv_stop_requested false prior) (from_option srv_stop false prior)
                  (from_option srv_peer_shutdown false prior) in
      if negb (Status_ok advanced) then Some (advanced, Some sv) else start_serving env sv
  end.
Definition start : StartEnv -> CoordinatorConfig -> Disk -> option (Status * option Server) :=
  start_over None.

(** The guard of [start]: a service that runs is left alone. *)
Definition service_start (env : StartEnv) (config : CoordinatorConfig) (disk : Disk)
    (current : option Server) : option (Status * option Server) :=
  match current with
  | Some sv =>
      if srv_running sv then
        Some (Status_error ErrorCode.AlreadyExists "service is already running", Some sv)
      else start_over (Some sv) env config disk
  | None => start env config disk
  end.
