(* ===== verification/Threads.v ===== *)
(** * Threads: the coordinator's threads, interleaved

    Models the concurrency of [src/service.cpp]: the accept loop, one handler
    thread per connection, and the thread that starts the service and waits for
    its end, with the locks they take.  What a handler does to a message is a
    [Task], the sequence of its critical sections: a call of the engine (under
    the engine's lock), the durability point (under [persist_mutex_], with the
    export of the snapshot and the write as separate steps, because the engine's
    lock is free during the write), an answer on its own channel.  These are the
    handlers of [Service] cut at their critical sections; [ThreadsProps] ties the
    two forms together.  A [Turn] lets
    one thread take its next step; a schedule is a list of turns.  A turn of a
    thread that waits, for the lock or for a thread it joins, has no result.  The
    two flags [request_stop] sets are set in one step, and a counter of
    [ServiceStats] in the step it belongs to; a wait in a socket ends when data
    arrives or a stop is requested (file [NetProps]), so it is not a step.

    [co_history], [co_saved] and [wk_seen] are history variables: no turn depends
    on them. *)

From stdpp Require Import base gmap list strings.
From S2P Require Import Prelude Status Ids Bytes Hash Enums Model Fence Shaper.
From S2P Require Import EngineState EngineAuthority EngineAdmission EngineLifecycle EngineEvidence.
From S2P Require Import EngineInspect Wire Codec Protocol Snapshot Store Service.

(** ** Tasks *)

(** The operations of the engine a handler calls, by the type of their result. *)
Inductive Call : Type -> Type :=
| CallSubmit (request : SessionRequest) (fence : CommandFence) : Call (Result AdmissionDecision)
| CallRevalidate (session : SessionId) (fence : CommandFence) : Call (Result AdmissionDecision)
| CallWave (session : SessionId) (shard : ShardIndex) (fence : CommandFence) : Call (Result WaveOutcome)
| CallSource (evidence : SourceCompleteEvidence) (fence : CommandFence) : Call Status
| CallTransfer (evidence : TransferEvidence) (fence : CommandFence) : Call Status
| CallVerification (evidence : VerificationEvidence) (fence : CommandFence) : Call Status
| CallAmbiguous (session : SessionId) (attempt : TransferAttemptId) (sequence : AttemptSequence)
    (cause : string) (fence : CommandFence) : Call Status
| CallCancel (session : SessionId) (fence : CommandFence) (reason : ReasonCode) (detail : string)
    : Call Status
| CallPause (session : SessionId) (fence : CommandFence) (reason : string) : Call Status
| CallResume (session : SessionId) (fence : CommandFence) : Call Status
| CallDurability (session : SessionId) (assertion : DurabilityAssertion) (fence : CommandFence)
    : Call Status
| CallShutdown : Call Status.

Definition call {A} (c : Call A) (now : Nanos) : Engine -> A * Engine :=
  match c with
  | CallSubmit request fence => submit_session request fence now
  | CallRevalidate session fence => revalidate_session session fence now
  | CallWave session shard fence => request_wave session shard fence now
  | CallSource evidence fence => report_source_complete evidence fence now
  | CallTransfer evidence fence => report_transfer evidence fence now
  | CallVerification evidence fence => report_verification evidence fence now
  | CallAmbiguous session attempt sequence cause fence =>
      report_ambiguous session attempt sequence cause fence now
  | CallCancel session fence reason detail => cancel_session session fence reason detail now
  | CallPause session fence reason => pause_session session fence reason now
  | CallResume session fence => resume_session session fence now
  | CallDurability session assertion fence => record_durability_assertion session assertion fence now
  | CallShutdown => begin_shutdown now
  end.

(** The answers of the service. *)
Inductive Reply :=
| ReplyHello (hello : HelloResponse)
| ReplyDecision (decision : AdmissionDecision)
| ReplyWave (outcome : WaveOutcome)
| ReplyView (view : SessionView)
| ReplySessions (sessions : SessionListResponse)
| ReplyAccounting (accounting : AccountingSnapshot)
| ReplyExplanation (explanation : Explanation)
| ReplyStatus (payload : StatusPayload).

Inductive Task : Type :=
| Mutate {A : Type} (c : Call A) (k : A -> Task)
| Read {A : Type} (f : Engine -> A) (k : A -> Task)
| Save (label : string) (k : Status -> Task)
| Answer (r : Reply) (k : Status -> Task)
| Refuse (code : ErrorCode) (detail : string) (reason : ReasonCode) (k : Status -> Task)
| Stop (k : Task)
| Finish (status : Status).

Definition refuse_status (status : Status) (reason : ReasonCode) : Task :=
  Refuse (st_code status) (st_detail status) reason Finish.
Definition save_then (label : string) (k : Task) : Task :=
  Save label (fun durable =>
    if negb (Status_ok durable) then refuse_status durable ReasonCode.Internal else k).
Definition decoded {T} (limits : Limits) (dec : T -> Dec T) (initial : T) (message : Message)
    (k : T -> Task) : Task :=
  match decode_payload dec initial (msg_payload message) limits with
  | Err status => refuse_status status ReasonCode.Internal
  | Val request => k request
  end.

Definition finish_command_task (label : string) (status : Status) : Task :=
  if negb (Status_ok status) then refuse_status status (reason_for_fence_code (st_code status))
  else save_then label
         (Answer (ReplyStatus (mkStatusPayload ErrorCode.Ok ReasonCode.Admitted_ (label +:+ " accepted")))
            Finish).
Definition finish_decision_task (label : string) (decision : Result AdmissionDecision) : Task :=
  match decision with
  | Err status => refuse_status status (reason_for_fence_code (st_code status))
  | Val decision => save_then label (Answer (ReplyDecision decision) Finish)
  end.
Definition wave_task (outcome : Result WaveOutcome) : Task :=
  match outcome with
  | Err status => refuse_status status (reason_for_fence_code (st_code status))
  | Val outcome =>
      let answer := Answer (ReplyWave outcome) Finish in
      if wo_granted outcome then save_then "wave-grant" answer else answer
  end.
Definition found_task {A} (result : Result A) (reply : A -> Reply) : Task :=
  match result with
  | Err status => refuse_status status ReasonCode.SessionNotFound
  | Val a => Answer (reply a) Finish
  end.
Definition shutdown_task : Task :=
  Mutate CallShutdown (fun _ =>
  Save "shutdown" (fun durable =>
  Answer (ReplyStatus (status_payload durable ReasonCode.FabricShuttingDown)) (fun sent =>
  Stop (Finish sent)))).
Definition not_authorized (detail : string) (reason : ReasonCode) : Task :=
  Refuse ErrorCode.NotAuthorized detail reason Finish.

(** [dispatch] *)
Definition dispatch_task (limits : Limits) (kind : ClientKind) (identity : string) (message : Message)
  : Task :=
  match msg_type message with
  | MessageType.HelloRequest =>
      Refuse ErrorCode.InvalidStateTransition "hello was already completed on this connection"
        ReasonCode.Internal Finish
  | MessageType.SubmitSession =>
      decoded limits decode_SubmitRequest SubmitRequest_default message (fun r =>
      Mutate (CallSubmit (sbr_request r) (sbr_fence r)) (finish_decision_task "submit-session"))
  | MessageType.RevalidateSession =>
      decoded limits decode_RevalidateRequest RevalidateRequest_default message (fun r =>
      Mutate (CallRevalidate (rvr_session r) (rvr_fence r)) (finish_decision_task "revalidate-session"))
  | MessageType.RequestWave =>
      decoded limits decode_WaveRequest WaveRequest_default message (fun r =>
      if negb (bool_decide (kind = ClientKind.Sender)) then
        not_authorized "only a sender may request checkpoint traffic credit" ReasonCode.AuthorityStale
      else Mutate (CallWave (wr_session r) (wr_shard r) (wr_fence r)) wave_task)
  | MessageType.ReportSourceComplete =>
      decoded limits decode_SourceCompleteRequest SourceCompleteRequest_default message (fun r =>
      Mutate (CallSource (scr_evidence r) (scr_fence r)) (finish_command_task "source-complete"))
  | MessageType.ReportTransfer =>
      decoded limits decode_TransferReport TransferReport_default message (fun r =>
      Mutate (CallTransfer (tr_evidence r) (tr_fence r)) (finish_command_task "transfer-evidence"))
  | MessageType.ReportVerification =>
      decoded limits decode_VerificationReport VerificationReport_default message (fun r =>
      if negb (bool_decide (kind = ClientKind.Sink)) then
        not_authorized "only a sink may report destination verification evidence"
          ReasonCode.AuthorityStale
      else
        Mutate (CallVerification ((vr_evidence r) <| vev_verifier_identity := identity |>) (vr_fence r))
          (finish_command_task "verification-evidence"))
  | MessageType.ReportAmbiguous =>
      decoded limits decode_AmbiguityRequest AmbiguityRequest_default message (fun r =>
      Mutate (CallAmbiguous (ar_session r) (ar_attempt r) (ar_sequence r) (ar_cause r) (ar_fence r))
        (finish_command_task "ambiguity"))
  | MessageType.CancelSession =>
      decoded limits decode_CancelRequest CancelRequest_default message (fun r =>
      Mutate (CallCancel (cr_session r) (cr_fence r) (cr_reason r) (cr_detail r))
        (finish_command_task "cancel"))
  | MessageType.PauseSession =>
      decoded limits decode_PauseRequest PauseRequest_default message (fun r =>
      Mutate (CallPause (pr_session r) (pr_fence r) (pr_reason r)) (finish_command_task "pause"))
  | MessageType.ResumeSession =>
      decoded limits decode_ResumeRequest ResumeRequest_default message (fun r =>
      Mutate (CallResume (rr_session r) (rr_fence r)) (finish_command_task "resume"))
  | MessageType.RecordDurability =>
      decoded limits decode_DurabilityRequest DurabilityRequest_default message (fun r =>
      Mutate (CallDurability (dr_session r) (dr_assertion r) (dr_fence r))
        (finish_command_task "durability-assertion"))
  | MessageType.QuerySession =>
      decoded limits decode_SessionQuery SessionQuery_default message (fun r =>
      Read (view_session (sq_session r)) (fun view => found_task view ReplyView))
  | MessageType.QuerySessions =>
      decoded limits decode_SessionsQuery SessionsQuery_default message (fun r =>
      Read (list_sessions (if ssq_has_workload r then Some (ssq_workload r) else None) (ssq_limit r))
        (fun sessions => Answer (ReplySessions (mkSessionListResponse sessions)) Finish))
  | MessageType.QueryAccounting => Read accounting_ (fun a => Answer (ReplyAccounting a) Finish)
  | MessageType.QueryExplain =>
      decoded limits decode_SessionQuery SessionQuery_default message (fun r =>
      Read (explain (sq_session r)) (fun explanation => found_task explanation ReplyExplanation))
  | MessageType.QueryInvariants =>
      Read check_invariants (fun status =>
      Answer (ReplyStatus (status_payload status ReasonCode.Internal)) Finish)
  | MessageType.ShutdownRequest =>
      if negb (bool_decide (kind = ClientKind.Operator)) &&
         negb (bool_decide (kind = ClientKind.Observer)) then
        not_authorized "only an operator connection may request shutdown" ReasonCode.Internal
      else shutdown_task
  | MessageType.HelloResponse | MessageType.DecisionResponse | MessageType.WaveResponse
  | MessageType.SessionViewResponse | MessageType.SessionListResponse
  | MessageType.AccountingResponse | MessageType.ExplanationResponse
  | MessageType.StatusResponse =>
      Refuse ErrorCode.InvalidStateTransition "peer sent a response where a request was expected"
        ReasonCode.Internal Finish
  | MessageType.ShardBegin | MessageType.ShardData | MessageType.ShardEnd | MessageType.ShardAck =>
      Refuse ErrorCode.UnknownMessageType "message type is not handled" ReasonCode.Internal Finish
  end.

(** The response to a hello: each part of the authority is read under the
    engine's lock by a call of its own. *)
Definition greet_task (label : string) : Task :=
  Read epoch_ (fun epoch =>
  Read policy_ (fun policy =>
  Read topology_ (fun topology =>
  Read engine_contracts (fun contracts =>
  Read limits_ (fun limits =>
  Answer (ReplyHello (mkHelloResponse epoch (pol_generation policy) (topo_generation topology)
            (map (fun c => (wc_workload c, wc_generation c)) contracts) limits label)) Finish))))).

(** ** One thread alone *)

Section alone.
Context {S : Type} `{ByteStream S}.

Definition send_reply (r : Reply) : Handler S :=
  match r with
  | ReplyHello v => send_payload MessageType.HelloResponse encode_HelloResponse v
  | ReplyDecision v => send_payload MessageType.DecisionResponse encode_AdmissionDecision v
  | ReplyWave v => send_payload MessageType.WaveResponse encode_WaveOutcome v
  | ReplyView v => send_payload MessageType.SessionViewResponse encode_SessionView v
  | ReplySessions v => send_payload MessageType.SessionListResponse encode_SessionListResponse v
  | ReplyAccounting v => send_payload MessageType.AccountingResponse encode_AccountingSnapshot v
  | ReplyExplanation v => send_payload MessageType.ExplanationResponse encode_Explanation v
  | ReplyStatus v => respond v
  end.

(** [peer_shutdown_.store(true); request_stop()] *)
Definition peer_stop (sv : Server) : Server := stop_server (sv <| srv_peer_shutdown := true |>).

(** A task from start to end with no other thread in between. *)
Fixpoint run_task (mo : Moment) (t : Task) : Handler S := fun c =>
  match t with
  | Mutate cl k => with_engine (call cl (mo_now mo)) (fun a => run_task mo (k a)) c
  | Read f k => run_task mo (k (f (srv_engine (cn_server c)))) c
  | Save label k =>
      let '(durable, sv) := service_persist mo label (cn_server c) in
      run_task mo (k durable) (mkConn sv (cn_channel c))
  | Answer r k => let '(sent, c) := send_reply r c in run_task mo (k sent) c
  | Refuse code detail reason k =>
      let '(sent, c) := fail code detail reason c in run_task mo (k sent) c
  | Stop k => run_task mo k (with_server peer_stop c)
  | Finish status => (status, c)
  end.
End alone.

(** ** The threads *)

(** What follows a task: the loop of [handle_connection] after the handshake, the
    loop after a message, or the end. *)
Inductive Next :=
| ThenLoop (kind : ClientKind) (identity : string)
| ThenPoll (kind : ClientKind) (identity : string)
| ThenClose.

(** Where a handler thread is: in the first [receive], in a task, at the test of
    the loop, in [receive], returned from [handle_connection], past
    [done->store(true)], and past the decrement of [active_connections_]. *)
Inductive Phase :=
| Connecting
| Running (t : Task) (next : Next)
| Polling (kind : ClientKind) (identity : string)
| Listening (kind : ClientKind) (identity : string)
| Closed
| Done
| Exited.

Definition next_phase (next : Next) (status : Status) : Phase :=
  match next with
  | ThenLoop kind identity => if negb (Status_ok status) then Closed else Polling kind identity
  | ThenPoll kind identity =>
      if negb (Status_ok status) && bool_decide (st_code status = ErrorCode.ShuttingDown) then Closed
      else Polling kind identity
  | ThenClose => Closed
  end.

(** What the first message leads to. *)
Definition first_phase (config : CoordinatorConfig) (first : Result Message) : Phase :=
  match first with
  | Err _ => Closed
  | Val first =>
      if negb (bool_decide (msg_type first = MessageType.HelloRequest)) then
        Running (Refuse ErrorCode.InvalidStateTransition
                   "first message on a connection must be a hello request" ReasonCode.Internal Finish)
          ThenClose
      else match decode_payload decode_HelloRequest HelloRequest_default (msg_payload first)
                   (cc_limits config) with
      | Err status => Running (refuse_status status ReasonCode.Internal) ThenClose
      | Val hello =>
          let identity := if String.eqb (hrq_identity hello) "" then "anonymous"%string
                          else hrq_identity hello in
          Running (greet_task (cc_label config)) (ThenLoop (hrq_kind hello) identity)
      end
  end.
Definition first_noted (first : Result Message) (phase : Phase) : Server -> Server :=
  match first, phase with
  | Err _, _ => note_protocol_error
  | Val _, Running _ (ThenLoop _ _) => note_message
  | Val _, _ => id
  end.

(** What a later message leads to. *)
Definition message_phase (config : CoordinatorConfig) (kind : ClientKind) (identity : string)
    (message : Result Message) : Phase :=
  match message with
  | Err status =>
      if bool_decide (st_code status = ErrorCode.PeerClosed) ||
         bool_decide (st_code status = ErrorCode.ShuttingDown) then Closed
      else Running (refuse_status status ReasonCode.Internal) ThenClose
  | Val message =>
      Running (dispatch_task (cc_limits config) kind identity message) (ThenPoll kind identity)
  end.
Definition message_noted (message : Result Message) : Server -> Server :=
  match message with Err _ => id | Val _ => note_message end.

(** Where the accept thread is: at the test of its loop, in [accept], in
    [reap_connections] at a position of the list, at the test of the bound, past
    the increment, before the new thread is listed, and returned. *)
Inductive Acceptor (S : Type) :=
| AccLoop
| AccWaiting
| AccReap (socket : S) (i : nat)
| AccBound (socket : S)
| AccSpawn (socket : S)
| AccPush (w : nat)
| AccEnded.
Arguments AccLoop {S}. Arguments AccWaiting {S}. Arguments AccReap {S}. Arguments AccBound {S}.
Arguments AccSpawn {S}. Arguments AccPush {S}. Arguments AccEnded {S}.

(** Where the owner of the service is: at the boot snapshot of [start], in [wait]
    at the condition, joining the accept thread, joining the handlers, at the
    final snapshot, and returned. *)
Inductive Owner :=
| OwnBoot
| OwnWaiting
| OwnJoinAccept
| OwnJoin (i : nat)
| OwnFinal
| OwnEnded (status : Status).

Record Worker (S : Type) := mkWorker {
  wk_channel : MessageChannel S;
  wk_phase : Phase;
  wk_seen : nat      (* engine states there were after the last call for its message *)
}.
Arguments mkWorker {S}. Arguments wk_channel {S}. Arguments wk_phase {S}. Arguments wk_seen {S}.

(** The code that locks [persist_mutex_]: the [persist] of a handler thread, and
    the two blocks of the owner, in [start] and in [wait].  The mutex is not
    recursive, so the block in [wait] waits for the one in [start] like any other. *)
Inductive Locker :=
| InHandler (w : nat)
| InStart
| InWait.
#[global] Instance Locker_eq_dec : EqDecision Locker.
Proof. solve_decision. Defined.

(** The holder of [persist_mutex_], with the snapshot it has exported and the
    number of engine states there were then. *)
Record Holder := mkHolder { ho_thread : Locker; ho_snapshot : EngineSnapshot; ho_at : nat }.

Record Coordinator (S : Type) := mkCoordinator {
  co_server : Server;
  co_workers : list (Worker S);      (* every handler thread ever started *)
  co_connections : list nat;         (* connections_ *)
  co_active : Z;                     (* active_connections_ *)
  co_acceptor : Acceptor S;
  co_owner : Owner;
  co_lock : option Holder;           (* persist_mutex_ *)
  co_history : list Engine;          (* the engine after each call, oldest first *)
  co_saved : nat                     (* history when the state on disk was exported *)
}.
Arguments mkCoordinator {S}. Arguments co_server {S}. Arguments co_workers {S}.
Arguments co_connections {S}. Arguments co_active {S}. Arguments co_acceptor {S}.
Arguments co_owner {S}. Arguments co_lock {S}. Arguments co_history {S}. Arguments co_saved {S}.
#[global] Instance eta_Worker S : Eta (Worker S) :=
  fun r => mkWorker (wk_channel r) (wk_phase r) (wk_seen r).
#[global] Instance eta_Coordinator S : Eta (Coordinator S) :=
  fun r => mkCoordinator (co_server r) (co_workers r) (co_connections r) (co_active r)
    (co_acceptor r) (co_owner r) (co_lock r) (co_history r) (co_saved r).

Section threads.
Context {S : Type} `{ByteStream S}.

Definition on_server (f : Server -> Server) (c : Coordinator S) : Coordinator S :=
  c <| co_server := f (co_server c) |>.
Definition set_worker (w : nat) (wk : Worker S) (c : Coordinator S) : Coordinator S :=
  c <| co_workers := <[w := wk]> (co_workers c) |>.
Definition set_phase (w : nat) (wk : Worker S) (phase : Phase) (c : Coordinator S) : Coordinator S :=
  set_worker w (wk <| wk_phase := phase |>) c.

(** Whether the service has a store to write to. *)
Definition persisting (sv : Server) : bool :=
  match srv_store sv with Some _ => cc_persist (srv_config sv) | None => false end.

(** [persist_mutex_] is taken and the snapshot exported. *)
Definition take_lock (thread : Locker) (c : Coordinator S) : option (Coordinator S) :=
  match co_lock c with
  | None =>
      Some (c <| co_lock := Some (mkHolder thread (export_snapshot (srv_engine (co_server c)))
                                    (length (co_history c))) |>)
  | Some _ => None
  end.
(** The write, its counter, and the release of the lock. *)
Definition write_locked (op : EngineSnapshot -> PersistentStore -> Disk -> Status * PersistentStore * Disk)
    (holder : Holder) (c : Coordinator S) : Status * Coordinator S :=
  let sv := co_server c in
  match srv_store sv with
  | Some st =>
      let '(status, st, disk) := op (ho_snapshot holder) st (srv_disk sv) in
      (status,
       on_server (fun sv => note_durable (Status_ok status)
                              (sv <| srv_store := Some st |> <| srv_disk := disk |>)) c
         <| co_lock := None |>
         <| co_saved := if Status_ok status then ho_at holder else co_saved c |>)
  | None => (Status_success, c <| co_lock := None |>)
  end.
Definition held_by (thread : Locker) (c : Coordinator S) : option Holder :=
  match co_lock c with
  | Some holder => if bool_decide (ho_thread holder = thread) then Some holder else None
  | None => None
  end.

(** An action of a task on the thread's own channel. *)
Definition on_channel (h : Handler S) (w : nat) (wk : Worker S) (k : Status -> Phase)
    (c : Coordinator S) : Coordinator S :=
  let '(status, cn) := h (mkConn (co_server c) (wk_channel wk)) in
  set_worker w (wk <| wk_channel := cn_channel cn |> <| wk_phase := k status |>)
    (on_server (fun _ => cn_server cn) c).

Definition task_turn (mo : Moment) (w : nat) (wk : Worker S) (t : Task) (next : Next)
    (c : Coordinator S) : option (Coordinator S) :=
  let sv := co_server c in
  match t with
  | Mutate cl k =>
      let '(a, e) := call cl (mo_now mo) (srv_engine sv) in
      let history := co_history c ++ [e] in
      Some (set_worker w (wk <| wk_phase := Running (k a) next |> <| wk_seen := length history |>)
              (on_server (fun sv => sv <| srv_engine := e |>) c <| co_history := history |>))
  | Read f k => Some (set_phase w wk (Running (k (f (srv_engine sv))) next) c)
  | Save label k =>
      if negb (persisting sv) then Some (set_phase w wk (Running (k Status_success) next) c)
      else match held_by (InHandler w) c with
      | Some holder =>
          let '(status, c) := write_locked (append (mo_append mo) (mo_persist mo) label) holder c in
          Some (set_phase w wk (Running (k status) next) c)
      | None => take_lock (InHandler w) c
      end
  | Answer r k => Some (on_channel (send_reply r) w wk (fun sent => Running (k sent) next) c)
  | Refuse code detail reason k =>
      Some (on_channel (fail code detail reason) w wk (fun sent => Running (k sent) next) c)
  | Stop k => Some (set_phase w wk (Running k next) (on_server peer_stop c))
  | Finish status => Some (set_phase w wk (next_phase next status) c)
  end.

(** One step of the handler thread [w]. *)
Definition worker_turn (mo : Moment) (w : nat) (c : Coordinator S) : option (Coordinator S) :=
  match co_workers c !! w with
  | None => None
  | Some wk =>
      match wk_phase wk with
      | Connecting =>
          let '(first, channel) := receive (wk_channel wk) in
          let phase := first_phase (srv_config (co_server c)) first in
          Some (set_worker w (wk <| wk_channel := channel |> <| wk_phase := phase |>)
                  (on_server (first_noted first phase) c))
      | Running t next => task_turn mo w wk t next c
      | Polling kind identity =>
          Some (set_phase w wk (if srv_stop (co_server c) then Closed else Listening kind identity) c)
      | Listening kind identity =>
          let '(message, channel) := receive (wk_channel wk) in
          let phase := message_phase (srv_config (co_server c)) kind identity message in
          Some (set_worker w (wk <| wk_channel := channel |> <| wk_phase := phase |> <| wk_seen := 0%nat |>)
                  (on_server (message_noted message) c))
      | Closed => Some (set_phase w wk Done c)
      | Done => Some (set_phase w wk Exited (c <| co_active := co_active c - 1 |>))
      | Exited => None
      end
  end.

Definition phase_of (w : nat) (c : Coordinator S) : option Phase := wk_phase <$> co_workers c !! w.

(** One step of the accept thread; [accepted] is what [accept] returns. *)
Definition accept_turn (accepted : Result S) (c : Coordinator S) : option (Coordinator S) :=
  let goto a c := Some (c <| co_acceptor := a |>) in
  match co_acceptor c with
  | AccLoop => goto (if srv_stop (co_server c) then AccEnded else AccWaiting) c
  | AccWaiting =>
      match accepted with
      | Err status =>
          goto (if srv_stop (co_server c) || bool_decide (st_code status = ErrorCode.ShuttingDown)
                then AccEnded else AccLoop) c
      | Val socket => goto (AccReap socket 0) (on_server note_connection_accepted c)
      end
  | AccReap socket i =>
      match co_connections c !! i with
      | None => goto (AccBound socket) c
      | Some w =>
          match phase_of w c with
          | Some Exited => goto (AccReap socket i) (c <| co_connections := delete i (co_connections c) |>)
          | Some Done => None
          | _ => goto (AccReap socket (Datatypes.S i)) c
          end
      end
  | AccBound socket =>
      if connection_bound (srv_config (co_server c)) <=? co_active c
      then goto AccLoop (on_server note_connection_rejected c)
      else goto (AccSpawn socket) (c <| co_active := co_active c + 1 |>)
  | AccSpawn socket =>
      goto (AccPush (length (co_workers c)))
        (c <| co_workers := co_workers c ++ [mkWorker (channel_open socket) Connecting 0] |>)
  | AccPush w => goto AccLoop (c <| co_connections := co_connections c ++ [w] |>)
  | AccEnded => None
  end.

(** A snapshot written by the owner in one of its two blocks, then [k] of its
    status. *)
Definition owner_snapshot (block : Locker) (mo : Moment) (c : Coordinator S) (k : Status -> Coordinator S -> Coordinator S)
  : option (Coordinator S) :=
  if negb (persisting (co_server c)) then Some (k Status_success c)
  else match held_by block c with
  | Some holder => let '(status, c) := write_locked (persist (mo_persist mo)) holder c in Some (k status c)
  | None => take_lock block c
  end.

(** One step of the owner of the service, from the boot snapshot of [start] to the
    end of [wait].  When the boot snapshot fails, [start] calls [request_stop] and
    [wait] inside the block that holds the lock, so the lock stays held. *)
Definition owner_turn (mo : Moment) (c : Coordinator S) : option (Coordinator S) :=
  match co_owner c with
  | OwnBoot =>
      owner_snapshot InStart mo c (fun durable c1 =>
        if negb (Status_ok durable)
        then on_server stop_server c1 <| co_lock := co_lock c |> <| co_owner := OwnWaiting |>
        else c1 <| co_owner := OwnWaiting |>)
  | OwnWaiting =>
      if srv_stop_requested (co_server c) || negb (srv_running (co_server c)) then
        Some (on_server (fun sv => sv <| srv_stop := true |>) c <| co_owner := OwnJoinAccept |>)
      else None
  | OwnJoinAccept =>
      match co_acceptor c with AccEnded => Some (c <| co_owner := OwnJoin 0 |>) | _ => None end
  | OwnJoin i =>
      match co_connections c !! i with
      | None => Some (c <| co_connections := [] |> <| co_owner := OwnFinal |>)
      | Some w =>
          match phase_of w c with
          | Some Exited => Some (c <| co_owner := OwnJoin (Datatypes.S i) |>)
          | _ => None
          end
      end
  | OwnFinal =>
      owner_snapshot InWait mo c (fun status c =>
        if negb (Status_ok status) then c <| co_owner := OwnEnded status |>
        else on_server (fun sv => sv <| srv_running := false |>) c
               <| co_owner := OwnEnded Status_success |>)
  | OwnEnded _ => None
  end.

(** ** Schedules *)

Inductive Turn :=
| WorkerTurn (w : nat) (mo : Moment)
| AcceptTurn (accepted : Result S)
| OwnerTurn (mo : Moment)
| StopTurn.     (* request_stop, from outside *)

Definition turn (x : Turn) (c : Coordinator S) : option (Coordinator S) :=
  match x with
  | WorkerTurn w mo => worker_turn mo w c
  | AcceptTurn accepted => accept_turn accepted c
  | OwnerTurn mo => owner_turn mo c
  | StopTurn => Some (on_server stop_server c)
  end.

Fixpoint run_turns (xs : list Turn) (c : Coordinator S) : option (Coordinator S) :=
  match xs with
  | [] => Some c
  | x :: xs => match turn x c with Some c => run_turns xs c | None => None end
  end.

(** The threads as [start] creates them, once the listener is bound. *)
Definition launch (sv : Server) : Coordinator S :=
  mkCoordinator (sv <| srv_running := true |> <| srv_stop_requested := false |>) [] [] 0 AccLoop OwnBoot
    None [srv_engine sv] 0.
End threads.
Arguments Turn : clear implicits.
