(* ===== verification/Config.v ===== *)
(** * Config: the operator's configuration file

    Models [include/ctf/config.hpp] and [src/config.cpp]: the strict
    [key = value] format, the drafts the keys fill, the checks made once the text
    is read, and the canonical description of a configuration.  A [std::map] with
    string keys, whose order the result exposes, is a list of entries kept in the
    order of the keys' bytes.  The file system is an argument of
    [load_config_file]. *)

From stdpp Require Import base gmap list strings.
From Stdlib Require Import Ascii.
From S2P Require Import Prelude Status Ids Enums Model Codec Service.

#[local] Open Scope string_scope.
#[local] Open Scope Z_scope.

#[global] Instance eta_CoordinatorConfig : Eta CoordinatorConfig :=
  fun r => mkCoordinatorConfig (cc_bind_host r) (cc_port r) (cc_data_directory r) (cc_policy r)
    (cc_topology r) (cc_contracts r) (cc_limits r) (cc_worker_threads r)
    (cc_max_pending_connections r) (cc_persist r) (cc_identity_seed r) (cc_label r).

Record FileConfig := mkFileConfig { fc_coordinator : CoordinatorConfig; fc_source : string }.

(** ** Text *)

Definition newline : ascii := "010"%char.
Definition is_space (c : ascii) : bool :=
  bool_decide (c = " "%char) || bool_decide (c = "009"%char) || bool_decide (c = "013"%char)
  || bool_decide (c = newline).

Fixpoint drop_spaces (text : list ascii) : list ascii :=
  match text with
  | c :: rest => if is_space c then drop_spaces rest else text
  | [] => []
  end.
Definition trim (text : list ascii) : list ascii := rev (drop_spaces (rev (drop_spaces text))).

(** [text.find(c)], with the text before and after the first occurrence. *)
Fixpoint cut (c : ascii) (text : list ascii) : option (list ascii * list ascii) :=
  match text with
  | [] => None
  | d :: rest =>
      if bool_decide (d = c) then Some ([], rest)
      else match cut c rest with
           | Some (before, after) => Some (d :: before, after)
           | None => None
           end
  end.

(** The lines [std::getline] yields: a text that ends with a newline has no
    further empty line. *)
Fixpoint getlines (text : list ascii) : list (list ascii) :=
  match text with
  | [] => []
  | c :: rest =>
      if bool_decide (c = newline) then [] :: getlines rest
      else match getlines rest with
           | line :: lines => (c :: line) :: lines
           | [] => [[c]]
           end
  end.

(** [text.rfind(prefix, 0) == 0], with the text after the prefix. *)
Fixpoint strip_prefix (prefix text : list ascii) : option (list ascii) :=
  match prefix, text with
  | [], _ => Some text
  | p :: prefix', c :: rest => if bool_decide (p = c) then strip_prefix prefix' rest else None
  | _ :: _, [] => None
  end.
Definition has_prefix (prefix : string) (key : string) : option string :=
  match strip_prefix (chars prefix) (chars key) with
  | Some rest => Some (text_of rest)
  | None => None
  end.
(** [rest.find('.')] with the texts around the dot. *)
Definition cut_dot (text : string) : option (string * string) :=
  match split_dot (chars text) with
  | Some (before, after) => Some (text_of before, text_of after)
  | None => None
  end.

(** ** Values *)

Definition on_line (line : nat) (detail : string) : string :=
  "line " +:+ nat_to_string (Z.of_nat line) +:+ ": " +:+ detail.

Definition parse_u64 (value key : string) (line : nat) : Result Z :=
  match scalar_parse UINT64_MAX (chars value) with
  | Some v => Val v
  | None => Err (Status_error ErrorCode.InvalidSyntax
                  (on_line line (key +:+ " must be a canonical unsigned decimal number")))
  end.
Definition parse_u32 (value key : string) (line : nat) : Result Z :=
  match scalar_parse UINT32_MAX (chars value) with
  | Some v => Val v
  | None => Err (Status_error ErrorCode.InvalidSyntax
                  (on_line line (key +:+ " must be an unsigned 32-bit decimal number")))
  end.
Definition parse_bool (value key : string) (line : nat) : Result bool :=
  if String.eqb value "true" then Val true
  else if String.eqb value "false" then Val false
  else Err (Status_error ErrorCode.InvalidSyntax (on_line line (key +:+ " must be true or false"))).

(** ** Ordered maps with string keys *)

Fixpoint text_ltb (l r : list ascii) : bool :=
  match l, r with
  | a :: l', b :: r' =>
      if char_code a <? char_code b then true
      else if char_code b <? char_code a then false else text_ltb l' r'
  | [], _ :: _ => true
  | _, _ => false
  end.
Definition string_ltb (l r : string) : bool := text_ltb (chars l) (chars r).

Section ordered.
Context {A : Type}.

(** [f] applied to [m[key]], which [operator[]] creates from [initial] when the
    key is new. *)
Fixpoint at_key (initial : A) (key : string) (f : A -> A) (m : list (string * A))
  : list (string * A) :=
  match m with
  | [] => [(key, f initial)]
  | (k, a) :: rest =>
      if String.eqb k key then (k, f a) :: rest
      else if string_ltb k key then (k, a) :: at_key initial key f rest
      else (key, f initial) :: m
  end.
End ordered.

(** ** Defaults *)

Record EnvelopeDraft := mkEnvelopeDraft { ed_seen : bool; ed_value : IsolationEnvelopeConfig }.
Definition EnvelopeDraft_default : EnvelopeDraft :=
  mkEnvelopeDraft false IsolationEnvelopeConfig_default.

Definition PolicySnapshot_default : PolicySnapshot :=
  mkPolicy (mkGen 0) [] 16 (Z.shiftl 1 38) 4096 1024 256 true kNanosPerSecond
    (300 * kNanosPerSecond) 0 Limits_default.
Definition WorkloadContract_default : WorkloadContract :=
  mkContract id_nil (mkGen 0) IsolationClass.TrainingBulk 0 0 8 8 true (300 * kNanosPerSecond).

(** The member initialisers of [CoordinatorConfig]. *)
Definition CoordinatorConfig_default : CoordinatorConfig :=
  mkCoordinatorConfig "127.0.0.1" 0 "" PolicySnapshot_default (mkTopology (mkGen 0) []) []
    Limits_default 4 64 true 0x5DEECE66D "ctf-coordinator".

Definition MiB : Z := 1024 * 1024.
Definition default_coordinator_config : CoordinatorConfig :=
  let config := CoordinatorConfig_default in
  let config := config <| cc_label := "ctf-coordinator" |> <| cc_bind_host := "127.0.0.1" |>
    <| cc_port := 0 |> <| cc_worker_threads := 4 |> <| cc_max_pending_connections := 64 |>
    <| cc_persist := false |> in
  let policy := (cc_policy config)
    <| pol_generation := mkGen 1 |>
    <| pol_envelopes :=
         [mkEnvelopeConfig IsolationClass.TrainingCritical (32 * MiB) (kNanosPerMillisecond * 50) 8;
          mkEnvelopeConfig IsolationClass.ServingLatency (16 * MiB) (kNanosPerMillisecond * 50) 8;
          mkEnvelopeConfig IsolationClass.TrainingBulk (8 * MiB) (kNanosPerMillisecond * 100) 4;
          mkEnvelopeConfig IsolationClass.BestEffort (2 * MiB) (kNanosPerMillisecond * 100) 2] |>
    <| pol_max_wave_width := 8 |>
    <| pol_max_session_bytes := Z.shiftl 1 32 |>
    <| pol_max_sessions := 256 |>
    <| pol_max_attempts_in_flight := 64 |>
    <| pol_retained_history := 128 |>
    <| pol_require_destination_verification := true |>
    <| pol_defer_horizon_ns := kNanosPerMillisecond * 250 |>
    <| pol_default_deadline_ns := 120 * kNanosPerSecond |> in
  let topology := mkTopology (mkGen 1)
    [mkPathClass (mkScalar 1) DestinationClass.LocalAttachedStore (64 * MiB) true "synthetic-local";
     mkPathClass (mkScalar 2) DestinationClass.RemoteObjectStore (32 * MiB) true "synthetic-remote";
     mkPathClass (mkScalar 3) DestinationClass.PeerNodeMemory (32 * MiB) true "synthetic-peer";
     mkPathClass (mkScalar 4) DestinationClass.SyntheticLab (64 * MiB) true "synthetic-lab"] in
  (** [parse(...).value()]: the literal is canonical, so the parse succeeds. *)
  let workload := default id_nil (id_parse "11111111-2222-4333-8444-555555555555") in
  let contract := mkContract workload (mkGen 1) IsolationClass.TrainingBulk (8 * MiB) 0 4 4 true
    (120 * kNanosPerSecond) in
  config <| cc_policy := policy |> <| cc_topology := topology |> <| cc_contracts := [contract] |>.

(** ** The keys *)

(** The locals of [parse_config]. *)
Record Draft := mkDraft {
  dr_config : CoordinatorConfig;
  dr_envelopes : list (string * EnvelopeDraft);
  dr_paths : list (string * PathClass);
  dr_contracts : list (string * WorkloadContract);
  dr_seen_keys : gmap string string;
  dr_policy_generation_seen : bool;
  dr_topology_generation_seen : bool
}.
#[global] Instance eta_Draft : Eta Draft :=
  fun r => mkDraft (dr_config r) (dr_envelopes r) (dr_paths r) (dr_contracts r) (dr_seen_keys r)
    (dr_policy_generation_seen r) (dr_topology_generation_seen r).

Definition draft_start : Draft :=
  let config := default_coordinator_config in
  let config := config
    <| cc_policy := (cc_policy config) <| pol_generation := mkGen 0 |> |>
    <| cc_topology := (cc_topology config) <| topo_generation := mkGen 0 |> |> in
  mkDraft config [] [] [] (empty : gmap string string) false false.

Section keys.
Context (line : nat) (key value : string).

Definition fail_key (detail : string) : Status :=
  Status_error ErrorCode.InvalidArgument (on_line line detail).

(** [if (!parsed.ok()) { return parsed.status(); }] *)
Definition parsed {A B} (r : Result A) (k : A -> Result B) : Result B :=
  match r with Val a => k a | Err s => Err s end.
Definition take_u64 {B} (k : Z -> B) : Result B := parsed (parse_u64 value key line) (fun v => Val (k v)).
Definition take_u32 {B} (k : Z -> B) : Result B := parsed (parse_u32 value key line) (fun v => Val (k v)).
Definition take_bool {B} (k : bool -> B) : Result B :=
  parsed (parse_bool value key line) (fun v => Val (k v)).

Definition set_config (f : CoordinatorConfig -> CoordinatorConfig) (d : Draft) : Draft :=
  d <| dr_config := f (dr_config d) |>.
Definition set_policy (f : PolicySnapshot -> PolicySnapshot) : Draft -> Draft :=
  set_config (fun c => c <| cc_policy := f (cc_policy c) |>).
Definition set_limits (f : Limits -> Limits) : Draft -> Draft :=
  set_config (fun c => c <| cc_limits := f (cc_limits c) |>).

(** A field of an envelope: the change it makes to the draft's value. *)
Definition envelope_field (field : string) : Result (IsolationEnvelopeConfig -> IsolationEnvelopeConfig) :=
  if String.eqb field "ceiling_bps" then take_u64 (fun v e => e <| iec_ceiling_bps := v |>)
  else if String.eqb field "burst_window_ns" then
    take_u64 (fun v e => e <| iec_burst_window_ns := u64 (s64 v) |>)
  else if String.eqb field "max_in_flight_sessions" then
    take_u32 (fun v e => e <| iec_max_in_flight_sessions := v |>)
  else Err (fail_key ("unknown policy envelope field " +:+ field)).

Definition envelope_key (rest : string) (d : Draft) : Result Draft :=
  match cut_dot rest with
  | None => Err (fail_key "policy envelope keys are policy.envelope.<class>.<field>")
  | Some (class_name, field) =>
      match isolation_class_from_string class_name with
      | None => Err (fail_key ("unknown isolation class " +:+ class_name))
      | Some isolation =>
          let first (draft : EnvelopeDraft) :=
            if ed_seen draft then draft
            else mkEnvelopeDraft true ((ed_value draft) <| iec_isolation := isolation |>) in
          parsed (envelope_field field) (fun change =>
            Val (d <| dr_envelopes :=
              at_key EnvelopeDraft_default class_name
                (fun draft => let draft := first draft in
                              mkEnvelopeDraft (ed_seen draft) (change (ed_value draft)))
                (dr_envelopes d) |>))
      end
  end.

Definition policy_key (field : string) (d : Draft) : Result Draft :=
  if String.eqb field "generation" then
    take_u64 (fun v => (set_policy (fun p => p <| pol_generation := mkGen v |>) d)
                         <| dr_policy_generation_seen := true |>)
  else if String.eqb field "max_wave_width" then
    take_u32 (fun v => set_policy (fun p => p <| pol_max_wave_width := v |>) d)
  else if String.eqb field "max_session_bytes" then
    take_u64 (fun v => set_policy (fun p => p <| pol_max_session_bytes := v |>) d)
  else if String.eqb field "max_sessions" then
    take_u32 (fun v => set_policy (fun p => p <| pol_max_sessions := v |>) d)
  else if String.eqb field "max_attempts_in_flight" then
    take_u32 (fun v => set_policy (fun p => p <| pol_max_attempts_in_flight := v |>) d)
  else if String.eqb field "retained_history" then
    take_u32 (fun v => set_policy (fun p => p <| pol_retained_history := v |>) d)
  else if String.eqb field "require_destination_verification" then
    take_bool (fun v => set_policy (fun p => p <| pol_require_destination_verification := v |>) d)
  else if String.eqb field "defer_horizon_ns" then
    take_u64 (fun v => set_policy (fun p => p <| pol_defer_horizon_ns := s64 v |>) d)
  else if String.eqb field "default_deadline_ns" then
    take_u64 (fun v => set_policy (fun p => p <| pol_default_deadline_ns := s64 v |>) d)
  else Err (fail_key ("unknown policy key " +:+ key)).

Definition path_field (field : string) : Result (PathClass -> PathClass) :=
  if String.eqb field "destination" then
    match destination_class_from_string value with
    | None => Err (fail_key ("unknown destination class " +:+ value))
    | Some destination => Val (fun p => p <| pc_destination := destination |>)
    end
  else if String.eqb field "capacity_bps" then take_u64 (fun v p => p <| pc_capacity_bps := v |>)
  else if String.eqb field "synthetic" then take_bool (fun v p => p <| pc_synthetic := v |>)
  else if String.eqb field "label" then Val (fun p => p <| pc_label := value |>)
  else Err (fail_key ("unknown topology path field " +:+ field)).

Definition path_key (rest : string) (d : Draft) : Result Draft :=
  match cut_dot rest with
  | None => Err (fail_key "topology path keys are topology.path.<id>.<field>")
  | Some (id_text, field) =>
      match sc_parse (T := PathClassIdTag) id_text with
      | Some id =>
          if sc_value id =? 0 then Err (fail_key "path class id must be a non-zero decimal number")
          else parsed (path_field field) (fun change =>
            Val (d <| dr_paths :=
              at_key PathClass_default id_text (fun p => change (p <| pc_id := id |>)) (dr_paths d) |>))
      | None => Err (fail_key "path class id must be a non-zero decimal number")
      end
  end.

Definition contract_field (field : string) : Result (WorkloadContract -> WorkloadContract) :=
  if String.eqb field "generation" then take_u64 (fun v c => c <| wc_generation := mkGen v |>)
  else if String.eqb field "isolation" then
    match isolation_class_from_string value with
    | None => Err (fail_key ("unknown isolation class " +:+ value))
    | Some isolation => Val (fun c => c <| wc_isolation := isolation |>)
    end
  else if String.eqb field "ceiling_bps" then take_u64 (fun v c => c <| wc_ceiling_bps := v |>)
  else if String.eqb field "floor_bps" then take_u64 (fun v c => c <| wc_floor_bps := v |>)
  else if String.eqb field "max_in_flight_sessions" then
    take_u32 (fun v c => c <| wc_max_in_flight_sessions := v |>)
  else if String.eqb field "max_shards_per_wave" then
    take_u32 (fun v c => c <| wc_max_shards_per_wave := v |>)
  else if String.eqb field "allow_supersession" then
    take_bool (fun v c => c <| wc_allow_supersession := v |>)
  else if String.eqb field "deadline_budget_ns" then
    take_u64 (fun v c => c <| wc_deadline_budget_ns := s64 v |>)
  else Err (fail_key ("unknown contract field " +:+ field)).

Definition contract_key (rest : string) (d : Draft) : Result Draft :=
  match cut_dot rest with
  | None => Err (fail_key "contract keys are contract.<workload-uuid>.<field>")
  | Some (id_text, field) =>
      match id_parse (T := WorkloadIdTag) id_text with
      | None => Err (fail_key "contract key must name a canonical workload identity")
      | Some workload =>
          parsed (contract_field field) (fun change =>
            Val (d <| dr_contracts :=
              at_key WorkloadContract_default id_text
                (fun c => change (c <| wc_workload := workload |>)) (dr_contracts d) |>))
      end
  end.

(** Every limit is read as a 64-bit number; the 32-bit ones are then cast. *)
Definition limits_key (field : string) (d : Draft) : Result Draft :=
  parsed (parse_u64 value key line) (fun raw =>
    if String.eqb field "max_shards_per_checkpoint" then
      Val (set_limits (fun l => l <| lim_max_shards_per_checkpoint := u32 raw |>) d)
    else if String.eqb field "max_checkpoint_bytes" then
      Val (set_limits (fun l => l <| lim_max_checkpoint_bytes := raw |>) d)
    else if String.eqb field "max_sessions" then
      Val (set_limits (fun l => l <| lim_max_sessions := u32 raw |>) d)
    else if String.eqb field "max_attempts_in_flight" then
      Val (set_limits (fun l => l <| lim_max_attempts_in_flight := u32 raw |>) d)
    else if String.eqb field "max_retained_history" then
      Val (set_limits (fun l => l <| lim_max_retained_history := u32 raw |>) d)
    else if String.eqb field "max_wave_width" then
      Val (set_limits (fun l => l <| lim_max_wave_width := u32 raw |>) d)
    else if String.eqb field "max_path_classes" then
      Val (set_limits (fun l => l <| lim_max_path_classes := u32 raw |>) d)
    else if String.eqb field "max_sessions_per_workload" then
      Val (set_limits (fun l => l <| lim_max_sessions_per_workload := u32 raw |>) d)
    else if String.eqb field "max_workloads" then
      Val (set_limits (fun l => l <| lim_max_workloads := u32 raw |>) d)
    else if String.eqb field "max_string_bytes" then
      Val (set_limits (fun l => l <| lim_max_string_bytes := raw |>) d)
    else if String.eqb field "max_supersession_chain" then
      Val (set_limits (fun l => l <| lim_max_supersession_chain := u32 raw |>) d)
    else Err (fail_key ("unknown limits field " +:+ field))).

(** The chain of [if (key == ...)] in [parse_config]. *)
Definition apply_key (d : Draft) : Result Draft :=
  if String.eqb key "label" then Val (set_config (fun c => c <| cc_label := value |>) d)
  else if String.eqb key "bind_host" then Val (set_config (fun c => c <| cc_bind_host := value |>) d)
  else if String.eqb key "port" then
    parsed (parse_u32 value key line) (fun v =>
      if v >? 65535 then Err (fail_key "port must be at most 65535")
      else Val (set_config (fun c => c <| cc_port := u16 v |>) d))
  else if String.eqb key "data_directory" then
    Val (set_config (fun c => c <| cc_data_directory := value |>) d)
  else if String.eqb key "worker_threads" then
    take_u32 (fun v => set_config (fun c => c <| cc_worker_threads := v |>) d)
  else if String.eqb key "max_pending_connections" then
    take_u32 (fun v => set_config (fun c => c <| cc_max_pending_connections := v |>) d)
  else if String.eqb key "persist" then
    take_bool (fun v => set_config (fun c => c <| cc_persist := v |>) d)
  else if String.eqb key "identity_seed" then
    take_u64 (fun v => set_config (fun c => c <| cc_identity_seed := v |>) d)
  else match has_prefix "policy.envelope." key with
  | Some rest => envelope_key rest d
  | None =>
  match has_prefix "policy." key with
  | Some field => policy_key field d
  | None =>
  match has_prefix "topology.path." key with
  | Some rest => path_key rest d
  | None =>
  if String.eqb key "topology.generation" then
    take_u64 (fun v =>
      (set_config (fun c => c <| cc_topology := (cc_topology c) <| topo_generation := mkGen v |> |>) d)
        <| dr_topology_generation_seen := true |>)
  else match has_prefix "contract." key with
  | Some rest => contract_key rest d
  | None =>
  match has_prefix "limits." key with
  | Some field => limits_key field d
  | None => Err (Status_error ErrorCode.InvalidArgument (on_line line ("unknown key " +:+ key)))
  end end end end end.
End keys.

(** ** The text *)

(** The text of a line without its comment. *)
Definition strip_comment (text : list ascii) : list ascii :=
  match cut "#"%char text with Some (before, _) => before | None => text end.

(** The body of the loop of [parse_config]. *)
Definition parse_line (line_number : nat) (line_text : list ascii) (d : Draft) : Result Draft :=
  let line := trim (strip_comment line_text) in
  match line with
  | [] => Val d
  | _ :: _ =>
      match cut "="%char line with
      | None => Err (Status_error ErrorCode.InvalidSyntax (on_line line_number "expected key = value"))
      | Some (before, after) =>
          let key := text_of (trim before) in
          let value := text_of (trim after) in
          if String.eqb key "" || String.eqb value "" then
            Err (Status_error ErrorCode.InvalidSyntax
                   (on_line line_number "key and value are required"))
          else if bool_decide (is_Some (dr_seen_keys d !! key)) then
            Err (Status_error ErrorCode.DuplicateIdentity
                   (on_line line_number ("duplicate key " +:+ key)))
          else apply_key line_number key value
                 (d <| dr_seen_keys := <[key := value]> (dr_seen_keys d) |>)
      end
  end.

Fixpoint parse_lines (line_number : nat) (lines : list (list ascii)) (d : Draft) : Result Draft :=
  match lines with
  | [] => Val d
  | line_text :: rest =>
      parsed (parse_line (S line_number) line_text d) (parse_lines (S line_number) rest)
  end.

Definition missing (detail : string) : Result FileConfig :=
  Err (Status_error ErrorCode.MissingField detail).

(** What [parse_config] does after its loop. *)
Definition finish_config (source_label : string) (d : Draft) : Result FileConfig :=
  let config := dr_config d in
  let envelopes := map (fun entry => ed_value (snd entry)) (dr_envelopes d) in
  let paths := map snd (dr_paths d) in
  let contracts := map snd (dr_contracts d) in
  if negb (dr_policy_generation_seen d) then missing "policy.generation is required"
  else if negb (dr_topology_generation_seen d) then missing "topology.generation is required"
  else if Nat.eqb (length envelopes) 0 then missing "at least one policy envelope is required"
  else if Nat.eqb (length paths) 0 then missing "at least one topology path class is required"
  else if Nat.eqb (length contracts) 0 then missing "at least one workload contract is required"
  else
    let config := config
      <| cc_policy := (cc_policy config) <| pol_envelopes := envelopes |> |>
      <| cc_topology := (cc_topology config) <| topo_path_classes := paths |> |>
      <| cc_contracts := contracts |> in
    if cc_persist config && String.eqb (cc_data_directory config) "" then
      Err (Status_error ErrorCode.InvalidArgument "persist = true requires data_directory to be set")
    else Val (mkFileConfig config source_label).

Definition parse_config (text source_label : string) : Result FileConfig :=
  parsed (parse_lines 0 (getlines (chars text)) draft_start) (finish_config source_label).

(** [read path] is the content of the file, or [None] when it cannot be opened. *)
Definition load_config_file (read : string -> option string) (path : string) : Result FileConfig :=
  match read path with
  | None => Err (Status_error ErrorCode.NotFound ("cannot open configuration file " +:+ path))
  | Some text => parse_config text path
  end.

(** ** The canonical description *)

Definition bool_text (b : bool) : string := if b then "true" else "false".
Definition eol : string := String newline "".
Definition entry_line (name value : string) : string := name +:+ "=" +:+ value +:+ eol.

Definition describe_envelope (envelope : IsolationEnvelopeConfig) : string :=
  entry_line ("policy.envelope." +:+ IsolationClass.to_string (iec_isolation envelope)
              +:+ ".ceiling_bps") (nat_to_string (iec_ceiling_bps envelope)).
Definition describe_path (path : PathClass) : string :=
  let prefix := "topology.path." +:+ sc_to_string (pc_id path) in
  entry_line (prefix +:+ ".destination") (DestinationClass.to_string (pc_destination path)) +:+
  entry_line (prefix +:+ ".capacity_bps") (nat_to_string (pc_capacity_bps path)) +:+
  entry_line (prefix +:+ ".synthetic") (bool_text (pc_synthetic path)).
Definition describe_contract (contract : WorkloadContract) : string :=
  let prefix := "contract." +:+ Uuid128_to_string (id_value (wc_workload contract)) in
  entry_line (prefix +:+ ".generation") (gen_to_string (wc_generation contract)) +:+
  entry_line (prefix +:+ ".isolation") (IsolationClass.to_string (wc_isolation contract)) +:+
  entry_line (prefix +:+ ".ceiling_bps") (nat_to_string (wc_ceiling_bps contract)).

Definition describe_config (config : CoordinatorConfig) : string :=
  let policy := cc_policy config in
  entry_line "label" (cc_label config) +:+
  entry_line "bind_host" (cc_bind_host config) +:+
  entry_line "port" (nat_to_string (cc_port config)) +:+
  entry_line "data_directory" (cc_data_directory config) +:+
  entry_line "persist" (bool_text (cc_persist config)) +:+
  entry_line "worker_threads" (nat_to_string (cc_worker_threads config)) +:+
  entry_line "policy.generation" (gen_to_string (pol_generation policy)) +:+
  entry_line "policy.max_wave_width" (nat_to_string (pol_max_wave_width policy)) +:+
  entry_line "policy.max_sessions" (nat_to_string (pol_max_sessions policy)) +:+
  entry_line "policy.require_destination_verification"
    (bool_text (pol_require_destination_verification policy)) +:+
  foldr String.append "" (map describe_envelope (pol_envelopes policy)) +:+
  entry_line "topology.generation" (gen_to_string (topo_generation (cc_topology config))) +:+
  foldr String.append "" (map describe_path (topo_path_classes (cc_topology config))) +:+
  foldr String.append "" (map describe_contract (cc_contracts config)).
