(* ===== verification/Client.v ===== *)
(** * Client: the coordinator's protocol from the other side

    Models [include/ctf/client.hpp] and [src/client.cpp]: the handshake, the
    fence built from the authority learnt in it, and one function per request of
    the protocol.  A client is state threaded through its calls: its channel, the
    coordinator's hello, its identity and the limits it decodes with.  The
    outcome of [TcpSocket::connect] is an argument of [connect]. *)

From stdpp Require Import base gmap list strings.
From S2P Require Import Prelude Status Ids Bytes Hash Enums Model Fence Shaper.
From S2P Require Import EngineState EngineAuthority EngineAdmission EngineLifecycle EngineEvidence.
From S2P Require Import EngineInspect Wire Codec Protocol.

Record ClientConfig := mkClientConfig {
  clc_host : string;
  clc_port : Z;
  clc_kind : ClientKind;
  clc_identity : string;
  clc_limits : Limits
}.

Definition SessionView_default : SessionView :=
  mkSessionView id_nil id_nil (mkGen 0) id_nil (mkGen 0) IsolationClass.TrainingBulk
    DestinationClass.LocalAttachedStore SessionState.Submitted EvidenceLevel.None
    DurabilityStatus.NotEstablished 0 0 0 0 0 0 0 None "" "" None None [] 0 0 None.
Definition Explanation_default : Explanation := mkExplanation id_nil "" [].

Module CoordinatorClient.
Section client.
Context {S : Type} `{ByteStream S}.

Record t := mk {
  channel_ : MessageChannel S;
  hello_ : HelloResponse;
  identity_ : string;
  limits_ : Limits
}.
Definition with_channel (c : t) (channel : MessageChannel S) : t :=
  mk channel (hello_ c) (identity_ c) (limits_ c).

(** [wire::decode_payload<StatusPayload>] and its use as an error. *)
Definition status_error (prefix : string) (payload : list Z) (limits : Limits) : Status :=
  match decode_payload decode_StatusPayload StatusPayload_default payload limits with
  | Err status => status
  | Val status => Status_error (sp_code status) (prefix +:+ sp_detail status)
  end.

(** [dialled] is what [TcpSocket::connect] returns. *)
Definition connect (config : ClientConfig) (dialled : Result S) : Result t :=
  if String.eqb (clc_identity config) "" ||
     (Z.of_nat (String.length (clc_identity config)) >? lim_max_string_bytes (clc_limits config)) then
    Err (Status_error ErrorCode.InvalidArgument "client identity must be a bounded string")
  else match dialled with
  | Err status => Err status
  | Val socket =>
      let request := mkHelloRequest (clc_kind config) (clc_identity config) in
      let '(sent, channel) := send MessageType.HelloRequest
                                (encode_payload encode_HelloRequest request) (channel_open socket) in
      if negb (Status_ok sent) then Err sent
      else
        let '(response, channel) := receive channel in
        match response with
        | Err status => Err status
        | Val response =>
            if bool_decide (msg_type response = MessageType.StatusResponse) then
              Err (status_error "handshake refused: " (msg_payload response) (clc_limits config))
            else if negb (bool_decide (msg_type response = MessageType.HelloResponse)) then
              Err (Status_error ErrorCode.InvalidStateTransition
                     "coordinator did not answer the handshake with a hello response")
            else match decode_payload decode_HelloResponse HelloResponse_default
                         (msg_payload response) (clc_limits config) with
            | Err status => Err status
            | Val hello =>
                if gen_is_zero (ep_incarnation (hrs_epoch hello)) ||
                   gen_is_zero (ep_term (hrs_epoch hello)) then
                  Err (Status_error ErrorCode.CorruptState "coordinator reported a zero epoch")
                else Val (mk channel hello (clc_identity config) (hrs_limits hello))
            end
        end
  end.

(** The first record for the workload, or generation 0. *)
Definition current_fence (workload : WorkloadId) (checkpoint_generation : option CheckpointGeneration)
    (attempt_sequence : option AttemptSequence) (c : t) : CommandFence :=
  let contract_generation :=
    match find (fun record => bool_decide (fst record = workload)) (hrs_contracts (hello_ c)) with
    | Some record => snd record
    | None => mkGen 0
    end in
  mkFence (hrs_epoch (hello_ c)) (hrs_policy_generation (hello_ c))
    (hrs_topology_generation (hello_ c)) contract_generation checkpoint_generation attempt_sequence.

Definition round_trip (type : MessageType) (payload : list Z) (expected : MessageType) (c : t)
  : Result Message * t :=
  let '(sent, channel) := send type payload (channel_ c) in
  let c := with_channel c channel in
  if negb (Status_ok sent) then (Err sent, c)
  else
    let '(response, channel) := receive (channel_ c) in
    let c := with_channel c channel in
    match response with
    | Err status => (Err status, c)
    | Val response =>
        if bool_decide (msg_type response = MessageType.StatusResponse) &&
           negb (bool_decide (expected = MessageType.StatusResponse)) then
          (Err (status_error "" (msg_payload response) (limits_ c)), c)
        else if negb (bool_decide (msg_type response = expected)) then
          (Err (Status_error ErrorCode.InvalidStateTransition
                  ("coordinator answered with " +:+ MessageType.to_string (msg_type response) +:+
                   " instead of " +:+ MessageType.to_string expected)), c)
        else (Val response, c)
    end.

Definition command (type : MessageType) (payload : list Z) (c : t) : Result StatusPayload * t :=
  let '(response, c) := round_trip type payload MessageType.StatusResponse c in
  (match response with
   | Err status => Err status
   | Val response =>
       match decode_payload decode_StatusPayload StatusPayload_default (msg_payload response)
               (limits_ c) with
       | Err status => Err status
       | Val status =>
           if negb (bool_decide (sp_code status = ErrorCode.Ok)) then
             Err (Status_error (sp_code status) (sp_detail status))
           else Val status
       end
   end, c).

(** The tail the queries share: a round trip and the decoding of its payload. *)
Definition ask {A} (type : MessageType) (payload : list Z) (expected : MessageType)
    (dec : A -> Dec A) (initial : A) (c : t) : Result A * t :=
  let '(response, c) := round_trip type payload expected c in
  (match response with
   | Err status => Err status
   | Val response => decode_payload dec initial (msg_payload response) (limits_ c)
   end, c).
(** The tail the commands share: [status.ok() ? Status::success() : status.status()]. *)
Definition tell (type : MessageType) (payload : list Z) (c : t) : Status * t :=
  let '(status, c) := command type payload c in
  (match status with Val _ => Status_success | Err status => status end, c).

Definition submit_session (request : SessionRequest) (fence : CommandFence) : t -> Result AdmissionDecision * t :=
  ask MessageType.SubmitSession (encode_payload encode_SubmitRequest (mkSubmitRequest request fence))
    MessageType.DecisionResponse decode_AdmissionDecision AdmissionDecision_default.
Definition revalidate_session (session : SessionId) (fence : CommandFence)
  : t -> Result AdmissionDecision * t :=
  ask MessageType.RevalidateSession
    (encode_payload encode_RevalidateRequest (mkRevalidateRequest session fence))
    MessageType.DecisionResponse decode_AdmissionDecision AdmissionDecision_default.
Definition request_wave (session : SessionId) (shard : ShardIndex) (fence : CommandFence)
  : t -> Result WaveOutcome * t :=
  ask MessageType.RequestWave (encode_payload encode_WaveRequest (mkWaveRequest session shard fence))
    MessageType.WaveResponse decode_WaveOutcome WaveOutcome_default.
Definition report_source_complete (evidence : SourceCompleteEvidence) (fence : CommandFence)
  : t -> Status * t :=
  tell MessageType.ReportSourceComplete
    (encode_payload encode_SourceCompleteRequest (mkSourceCompleteRequest evidence fence)).
Definition report_transfer (evidence : TransferEvidence) (fence : CommandFence) : t -> Status * t :=
  tell MessageType.ReportTransfer (encode_payload encode_TransferReport (mkTransferReport evidence fence)).
Definition report_verification (evidence : VerificationEvidence) (fence : CommandFence) : t -> Status * t :=
  tell MessageType.ReportVerification
    (encode_payload encode_VerificationReport (mkVerificationReport evidence fence)).
Definition report_ambiguous (request : AmbiguityRequest) : t -> Status * t :=
  tell MessageType.ReportAmbiguous (encode_payload encode_AmbiguityRequest request).
Definition cancel_session (session : SessionId) (fence : CommandFence) (reason : ReasonCode)
    (detail : string) : t -> Status * t :=
  tell MessageType.CancelSession
    (encode_payload encode_CancelRequest (mkCancelRequest session fence reason detail)).
Definition pause_session (session : SessionId) (fence : CommandFence) (reason : string) : t -> Status * t :=
  tell MessageType.PauseSession (encode_payload encode_PauseRequest (mkPauseRequest session fence reason)).
Definition resume_session (session : SessionId) (fence : CommandFence) : t -> Status * t :=
  tell MessageType.ResumeSession (encode_payload encode_ResumeRequest (mkResumeRequest session fence)).
Definition record_durability (session : SessionId) (assertion : DurabilityAssertion)
    (fence : CommandFence) : t -> Status * t :=
  tell MessageType.RecordDurability
    (encode_payload encode_DurabilityRequest (mkDurabilityRequest session assertion fence)).
Definition view_session (session : SessionId) : t -> Result SessionView * t :=
  ask MessageType.QuerySession (encode_payload encode_SessionQuery (mkSessionQuery session))
    MessageType.SessionViewResponse decode_SessionView SessionView_default.
Definition list_sessions (workload : option WorkloadId) (limit : Z) (c : t)
  : Result (list SessionSummary) * t :=
  let query := mkSessionsQuery (bool_decide (is_Some workload)) (default id_nil workload) limit in
  let '(decoded, c) :=
    ask MessageType.QuerySessions (encode_payload encode_SessionsQuery query)
      MessageType.SessionListResponse decode_SessionListResponse SessionListResponse_default c in
  (match decoded with Val list => Val (slr_sessions list) | Err status => Err status end, c).
(** [wire::encode_payload(std::uint8_t{0})] *)
Definition empty_query : list Z := encode_payload enc_u8 0.
Definition accounting : t -> Result AccountingSnapshot * t :=
  ask MessageType.QueryAccounting empty_query MessageType.AccountingResponse
    decode_AccountingSnapshot AccountingSnapshot_default.
Definition explain (session : SessionId) : t -> Result Explanation * t :=
  ask MessageType.QueryExplain (encode_payload encode_SessionQuery (mkSessionQuery session))
    MessageType.ExplanationResponse decode_Explanation Explanation_default.
Definition check_invariants : t -> Status * t := tell MessageType.QueryInvariants empty_query.
Definition request_shutdown : t -> Status * t := tell MessageType.ShutdownRequest empty_query.
End client.
Arguments t : clear implicits.
End CoordinatorClient.
