(* ===== verification/Content.v ===== *)
(** * Content: the synthetic checkpoint

    Models [SyntheticCheckpointContent] of [include/ctf/agent.hpp] and
    [src/agent.cpp]: content that is a function of the seed, the shard and the
    position, produced a word at a time into a caller's buffer, and its digest,
    computed block by block. *)

From stdpp Require Import base gmap list strings.
From S2P Require Import Prelude Status Ids Bytes Hash.

Definition kBlockBytes : Z := 64 * 1024.

Definition splitmix64 (value : Z) : Z :=
  let value := u64 (value + 0x9E3779B97F4A7C15) in
  let z := value in
  let z := u64 (Z.lxor z (Z.shiftr z 30) * 0xBF58476D1CE4E5B9) in
  let z := u64 (Z.lxor z (Z.shiftr z 27) * 0x94D049BB133111EB) in
  Z.lxor z (Z.shiftr z 31).

(** The constructor: [base_]. *)
Definition content_base (seed : Z) (shard : ShardIndex) : Z :=
  Z.lxor seed (u64 (sc_value shard * 0x9E3779B97F4A7C15)).

Definition content_word (base word_index : Z) : Z :=
  splitmix64 (Z.lxor base (u64 (word_index * 0xD1B54A32D192ED03))).
Definition word_byte (word byte : Z) : Z := Z.land (Z.shiftr word (byte * 8)) 0xFF.

(** The inner loop of [fill]: the bytes of [word] from number [byte] on, at most
    [room] of them. *)
Fixpoint fill_word (bytes : nat) (word byte : Z) (room : nat) : list Z :=
  match bytes, room with
  | S bytes', S room' =>
      if byte <? 8 then word_byte word byte :: fill_word bytes' word (byte + 1) room' else []
  | _, _ => []
  end.

(** The outer loop; every iteration writes at least one byte, so [fuel] equal to
    the room left is enough. *)
Fixpoint fill_loop (fuel : nat) (base offset : Z) (index size : nat) : list Z :=
  if (index <? size)%nat then
    match fuel with
    | O => []
    | S fuel' =>
        let absolute := u64 (offset + Z.of_nat index) in
        let word := content_word base (absolute / 8) in
        let start_byte := absolute mod 8 in
        let written := fill_word 8 word start_byte (size - index) in
        written ++ fill_loop fuel' base offset (index + length written) size
    end
  else [].
(** [fill(offset, out)] with [out.size() = size]: what it leaves in [out]. *)
Definition fill (base offset : Z) (size : nat) : list Z := fill_loop size base offset 0 size.

(** [digest]: blocks of [buffer] bytes until [bytes] are covered. *)
Fixpoint digest_loop (fuel : nat) (base bytes buffer offset : Z) (builder : Digest) : Digest :=
  if offset <? bytes then
    match fuel with
    | O => builder
    | S fuel' =>
        let chunk := Z.min (bytes - offset) buffer in
        digest_loop fuel' base bytes buffer (offset + chunk)
          (builder_update builder (fill base offset (Z.to_nat chunk)))
    end
  else builder.
(** Every block but the last is a full buffer. *)
Definition blocks (bytes buffer : Z) : nat := Z.to_nat ((bytes + buffer - 1) / buffer).
Definition content_digest (base bytes : Z) : Digest :=
  let buffer := Z.min bytes kBlockBytes in
  if buffer =? 0 then builder_init
  else digest_loop (blocks bytes buffer) base bytes buffer 0 builder_init.

(** ** What they compute *)

(** The byte at a position. *)
Definition content_byte (base pos : Z) : Z := word_byte (content_word base (pos / 8)) (pos mod 8).
Fixpoint content (base offset : Z) (size : nat) : list Z :=
  match size with
  | O => []
  | S size' => content_byte base offset :: content base (offset + 1) size'
  end.

Lemma content_length base offset size : length (content base offset size) = size.
Proof. revert offset. induction size as [|n IH]; intros offset; cbn; by rewrite ?IH. Qed.

Lemma content_app base offset n m :
  content base offset (n + m) = content base offset n ++ content base (offset + Z.of_nat n) m.
Proof.
  revert offset. induction n as [|n IH]; intros offset; cbn [content Nat.add app].
  - by rewrite Z.add_0_r.
  - rewrite IH. do 3 f_equal. lia.
Qed.

Lemma fill_word_content base bytes w byte room : 0 <= w -> 0 <= byte <= 8 ->
  fill_word bytes (content_word base w) byte room =
  content base (8 * w + byte) (Nat.min (Nat.min bytes room) (Z.to_nat (8 - byte))).
Proof.
  intros Hw. revert byte room. induction bytes as [|bytes IH]; intros byte room Hb; [done|].
  destruct room as [|room]; [done|]. cbn [fill_word].
  destruct (Z.ltb_spec byte 8) as [L|L].
  - rewrite IH by lia. replace (Z.to_nat (8 - byte)) with (S (Z.to_nat (8 - (byte + 1)))) by lia.
    cbn [Nat.min content]. f_equal; [|f_equal; lia]. unfold content_byte. f_equal.
    + f_equal. apply (Z.div_unique _ _ _ byte); lia.
    + apply (Z.mod_unique _ _ w); lia.
  - replace (Z.to_nat (8 - byte)) with 0%nat by lia. by rewrite Nat.min_0_r.
Qed.

Lemma fill_loop_content fuel base offset index size :
  (size - index <= fuel)%nat -> (index <= size)%nat -> 0 <= offset -> offset + Z.of_nat size <= 2 ^ 64 ->
  fill_loop fuel base offset index size = content base (offset + Z.of_nat index) (size - index).
Proof.
  intros Hf Hi Ho Hs. revert index Hf Hi. induction fuel as [|fuel IH]; intros index Hf Hi; cbn [fill_loop].
  { replace (size - index)%nat with 0%nat by lia. by destruct (Nat.ltb _ _). }
  destruct (Nat.ltb_spec index size) as [L|L]; [|by replace (size - index)%nat with 0%nat by lia].
  rewrite u64_small by lia. set (pos := offset + Z.of_nat index).
  pose proof (Z.mod_pos_bound pos 8 ltac:(lia)) as Hm. pose proof (Z.div_mod pos 8 ltac:(lia)) as Hd.
  assert (0 <= pos / 8) by (apply Z.div_pos; lia).
  rewrite fill_word_content by lia. rewrite <- Hd.
  set (n := Nat.min _ _). assert (0 < n <= size - index)%nat by lia.
  rewrite content_length, IH by lia.
  replace (size - index)%nat with (n + (size - (index + n)))%nat by lia.
  rewrite content_app. do 2 f_equal. unfold pos. lia.
Qed.

Lemma fill_content base offset size : 0 <= offset -> offset + Z.of_nat size <= 2 ^ 64 ->
  fill base offset size = content base offset size.
Proof.
  intros Ho Hs. unfold fill. rewrite fill_loop_content by lia.
  by rewrite Z.add_0_r, Nat.sub_0_r.
Qed.

Lemma not32_involutive x : not32 (not32 x) = x.
Proof. unfold not32. lia. Qed.
Lemma builder_update_app b x y : builder_update (builder_update b x) y = builder_update b (x ++ y).
Proof.
  unfold builder_update, crc32c, fnv1a64. cbn. by rewrite not32_involutive, !foldl_app.
Qed.
Lemma builder_update_nil b : builder_update b [] = b.
Proof. destruct b. unfold builder_update, crc32c. cbn. by rewrite not32_involutive. Qed.

Lemma digest_loop_content fuel base bytes buffer offset builder :
  0 < buffer -> 0 <= offset <= bytes -> bytes <= 2 ^ 64 -> bytes - offset <= Z.of_nat fuel * buffer ->
  digest_loop fuel base bytes buffer offset builder =
  builder_update builder (content base offset (Z.to_nat (bytes - offset))).
Proof.
  intros Hb. revert offset builder. induction fuel as [|fuel IH]; intros offset builder Ho Hm Hf;
    cbn [digest_loop].
  { replace (bytes - offset) with 0 by lia. rewrite builder_update_nil. by destruct (offset <? bytes). }
  destruct (Z.ltb_spec offset bytes) as [L|L].
  - set (chunk := Z.min (bytes - offset) buffer). assert (0 < chunk <= bytes - offset) by lia.
    rewrite fill_content by lia. rewrite IH by lia. rewrite builder_update_app. f_equal.
    replace (Z.to_nat (bytes - offset)) with (Z.to_nat chunk + Z.to_nat (bytes - (offset + chunk)))%nat by lia.
    rewrite content_app. do 2 f_equal. lia.
  - replace (bytes - offset) with 0 by lia. by rewrite builder_update_nil.
Qed.

Lemma content_digest_whole base bytes : 0 <= bytes <= 2 ^ 64 ->
  content_digest base bytes = digest_of (content base 0 (Z.to_nat bytes)).
Proof.
  intros Hb. unfold content_digest, kBlockBytes. set (buffer := Z.min bytes _).
  destruct (Z.eqb_spec buffer 0) as [E|E].
  - replace bytes with 0 by lia. unfold digest_of. cbn [Z.to_nat content]. by rewrite builder_update_nil.
  - rewrite digest_loop_content; [by rewrite Z.sub_0_r|lia|lia|lia|]. unfold blocks.
    rewrite Z2Nat.id by (apply Z.div_pos; lia).
    pose proof (Z.mod_pos_bound (bytes + buffer - 1) buffer ltac:(lia)).
    pose proof (Z.div_mod (bytes + buffer - 1) buffer ltac:(lia)). lia.
Qed.

(** the synthetic content is a function of the position: a buffer filled from
    any offset, whatever its size and alignment, holds the bytes the position
    alone determines, so consecutive chunks join into the shard; and the digest
    computed in blocks is the digest of the whole shard at once. *)
Theorem content_by_position base offset size :
  0 <= offset -> offset + Z.of_nat size <= 2 ^ 64 ->
  fill base offset size = content base offset size /\
  content_digest base (offset + Z.of_nat size) =
    digest_of (content base 0 (Z.to_nat offset) ++ fill base offset size).
Proof.
  intros Ho Hs. split; [by apply fill_content|]. rewrite content_digest_whole, fill_content by lia.
  replace (Z.to_nat (offset + Z.of_nat size)) with (Z.to_nat offset + size)%nat by lia.
  rewrite content_app. do 4 f_equal. lia.
Qed.

Lemma content_by_position_witness :
  fill 7 3 20 = content 7 3 20 /\
  content_digest 7 23 = digest_of (content 7 0 3 ++ fill 7 3 20).
Proof. apply (content_by_position 7 3 20); cbn; lia. Defined.
