(* ===== verification/Sender.v ===== *)
(** * Sender: the process that streams a checkpoint

    Models [CheckpointSender] of [include/ctf/agent.hpp] and [src/agent.cpp]: the
    manifest and the request it submits, the loop that asks for credit, streams
    what was granted to the sink and reports what the sink acknowledged, and the
    result it exits with.  Its two peers are byte streams; the outcome of each
    attempt to reach the coordinator, of reaching the sink, and of each poll of
    the stop token are arguments.  [sleep_until] only passes time.  Beside its
    result a run leaves a history of what it exchanged with the two peers, which
    nothing reads. *)

From stdpp Require Import base gmap list strings.
From S2P Require Import Prelude Status Ids Bytes Hash Enums Model Fence Shaper.
From S2P Require Import EngineState EngineAuthority EngineAdmission EngineLifecycle EngineEvidence.
From S2P Require Import EngineInspect Wire Codec Protocol Client Content.

Definition kTransferBufferBytes : Z := 128 * 1024.

Record SenderConfig := mkSenderConfig {
  sn_coordinator_host : string;
  sn_coordinator_port : Z;
  sn_sink_host : string;
  sn_sink_port : Z;
  sn_workload : WorkloadId;
  sn_checkpoint : CheckpointId;
  sn_checkpoint_generation : CheckpointGeneration;
  sn_isolation : IsolationClass;
  sn_destination : DestinationClass;
  sn_shard_count : Z;
  sn_shard_bytes : Z;
  sn_requested_rate_bps : Z;
  sn_deadline_horizon_ns : Nanos;
  sn_die_after_bytes : Z;
  sn_truncate_first_shard : bool;
  sn_identity : string;
  sn_limits : Limits;
  sn_content_seed : Z;
  sn_max_credit_wait_iterations : Z
}.

Record SenderResult := mkSenderResult {
  sr_decision : DecisionKind;
  sr_reason : ReasonCode;
  sr_detail : string;
  sr_session : SessionId;
  sr_bytes_sent : Z;
  sr_shards_completed : Z;
  sr_deferred_grants : Z;
  sr_exit_code : Z;
  sr_message : string
}.
#[global] Instance eta_SenderResult : Eta SenderResult :=
  fun r => mkSenderResult (sr_decision r) (sr_reason r) (sr_detail r) (sr_session r)
    (sr_bytes_sent r) (sr_shards_completed r) (sr_deferred_grants r) (sr_exit_code r) (sr_message r).
Definition SenderResult_default : SenderResult :=
  mkSenderResult DecisionKind.Deny ReasonCode.Internal "" id_nil 0 0 0 0 "".
Definition exit_with (code : Z) (message : string) (r : SenderResult) : SenderResult :=
  r <| sr_exit_code := code |> <| sr_message := message |>.

(** ** Reaching the coordinator *)

Section reaching.
Context {S : Type} `{ByteStream S}.
(** Whether the [n]th attempt finds a stop request, and what its connect finds. *)
Context (stop_at : nat -> bool) (dial : nat -> Result S).

Fixpoint connect_loop (attempts : nat) (attempt : nat) (config : ClientConfig) (last : Status)
  : Result (CoordinatorClient.t S) :=
  match attempts with
  | O => Err last
  | Datatypes.S attempts' =>
      if stop_at attempt then
        Err (Status_error ErrorCode.ShuttingDown "connect cancelled before the handshake")
      else match CoordinatorClient.connect config (dial attempt) with
           | Val client => Val client
           | Err last =>
               if bool_decide (st_code last = ErrorCode.ShuttingDown) then Err last
               else connect_loop attempts' (Datatypes.S attempt) config last
           end
  end.
Definition connect_client (host : string) (port : Z) (kind : ClientKind) (identity : string)
    (limits : Limits) (attempts : nat) : Result (CoordinatorClient.t S) :=
  connect_loop attempts 0 (mkClientConfig host port kind identity limits)
    (Status_error ErrorCode.ConnectionRefused "coordinator was never reachable").
End reaching.

(** ** The request *)

Section request.
Context (config : SenderConfig).

Definition shard_descriptor (i : Z) : ShardDescriptor :=
  mkShardDescriptor (mkScalar i) (sn_shard_bytes config)
    (content_digest (content_base (sn_content_seed config) (mkScalar i)) (sn_shard_bytes config))
    (mkScalar 0).
(** The loop that fills the manifest; [total_bytes] grows with each shard. *)
Definition sender_manifest (contract_generation : WorkloadContractGeneration) : CheckpointManifest :=
  let shards := map (fun i => shard_descriptor (Z.of_nat i)) (seq 0 (Z.to_nat (sn_shard_count config))) in
  let total := foldl (fun total _ => u64 (total + sn_shard_bytes config)) 0 shards in
  let manifest := mkManifest (sn_checkpoint config) (sn_checkpoint_generation config)
    (sn_workload config) contract_generation total shards Digest_default 0 in
  manifest <| mf_manifest_digest := compute_manifest_digest manifest |>.

Definition seed_step (seed value : Z) : Z := u64 (Z.lxor seed value * 0x100000001B3).
Definition command_seed (manifest : CheckpointManifest) : Z :=
  let seed := 0xC0FFEE1234 in
  let seed := foldl seed_step seed (uuid_bytes (id_value (sn_checkpoint config))) in
  let seed := seed_step seed (gen_value (sn_checkpoint_generation config)) in
  let seed := foldl seed_step seed (uuid_bytes (id_value (sn_workload config))) in
  let seed := seed_step seed (dg_crc (mf_manifest_digest manifest)) in
  let seed := seed_step seed (dg_fnv (mf_manifest_digest manifest)) in
  let seed := seed_step seed (sn_shard_count config) in
  let seed := seed_step seed (sn_shard_bytes config) in
  seed_step seed (sn_requested_rate_bps config).

Definition sender_request (hello : HelloResponse) (manifest : CheckpointManifest) : SessionRequest :=
  mkRequest (mkId (IdFactory_next (mt_seed (command_seed manifest))).1) (sn_workload config)
    (mf_contract_generation manifest) (hrs_policy_generation hello) (hrs_topology_generation hello)
    (sn_checkpoint config) (sn_checkpoint_generation config) (sn_isolation config)
    (sn_destination config) (sn_requested_rate_bps config) (sn_deadline_horizon_ns config) manifest.
End request.

(** ** The transfer *)

(** What the transfer exchanges with its peers: each message it sends to the sink
    with the outcome of sending it, each acknowledgement it decodes, and each
    answer of the coordinator. *)
Inductive SenderEvent :=
| WaveAnswered (shard : ShardIndex) (outcome : WaveOutcome)
| BeginSent (payload : ShardBeginPayload) (status : Status)
| ChunkSent (shard : ShardIndex) (payload : ShardDataPayload) (status : Status)
| ChunkAcked (ack : ShardAckPayload)
| TransferReported (evidence : TransferEvidence) (answer : Status)
| SourceReported (evidence : SourceCompleteEvidence) (answer : Status)
| EndSent (shard : ShardIndex) (payload : ShardEndPayload) (status : Status)
| EndAnswered (message : Message).

Section transfer.
Context {S K : Type} `{ByteStream S} `{ByteStream K}.
Context (config : SenderConfig) (session : SessionId) (fence : CommandFence).
(** Whether the [n]th poll of the stop token in the transfer finds a request. *)
Context (stop_at : nat -> bool).

(** The locals of [run] that outlive one iteration. *)
Record Transfer := mkTransfer {
  tf_client : CoordinatorClient.t S;
  tf_sink : MessageChannel K;
  tf_result : SenderResult;
  tf_polls : nat;
  tf_last_attempt : TransferAttemptId;
  tf_last_sequence : AttemptSequence;
  tf_history : list SenderEvent
}.
#[local] Instance eta_Transfer : Eta Transfer :=
  fun r => mkTransfer (tf_client r) (tf_sink r) (tf_result r) (tf_polls r) (tf_last_attempt r)
    (tf_last_sequence r) (tf_history r).
Definition note (event : SenderEvent) (t : Transfer) : Transfer :=
  t <| tf_history := tf_history t ++ [event] |>.
Definition quit (code : Z) (message : string) (t : Transfer) : Transfer :=
  t <| tf_result := exit_with code message (tf_result t) |>.

(** How an iteration of the credit loop ends: the next one, a [break], a
    [return result], or the exception of [grant.value()] on an empty optional. *)
Inductive WaveStep :=
| Again (sent : Z) (began : bool)
| Leave (sent : Z) (truncated died : bool)
| Return
| Throw.

Definition begin_payload (descriptor : ShardDescriptor) (grant : WaveGrant) : ShardBeginPayload :=
  mkShardBeginPayload session (wg_attempt grant) (wg_sequence grant) (sn_checkpoint config)
    (sn_checkpoint_generation config) (sn_workload config) (sd_index descriptor)
    (sd_declared_bytes descriptor) (sd_declared_digest descriptor).

(** [ShardBegin], once per shard. *)
Definition begin_shard (descriptor : ShardDescriptor) (grant : WaveGrant) (began : bool) (t : Transfer)
  : Status * Transfer :=
  if began then (Status_success, t)
  else
    let payload := begin_payload descriptor grant in
    let '(status, sink) := send MessageType.ShardBegin
      (encode_payload encode_ShardBeginPayload payload) (tf_sink t) in
    (status, note (BeginSent payload status) (t <| tf_sink := sink |>)).

(** One chunk: the data, the sink's acknowledgement, and the evidence of it; false
    when the run is over. *)
Definition send_chunk (shard : ShardIndex) (grant : WaveGrant) (sent : Z) (data : list Z) (t : Transfer)
  : bool * Transfer :=
  let amount := Z.of_nat (length data) in
  let refused (message : string) (t : Transfer) := (false, quit 4 message t) in
  let payload := mkShardDataPayload (wg_attempt grant) (wg_sequence grant) sent data in
  let '(status, sink) := send MessageType.ShardData
    (encode_payload encode_ShardDataPayload payload) (tf_sink t) in
  let t := note (ChunkSent shard payload status) (t <| tf_sink := sink |>) in
  if negb (Status_ok status) then refused ("sink write failed: " +:+ Status_to_string status) t
  else
    let '(message, sink) := receive (tf_sink t) in
    let t := t <| tf_sink := sink |> in
    match message with
    | Err status => refused ("sink acknowledgement missing: " +:+ Status_to_string status) t
    | Val message =>
        if negb (bool_decide (msg_type message = MessageType.ShardAck)) then
          refused "sink answered with an unexpected message" t
        else match decode_payload decode_ShardAckPayload ShardAckPayload_default (msg_payload message)
                     (sn_limits config) with
        | Err status => refused ("sink acknowledgement was malformed: " +:+ Status_to_string status) t
        | Val ack =>
            let t := note (ChunkAcked ack) t in
            if negb (sap_bytes_received ack =? u64 (sent + amount)) then
              refused "sink acknowledged a different cumulative byte count than was sent" t
            else
              let evidence := mkTransferEvidence session (wg_attempt grant) (wg_sequence grant) shard
                amount (digest_of data) true 0 in
              let '(reported, client) := CoordinatorClient.report_transfer evidence fence (tf_client t) in
              let t := note (TransferReported evidence reported) (t <| tf_client := client |>) in
              if negb (Status_ok reported) then
                refused ("transfer evidence refused: " +:+ Status_to_string reported) t
              else
                let t := t <| tf_last_attempt := wg_attempt grant |>
                           <| tf_last_sequence := wg_sequence grant |>
                           <| tf_result := (tf_result t)
                                <| sr_bytes_sent := u64 (sr_bytes_sent (tf_result t) + amount) |> |> in
                (true, t)
        end
    end.

(** What is left of an iteration once a wave was granted. *)
Definition granted_step (descriptor : ShardDescriptor) (drop_after sent : Z) (began : bool)
    (grant : WaveGrant) (t : Transfer) : WaveStep * Transfer :=
  let shard := sd_index descriptor in
  let chunk := Z.min (sd_declared_bytes descriptor - sent) (wg_max_bytes grant) in
  let chunk := if (0 <? drop_after) && (drop_after <? u64 (sent + chunk)) then
                 if sent <? drop_after then drop_after - sent else 0
               else chunk in
  if chunk =? 0 then (Leave sent true false, t)
  else
    let amount := Z.min chunk kTransferBufferBytes in
    let data := fill (content_base (sn_content_seed config) shard) sent (Z.to_nat amount) in
    let '(begun, t) := begin_shard descriptor grant began t in
    if negb (Status_ok begun) then
      (Return, quit 4 ("cannot begin the shard: " +:+ Status_to_string begun) t)
    else match send_chunk shard grant sent data t with
    | (false, t) => (Return, t)
    | (true, t) =>
        let sent := u64 (sent + amount) in
        if negb (sn_die_after_bytes config =? 0) &&
           (sn_die_after_bytes config <=? sr_bytes_sent (tf_result t)) then (Leave sent false true, t)
        else (Again sent true, t)
    end.

(** One iteration of the credit loop. *)
Definition wave_step (descriptor : ShardDescriptor) (drop_after sent : Z) (began : bool) (t : Transfer)
  : WaveStep * Transfer :=
  let stopping := stop_at (tf_polls t) in
  let t := t <| tf_polls := Datatypes.S (tf_polls t) |> in
  if stopping then (Return, quit 5 "stop requested before the transfer completed" t)
  else if (0 <? drop_after) && (drop_after <=? sent) then (Leave sent true false, t)
  else
    let '(outcome, client) :=
      CoordinatorClient.request_wave session (sd_index descriptor) fence (tf_client t) in
    let t := t <| tf_client := client |> in
    match outcome with
    | Err status => (Return, quit 4 ("wave request failed: " +:+ Status_to_string status) t)
    | Val outcome =>
        let t := note (WaveAnswered (sd_index descriptor) outcome) t in
        if negb (wo_granted outcome) then
          let deferred := u32 (sr_deferred_grants (tf_result t) + 1) in
          let t := t <| tf_result := (tf_result t) <| sr_deferred_grants := deferred |> |> in
          if sn_max_credit_wait_iterations config <? deferred then
            (Return, quit 6 "credit never became available" t)
          else (Again sent began, t)
        else match wo_grant outcome with
        | None => (Throw, t)
        | Some grant => granted_step descriptor drop_after sent began grant t
        end
    end.

(** The credit loop of one shard.  [None]: out of fuel. *)
Fixpoint credit_loop (fuel : nat) (descriptor : ShardDescriptor) (drop_after sent : Z) (began : bool)
    (t : Transfer) : option (WaveStep * Transfer) :=
  if sent <? sd_declared_bytes descriptor then
    match fuel with
    | O => None
    | Datatypes.S fuel' =>
        match wave_step descriptor drop_after sent began t with
        | (Again sent began, t) => credit_loop fuel' descriptor drop_after sent began t
        | (step, t) => Some (step, t)
        end
    end
  else Some (Leave sent false false, t).

(** The digest of what was sent, in blocks of the transfer buffer. *)
Definition sent_digest (base sent : Z) : Digest :=
  digest_loop (blocks sent kTransferBufferBytes) base sent kTransferBufferBytes 0 builder_init.

(** What follows the credit loop: the source's evidence, the end of the shard and
    the sink's answer to it.  [None]: the run is over. *)
Definition end_shard (descriptor : ShardDescriptor) (sent : Z) (shard_truncated : bool) (t : Transfer)
  : option bool * Transfer :=
  let shard := sd_index descriptor in
  let digest := sent_digest (content_base (sn_content_seed config) shard) sent in
  let truncated := shard_truncated || (sent <? sd_declared_bytes descriptor) in
  let '(source_status, t) :=
    if Uuid128_is_nil (id_value (tf_last_attempt t)) then (Status_success, t)
    else
      let source := mkSourceComplete session (tf_last_attempt t) (tf_last_sequence t) (mkScalar 0)
        shard sent digest 0 in
      let '(status, client) := CoordinatorClient.report_source_complete source fence (tf_client t) in
      (status, note (SourceReported source status) (t <| tf_client := client |>)) in
  if negb (Status_ok source_status) then
    (None, quit 4 ("source-complete evidence refused: " +:+ Status_to_string source_status) t)
  else
    let payload := mkShardEndPayload sent digest truncated in
    let '(status, sink) := send MessageType.ShardEnd
      (encode_payload encode_ShardEndPayload payload) (tf_sink t) in
    let t := note (EndSent shard payload status) (t <| tf_sink := sink |>) in
    if negb (Status_ok status) then
      (None, quit 4 ("cannot finish the shard: " +:+ Status_to_string status) t)
    else
      let '(final_ack, sink) := receive (tf_sink t) in
      let t := t <| tf_sink := sink |> in
      match final_ack with
      | Err status =>
          (None, quit 4 ("sink did not answer the shard end: " +:+ Status_to_string status) t)
      | Val message =>
          let t := note (EndAnswered message) t in
          if truncated then (Some true, t)
          else (Some false, t <| tf_result := (tf_result t)
                 <| sr_shards_completed := u32 (sr_shards_completed (tf_result t) + 1) |> |>)
      end.

(** How the loop over the shards ends: normally, with whether any shard was
    truncated; by the injected death; by a [return]; by the exception; out of
    fuel. *)
Inductive TransferEnd := Finished (truncated : bool) | Died | Returned | Threw | OutOfFuel.

Fixpoint shard_loop (fuel : nat) (shards : list ShardDescriptor) (truncated : bool) (t : Transfer)
  : TransferEnd * Transfer :=
  match shards with
  | [] => (Finished truncated, t)
  | descriptor :: rest =>
      let drop_after := if sn_truncate_first_shard config && (sc_value (sd_index descriptor) =? 0)
                        then sd_declared_bytes descriptor / 2 else 0 in
      match credit_loop fuel descriptor drop_after 0 false t with
      | None => (OutOfFuel, t)
      | Some (Again _ _, t) => (OutOfFuel, t)
      | Some (Return, t) => (Returned, t)
      | Some (Throw, t) => (Threw, t)
      | Some (Leave sent shard_truncated died, t) =>
          if died then (Died, t)
          else match end_shard descriptor sent shard_truncated t with
               | (None, t) => (Returned, t)
               | (Some shard_end, t) => shard_loop fuel rest (truncated || shard_end) t
               end
      end
  end.
End transfer.
Arguments Transfer : clear implicits.

(** ** The run *)

(** What [run] does: it returns a status or a result, lets the exception of an
    empty grant escape, or, in the model only, exhausts its fuel. *)
Inductive SenderRun := SenderReturns (r : Result SenderResult) | SenderThrows | SenderOutOfFuel.

Section run.
Context {S K : Type} `{ByteStream S} `{ByteStream K}.
Context (config : SenderConfig).
Context (connect_stop_at : nat -> bool) (dial : nat -> Result S) (sink_dialled : Result K).
Context (stop_at : nat -> bool).

Definition finish_transfer (ended : TransferEnd) (result : SenderResult) : SenderRun :=
  match ended with
  | Finished truncated =>
      SenderReturns (Val (exit_with (if truncated then 8 else 0)
        (if truncated then "transfer truncated (injected)" else "checkpoint traffic delivered") result))
  | Died =>
      SenderReturns (Val (exit_with 9 ("sender died after " +:+ nat_to_string (sr_bytes_sent result)
        +:+ " bytes (injected sender death)") result))
  | Returned => SenderReturns (Val result)
  | Threw => SenderThrows
  | OutOfFuel => SenderOutOfFuel
  end.

(** [CheckpointSender::run] from the admission on, with the history. *)
Definition run_admitted (fuel : nat) (client : CoordinatorClient.t S) (session : SessionId)
    (fence : CommandFence) (shards : list ShardDescriptor) (result : SenderResult)
  : SenderRun * list SenderEvent :=
  match sink_dialled with
  | Err status =>
      (SenderReturns (Val (exit_with 4 ("cannot reach the sink: " +:+ Status_to_string status) result)), [])
  | Val socket =>
      let t := mkTransfer client (channel_open socket) result 0 id_nil (mkGen 0) [] in
      let '(ended, t) := shard_loop config session fence stop_at fuel shards false t in
      (finish_transfer ended (tf_result t), tf_history t)
  end.

Definition sender_run (fuel : nat) : SenderRun * list SenderEvent :=
  if (sn_shard_count config =? 0) || (sn_shard_bytes config =? 0) then
    (SenderReturns (Err (Status_error ErrorCode.InvalidArgument "sender needs at least one non-empty shard")),
     [])
  else if sn_shard_count config >? lim_max_shards_per_checkpoint (sn_limits config) then
    (SenderReturns (Err (Status_error ErrorCode.CollectionTooLarge "shard count exceeds the configured bound")),
     [])
  else if sn_shard_count config >? lim_max_checkpoint_bytes (sn_limits config) / sn_shard_bytes config then
    (SenderReturns (Err (Status_error ErrorCode.OutOfRange "checkpoint size exceeds the configured bound")), [])
  else match connect_client connect_stop_at dial (sn_coordinator_host config)
               (sn_coordinator_port config) ClientKind.Sender (sn_identity config) (sn_limits config) 200 with
  | Err status => (SenderReturns (Err status), [])
  | Val client =>
      let contract_generation :=
        cf_contract_generation (CoordinatorClient.current_fence (sn_workload config) None None client) in
      let manifest := sender_manifest config contract_generation in
      let request := sender_request config (CoordinatorClient.hello_ client) manifest in
      let fence := CoordinatorClient.current_fence (sn_workload config)
                     (Some (sn_checkpoint_generation config)) None client in
      let '(decision, client) := CoordinatorClient.submit_session request fence client in
      let result := SenderResult_default in
      match decision with
      | Err status => (SenderReturns (Val (exit_with 4 (Status_to_string status) result)), [])
      | Val decision =>
          let result := result <| sr_decision := ad_kind decision |> <| sr_reason := ad_reason decision |>
            <| sr_detail := ad_detail decision |> <| sr_session := ad_session decision |> in
          if negb (bool_decide (ad_kind decision = DecisionKind.Admit)) then
            (SenderReturns (Val (exit_with
              (if bool_decide (ad_kind decision = DecisionKind.Defer) then 3 else 2)
              (DecisionKind.to_string (ad_kind decision) +:+ ": " +:+
               ReasonCode.to_string (ad_reason decision) +:+ " " +:+ ad_detail decision) result)), [])
          else match ad_envelope decision with
          | None => (SenderReturns (Val (exit_with 4 "admission reported admit without an envelope" result)), [])
          | Some _ => run_admitted fuel client (ad_session decision) fence (mf_shards manifest) result
          end
      end
  end.
End run.
