(* ===== verification/Sink.v ===== *)
(** * Sink: the process that receives a checkpoint

    Models [CheckpointSink] of [include/ctf/agent.hpp] and [src/agent.cpp]: the
    transfer protocol of one connection, the file each shard is written to, the
    verdict on a finished shard and the evidence reported of it, and the loop
    over connections.  The destination directory is a map from file names to
    contents, and a shard is written through a buffered [std::ofstream]; whether a
    file can be opened, which bytes reach the file when and whether that fails,
    what the clock reads and what each accept finds are arguments. *)

From stdpp Require Import base gmap list strings.
From S2P Require Import Prelude Status Ids Bytes Hash Enums Model Fence Shaper.
From S2P Require Import EngineState EngineAuthority EngineAdmission EngineLifecycle EngineEvidence.
From S2P Require Import EngineInspect Wire Codec Protocol Client Content Sender.

Record SinkConfig := mkSinkConfig {
  sk_bind_host : string;
  sk_port : Z;
  sk_directory : string;
  sk_coordinator_host : string;
  sk_coordinator_port : Z;
  sk_expected_shards : Z;
  sk_die_after_bytes : Z;
  sk_verify : bool;
  sk_identity : string;
  sk_limits : Limits
}.

Record SinkResult := mkSinkResult {
  kr_shards_received : Z;
  kr_shards_verified : Z;
  kr_shards_truncated : Z;
  kr_shards_mismatched : Z;
  kr_bytes_received : Z;
  kr_exit_code : Z;
  kr_message : string
}.
#[global] Instance eta_SinkResult : Eta SinkResult :=
  fun r => mkSinkResult (kr_shards_received r) (kr_shards_verified r) (kr_shards_truncated r)
    (kr_shards_mismatched r) (kr_bytes_received r) (kr_exit_code r) (kr_message r).
Definition SinkResult_default : SinkResult := mkSinkResult 0 0 0 0 0 0 "".

(** ** The destination file *)

(** [std::ofstream]: the file it is open on, the bytes it has accepted and not
    yet handed to the operating system, and its state. *)
Record Ofstream := mkOfstream { of_file : option string; of_buffer : list Z; of_good : bool }.
#[global] Instance eta_Ofstream : Eta Ofstream :=
  fun r => mkOfstream (of_file r) (of_buffer r) (of_good r).
Definition Ofstream_default : Ofstream := mkOfstream None [] true.

(** What becomes of the buffered bytes in an operation: the first of them are
    taken (as many as there are when there are fewer), or the operating system
    fails, whatever bytes it has written by then, and the buffer is lost. *)
Inductive Sync := Taken (n : nat) | Lost (written : list Z).
Definition synced (a : Sync) : bool := match a with Taken _ => true | Lost _ => false end.

(** The destination directory, and how many operations have used it. *)
Record Directory := mkDirectory { dir_files : gmap string (list Z); dir_syncs : nat }.
#[global] Instance eta_Directory : Eta Directory :=
  fun r => mkDirectory (dir_files r) (dir_syncs r).

Section directory.
Context (can_open : string -> bool) (disk : nat -> Sync).

Definition append_file (name : string) (data : list Z) (d : Directory) : Directory :=
  d <| dir_files := <[name := default [] (dir_files d !! name) ++ data]> (dir_files d) |>.

(** One operation that hands over the first [n] buffered bytes if it succeeds. *)
Definition hand_over (name : string) (n : nat) (f : Ofstream) (d : Directory) : Ofstream * Directory :=
  let d' := d <| dir_syncs := Datatypes.S (dir_syncs d) |> in
  match disk (dir_syncs d) with
  | Taken _ => (f <| of_buffer := drop n (of_buffer f) |>, append_file name (take n (of_buffer f)) d')
  | Lost written => (f <| of_buffer := [] |> <| of_good := false |>, append_file name written d')
  end.

(** [open]: truncates, and clears the state when it succeeds. *)
Definition file_open (name : string) (f : Ofstream) (d : Directory) : Ofstream * Directory :=
  if can_open name then
    (mkOfstream (Some name) [] true, d <| dir_files := <[name := []]> (dir_files d) |>)
  else (f <| of_good := false |>, d).
(** [write]: the bytes join the buffer, of which some may be handed over. *)
Definition file_write (data : list Z) (f : Ofstream) (d : Directory) : Ofstream * Directory :=
  match of_file f with
  | Some name =>
      if of_good f then
        let taken := match disk (dir_syncs d) with Taken n => n | Lost _ => 0%nat end in
        hand_over name taken (f <| of_buffer := of_buffer f ++ data |>) d
      else (f, d)
  | None => (f <| of_good := false |>, d)
  end.
(** [flush]: the whole buffer, or a failure. *)
Definition file_flush (f : Ofstream) (d : Directory) : Ofstream * Directory :=
  match of_file f with
  | Some name => if of_good f then hand_over name (length (of_buffer f)) f d else (f, d)
  | None => (f, d)
  end.
(** [close]: hands over what is left; the file is closed in any case, and closing
    a stream that is not open is a failure. *)
Definition file_close (f : Ofstream) (d : Directory) : Ofstream * Directory :=
  match of_file f with
  | Some name =>
      let '(f, d) := hand_over name (length (of_buffer f)) f d in
      (f <| of_file := None |>, d)
  | None => (f <| of_good := false |>, d)
  end.
End directory.

(** ** The sink *)

Section sink.
Context {S K : Type} `{ByteStream S} `{ByteStream K}.
Context (config : SinkConfig).
Context (can_open : string -> bool) (disk : nat -> Sync) (clock : nat -> Nanos).

(** What outlives a connection. *)
Record Sink := mkSink {
  sink_client : CoordinatorClient.t S;
  sink_directory : Directory;
  sink_result : SinkResult;
  sink_ticks : nat                       (* readings of the clock so far *)
}.
#[local] Instance eta_Sink : Eta Sink :=
  fun r => mkSink (sink_client r) (sink_directory r) (sink_result r) (sink_ticks r).

(** The locals of one connection. *)
Record Connection := mkConnection {
  cx_channel : MessageChannel K;
  cx_active : bool;
  cx_begin : ShardBeginPayload;
  cx_digest : Digest;
  cx_received : Z;
  cx_file : Ofstream;
  cx_last_attempt : TransferAttemptId;
  cx_last_sequence : AttemptSequence
}.
#[local] Instance eta_Connection : Eta Connection :=
  fun r => mkConnection (cx_channel r) (cx_active r) (cx_begin r) (cx_digest r) (cx_received r)
    (cx_file r) (cx_last_attempt r) (cx_last_sequence r).
Definition connection_start (socket : K) : Connection :=
  mkConnection (channel_open socket) false ShardBeginPayload_default builder_init 0 Ofstream_default id_nil
    (mkGen 0).

(** How the handling of a message ends: [continue], [break], a [break] after the
    injected death, or a [return] of an error. *)
Inductive SinkStep := Continue | Break | Die | Fails (status : Status).

Definition shard_file (begin_ : ShardBeginPayload) : string :=
  Uuid128_to_string (id_value (sbp_session begin_)) +:+ "-shard-" +:+
  sc_to_string (sbp_shard begin_) +:+ ".bin".

Definition handle_begin (payload : list Z) (cx : Connection) (sk : Sink) : SinkStep * Connection * Sink :=
  match decode_payload decode_ShardBeginPayload ShardBeginPayload_default payload (sk_limits config) with
  | Err _ => (Break, cx, sk)
  | Val begin_ =>
      let name := shard_file begin_ in
      let '(file, directory) := file_close disk (cx_file cx) (sink_directory sk) in
      let '(file, directory) := file_open can_open name file directory in
      let cx := mkConnection (cx_channel cx) true begin_ builder_init 0 file (sbp_attempt begin_)
                  (sbp_sequence begin_) in
      let sk := sk <| sink_directory := directory |> in
      if negb (of_good file) then
        (Fails (Status_error ErrorCode.IoFailure "cannot open the sink destination file"), cx, sk)
      else (Continue, cx, sk)
  end.

Definition send_ack (ack : ShardAckPayload) (cx : Connection) : Status * Connection :=
  let '(status, channel) := send MessageType.ShardAck
    (encode_payload encode_ShardAckPayload ack) (cx_channel cx) in
  (status, cx <| cx_channel := channel |>).

Definition handle_data (payload : list Z) (cx : Connection) (sk : Sink) : SinkStep * Connection * Sink :=
  match decode_payload decode_ShardDataPayload ShardDataPayload_default payload (sk_limits config) with
  | Err _ => (Break, cx, sk)
  | Val message =>
      if negb (cx_active cx) then (Break, cx, sk)
      else if negb (sdp_offset message =? cx_received cx) then (Break, cx, sk)
      else
        let '(file, directory) := file_write disk (sdp_data message) (cx_file cx) (sink_directory sk) in
        let cx := cx <| cx_file := file |> in
        let sk := sk <| sink_directory := directory |> in
        if negb (of_good file) then
          (Fails (Status_error ErrorCode.IoFailure "sink destination write failed"), cx, sk)
        else
          let size := Z.of_nat (length (sdp_data message)) in
          let cx := cx <| cx_digest := builder_update (cx_digest cx) (sdp_data message) |>
                       <| cx_received := u64 (cx_received cx + size) |>
                       <| cx_last_attempt := sdp_attempt message |>
                       <| cx_last_sequence := sdp_sequence message |> in
          let bytes := u64 (kr_bytes_received (sink_result sk) + size) in
          let sk := sk <| sink_result := (sink_result sk) <| kr_bytes_received := bytes |> |> in
          if negb (sk_die_after_bytes config =? 0) && (sk_die_after_bytes config <=? bytes) then
            (Die, cx, sk <| sink_result := (sink_result sk) <| kr_exit_code := 9 |>
               <| kr_message := "sink died after " +:+ nat_to_string bytes +:+
                    " bytes before acknowledging (injected sink death)" |> |>)
          else
            let '(sent, cx) := send_ack
              (mkShardAckPayload (cx_received cx) false false (cx_digest cx) "chunk accepted") cx in
            (if negb (Status_ok sent) then Break else Continue, cx, sk)
  end.

(** The verdict on a finished shard. *)
Definition end_outcome (message : ShardEndPayload) (cx : Connection) : VerificationOutcome :=
  let begin_ := cx_begin cx in
  let observed := cx_digest cx in
  if sep_truncated message || negb (cx_received cx =? sbp_declared_bytes begin_) then
    VerificationOutcome.Truncated
  else if negb (Digest_eqb (sep_sent_digest message) observed) then VerificationOutcome.DigestMismatch
  else if negb (Digest_is_zero (sbp_declared_digest begin_)) &&
          negb (Digest_eqb (sbp_declared_digest begin_) observed) then VerificationOutcome.DigestMismatch
  else if negb (sk_verify config) then VerificationOutcome.Ambiguous
  else VerificationOutcome.Verified.

Definition count_outcome (outcome : VerificationOutcome) (r : SinkResult) : SinkResult :=
  let r := r <| kr_shards_received := u32 (kr_shards_received r + 1) |> in
  match outcome with
  | VerificationOutcome.Verified => r <| kr_shards_verified := u32 (kr_shards_verified r + 1) |>
  | VerificationOutcome.Truncated => r <| kr_shards_truncated := u32 (kr_shards_truncated r + 1) |>
  | VerificationOutcome.DigestMismatch => r <| kr_shards_mismatched := u32 (kr_shards_mismatched r + 1) |>
  | VerificationOutcome.Ambiguous | VerificationOutcome.Rejected => r
  end.

(** The evidence of a finished shard, bound to the attempt that delivered it. *)
Definition end_evidence (outcome : VerificationOutcome) (now : Nanos) (cx : Connection)
  : VerificationEvidence :=
  mkVerificationEvidence (sbp_session (cx_begin cx)) (cx_last_attempt cx) (cx_last_sequence cx)
    (sbp_shard (cx_begin cx)) (cx_received cx) (cx_digest cx) outcome "" now.

(** The results of [flush] and [close] are not looked at. *)
Definition handle_end (payload : list Z) (cx : Connection) (sk : Sink) : SinkStep * Connection * Sink :=
  match decode_payload decode_ShardEndPayload ShardEndPayload_default payload (sk_limits config) with
  | Err _ => (Break, cx, sk)
  | Val message =>
      if negb (cx_active cx) then (Break, cx, sk)
      else
        let '(file, directory) := file_flush disk (cx_file cx) (sink_directory sk) in
        let '(file, directory) := file_close disk file directory in
        let cx := cx <| cx_file := file |> in
        let sk := sk <| sink_directory := directory |> in
        let outcome := end_outcome message cx in
        let '(sent, cx) := send_ack
          (mkShardAckPayload (cx_received cx) (bool_decide (outcome = VerificationOutcome.Verified))
             (bool_decide (outcome = VerificationOutcome.Truncated)) (cx_digest cx)
             (VerificationOutcome.to_string outcome)) cx in
        if negb (Status_ok sent) then (Break, cx, sk)
        else
          let result := count_outcome outcome (sink_result sk) in
          let evidence := end_evidence outcome (clock (sink_ticks sk)) cx in
          let fence := CoordinatorClient.current_fence (sbp_workload (cx_begin cx))
                         (Some (sbp_checkpoint_generation (cx_begin cx))) None (sink_client sk) in
          let '(reported, client) :=
            CoordinatorClient.report_verification evidence fence (sink_client sk) in
          let result := if negb (Status_ok reported) then
              result <| kr_message := "verification was refused: " +:+ Status_to_string reported |>
            else result in
          (Continue, cx <| cx_active := false |>,
           mkSink client (sink_directory sk) result (Datatypes.S (sink_ticks sk)))
  end.

Definition sink_message (message : Message) (cx : Connection) (sk : Sink) : SinkStep * Connection * Sink :=
  match msg_type message with
  | MessageType.ShardBegin => handle_begin (msg_payload message) cx sk
  | MessageType.ShardData => handle_data (msg_payload message) cx sk
  | MessageType.ShardEnd => handle_end (msg_payload message) cx sk
  | _ => (Break, cx, sk)
  end.

(** Whichever way the loop ends, the file is closed: by the call after it, or by
    the stream's destructor. *)
Definition end_connection (step : SinkStep) (cx : Connection) (sk : Sink) : SinkStep * Sink :=
  (step, sk <| sink_directory := (file_close disk (cx_file cx) (sink_directory sk)).2 |>).

(** The loop over the messages of a connection.  [None]: out of fuel. *)
Fixpoint connection_loop (fuel : nat) (cx : Connection) (sk : Sink) : option (SinkStep * Sink) :=
  match fuel with
  | O => None
  | Datatypes.S fuel' =>
      let '(message, channel) := receive (cx_channel cx) in
      let cx := cx <| cx_channel := channel |> in
      match message with
      | Err _ => Some (end_connection Break cx sk)
      | Val message =>
          match sink_message message cx sk with
          | (Continue, cx, sk) => connection_loop fuel' cx sk
          | (step, cx, sk) => Some (end_connection step cx sk)
          end
      end
  end.

(** One iteration of the accept loop: the stop token, the accept, and the token
    again when the accept failed. *)
Record Accept := mkAccept { ac_stop : bool; ac_socket : Result K; ac_stop_after : bool }.

(** After the loop of [run]. *)
Definition finish_sink (r : SinkResult) : SinkResult :=
  if kr_exit_code r =? 0 then
    r <| kr_message := "sink completed " +:+ nat_to_string (kr_shards_received r) +:+ " shard(s)" |>
  else r.

Fixpoint accept_loop (fuel : nat) (accepts : list Accept) (sk : Sink) : option (Result SinkResult * Sink) :=
  match accepts with
  | [] => Some (Val (finish_sink (sink_result sk)), sk)
  | a :: accepts =>
      if ac_stop a then Some (Val (finish_sink (sink_result sk)), sk)
      else if negb (sk_expected_shards config =? 0) &&
              (sk_expected_shards config <=? kr_shards_received (sink_result sk)) then
        Some (Val (finish_sink (sink_result sk)), sk)
      else match ac_socket a with
      | Err status =>
          if ac_stop_after a || bool_decide (st_code status = ErrorCode.ShuttingDown) then
            Some (Val (finish_sink (sink_result sk)), sk)
          else accept_loop fuel accepts sk
      | Val socket =>
          match connection_loop fuel (connection_start socket) sk with
          | None => None
          | Some (Fails status, sk) => Some (Err status, sk)
          | Some (Die, sk) => Some (Val (sink_result sk), sk)
          | Some (_, sk) => accept_loop fuel accepts sk
          end
      end
  end.
End sink.
Arguments Sink : clear implicits.
Arguments Connection : clear implicits.
Arguments Accept : clear implicits.

(** [CheckpointSink::run]; [made] is the outcome of creating the directory and
    [directory] what it holds. *)
Definition sink_run {S K} `{ByteStream S} `{ByteStream K} (config : SinkConfig)
    (can_open : string -> bool) (disk : nat -> Sync) (clock : nat -> Nanos)
    (made : option string) (directory : gmap string (list Z)) (connect_stop_at : nat -> bool) (dial : nat -> Result S)
    (fuel : nat) (accepts : list (Accept K)) : option (Result SinkResult) :=
  if String.eqb (sk_directory config) "" then
    Some (Err (Status_error ErrorCode.InvalidArgument "sink requires a destination directory"))
  else match made with
  | Some error =>
      Some (Err (Status_error ErrorCode.IoFailure ("cannot create sink directory: " +:+ error)))
  | None =>
      match connect_client connect_stop_at dial (sk_coordinator_host config) (sk_coordinator_port config)
              ClientKind.Sink (sk_identity config) (sk_limits config) 200 with
      | Err status => Some (Err status)
      | Val client =>
          option_map fst (accept_loop config can_open disk clock fuel accepts
            (mkSink client (mkDirectory directory 0) SinkResult_default 0))
      end
  end.
