(* ===== verification/Report.v ===== *)
(** * Report: human and machine rendering

    Models [include/ctf/report.hpp] and [src/report.cpp].  The machine form of
    each report is JSON: the fields of a report, in the order the source writes
    them, are a [Json] tree, and [json_print] is the text the source streams for
    such a tree (no spaces, strings through [json_escape]). *)

From stdpp Require Import base gmap list strings.
From Stdlib Require Import Ascii.
From S2P Require Import Prelude Status Ids Bytes Hash Enums Model.
From S2P Require Import EngineState EngineAuthority EngineAdmission EngineLifecycle EngineInspect.
From S2P Require Import Wire Protocol Service.

#[local] Open Scope string_scope.
#[local] Open Scope Z_scope.

Definition dquote : ascii := "034"%char.
Definition backslash : ascii := "092"%char.
Definition line_feed : string := String "010" "".

(** ** JSON text *)

Definition hex_byte (value : Z) : list ascii := [kDigits (Z.shiftr value 4); kDigits (Z.land value 15)].

Definition escape_char (c : ascii) : list ascii :=
  if bool_decide (c = dquote) then [backslash; dquote]
  else if bool_decide (c = backslash) then [backslash; backslash]
  else if bool_decide (c = "010"%char) then [backslash; "n"%char]
  else if bool_decide (c = "013"%char) then [backslash; "r"%char]
  else if bool_decide (c = "009"%char) then [backslash; "t"%char]
  else if char_code c <? 0x20 then
    [backslash; "u"%char; "0"%char; "0"%char] ++ hex_byte (char_code c)
  else [c].
Fixpoint json_escape (text : list ascii) : list ascii :=
  match text with
  | [] => []
  | c :: rest => escape_char c ++ json_escape rest
  end.
Definition quoted (text : string) : list ascii := [dquote] ++ json_escape (chars text) ++ [dquote].

Inductive Json :=
| JString (text : string)
| JNumber (n : Z)
| JBool (b : bool)
| JArray (items : list Json)
| JObject (fields : list (string * Json)).

(** Items separated by commas. *)
Fixpoint commas (items : list (list ascii)) : list ascii :=
  match items with
  | [] => []
  | [item] => item
  | item :: rest => item ++ [","%char] ++ commas rest
  end.

Fixpoint json_print (j : Json) : list ascii :=
  match j with
  | JString text => quoted text
  | JNumber n => chars (int_to_string n)
  | JBool b => chars (if b then "true" else "false")
  | JArray items => ["["%char] ++ commas (map json_print items) ++ ["]"%char]
  | JObject fields =>
      ["{"%char] ++
      commas (map (fun f => (quoted (fst f) ++ [":"%char] ++ json_print (snd f))%list) fields) ++ ["}"%char]
  end.

(** ** The reports *)

Definition uuid_text {T} (id : StrongId T) : string := Uuid128_to_string (id_value id).
Definition json_id {T} (id : StrongId T) : Json := JString (uuid_text id).
Definition json_gen {T} (g : Generation T) : Json := JNumber (gen_value g).
Definition epoch_string (e : CoordinatorEpoch) : string := text_of (epoch_text e).
Definition optional_field {A} (name : string) (o : option A) (f : A -> Json) : list (string * Json) :=
  match o with Some a => [(name, f a)] | None => [] end.

Definition decision_json (d : AdmissionDecision) : Json :=
  JObject ([("decision", JString (DecisionKind.to_string (ad_kind d)));
            ("reason", JString (ReasonCode.to_string (ad_reason d)));
            ("detail", JString (ad_detail d));
            ("session", json_id (ad_session d));
            ("epoch", JString (epoch_string (ad_epoch d)));
            ("decided_at_ns", JNumber (ad_decided_at d))] ++
    optional_field "envelope" (ad_envelope d) (fun e => JObject
      [("isolation", JString (IsolationClass.to_string (te_isolation e)));
       ("rate_bps", JNumber (te_rate_bps e)); ("burst_bytes", JNumber (te_burst_bytes e));
       ("wave_width", JNumber (te_wave_width e));
       ("waves", JNumber (Z.of_nat (length (te_waves e))));
       ("deadline_target_ns", JNumber (te_deadline_target e))]) ++
    optional_field "retry_after_ns" (ad_retry_after d) JNumber ++
    [("superseded", JArray (map json_id (ad_superseded d)))]).

Definition wave_json (o : WaveOutcome) : Json :=
  JObject ([("granted", JBool (wo_granted o));
            ("reason", JString (ReasonCode.to_string (wo_reason o)));
            ("detail", JString (wo_detail o))] ++
    optional_field "grant" (wo_grant o) (fun g => JObject
      [("shard", JNumber (sc_value (wg_shard g))); ("bytes", JNumber (wg_max_bytes g));
       ("attempt", json_id (wg_attempt g)); ("sequence", json_gen (wg_sequence g));
       ("rate_bps", JNumber (wg_rate_bps g)); ("expires_at_ns", JNumber (wg_expires_at g))]) ++
    optional_field "retry_after_ns" (wo_retry_after o) JNumber).

Definition shard_progress_json (s : ShardProgress) : Json :=
  JObject [("index", JNumber (sc_value (spr_index s)));
           ("state", JString (ShardState.to_string (spr_state s)));
           ("declared_bytes", JNumber (spr_declared_bytes s));
           ("transferred_bytes", JNumber (spr_transferred_bytes s));
           ("verified_bytes", JNumber (spr_verified_bytes s))].

Definition view_json (v : SessionView) : Json :=
  JObject ([("session", json_id (sv_session v)); ("checkpoint", json_id (sv_checkpoint v));
            ("checkpoint_generation", json_gen (sv_checkpoint_generation v));
            ("workload", json_id (sv_workload v));
            ("contract_generation", json_gen (sv_contract_generation v));
            ("state", JString (SessionState.to_string (sv_state v)));
            ("evidence", JString (EvidenceLevel.to_string (sv_evidence v)));
            ("isolation", JString (IsolationClass.to_string (sv_isolation v)));
            ("destination", JString (DestinationClass.to_string (sv_destination v)));
            ("declared_bytes", JNumber (sv_declared_bytes v));
            ("transferred_bytes", JNumber (sv_transferred_bytes v));
            ("verified_bytes", JNumber (sv_verified_bytes v));
            ("shards_total", JNumber (sv_shards_total v));
            ("shards_transferred", JNumber (sv_shards_transferred v));
            ("shards_verified", JNumber (sv_shards_verified v));
            ("shards_ambiguous", JNumber (sv_shards_ambiguous v));
            ("durability", JString (DurabilityStatus.to_string (sv_durability v)));
            ("durable_checkpoint_success", JBool (durable_checkpoint_success v));
            ("stale_reason", JString (sv_stale_reason v));
            ("created_at_ns", JNumber (sv_created_at v));
            ("updated_at_ns", JNumber (sv_updated_at v))] ++
    match sv_last_reason v with
    | Some reason => [("last_reason", JString (ReasonCode.to_string reason));
                      ("last_detail", JString (sv_last_detail v))]
    | None => []
    end ++
    optional_field "deadline_target_ns" (sv_deadline_target v) JNumber ++
    [("shards", JArray (map shard_progress_json (sv_shards v)))]).

Definition summary_json (s : SessionSummary) : Json :=
  JObject [("session", json_id (ss_session s)); ("checkpoint", json_id (ss_checkpoint s));
           ("checkpoint_generation", json_gen (ss_checkpoint_generation s));
           ("workload", json_id (ss_workload s));
           ("state", JString (SessionState.to_string (ss_state s)));
           ("evidence", JString (EvidenceLevel.to_string (ss_evidence s)));
           ("declared_bytes", JNumber (ss_declared_bytes s));
           ("transferred_bytes", JNumber (ss_transferred_bytes s));
           ("verified_bytes", JNumber (ss_verified_bytes s));
           ("updated_at_ns", JNumber (ss_updated_at s))].

Definition accounting_json (a : AccountingSnapshot) : Json :=
  JObject [("bytes_admitted", JNumber (acc_bytes_admitted a));
           ("bytes_transferred", JNumber (acc_bytes_transferred a));
           ("bytes_verified", JNumber (acc_bytes_verified a));
           ("bytes_cancelled", JNumber (acc_bytes_cancelled a));
           ("bytes_wasted", JNumber (acc_bytes_wasted a));
           ("bytes_unproven", JNumber (acc_bytes_unproven a));
           ("bytes_deferred", JNumber (acc_bytes_deferred a));
           ("granted_outstanding_bytes", JNumber (acc_granted_outstanding_bytes a));
           ("sessions_admitted", JNumber (acc_sessions_admitted a));
           ("sessions_deferred", JNumber (acc_sessions_deferred a));
           ("sessions_denied", JNumber (acc_sessions_denied a));
           ("sessions_completed", JNumber (acc_sessions_completed a));
           ("sessions_cancelled", JNumber (acc_sessions_cancelled a));
           ("sessions_superseded", JNumber (acc_sessions_superseded a));
           ("sessions_failed", JNumber (acc_sessions_failed a));
           ("active_sessions", JNumber (acc_active_sessions a));
           ("active_attempts", JNumber (acc_active_attempts a));
           ("commands_processed", JNumber (acc_commands_processed a));
           ("at_baseline", JBool (at_baseline a));
           ("conserves", JBool (conserves a))].

Definition explanation_json (x : Explanation) : Json :=
  JObject [("session", json_id (ex_session x)); ("summary", JString (ex_summary x));
           ("timeline", JArray (map JString (ex_timeline x)))].

Definition stats_json (s : ServiceStats) : Json :=
  JObject [("connections_accepted", JNumber (stat_connections_accepted s));
           ("connections_rejected", JNumber (stat_connections_rejected s));
           ("messages_processed", JNumber (stat_messages_processed s));
           ("protocol_errors", JNumber (stat_protocol_errors s));
           ("durable_writes", JNumber (stat_durable_writes s));
           ("durable_write_failures", JNumber (stat_durable_write_failures s))].

Definition hello_json (h : HelloResponse) : Json :=
  JObject [("server", JString (hrs_server_label h));
           ("epoch", JString (epoch_string (hrs_epoch h)));
           ("incarnation", json_gen (ep_incarnation (hrs_epoch h)));
           ("term", json_gen (ep_term (hrs_epoch h)));
           ("policy_generation", json_gen (hrs_policy_generation h));
           ("topology_generation", json_gen (hrs_topology_generation h));
           ("contracts", JArray (map (fun c => JObject
              [("workload", json_id (fst c)); ("generation", json_gen (snd c))]) (hrs_contracts h)))].

(** ** Text *)

Definition kUnits : list string := ["B"; "KiB"; "MiB"; "GiB"; "TiB"].
(** The loop of [human_bytes]: at most four divisions. *)
Fixpoint human_loop (steps : nat) (scaled remainder : Z) (unit_ : nat) : Z * Z * nat :=
  match steps with
  | O => (scaled, remainder, unit_)
  | S steps' =>
      if 1024 <=? scaled then human_loop steps' (scaled / 1024) (scaled mod 1024) (S unit_)
      else (scaled, remainder, unit_)
  end.
Definition human_bytes (bytes : Z) : string :=
  let '(scaled, remainder, unit_) := human_loop 4 bytes 0 0 in
  nat_to_string scaled +:+
  (if (0 <? unit_)%nat && negb (remainder =? 0) then "." +:+ nat_to_string (remainder * 10 / 1024) else "") +:+
  nth unit_ kUnits "".

Definition field (name value : string) : string := name +:+ "=" +:+ value.
Definition in_quotes (text : string) : string := String dquote (text +:+ String dquote "").
Definition text_bool (b : bool) : string := if b then "true" else "false".
(** [out << text] when the condition holds. *)
Definition when (b : bool) (text : string) : string := if b then text else "".
Definition from_some {A} (o : option A) (f : A -> string) : string :=
  match o with Some a => f a | None => "" end.

Definition decision_text (d : AdmissionDecision) : string :=
  field "decision" (DecisionKind.to_string (ad_kind d)) +:+ " " +:+
  field "reason" (ReasonCode.to_string (ad_reason d)) +:+
  when (negb (String.eqb (ad_detail d) "")) (" " +:+ field "detail" (in_quotes (ad_detail d))) +:+
  when (negb (Uuid128_is_nil (id_value (ad_session d)))) (" " +:+ field "session" (uuid_text (ad_session d))) +:+
  from_some (ad_envelope d) (fun e =>
    " " +:+ field "class" (IsolationClass.to_string (te_isolation e)) +:+
    " " +:+ field "rate" (human_bytes (te_rate_bps e)) +:+ "/s" +:+
    " " +:+ field "burst" (human_bytes (te_burst_bytes e)) +:+
    " " +:+ field "waves" (nat_to_string (Z.of_nat (length (te_waves e)))) +:+
    " " +:+ field "wave_width" (nat_to_string (te_wave_width e))) +:+
  from_some (ad_retry_after d) (fun t => " " +:+ field "retry_after_ns" (int_to_string t)) +:+
  when (negb (Nat.eqb (length (ad_superseded d)) 0))
    (" " +:+ field "superseded" (nat_to_string (Z.of_nat (length (ad_superseded d))))).

Definition wave_text (o : WaveOutcome) : string :=
  field "granted" (text_bool (wo_granted o)) +:+ " " +:+
  field "reason" (ReasonCode.to_string (wo_reason o)) +:+
  from_some (wo_grant o) (fun g =>
    " " +:+ field "shard" (sc_to_string (wg_shard g)) +:+
    " " +:+ field "bytes" (nat_to_string (wg_max_bytes g)) +:+
    " " +:+ field "attempt" (uuid_text (wg_attempt g)) +:+
    " " +:+ field "sequence" (gen_to_string (wg_sequence g))) +:+
  from_some (wo_retry_after o) (fun t => " " +:+ field "retry_after_ns" (int_to_string t)) +:+
  when (negb (String.eqb (wo_detail o) "")) (" " +:+ field "detail" (in_quotes (wo_detail o))).

Definition shard_progress_text (s : ShardProgress) : string :=
  "  shard " +:+ sc_to_string (spr_index s) +:+
  " " +:+ field "state" (ShardState.to_string (spr_state s)) +:+
  " " +:+ field "declared" (nat_to_string (spr_declared_bytes s)) +:+
  " " +:+ field "transferred" (nat_to_string (spr_transferred_bytes s)) +:+
  " " +:+ field "verified" (nat_to_string (spr_verified_bytes s)) +:+
  from_some (spr_attempt s) (fun a => " " +:+ field "attempt" (uuid_text a)) +:+ line_feed.

Definition view_text (v : SessionView) : string :=
  field "session" (uuid_text (sv_session v)) +:+ line_feed +:+
  field "checkpoint" (uuid_text (sv_checkpoint v)) +:+ " " +:+
  field "generation" (gen_to_string (sv_checkpoint_generation v)) +:+ line_feed +:+
  field "workload" (uuid_text (sv_workload v)) +:+ line_feed +:+
  field "state" (SessionState.to_string (sv_state v)) +:+ " " +:+
  field "evidence" (EvidenceLevel.to_string (sv_evidence v)) +:+ line_feed +:+
  field "isolation" (IsolationClass.to_string (sv_isolation v)) +:+ " " +:+
  field "destination" (DestinationClass.to_string (sv_destination v)) +:+ line_feed +:+
  field "declared" (human_bytes (sv_declared_bytes v)) +:+ " " +:+
  field "transferred" (human_bytes (sv_transferred_bytes v)) +:+ " " +:+
  field "verified" (human_bytes (sv_verified_bytes v)) +:+ line_feed +:+
  field "shards" (nat_to_string (sv_shards_total v)) +:+ " " +:+
  field "transferred" (nat_to_string (sv_shards_transferred v)) +:+ " " +:+
  field "verified" (nat_to_string (sv_shards_verified v)) +:+ " " +:+
  field "ambiguous" (nat_to_string (sv_shards_ambiguous v)) +:+ line_feed +:+
  field "durability" (DurabilityStatus.to_string (sv_durability v)) +:+
  " (network evidence is not storage durability)" +:+ line_feed +:+
  from_some (sv_last_reason v) (fun r =>
    field "last_reason" (ReasonCode.to_string r) +:+
    when (negb (String.eqb (sv_last_detail v) "")) (" " +:+ field "detail" (in_quotes (sv_last_detail v))) +:+
    line_feed) +:+
  when (negb (String.eqb (sv_stale_reason v) ""))
    (field "stale_reason" (in_quotes (sv_stale_reason v)) +:+ line_feed) +:+
  from_some (sv_superseded_by v) (fun s => field "superseded_by" (uuid_text s) +:+ line_feed) +:+
  from_some (sv_deadline_target v) (fun t => field "deadline_target_ns" (int_to_string t) +:+ line_feed) +:+
  foldr String.append "" (map shard_progress_text (sv_shards v)).

Definition summary_text (s : SessionSummary) : string :=
  uuid_text (ss_session s) +:+
  " " +:+ field "checkpoint" (uuid_text (ss_checkpoint s)) +:+
  " " +:+ field "generation" (gen_to_string (ss_checkpoint_generation s)) +:+
  " " +:+ field "state" (SessionState.to_string (ss_state s)) +:+
  " " +:+ field "evidence" (EvidenceLevel.to_string (ss_evidence s)) +:+
  " " +:+ field "transferred" (nat_to_string (ss_transferred_bytes s)) +:+
  "/" +:+ nat_to_string (ss_declared_bytes s) +:+
  " " +:+ field "verified" (nat_to_string (ss_verified_bytes s)).

Definition accounting_text (a : AccountingSnapshot) : string :=
  "bytes " +:+ field "admitted" (nat_to_string (acc_bytes_admitted a)) +:+
  " " +:+ field "transferred" (nat_to_string (acc_bytes_transferred a)) +:+
  " " +:+ field "verified" (nat_to_string (acc_bytes_verified a)) +:+
  " " +:+ field "cancelled" (nat_to_string (acc_bytes_cancelled a)) +:+
  " " +:+ field "wasted" (nat_to_string (acc_bytes_wasted a)) +:+
  " " +:+ field "unproven" (nat_to_string (acc_bytes_unproven a)) +:+
  " " +:+ field "deferred" (nat_to_string (acc_bytes_deferred a)) +:+
  " " +:+ field "outstanding" (nat_to_string (acc_granted_outstanding_bytes a)) +:+ line_feed +:+
  "sessions " +:+ field "admitted" (nat_to_string (acc_sessions_admitted a)) +:+
  " " +:+ field "deferred" (nat_to_string (acc_sessions_deferred a)) +:+
  " " +:+ field "denied" (nat_to_string (acc_sessions_denied a)) +:+
  " " +:+ field "completed" (nat_to_string (acc_sessions_completed a)) +:+
  " " +:+ field "cancelled" (nat_to_string (acc_sessions_cancelled a)) +:+
  " " +:+ field "superseded" (nat_to_string (acc_sessions_superseded a)) +:+
  " " +:+ field "failed" (nat_to_string (acc_sessions_failed a)) +:+ line_feed +:+
  field "active_sessions" (nat_to_string (acc_active_sessions a)) +:+
  " " +:+ field "active_attempts" (nat_to_string (acc_active_attempts a)) +:+
  " " +:+ field "commands_processed" (nat_to_string (acc_commands_processed a)) +:+ line_feed +:+
  field "at_baseline" (text_bool (at_baseline a)) +:+
  " " +:+ field "conserves" (text_bool (conserves a)).

Definition explanation_text (x : Explanation) : string :=
  field "session" (uuid_text (ex_session x)) +:+ line_feed +:+
  ex_summary x +:+ line_feed +:+
  foldr String.append "" (map (fun line => "  " +:+ line +:+ line_feed) (ex_timeline x)).

Definition stats_text (s : ServiceStats) : string :=
  field "connections_accepted" (nat_to_string (stat_connections_accepted s)) +:+
  " " +:+ field "connections_rejected" (nat_to_string (stat_connections_rejected s)) +:+
  " " +:+ field "messages_processed" (nat_to_string (stat_messages_processed s)) +:+
  " " +:+ field "protocol_errors" (nat_to_string (stat_protocol_errors s)) +:+
  " " +:+ field "durable_writes" (nat_to_string (stat_durable_writes s)) +:+
  " " +:+ field "durable_write_failures" (nat_to_string (stat_durable_write_failures s)).

Definition hello_text (h : HelloResponse) : string :=
  field "server" (hrs_server_label h) +:+
  " " +:+ field "epoch" (epoch_string (hrs_epoch h)) +:+
  " " +:+ field "policy_generation" (gen_to_string (hrs_policy_generation h)) +:+
  " " +:+ field "topology_generation" (gen_to_string (hrs_topology_generation h)) +:+
  " " +:+ field "contracts" (nat_to_string (Z.of_nat (length (hrs_contracts h)))).
