(* ===== verification/Cli.v ===== *)
(** * Cli: the command line and the operator's tool

    Models [apps/cli_common.hpp] and [apps/ctfctl/main.cpp].  A run of a tool is
    what it prints on either stream and its exit code; the tool also returns the
    client it used, so that what it did to the coordinator can be stated.  What
    [TcpSocket::connect] finds and what a file holds are arguments. *)

From stdpp Require Import base gmap list strings.
From Stdlib Require Import Ascii.
From S2P Require Import Prelude Status Ids Bytes Hash Enums Model Fence.
From S2P Require Import EngineState EngineAuthority EngineAdmission EngineLifecycle EngineInspect.
From S2P Require Import Wire Codec Protocol Service Config Client Report.

#[local] Open Scope string_scope.
#[local] Open Scope Z_scope.

(** ** [cli_common.hpp] *)

Definition kExitOk : Z := 0.
Definition kExitUsage : Z := 1.
Definition kExitRefused : Z := 2.
Definition kExitTransport : Z := 3.
Definition kExitInternal : Z := 4.

Module Arguments.
(** [tokens_]: the arguments after the program's name. *)
Definition t : Type := list string.
Definition of_argv (argv : list string) : t := tl argv.

Fixpoint flag (name : string) (tokens : t) : option string :=
  match tokens with
  | token :: ((value :: _) as rest) => if String.eqb token name then Some value else flag name rest
  | _ => None
  end.
Definition has (name : string) (tokens : t) : bool := existsb (fun token => String.eqb token name) tokens.
Definition is_flag (token : string) : bool := bool_decide (is_Some (has_prefix "--" token)).
Fixpoint command (tokens : t) : option string :=
  match tokens with
  | [] => None
  | token :: rest =>
      if is_flag token then
        match rest with
        | [] => None
        | _ :: rest => command rest   (* skip the flag value *)
        end
      else Some token
  end.
End Arguments.

Record Endpoint := mkEndpoint { ep_host : string; ep_port : Z }.

(** [text.rfind(c)], with the text before and after the last occurrence. *)
Definition cut_last (c : ascii) (text : list ascii) : option (list ascii * list ascii) :=
  match cut c (rev text) with
  | Some (after, before) => Some (rev before, rev after)
  | None => None
  end.

Definition parse_endpoint (text : string) : Result Endpoint :=
  match cut_last ":"%char (chars text) with
  | None | Some ([], _) | Some (_, []) =>
      Err (Status_error ErrorCode.InvalidSyntax "endpoint must be host:port")
  | Some (host, port) =>
      match scalar_parse UINT32_MAX port with
      | Some value =>
          if (value =? 0) || (65535 <? value) then
            Err (Status_error ErrorCode.InvalidSyntax "endpoint port must be 1..65535")
          else Val (mkEndpoint (text_of host) (u16 value))
      | None => Err (Status_error ErrorCode.InvalidSyntax "endpoint port must be 1..65535")
      end
  end.

Definition parse_u64_flag (args : Arguments.t) (name : string) : Result Z :=
  match Arguments.flag name args with
  | None => Err (Status_error ErrorCode.MissingField (name +:+ " is required"))
  | Some raw =>
      match scalar_parse UINT64_MAX (chars raw) with
      | Some v => Val v
      | None => Err (Status_error ErrorCode.InvalidSyntax (name +:+ " must be an unsigned decimal number"))
      end
  end.
Definition parse_u32_flag (args : Arguments.t) (name : string) : Result Z :=
  match Arguments.flag name args with
  | None => Err (Status_error ErrorCode.MissingField (name +:+ " is required"))
  | Some raw =>
      match scalar_parse UINT32_MAX (chars raw) with
      | Some v => Val v
      | None =>
          Err (Status_error ErrorCode.InvalidSyntax (name +:+ " must be an unsigned 32-bit decimal number"))
      end
  end.
Definition require_endpoint (args : Arguments.t) : Result Endpoint :=
  match Arguments.flag "--endpoint" args with
  | None => Err (Status_error ErrorCode.MissingField "--endpoint host:port is required")
  | Some raw => parse_endpoint raw
  end.
Definition require_session (args : Arguments.t) : Result SessionId :=
  match Arguments.flag "--session" args with
  | None => Err (Status_error ErrorCode.MissingField "--session <uuid> is required")
  | Some raw =>
      match id_parse (T := SessionIdTag) raw with
      | None => Err (Status_error ErrorCode.InvalidSyntax "--session must be a canonical uuid")
      | Some session => Val session
      end
  end.

(** What a run prints and returns. *)
Record Outcome := mkOutcome { oc_out : string; oc_err : string; oc_code : Z }.
Definition line (text : string) : string := text +:+ line_feed.
Definition prints (text : string) : Outcome := mkOutcome text "" kExitOk.
Definition fails (code : Z) (text : string) : Outcome := mkOutcome "" (line text) code.

Definition report_refusal (status : Status) : Outcome :=
  fails kExitRefused ("refused: " +:+ ErrorCode.to_string (st_code status) +:+
    (if String.eqb (st_detail status) "" then "" else ": " +:+ st_detail status)).
Definition client_config (endpoint : Endpoint) (kind : ClientKind) (identity : string) : ClientConfig :=
  mkClientConfig (ep_host endpoint) (ep_port endpoint) kind identity Limits_default.
Definition join_endpoint (host : string) (port : Z) : string := host +:+ ":" +:+ nat_to_string port.

(** A flag with a default. *)
Definition flag_or (name : string) (initial : string) (args : Arguments.t) : string :=
  default initial (Arguments.flag name args).

(** ** [ctfctl] *)

Module Ctfctl.
Definition usage : string :=
  line "usage: ctfctl <command> --endpoint <host:port> [options]" +:+ line "" +:+
  line "commands:" +:+
  line "  ping                 handshake and report coordinator authority" +:+
  line "  status               session view (--session <uuid>)" +:+
  line "  list                 list sessions [--workload <uuid>] [--limit <n>]" +:+
  line "  accounting           byte and session accounting" +:+
  line "  explain              admission timeline for a session (--session <uuid>)" +:+
  line "  invariants           ask the coordinator to check its own invariants" +:+
  line "  cancel               cancel a session (--session <uuid> [--detail <text>])" +:+
  line "  pause                pause a session (--session <uuid> [--detail <text>])" +:+
  line "  resume               resume a session (--session <uuid>)" +:+
  line "  shutdown             ask the coordinator to stop accepting work" +:+ line "" +:+
  line "common options:" +:+
  line "  --json               machine-readable output" +:+
  line "  --identity <text>    client identity (default ctfctl)" +:+
  line "  --config <file>      print the normalized configuration and exit" +:+ line "" +:+
  line "exit codes: 0 ok, 1 usage, 2 refused, 3 transport failure".

Definition json_text (j : Json) : string := text_of (json_print j).

Section run.
Context {S : Type} `{ByteStream S}.
Notation Client := (CoordinatorClient.t S).

(** The result of a query, rendered or refused. *)
Definition show_result {A} (json : bool) (to_json : A -> Json) (to_text : A -> string) (r : Result A) : Outcome :=
  match r with
  | Err status => report_refusal status
  | Val a => prints (line (if json then json_text (to_json a) else to_text a))
  end.
(** The result of a command. *)
Definition show_status (text : string) (status : Status) : Outcome :=
  if negb (Status_ok status) then report_refusal status else prints (line text).

(** The arguments of [list]: the workload and the limit, or a usage error. *)
Definition list_arguments (args : Arguments.t) : Outcome + (option WorkloadId * Z) :=
  let workload :=
    match Arguments.flag "--workload" args with
    | None => inr None
    | Some value =>
        match id_parse (T := WorkloadIdTag) value with
        | None => inl (fails kExitUsage "--workload must be a canonical uuid")
        | Some parsed => inr (Some parsed)
        end
    end in
  match workload with
  | inl usage => inl usage
  | inr workload =>
      match Arguments.flag "--limit" args with
      | None => inr (workload, 64)
      | Some _ =>
          match parse_u32_flag args "--limit" with
          | Err status => inl (fails kExitUsage (Status_to_string status))
          | Val limit => inr (workload, limit)
          end
      end
  end.
Definition show_sessions (json : bool) (r : Result (list SessionSummary)) : Outcome :=
  match r with
  | Err status => report_refusal status
  | Val sessions =>
      if json then prints (line (json_text (JArray (map summary_json sessions))))
      else prints (foldr String.append "" (map (fun s => line (summary_text s)) sessions) +:+
                   line ("sessions=" +:+ nat_to_string (Z.of_nat (length sessions))))
  end.

(** The commands that change a session: they first ask which workload owns it. *)
Definition mutate (command detail : string) (session : SessionId) (c : Client) : Outcome * Client :=
  let '(view, c) := CoordinatorClient.view_session session c in
  match view with
  | Err status => (report_refusal status, c)
  | Val view =>
      let fence := CoordinatorClient.current_fence (sv_workload view)
                     (Some (sv_checkpoint_generation view)) None c in
      let finish (r : Status * Client) : Outcome * Client :=
        (show_status (command +:+ " accepted for " +:+ uuid_text session) (fst r), snd r) in
      if String.eqb command "cancel" then
        finish (CoordinatorClient.cancel_session session fence ReasonCode.CancelledByOperator detail c)
      else if String.eqb command "pause" then
        finish (CoordinatorClient.pause_session session fence detail c)
      else if String.eqb command "resume" then
        finish (CoordinatorClient.resume_session session fence c)
      else (fails kExitUsage ("unknown command: " +:+ command), c)
  end.

(** The commands of a connected tool. *)
Definition connected_command (command : string) (args : Arguments.t) (c : Client) : Outcome * Client :=
  let json := Arguments.has "--json" args in
  if String.eqb command "ping" then
    (show_result json hello_json hello_text (Val (CoordinatorClient.hello_ c)), c)
  else if String.eqb command "accounting" then
    let '(r, c) := CoordinatorClient.accounting c in (show_result json accounting_json accounting_text r, c)
  else if String.eqb command "invariants" then
    let '(status, c) := CoordinatorClient.check_invariants c in (show_status "invariants hold" status, c)
  else if String.eqb command "list" then
    match list_arguments args with
    | inl usage => (usage, c)
    | inr (workload, limit) =>
        let '(r, c) := CoordinatorClient.list_sessions workload limit c in (show_sessions json r, c)
    end
  else if String.eqb command "shutdown" then
    let '(status, c) := CoordinatorClient.request_shutdown c in (show_status "shutdown accepted" status, c)
  else match require_session args with
  | Err status => (fails kExitUsage (Status_to_string status), c)
  | Val session =>
      if String.eqb command "status" then
        let '(r, c) := CoordinatorClient.view_session session c in (show_result json view_json view_text r, c)
      else if String.eqb command "explain" then
        let '(r, c) := CoordinatorClient.explain session c in
        (show_result json explanation_json explanation_text r, c)
      else mutate command (flag_or "--detail" "ctfctl" args) session c
  end.

Definition print_configuration (read : string -> option string) (args : Arguments.t) : Outcome :=
  match Arguments.flag "--config" args with
  | None => fails kExitUsage "--config <file> is required"
  | Some path =>
      match load_config_file read path with
      | Err status => fails kExitUsage ("configuration refused: " +:+ Status_to_string status)
      | Val loaded => prints (describe_config (fc_coordinator loaded))
      end
  end.

(** [dial] is what connecting to an endpoint finds. *)
Definition run_command (read : string -> option string) (dial : Endpoint -> Result S) (command : string)
    (args : Arguments.t) : Outcome * option Client :=
  if String.eqb command "config" then (print_configuration read args, None)
  else match require_endpoint args with
  | Err status => (fails kExitUsage (Status_to_string status), None)
  | Val endpoint =>
      match CoordinatorClient.connect
              (client_config endpoint ClientKind.Operator (flag_or "--identity" "ctfctl" args)) (dial endpoint) with
      | Err status => (fails kExitTransport ("coordinator unreachable: " +:+ Status_to_string status), None)
      | Val c => let '(outcome, c) := connected_command command args c in (outcome, Some c)
      end
  end.

Definition main (read : string -> option string) (dial : Endpoint -> Result S) (argv : list string)
  : Outcome * option Client :=
  let args := Arguments.of_argv argv in
  if bool_decide (args = []) then (mkOutcome usage "" kExitUsage, None)
  else if Arguments.has "--help" args then (prints usage, None)
  else match Arguments.command args with
  | None => (mkOutcome usage "" kExitUsage, None)
  | Some command => run_command read dial command args
  end.
End run.
End Ctfctl.
