(* ===== verification/Programs.v ===== *)
(** * Programs: the agent's and the coordinator's command lines

    Models [apps/ctf-agent/main.cpp] and the configuration part of
    [apps/ctf-coordinator/main.cpp]: how the flags become a configuration, which
    are refused before anything is started, and what is printed of a result.
    [main] of the agent takes the runs of the sink and of the sender as arguments:
    they are [sink_run] and [sender_run] in a given environment. *)

From stdpp Require Import base gmap list strings.
From Stdlib Require Import Ascii.
From S2P Require Import Prelude Status Ids Bytes Hash Enums Model Service Config Client Sender Sink.
From S2P Require Import Report Cli.

#[local] Open Scope string_scope.
#[local] Open Scope Z_scope.

#[global] Instance eta_SenderConfig : Eta SenderConfig :=
  fun r => mkSenderConfig (sn_coordinator_host r) (sn_coordinator_port r) (sn_sink_host r) (sn_sink_port r)
    (sn_workload r) (sn_checkpoint r) (sn_checkpoint_generation r) (sn_isolation r) (sn_destination r)
    (sn_shard_count r) (sn_shard_bytes r) (sn_requested_rate_bps r) (sn_deadline_horizon_ns r)
    (sn_die_after_bytes r) (sn_truncate_first_shard r) (sn_identity r) (sn_limits r) (sn_content_seed r)
    (sn_max_credit_wait_iterations r).
#[global] Instance eta_SinkConfig : Eta SinkConfig :=
  fun r => mkSinkConfig (sk_bind_host r) (sk_port r) (sk_directory r) (sk_coordinator_host r)
    (sk_coordinator_port r) (sk_expected_shards r) (sk_die_after_bytes r) (sk_verify r) (sk_identity r) (sk_limits r).

Definition SenderConfig_default : SenderConfig :=
  mkSenderConfig "127.0.0.1" 0 "127.0.0.1" 0 id_nil id_nil (mkGen 1) IsolationClass.TrainingBulk
    DestinationClass.LocalAttachedStore 2 (256 * 1024) 0 0 0 false "ctf-sender" Limits_default 0x5EED1234 20000.
Definition SinkConfig_default : SinkConfig :=
  mkSinkConfig "127.0.0.1" 0 "" "127.0.0.1" 0 0 0 true "ctf-sink" Limits_default.

(** A configuration, or the usage error that ends the run. *)
Definition Configured (A : Type) : Type := Outcome + A.
Definition usage_error {A} (text : string) : Configured A := inl (fails kExitUsage text).
Definition and_then {A B} (r : Configured A) (k : A -> Configured B) : Configured B :=
  match r with inl usage => inl usage | inr a => k a end.
Notation "'let?' x ':=' r 'in' k" := (and_then r (fun x => k)) (at level 200, x pattern, r at level 100, k at level 200).

(** A flag that changes the configuration when it is present. *)
Definition when_flag {A} (args : Arguments.t) (name : string) (f : string -> A -> Configured A) (a : A) : Configured A :=
  match Arguments.flag name args with None => inr a | Some value => f value a end.
Definition number_flag {A} (args : Arguments.t) (name : string) (parse : Arguments.t -> string -> Result Z)
    (f : Z -> A -> A) (a : A) : Configured A :=
  when_flag args name (fun _ a =>
    match parse args name with
    | Err status => usage_error (Status_to_string status)
    | Val v => inr (f v a)
    end) a.
(** A numeric flag whose every failure has the same message. *)
Definition checked_flag {A} (args : Arguments.t) (name : string) (parse : Arguments.t -> string -> Result Z)
    (ok : Z -> bool) (text : string) (f : Z -> A -> A) (a : A) : Configured A :=
  when_flag args name (fun _ a =>
    match parse args name with
    | Err _ => usage_error text
    | Val v => if ok v then inr (f v a) else usage_error text
    end) a.

(** ** [ctf-agent sink] *)

Definition sink_config (args : Arguments.t) : Configured SinkConfig :=
  match Arguments.flag "--coordinator" args, Arguments.flag "--directory" args with
  | Some coordinator, Some directory =>
      match parse_endpoint coordinator with
      | Err status => usage_error (Status_to_string status)
      | Val endpoint =>
          let config := SinkConfig_default <| sk_coordinator_host := ep_host endpoint |>
            <| sk_coordinator_port := ep_port endpoint |> <| sk_directory := directory |> in
          let? config := when_flag args "--bind" (fun bind c => inr (c <| sk_bind_host := bind |>)) config in
          let? config := checked_flag args "--port" parse_u32_flag (fun p => p <=? 65535)
            "--port must be 0..65535" (fun p c => c <| sk_port := u16 p |>) config in
          let? config := number_flag args "--expect-shards" parse_u32_flag
            (fun n c => c <| sk_expected_shards := n |>) config in
          let? config := number_flag args "--die-after-bytes" parse_u64_flag
            (fun n c => c <| sk_die_after_bytes := n |>) config in
          let config := config <| sk_verify := negb (Arguments.has "--no-verify" args) |> in
          when_flag args "--identity" (fun identity c => inr (c <| sk_identity := identity |>)) config
      end
  | _, _ => usage_error "sink requires --coordinator and --directory"
  end.

Definition sink_result_json (r : SinkResult) : Json :=
  JObject [("role", JString "sink"); ("shards_received", JNumber (kr_shards_received r));
           ("shards_verified", JNumber (kr_shards_verified r));
           ("shards_truncated", JNumber (kr_shards_truncated r));
           ("shards_mismatched", JNumber (kr_shards_mismatched r));
           ("bytes_received", JNumber (kr_bytes_received r));
           ("exit_code", JNumber (kr_exit_code r)); ("message", JString (kr_message r))].

(** ** [ctf-agent sender] *)

Definition sender_identities (args : Arguments.t) (config : SenderConfig) : Configured SenderConfig :=
  let workload := match Arguments.flag "--workload" args with
                  | Some text => id_parse (T := WorkloadIdTag) text | None => None end in
  let checkpoint := match Arguments.flag "--checkpoint" args with
                    | Some text => id_parse (T := CheckpointIdTag) text | None => None end in
  match workload, checkpoint with
  | Some workload, Some checkpoint =>
      inr (config <| sn_workload := workload |> <| sn_checkpoint := checkpoint |>)
  | _, _ => usage_error "--workload and --checkpoint must be canonical uuids"
  end.

Definition sender_config (args : Arguments.t) : Configured SenderConfig :=
  match Arguments.flag "--coordinator" args, Arguments.flag "--sink" args with
  | Some coordinator, Some sink =>
      match parse_endpoint coordinator, parse_endpoint sink with
      | Val coordinator, Val sink =>
          let config := SenderConfig_default <| sn_coordinator_host := ep_host coordinator |>
            <| sn_coordinator_port := ep_port coordinator |>
            <| sn_sink_host := ep_host sink |> <| sn_sink_port := ep_port sink |> in
          let? config := number_flag args "--generation" parse_u64_flag
            (fun n c => c <| sn_checkpoint_generation := mkGen n |>) config in
          let? config := sender_identities args config in
          let? config := checked_flag args "--shards" parse_u32_flag (fun n => negb (n =? 0))
            "--shards must be at least 1" (fun n c => c <| sn_shard_count := n |>) config in
          let? config := checked_flag args "--shard-bytes" parse_u64_flag (fun n => negb (n =? 0))
            "--shard-bytes must be at least 1" (fun n c => c <| sn_shard_bytes := n |>) config in
          let? config := when_flag args "--isolation" (fun text c =>
            match isolation_class_from_string text with
            | None => usage_error "--isolation names an unknown class"
            | Some isolation => inr (c <| sn_isolation := isolation |>)
            end) config in
          let? config := when_flag args "--destination" (fun text c =>
            match destination_class_from_string text with
            | None => usage_error "--destination names an unknown class"
            | Some destination => inr (c <| sn_destination := destination |>)
            end) config in
          let? config := number_flag args "--rate" parse_u64_flag
            (fun n c => c <| sn_requested_rate_bps := n |>) config in
          let? config := number_flag args "--deadline-ms" parse_u64_flag
            (fun n c => c <| sn_deadline_horizon_ns := s64 (s64 n * kNanosPerMillisecond) |>) config in
          let? config := number_flag args "--die-after-bytes" parse_u64_flag
            (fun n c => c <| sn_die_after_bytes := n |>) config in
          let config := config <| sn_truncate_first_shard := Arguments.has "--truncate-first-shard" args |> in
          when_flag args "--identity" (fun identity c => inr (c <| sn_identity := identity |>)) config
      | _, _ => usage_error "endpoints must be host:port"
      end
  | _, _ => usage_error "sender requires --coordinator and --sink"
  end.

Definition sender_result_json (r : SenderResult) : Json :=
  JObject [("role", JString "sender"); ("decision", JString (DecisionKind.to_string (sr_decision r)));
           ("reason", JString (ReasonCode.to_string (sr_reason r))); ("detail", JString (sr_detail r));
           ("session", json_id (sr_session r)); ("bytes_sent", JNumber (sr_bytes_sent r));
           ("shards_completed", JNumber (sr_shards_completed r));
           ("deferred_grants", JNumber (sr_deferred_grants r));
           ("exit_code", JNumber (sr_exit_code r)); ("message", JString (sr_message r))].
Definition sender_result_text (r : SenderResult) : string :=
  field "decision" (DecisionKind.to_string (sr_decision r)) +:+
  " " +:+ field "reason" (ReasonCode.to_string (sr_reason r)) +:+
  " " +:+ field "session" (uuid_text (sr_session r)) +:+
  " " +:+ field "bytes_sent" (nat_to_string (sr_bytes_sent r)) +:+
  " " +:+ field "shards_completed" (nat_to_string (sr_shards_completed r)) +:+
  " " +:+ field "deferred_grants" (nat_to_string (sr_deferred_grants r)) +:+
  " " +:+ field "message" (in_quotes (sr_message r)).

(** ** [ctf-agent] *)

Definition agent_usage : string :=
  line "usage: ctf-agent sink --coordinator <host:port> --directory <dir> [options]" +:+
  line "       ctf-agent sender --coordinator <host:port> --sink <host:port> --workload <uuid> --checkpoint <uuid> [options]" +:+
  line "" +:+
  line "sink options:" +:+
  line "  --bind <host>            interface to accept transfers on (default 127.0.0.1)" +:+
  line "  --port <n>               port to accept transfers on (0 selects an ephemeral port)" +:+
  line "  --directory <dir>        synthetic destination directory (required)" +:+
  line "  --expect-shards <n>      stop after n shards (0 = run until signalled)" +:+
  line "  --die-after-bytes <n>    exit abruptly after n bytes, before acknowledging" +:+
  line "  --no-verify              report an ambiguous outcome instead of verifying" +:+
  line "  --identity <text>        client identity bound to evidence" +:+ line "" +:+
  line "sender options:" +:+
  line "  --sink <host:port>       sink endpoint (required)" +:+
  line "  --workload <uuid>        workload identity (required)" +:+
  line "  --checkpoint <uuid>      checkpoint identity (required)" +:+
  line "  --generation <n>         checkpoint generation (default 1)" +:+
  line "  --shards <n>             shard count (default 2)" +:+
  line "  --shard-bytes <n>        bytes per shard (default 262144)" +:+
  line "  --isolation <class>      TrainingCritical|ServingLatency|TrainingBulk|BestEffort" +:+
  line "  --destination <class>    LocalAttachedStore|RemoteObjectStore|PeerNodeMemory|SyntheticLab" +:+
  line "  --rate <bytes/s>         requested rate (0 = policy derived)" +:+
  line "  --deadline-ms <n>        completion horizon in milliseconds" +:+
  line "  --die-after-bytes <n>    exit abruptly after n bytes (injected sender death)" +:+
  line "  --truncate-first-shard   send half of the first shard and end it truncated" +:+
  line "  --identity <text>        client identity bound to evidence" +:+
  line "  --json                   print a JSON result line" +:+ line "" +:+
  line "Exit codes: 0 ok, 2 denied, 3 deferred, 4 protocol failure, 5 stopped," +:+
  line "            6 no credit, 8 truncated, 9 died (injected fault).".

Section agent.
(** [start] binds the sink's listener and gives its port; an exception that
    escapes a run ends the process without a result, [None]. *)
Context (start : SinkConfig -> Result Z) (run_sink : SinkConfig -> option (Result SinkResult))
  (run_sender : SenderConfig -> option (Result SenderResult)).

Definition sink_main (args : Arguments.t) : option Outcome :=
  match sink_config args with
  | inl usage => Some usage
  | inr config =>
      match start config with
      | Err status => Some (fails kExitInternal ("sink refused to start: " +:+ Status_to_string status))
      | Val port =>
          let ready := line ("CTF-SINK-READY port=" +:+ nat_to_string port +:+ " synthetic_destination=true") in
          match run_sink config with
          | None => None
          | Some (Err status) =>
              Some (mkOutcome ready (line ("sink failed: " +:+ Status_to_string status)) kExitInternal)
          | Some (Val r) =>
              Some (mkOutcome (ready +:+ line (Ctfctl.json_text (sink_result_json r))) "" (kr_exit_code r))
          end
      end
  end.

Definition sender_main (args : Arguments.t) : option Outcome :=
  match sender_config args with
  | inl usage => Some usage
  | inr config =>
      match run_sender config with
      | None => None
      | Some (Err status) => Some (fails kExitInternal ("sender failed: " +:+ Status_to_string status))
      | Some (Val r) =>
          Some (mkOutcome (line (if Arguments.has "--json" args then Ctfctl.json_text (sender_result_json r)
                                 else sender_result_text r)) "" (sr_exit_code r))
      end
  end.

Definition agent_main (argv : list string) : option Outcome :=
  let args := Arguments.of_argv argv in
  if bool_decide (args = []) then Some (mkOutcome agent_usage "" kExitUsage)
  else if Arguments.has "--help" args then Some (prints agent_usage)
  else match Arguments.command args with
  | None => Some (prints agent_usage)
  | Some command =>
      if String.eqb command "sink" then sink_main args
      else if String.eqb command "sender" then sender_main args
      else Some (mkOutcome agent_usage (line ("unknown command: " +:+ command)) kExitUsage)
  end.
End agent.

(** ** [ctf-coordinator] *)

Definition coordinator_overrides (args : Arguments.t) (config : CoordinatorConfig) : Configured CoordinatorConfig :=
  let? config := when_flag args "--data-dir" (fun dir c =>
    inr (c <| cc_data_directory := dir |> <| cc_persist := true |>)) config in
  let? config := when_flag args "--bind" (fun bind c => inr (c <| cc_bind_host := bind |>)) config in
  let? config := checked_flag args "--port" parse_u32_flag (fun p => p <=? 65535)
    "--port must be 0..65535" (fun p c => c <| cc_port := u16 p |>) config in
  let? config := checked_flag args "--workers" parse_u32_flag (fun n => negb (n =? 0) && (n <=? 256))
    "--workers must be 1..256" (fun n c => c <| cc_worker_threads := n |>) config in
  when_flag args "--label" (fun label c => inr (c <| cc_label := label |>)) config.

Definition coordinator_config (read : string -> option string) (args : Arguments.t) : Configured CoordinatorConfig :=
  match Arguments.flag "--config" args with
  | None => usage_error "--config <file> is required"
  | Some path =>
      match load_config_file read path with
      | Err status => usage_error ("configuration refused: " +:+ Status_to_string status)
      | Val loaded => coordinator_overrides args (fc_coordinator loaded)
      end
  end.

Definition coordinator_usage : string :=
  line "usage: ctf-coordinator --config <file> [options]" +:+ line "" +:+
  line "  --config <file>     configuration file (required)" +:+
  line "  --data-dir <dir>    override data_directory for persisted state" +:+
  line "  --bind <host>       override bind host (default from config)" +:+
  line "  --port <n>          override bind port (0 selects an ephemeral port)" +:+
  line "  --workers <n>       override worker thread count" +:+
  line "  --label <text>      override the server label" +:+
  line "  --print-config      print the effective configuration and exit" +:+
  line "  --help              print this text" +:+ line "" +:+
  line "The process prints one CTF-READY line once it is accepting connections:" +:+
  line "  CTF-READY host=<host> port=<port> epoch=<incarnation>.<term> policy=<gen> topology=<gen>".

Definition ready_line (config : CoordinatorConfig) (port : Z) (epoch : CoordinatorEpoch) : string :=
  line ("CTF-READY host=" +:+ join_endpoint (cc_bind_host config) port +:+
        " port=" +:+ nat_to_string port +:+ " epoch=" +:+ epoch_string epoch +:+
        " incarnation=" +:+ gen_to_string (ep_incarnation epoch) +:+ " term=" +:+ gen_to_string (ep_term epoch)).

(** [start] gives the port and the epoch of a service that serves; [stop] is what
    shutting it down returns and the statistics it ends with. *)
Definition coordinator_main (read : string -> option string)
    (start : CoordinatorConfig -> Result (Z * CoordinatorEpoch)) (stop : CoordinatorConfig -> Status * ServiceStats)
    (argv : list string) : Outcome :=
  let args := Arguments.of_argv argv in
  if bool_decide (args = []) then mkOutcome coordinator_usage "" kExitUsage
  else if Arguments.has "--help" args then prints coordinator_usage
  else match coordinator_config read args with
  | inl usage => usage
  | inr config =>
      if Arguments.has "--print-config" args then prints (describe_config config)
      else match start config with
      | Err status => fails kExitInternal ("coordinator refused to start: " +:+ Status_to_string status)
      | Val (port, epoch) =>
          let '(stopped, stats) := stop config in
          let out := ready_line config port epoch +:+ line ("CTF-STOPPED " +:+ stats_text stats) in
          if negb (Status_ok stopped) then
            mkOutcome out (line ("shutdown reported: " +:+ Status_to_string stopped)) kExitInternal
          else mkOutcome out "" kExitOk
      end
  end.
