(* ===== verification/Net.v ===== *)
(** * Net: TCP sockets

    Models [include/ctf/net.hpp] and the POSIX branch of [src/net.cpp].  What the
    operating system answers to each call, and when a stop request becomes
    visible, is state the operations consume: each queue holds the answers still
    to come, and once a queue is empty every further call of its kind succeeds at
    once.  The queues are finite: an operating system that answers "try again"
    for ever is not a state of the model, and a statement that an operation
    returns is one about finitely many such answers.  How long a call blocks
    before it answers is not modelled.  The socket buffers hold the bytes the
    peer sent and the bytes handed to it.  Descriptors are numbers, and the set of open ones is explicit. *)

From stdpp Require Import base gmap list strings.
From S2P Require Import Prelude Status Ids Protocol.

#[local] Open Scope string_scope.
#[local] Open Scope Z_scope.

Inductive Errno := EWOULDBLOCK | EAGAIN | EINTR | EINPROGRESS | ECONNRESET | EPIPE | EOTHER (text : string).
#[global] Instance Errno_eq_dec : EqDecision Errno.
Proof. solve_decision. Defined.

(** What a call returns, and the [errno] it leaves. *)
Record Answer := mkAnswer { an_result : Z; an_errno : Errno }.

Record Os := mkOs {
  os_stop : option nat;        (* polls of the token before the request is seen *)
  os_selects : list Answer;
  os_recvs : list Answer;
  os_sends : list Answer;
  os_errno : Errno;
  os_in : list Z;
  os_out : list Z
}.
#[global] Instance eta_Os : Eta Os :=
  fun r => mkOs (os_stop r) (os_selects r) (os_recvs r) (os_sends r) (os_errno r) (os_in r) (os_out r).

(** [StopToken::stop_requested]: once seen, a request stays. *)
Definition stop_requested (os : Os) : bool * Os :=
  match os_stop os with
  | None => (false, os)
  | Some O => (true, os)
  | Some (S n) => (false, os <| os_stop := Some n |>)
  end.

(** [std::strerror], of which only the text of an unnamed error is used. *)
Definition strerror (e : Errno) : string :=
  match e with
  | EWOULDBLOCK | EAGAIN => "Resource temporarily unavailable"
  | EINTR => "Interrupted system call"
  | EINPROGRESS => "Operation now in progress"
  | ECONNRESET => "Connection reset by peer"
  | EPIPE => "Broken pipe"
  | EOTHER text => text
  end.
Definition last_socket_error_text (os : Os) : string := strerror (os_errno os).

(** ** Waiting *)

Module WaitOutcome.
Inductive WaitOutcome := Ready | TimedOut | Stopped | Failed.
End WaitOutcome.
Notation WaitOutcome := WaitOutcome.WaitOutcome.

(** Every slice polls the token before it calls [select]; a slice that elapses
    goes round again. *)
Fixpoint wait_loop (selects : list Answer) (os : Os) : WaitOutcome * Os :=
  let '(stopped, os) := stop_requested os in
  if stopped then (WaitOutcome.Stopped, os <| os_selects := selects |>)
  else match selects with
  | [] => (WaitOutcome.Ready, os <| os_selects := [] |>)
  | a :: rest =>
      if 0 <? an_result a then (WaitOutcome.Ready, os <| os_selects := rest |>)
      else if an_result a =? 0 then wait_loop rest os
      else (WaitOutcome.Failed, os <| os_selects := rest |> <| os_errno := an_errno a |>)
  end.
Definition wait_for (os : Os) : WaitOutcome * Os := wait_loop (os_selects os) os.

(** ** Sockets *)

Definition kInvalidHandle : Z := UINT64_MAX.

Record TcpSocket := mkSocket { handle_ : Z; sock_os : Os }.
Definition valid (s : TcpSocket) : bool := negb (handle_ s =? kInvalidHandle).
Definition with_os (s : TcpSocket) (os : Os) : TcpSocket := mkSocket (handle_ s) os.

(** The length argument of a call: a [size_t] cast to [int], which the call takes
    as a [size_t] again. *)
Definition s32 (x : Z) : Z := (x + 2 ^ 31) mod 2 ^ 32 - 2 ^ 31.
Definition call_length (size : nat) : Z := u64 (s32 (Z.of_nat size)).

(** [recv]: at most as many bytes as asked for, as the answer allows and as the
    buffer holds; none when the peer has closed. *)
Definition sys_recv (size : nat) (a : Answer) (os : Os) : Z * list Z * Os :=
  if 0 <? an_result a then
    let n := Z.to_nat (Z.min (an_result a) (Z.min (call_length size) (Z.of_nat (length (os_in os))))) in
    (Z.of_nat n, take n (os_in os), os <| os_in := drop n (os_in os) |>)
  else if an_result a =? 0 then (0, [], os)
  else (an_result a, [], os <| os_errno := an_errno a |>).
(** [send]: a prefix of the data. *)
Definition sys_send (data : list Z) (a : Answer) (os : Os) : Z * Os :=
  if 0 <? an_result a then
    let n := Z.to_nat (Z.min (an_result a) (Z.min (call_length (length data)) (Z.of_nat (length data)))) in
    (Z.of_nat n, os <| os_out := (os_out os ++ take n data)%list |>)
  else if an_result a =? 0 then (0, os)
  else (an_result a, os <| os_errno := an_errno a |>).
(** [send] is called without [MSG_NOSIGNAL], and no program of the repository
    changes what [SIGPIPE] does: a call that fails with [EPIPE] raises the signal,
    which ends the process, and does not return. *)
Definition sigpipe (a : Answer) : bool := (an_result a <? 0) && bool_decide (an_errno a = EPIPE).
(** How a write ends: it returns, or the process is killed in it. *)
Inductive WriteEnd := Returns (st : Status) | Killed.
(** The answer once a queue is exhausted: everything asked for. *)
Definition all_of_it : Answer := mkAnswer UINT64_MAX (EOTHER "").

Definition retry (e : Errno) : bool :=
  match e with EWOULDBLOCK | EAGAIN | EINTR => true | _ => false end.

Definition cancelled (what : string) : Status := Status_error ErrorCode.ShuttingDown (what +:+ " cancelled").
Definition io_failure (os : Os) : Status := Status_error ErrorCode.IoFailure (last_socket_error_text os).

Definition next_recv (os : Os) : Answer * Os := (hd all_of_it (os_recvs os), os <| os_recvs := tl (os_recvs os) |>).
Definition next_send (os : Os) : Answer * Os := (hd all_of_it (os_sends os), os <| os_sends := tl (os_sends os) |>).

(** The loop of [read_some].  [None]: out of fuel. *)
Fixpoint read_loop (fuel : nat) (size : nat) (os : Os) : option (Result (list Z) * Os) :=
  match fuel with
  | O => None
  | S fuel' =>
      let '(stopped, os) := stop_requested os in
      if stopped then Some (Err (cancelled "read"), os)
      else
        let '(outcome, os) := wait_for os in
        match outcome with
        | WaitOutcome.Stopped => Some (Err (cancelled "read"), os)
        | WaitOutcome.Failed => Some (Err (io_failure os), os)
        | WaitOutcome.Ready | WaitOutcome.TimedOut =>
            let '(a, os) := next_recv os in
            let '(received, data, os) := sys_recv size a os in
            if 0 <? received then Some (Val data, os)
            else if received =? 0 then Some (Val [], os)
            else if retry (os_errno os) then read_loop fuel' size os
            else if bool_decide (os_errno os = ECONNRESET) then Some (Val [], os)
            else Some (Err (io_failure os), os)
        end
  end.
(** Only an answer of the queue asks for another attempt. *)
Definition read_fuel (os : Os) : nat := S (length (os_recvs os)).
Definition read_some (size : nat) (s : TcpSocket) : option (Result (list Z) * TcpSocket) :=
  if negb (valid s) then Some (Err (Status_error ErrorCode.NotReady "socket is not open"), s)
  else if Nat.eqb size 0 then Some (Val [], s)
  else match read_loop (read_fuel (sock_os s)) size (sock_os s) with
  | Some (r, os) => Some (r, with_os s os)
  | None => None
  end.

(** The loop of [write_all]: [data] is what is still to be sent. *)
Fixpoint write_loop (fuel : nat) (data : list Z) (os : Os) : option (WriteEnd * Os) :=
  match data, fuel with
  | [], _ => Some (Returns Status_success, os)
  | _ :: _, O => None
  | _ :: _, S fuel' =>
      let '(stopped, os) := stop_requested os in
      if stopped then Some (Returns (cancelled "write"), os)
      else
        let '(outcome, os) := wait_for os in
        match outcome with
        | WaitOutcome.Stopped => Some (Returns (cancelled "write"), os)
        | WaitOutcome.Failed => Some (Returns (io_failure os), os)
        | WaitOutcome.Ready | WaitOutcome.TimedOut =>
            let '(a, os) := next_send os in
            if sigpipe a then Some (Killed, os)
            else
              let '(written, os) := sys_send data a os in
              if 0 <? written then write_loop fuel' (drop (Z.to_nat written) data) os
              else if retry (os_errno os) then write_loop fuel' data os
              else Some (Returns (io_failure os), os)
        end
  end.
(** An iteration consumes an answer, or sends all that one call can. *)
Definition write_fuel (data : list Z) (os : Os) : nat := S (length data + length (os_sends os)).
Definition write_all (data : list Z) (s : TcpSocket) : option (WriteEnd * TcpSocket) :=
  if negb (valid s) then Some (Returns (Status_error ErrorCode.NotReady "socket is not open"), s)
  else match write_loop (write_fuel data (sock_os s)) data (sock_os s) with
  | Some (r, os) => Some (r, with_os s os)
  | None => None
  end.

(** [getpeername] and [getnameinfo]; [None] when a call fails. *)
Definition peer_text (peer : option (option (string * string))) (s : TcpSocket) : string :=
  if negb (valid s) then "<closed>"
  else match peer with
  | None | Some None => "<unknown>"
  | Some (Some (host, service)) => host +:+ ":" +:+ service
  end.

(** ** Descriptors *)

(** [close_native] *)
Definition close_native (socket : Z) (open : gset Z) : gset Z := open ∖ {[ socket ]}.
(** [TcpSocket::close] and [TcpListener::close] on the handle alone. *)
Definition close (handle : Z) (open : gset Z) : Z * gset Z :=
  if negb (handle =? kInvalidHandle) then (kInvalidHandle, close_native handle open) else (handle, open).
(** Move assignment from another object: the target's and the source's handle. *)
Definition move_assign (target source : Z) (open : gset Z) : Z * Z * gset Z :=
  let '(_, open) := close target open in (source, kInvalidHandle, open).
(** [shutdown_both]; [rc] is what the call returns. *)
Definition shutdown_both (handle : Z) (rc : Z) (os : Os) : Status :=
  if handle =? kInvalidHandle then Status_success
  else if negb (rc =? 0) then io_failure os else Status_success.

(** ** Connecting *)

(** One address of the list [getaddrinfo] returns, with what the calls on it
    answer: the descriptor of [socket], the result of [connect], and the pending
    error [getsockopt] reads, if it succeeds. *)
Record Candidate := mkCandidate {
  ca_socket : Z + Errno;
  ca_connect : Answer;
  ca_so_error : option Z
}.

Definition pending (e : Errno) : bool :=
  match e with EINPROGRESS | EWOULDBLOCK => true | _ => false end.

(** The part of an iteration that decides whether the socket is connected. *)
Definition establish (c : Candidate) (last_error : Status) (os : Os) : bool * Status * Os :=
  let rc := an_result (ca_connect c) in
  if rc =? 0 then (true, last_error, os)
  else if negb (pending (an_errno (ca_connect c))) then (false, last_error, os)
  else
    let '(outcome, os) := wait_for os in
    match outcome with
    | WaitOutcome.Ready =>
        if bool_decide (ca_so_error c = Some 0) then (true, last_error, os)
        else (false, Status_error ErrorCode.ConnectionRefused "connection was refused", os)
    | WaitOutcome.Stopped => (false, cancelled "connect", os)
    | WaitOutcome.Failed | WaitOutcome.TimedOut =>
        (false, Status_error ErrorCode.IoFailure "connect wait failed", os)
    end.

Fixpoint try_candidates (candidates : list Candidate) (last_error : Status) (os : Os) (open : gset Z)
  : Result Z * Os * gset Z :=
  match candidates with
  | [] => (Err last_error, os, open)
  | c :: rest =>
      let '(stopped, os) := stop_requested os in
      if stopped then (Err (cancelled "connect"), os, open)
      else match ca_socket c with
      | inr e =>
          let os := os <| os_errno := e |> in try_candidates rest (io_failure os) os open
      | inl socket =>
          let open := {[ socket ]} ∪ open in
          let '(connected, last_error, os) := establish c last_error os in
          if negb connected then try_candidates rest last_error os (close_native socket open)
          else (Val socket, os, open)
      end
  end.

(** [lookup] is the list [getaddrinfo] gives, [None] when it fails. *)
Definition tcp_connect (host : string) (lookup : option (list Candidate)) (os : Os) (open : gset Z)
  : Result Z * Os * gset Z :=
  match lookup with
  | None | Some [] =>
      (Err (Status_error ErrorCode.ConnectionRefused ("address resolution failed for " +:+ host)), os, open)
  | Some candidates =>
      try_candidates candidates (Status_error ErrorCode.ConnectionRefused "no address could be reached")
        os open
  end.

(** ** Listening *)

Record Binding := mkBinding {
  bi_socket : Z + Errno;
  bi_bind : Answer;
  bi_listen : Answer;
  bi_port : option Z       (* the port [getsockname] reports *)
}.
Record TcpListener := mkListener { lst_handle : Z; lst_port : Z }.

Fixpoint try_bindings (bindings : list Binding) (port : Z) (last_error : Status) (open : gset Z)
  : Result TcpListener * gset Z :=
  match bindings with
  | [] => (Err last_error, open)
  | b :: rest =>
      match bi_socket b with
      | inr e => try_bindings rest port (Status_error ErrorCode.IoFailure (strerror e)) open
      | inl socket =>
          let open := {[ socket ]} ∪ open in
          if negb (an_result (bi_bind b) =? 0) then
            try_bindings rest port
              (Status_error ErrorCode.IoFailure ("bind failed: " +:+ strerror (an_errno (bi_bind b))))
              (close_native socket open)
          else if negb (an_result (bi_listen b) =? 0) then
            try_bindings rest port
              (Status_error ErrorCode.IoFailure ("listen failed: " +:+ strerror (an_errno (bi_listen b))))
              (close_native socket open)
          else (Val (mkListener socket (default port (bi_port b))), open)
      end
  end.
Definition tcp_bind (host : string) (port : Z) (lookup : option (list Binding)) (open : gset Z)
  : Result TcpListener * gset Z :=
  match lookup with
  | None | Some [] =>
      (Err (Status_error ErrorCode.IoFailure ("cannot resolve bind address " +:+ host)), open)
  | Some bindings =>
      try_bindings bindings port (Status_error ErrorCode.IoFailure "bind failed") open
  end.

(** [accepts] are the answers of [accept], a descriptor or an error.  [None]: the
    loop is still waiting when they run out. *)
Fixpoint accept_from (accepts : list (Z + Errno)) (os : Os) (open : gset Z)
  : option (Result Z * Os * gset Z) :=
  let '(outcome, os) := wait_for os in
  match outcome with
  | WaitOutcome.Stopped => Some (Err (cancelled "accept"), os, open)
  | WaitOutcome.Failed => Some (Err (io_failure os), os, open)
  | WaitOutcome.Ready | WaitOutcome.TimedOut =>
      match accepts with
      | [] => None
      | inl socket :: _ => Some (Val socket, os, {[ socket ]} ∪ open)
      | inr e :: rest =>
          let os := os <| os_errno := e |> in
          if retry e then accept_from rest os open else Some (Err (io_failure os), os, open)
      end
  end.
Definition tcp_accept (listener : TcpListener) (accepts : list (Z + Errno)) (os : Os) (open : gset Z)
  : option (Result Z * Os * gset Z) :=
  if lst_handle listener =? kInvalidHandle then
    Some (Err (Status_error ErrorCode.NotReady "listener is not open"), os, open)
  else accept_from accepts os open.

(** ** The stream a channel uses *)

(** Running out of fuel stands for a loop that never ends; neither it nor a
    process that is killed returns, and nothing is stated about the values in their
    place. *)
#[global] Instance TcpSocket_stream : ByteStream TcpSocket := {
  stream_write data s :=
    match write_all data s with
    | Some (Returns st, s) => (st, s)
    | Some (Killed, s) => (Status_error ErrorCode.Internal "", s)
    | None => (Status_error ErrorCode.Internal "", s)
    end;
  stream_read n s :=
    match read_some n s with Some r => r | None => (Err (Status_error ErrorCode.Internal ""), s) end
}.
