(* ===== verification/Scenario.v ===== *)
(** * Scenario: concrete engines, requests and runs

    A small configuration (one workload, one path class) and the request of a
    checkpoint, used to evaluate the model on concrete inputs.  Nothing here
    models code. *)

From stdpp Require Import base gmap list strings.
From S2P Require Import Prelude Status Ids Hash Enums Model Fence Shaper EngineState.
From S2P Require Import EngineAuthority EngineAdmission EngineLifecycle EngineEvidence.
From S2P Require Import EngineInspect.

Definition uuid_n (n : Z) : Uuid128 := mkUuid (replicate 15 0 ++ [n]).
Definition W1 : WorkloadId := mkId (uuid_n 1).
Definition K1 : CheckpointId := mkId (uuid_n 2).
Definition cmd (n : Z) : CommandId := mkId (uuid_n n).

Definition env_of (c : IsolationClass) : IsolationEnvelopeConfig :=
  mkEnvelopeConfig c 10000000 100000000 16.
Definition policy_n (generation retained : Z) : PolicySnapshot :=
  mkPolicy (mkGen generation) (map env_of IsolationClass.all) 16 (2 ^ 38) 4096 1024 retained true
    1000000000 300000000000 0 Limits_default.
Definition path1 : PathClass :=
  mkPathClass (mkScalar 1) DestinationClass.SyntheticLab 25000000 true "lab".
Definition topology1 : TopologySnapshot := mkTopology (mkGen 1) [path1].
Definition contract1 : WorkloadContract :=
  mkContract W1 (mkGen 1) IsolationClass.TrainingBulk 10000000 0 8 8 true 300000000000.
Definition config1 : EngineConfig :=
  mkConfig (policy_n 1 256) topology1 [contract1] (mkEpoch (mkGen 1) (mkGen 1)) Limits_default 7.

Definition shard_d (index bytes : Z) : ShardDescriptor :=
  mkShardDescriptor (mkScalar index) bytes Digest_default (mkScalar 0).
Definition manifest_of (generation total : Z) (shards : list ShardDescriptor) : CheckpointManifest :=
  let m := mkManifest K1 (mkGen generation) W1 (mkGen 1) total shards Digest_default 0 in
  m <| mf_manifest_digest := compute_manifest_digest m |>.
Definition request_of (command generation total : Z) (shards : list ShardDescriptor)
  : SessionRequest :=
  mkRequest (cmd command) W1 (mkGen 1) (mkGen 1) (mkGen 1) K1 (mkGen generation)
    IsolationClass.TrainingBulk DestinationClass.SyntheticLab 0 0
    (manifest_of generation total shards).

(** Two shards of 1000 and 3000 bytes. *)
Definition request1 : SessionRequest := request_of 10 1 4000 [shard_d 0 1000; shard_d 1 3000].

Definition engine1 : Engine := engine_init config1 0.
Definition fence_now (e : Engine) : CommandFence := current_fence e W1 None None.

Definition submit1 (r : SessionRequest) (at_ : Z) (e : Engine) : Engine :=
  (submit_session r (fence_now e) at_ e).2.
(** The id the engine draws next. *)
Definition next_session (e : Engine) : SessionId := mkId (IdFactory_next (id_factory_ e)).1.

Definition S1 : SessionId := next_session engine1.
Definition admitted1 : Engine := submit1 request1 1 engine1.

Definition wave (id : SessionId) (shard : Z) (at_ : Z) (e : Engine) : Engine :=
  (request_wave id (mkScalar shard) (fence_now e) at_ e).2.
Definition the_session (id : SessionId) (e : Engine) : option SessionRecord := sessions_ e !! id.
Definition shard_of (id : SessionId) (k : nat) (e : Engine) : option ShardRecord :=
  sessions_ e !! id ≫= fun s => ses_shards s !! k.
(** The attempt the shard currently names, with its sequence. *)
Definition attempt_of (id : SessionId) (k : nat) (e : Engine) : TransferAttemptId :=
  default id_nil (shard_of id k e ≫= shr_attempt).
Definition sequence_of (id : SessionId) (k : nat) (e : Engine) : AttemptSequence :=
  default (mkGen 0) (shr_sequence <$> shard_of id k e).
Definition transfer_ev (id : SessionId) (shard bytes : Z) (acked : bool) (e : Engine)
  : TransferEvidence :=
  mkTransferEvidence id (attempt_of id (Z.to_nat shard) e) (sequence_of id (Z.to_nat shard) e)
    (mkScalar shard) bytes Digest_default acked 0.
Definition verification_ev (id : SessionId) (shard bytes : Z) (o : VerificationOutcome) (e : Engine)
  : VerificationEvidence :=
  mkVerificationEvidence id (attempt_of id (Z.to_nat shard) e)
    (sequence_of id (Z.to_nat shard) e) (mkScalar shard) bytes Digest_default o "sink" 0.
Definition arrive (id : SessionId) (shard bytes : Z) (acked : bool) (at_ : Z) (e : Engine) : Engine :=
  (report_transfer (transfer_ev id shard bytes acked e) (fence_now e) at_ e).2.
Definition verify (id : SessionId) (shard bytes : Z) (o : VerificationOutcome) (at_ : Z) (e : Engine)
  : Engine :=
  (report_verification (verification_ev id shard bytes o e) (fence_now e) at_ e).2.
