(* ===== verification/IdsProps.v ===== *)
(** * IdsProps: every identity and number has exactly one spelling

    The text forms of [src/ids.cpp] are bijections between the values and the
    texts the parsers accept: a parser accepts the printed form of every value
    and nothing else, so texts can be compared in place of values (the keys of a
    configuration, the names of sessions in logs). *)

From stdpp Require Import base gmap list strings.
From Stdlib Require Import Ascii.
From S2P Require Import Prelude Ids.

(** ** Characters and nibbles *)

Lemma hex_digit_print v : 0 <= v < 16 -> hex_digit_value (kDigits v) = v.
Proof.
  intros H. unfold hex_digit_value, kDigits.
  destruct (v <? 10) eqn:E; rewrite char_code_of by lia;
    repeat case_match; lia.
Qed.

Lemma hex_digit_parse c : 0 <= hex_digit_value c ->
  hex_digit_value c < 16 /\ kDigits (hex_digit_value c) = c.
Proof.
  unfold hex_digit_value, kDigits. intros H. repeat case_match; try lia; split; try lia;
    (etransitivity; [|apply char_of_code]; f_equal; lia).
Qed.

Lemma nibbles_join hi lo : 0 <= hi < 16 -> 0 <= lo < 16 ->
  u8 (Z.lor (Z.shiftl hi 4) lo) = 16 * hi + lo.
Proof.
  intros Hh Hl. rewrite (Z.shiftl_mul_pow2 hi 4) by lia. unfold u8.
  assert (Z.land (hi * 2 ^ 4) lo = 0) as E.
  { apply Z.bits_inj'. intros n Hn. rewrite Z.land_spec, Z.bits_0.
    destruct (Z.lt_ge_cases n 4).
    - by rewrite Z.mul_pow2_bits_low.
    - rewrite (Z.bits_above_log2 lo n), andb_false_r; [done|lia|].
      destruct (decide (lo = 0)) as [->|]; [cbn; lia|].
      assert (Z.log2 lo < 4) by (apply Z.log2_lt_pow2; lia). lia. }
  pose proof (Z.add_lor_land (hi * 2 ^ 4) lo). rewrite Z.mod_small; lia.
Qed.

Lemma high_nibble b : byte_ok b -> 0 <= Z.shiftr b 4 < 16.
Proof. unfold byte_ok. intros H. rewrite Z.shiftr_div_pow2 by lia.
  split; [apply Z.div_pos|apply Z.div_lt_upper_bound]; lia. Qed.

Lemma low_nibble b : Z.land b 15 = b mod 16.
Proof. apply (Z.land_ones b 4). lia. Qed.

Lemma nibbles_split b : byte_ok b -> u8 (Z.lor (Z.shiftl (Z.shiftr b 4) 4) (Z.land b 15)) = b.
Proof.
  intros H. pose proof (high_nibble b H). rewrite low_nibble.
  pose proof (Z.mod_pos_bound b 16). rewrite nibbles_join by lia.
  rewrite Z.shiftr_div_pow2 by lia. pose proof (Z.div_mod b 16). change (2 ^ 4) with 16. lia.
Qed.

Lemma nibbles_of_join hi lo : 0 <= hi < 16 -> 0 <= lo < 16 ->
  let b := u8 (Z.lor (Z.shiftl hi 4) lo) in
  byte_ok b /\ Z.shiftr b 4 = hi /\ Z.land b 15 = lo.
Proof.
  intros Hh Hl. cbn zeta. rewrite nibbles_join, low_nibble, Z.shiftr_div_pow2 by lia.
  unfold byte_ok. change (2 ^ 4) with 16. split_and!; [lia..| |].
  - symmetry. apply (Z.div_unique _ _ _ lo); lia.
  - symmetry. apply (Z.mod_unique _ _ hi); lia.
Qed.

(** ** Identities *)

Definition dash (i : Z) : bool := (i =? 8) || (i =? 13) || (i =? 18) || (i =? 23).

(** Two digits of the text are one byte, in either direction. *)
Lemma parse_printed_byte b rest i bytes : byte_ok b -> dash i = false -> dash (i + 1) = false ->
  (length bytes < 16)%nat ->
  uuid_parse_loop (kDigits (Z.shiftr b 4) :: kDigits (Z.land b 15) :: rest) i bytes (-1) =
  uuid_parse_loop rest (i + 1 + 1) (bytes ++ [b]) (-1).
Proof.
  intros Hb D1 D2 Hl. cbn [uuid_parse_loop]. unfold dash in *. rewrite D1, D2.
  pose proof (high_nibble b Hb) as Hh. pose proof (Z.mod_pos_bound b 16) as Hm.
  rewrite !hex_digit_print by (rewrite ?low_nibble; lia).
  rewrite (proj2 (Z.ltb_ge (Z.shiftr b 4) 0)), (proj2 (Z.ltb_ge (Z.land b 15) 0))
    by (rewrite ?low_nibble; lia).
  change (-1 <? 0) with true. cbn iota.
  rewrite (proj2 (Z.leb_gt _ _)) by lia. by rewrite nibbles_split.
Qed.

Lemma parse_byte c1 c2 rest i bytes r : dash i = false -> dash (i + 1) = false ->
  uuid_parse_loop (c1 :: c2 :: rest) i bytes (-1) = Some r ->
  exists b, byte_ok b /\ c1 = kDigits (Z.shiftr b 4) /\ c2 = kDigits (Z.land b 15) /\
    uuid_parse_loop rest (i + 1 + 1) (bytes ++ [b]) (-1) = Some r.
Proof.
  intros D1 D2. cbn [uuid_parse_loop]. unfold dash in *. rewrite D1, D2.
  destruct (Z.ltb_spec (hex_digit_value c1) 0); [done|].
  change (-1 <? 0) with true. cbn iota.
  destruct (Z.ltb_spec (hex_digit_value c2) 0); [done|].
  destruct (Z.ltb_spec (hex_digit_value c1) 0); [lia|].
  destruct (16 <=? _); [done|]. intros E.
  destruct (hex_digit_parse c1) as [L1 E1]; [lia|]. destruct (hex_digit_parse c2) as [L2 E2]; [lia|].
  destruct (nibbles_of_join (hex_digit_value c1) (hex_digit_value c2)) as (B & S1 & S2); [lia..|].
  eexists. split_and!; [exact B| | |exact E]; by rewrite ?S1, ?S2.
Qed.

Lemma parse_dash c rest i bytes r : dash i = true ->
  uuid_parse_loop (c :: rest) i bytes (-1) = Some r ->
  c = "-"%char /\ uuid_parse_loop rest (i + 1) bytes (-1) = Some r.
Proof. intros D. cbn [uuid_parse_loop]. unfold dash in D. rewrite D. case_bool_decide; by subst. Qed.

Lemma parse_printed_dash rest i bytes : dash i = true ->
  uuid_parse_loop ("-"%char :: rest) i bytes (-1) = uuid_parse_loop rest (i + 1) bytes (-1).
Proof. intros D. cbn [uuid_parse_loop]. unfold dash in D. by rewrite D. Qed.

Lemma chars_text l : chars (text_of l) = l.
Proof. apply String.list_ascii_of_string_of_list_ascii. Qed.
Lemma text_chars s : text_of (chars s) = s.
Proof. apply String.string_of_list_ascii_of_string. Qed.
Lemma length_chars s : length (chars s) = String.length s.
Proof. induction s; cbn; congruence. Qed.

Lemma uuid_printed_parses u : uuid_wf u -> Uuid128_parse (Uuid128_to_string u) = Some u.
Proof.
  destruct u as [bytes]. unfold uuid_wf. cbn [uuid_bytes]. intros [Hl Hb].
  unfold Uuid128_parse, Uuid128_to_string. rewrite <- length_chars, chars_text. cbn [uuid_bytes].
  do 16 (destruct bytes as [|? bytes]; [discriminate Hl|]). destruct bytes; [|discriminate Hl].
  repeat match goal with H : Forall _ (_ :: _) |- _ => inversion_clear H end.
  cbv beta iota zeta delta [uuid_print_loop app Z.eqb orb Z.add Pos.eqb Pos.add Pos.succ
    length Nat.eqb kUuidTextLength negb].
  repeat first
    [ rewrite parse_printed_byte by (first [assumption|reflexivity|cbn; lia])
    | rewrite parse_printed_dash by reflexivity ].
  reflexivity.
Qed.

Lemma uuid_parsed_prints s u : Uuid128_parse s = Some u -> uuid_wf u /\ Uuid128_to_string u = s.
Proof.
  unfold Uuid128_parse. destruct (Nat.eqb _ _) eqn:L; [|done]. cbn [negb].
  apply Nat.eqb_eq in L. rewrite <- length_chars in L. intros H.
  rewrite <- (text_chars s). revert L H. generalize (chars s). clear s. intros t L H.
  case_match eqn:P; [|done]. case_match eqn:L'; [|done]. injection H as <-.
  unfold kUuidTextLength in L. do 36 (destruct t as [|? t]; [discriminate L|]).
  destruct t; [|discriminate L]. clear L.
  repeat (first [apply parse_byte in P as (?&?&->&->&P); [|reflexivity..]
                |apply parse_dash in P as [-> P]; [|reflexivity]]; cbn [Z.add Pos.add Pos.succ] in P).
  cbn [uuid_parse_loop] in P. injection P as <-. cbn [app].
  split; [split; [reflexivity|cbn [uuid_bytes]; by rewrite !Forall_cons]|].
  reflexivity.
Qed.

(** An identity has exactly one spelling: [Uuid128::parse] accepts a text as
    the identity [u] precisely when [u] is sixteen bytes and [Uuid128::to_string]
    prints it as that text. *)
Theorem uuid_text_canonical s u :
  Uuid128_parse s = Some u <-> uuid_wf u /\ Uuid128_to_string u = s.
Proof.
  split; [apply uuid_parsed_prints|]. intros [W <-]. by apply uuid_printed_parses.
Qed.

(** ** Decimal numbers *)

Definition is_digit (c : ascii) : Prop := 48 <= char_code c <= 57.
Definition dec_value (acc : Z) (text : list ascii) : Z :=
  foldl (fun a c => 10 * a + (char_code c - 48)) acc text.
Definition no_leading_zero (text : list ascii) : Prop :=
  forall c rest, text = c :: rest -> rest <> [] -> c <> "0"%char.

Lemma dec_value_snoc acc text c : dec_value acc (text ++ [c]) = 10 * dec_value acc text + (char_code c - 48).
Proof. unfold dec_value. by rewrite foldl_snoc. Qed.

Lemma dec_value_grows text acc : 0 <= acc -> Forall is_digit text -> acc <= dec_value acc text.
Proof.
  intros Ha. induction text as [|c text IH] using rev_ind; [done|].
  rewrite Forall_app, Forall_singleton, dec_value_snoc. unfold is_digit. intros [Ht Hc].
  specialize (IH Ht). lia.
Qed.

Lemma scalar_loop_spec limit text acc v : 0 <= acc <= limit -> limit < 2 ^ 64 ->
  scalar_parse_loop limit text acc = Some v <->
  Forall is_digit text /\ dec_value acc text = v /\ v <= limit.
Proof.
  intros Ha Hm. revert acc Ha. induction text as [|c text IH]; intros acc Ha; cbn [scalar_parse_loop].
  { split; [intros [= ->]; split_and!; [constructor|done|lia]|intros (_&<-&_); done]. }
  rewrite Forall_cons. change (dec_value acc (c :: text)) with
    (dec_value (10 * acc + (char_code c - 48)) text). unfold is_digit at 1.
  destruct (Z.ltb_spec (char_code c) 48), (Z.ltb_spec 57 (char_code c)); cbn [orb]; try (split; [done|lia]).
  set (d := char_code c - 48) in *. assert (0 <= d <= 9) by lia.
  destruct (Z.gtb_spec acc ((limit - d) / 10)) as [G|G].
  - split; [done|]. intros ((_&Hd)&E&L).
    pose proof (dec_value_grows text (10 * acc + d) ltac:(lia) Hd).
    assert (acc <= (limit - d) / 10) by (apply Z.div_le_lower_bound; lia). lia.
  - assert (10 * acc + d <= limit) by (pose proof (Z.mul_div_le (limit - d) 10); lia).
    rewrite (u64_small (acc * 10)), u64_small by lia. replace (acc * 10 + d) with (10 * acc + d) by lia.
    rewrite IH by lia. intuition lia.
Qed.

Lemma digit_char d : 0 <= d <= 9 -> is_digit (char_of (48 + d)) /\ char_code (char_of (48 + d)) - 48 = d.
Proof. intros H. unfold is_digit. rewrite char_code_of by lia. lia. Qed.

Lemma dec_digits_spec fuel n : 0 <= n < 10 ^ Z.of_nat fuel -> (0 < fuel)%nat ->
  Forall is_digit (dec_digits fuel n) /\ dec_value 0 (dec_digits fuel n) = n /\
  dec_digits fuel n <> [] /\ (length (dec_digits fuel n) <= fuel)%nat /\
  (1 <= n -> forall c rest, dec_digits fuel n = c :: rest -> c <> "0"%char).
Proof.
  revert n. induction fuel as [|fuel IH]; intros n Hn Hf; [lia|]. cbn [dec_digits].
  pose proof (Z.mod_pos_bound n 10). pose proof (Z.div_mod n 10).
  destruct (digit_char (n mod 10)) as [D E]; [lia|].
  destruct (Z.ltb_spec n 10) as [L|L].
  - rewrite Z.mod_small in * by lia. cbn [app]. rewrite Forall_singleton.
    split_and!; [done|cbn; lia|done|cbn; lia|]. intros H1 c rest [= <- _] Hc.
    apply (f_equal char_code) in Hc. rewrite char_code_of in Hc by lia.
    change (char_code "0") with 48 in Hc. lia.
  - assert (0 <= n / 10 < 10 ^ Z.of_nat fuel /\ 1 <= n / 10) as [Hq H1].
    { rewrite Nat2Z.inj_succ, Z.pow_succ_r in Hn by lia.
      split; [split; [apply Z.div_pos; lia|apply Z.div_lt_upper_bound; lia]|].
      apply Z.div_le_lower_bound; lia. }
    assert (0 < fuel)%nat by (destruct fuel; [cbn in Hq; lia|lia]).
    destruct (IH (n / 10)) as (F & V & N & Ln & Z0); [done..|].
    rewrite Forall_app, Forall_singleton, dec_value_snoc, V, E, length_app.
    split_and!; [done|done|lia|by destruct (dec_digits fuel (n / 10))|cbn; lia|].
    intros _ c rest. destruct (dec_digits fuel (n / 10)) as [|c' l]; [done|].
    intros [= <- _]. by eapply Z0.
Qed.

Lemma dec_digits_unique text fuel : Forall is_digit text -> text <> [] -> no_leading_zero text ->
  (length text <= fuel)%nat -> dec_digits fuel (dec_value 0 text) = text.
Proof.
  revert fuel. induction text as [|c text IH] using rev_ind; [done|]. intros fuel.
  rewrite Forall_app, Forall_singleton, length_app, dec_value_snoc. cbn [length].
  intros [Ht Hc] _ Hz Hl. destruct fuel as [|fuel]; [lia|]. cbn [dec_digits].
  pose proof (dec_value_grows text 0 ltac:(lia) Ht). unfold is_digit in Hc.
  set (v := dec_value 0 text) in *.
  replace ((10 * v + (char_code c - 48)) mod 10) with (char_code c - 48)
    by (apply (Z.mod_unique _ _ v); lia).
  replace ((10 * v + (char_code c - 48)) / 10) with v
    by (apply (Z.div_unique _ _ _ (char_code c - 48)); lia).
  replace (48 + (char_code c - 48)) with (char_code c) by lia. rewrite char_of_code. f_equal.
  destruct text as [|c' text]; [by rewrite (proj2 (Z.ltb_lt _ _)) by (cbn in v; lia)|].
  assert (1 <= v) as Hv.
  { subst v. change (dec_value 0 (c' :: text)) with (dec_value (char_code c' - 48) text).
    apply Forall_cons in Ht as [Hc' Ht]. unfold is_digit in Hc'.
    assert (c' <> "0"%char) as N by (eapply Hz; [done|by destruct text]).
    assert (char_code c' <> 48).
    { intros E. apply N. rewrite <- (char_of_code c'), E. reflexivity. }
    pose proof (dec_value_grows text (char_code c' - 48) ltac:(lia) Ht). lia. }
  rewrite (proj2 (Z.ltb_ge _ _)) by lia. apply IH; [done|done| |lia].
  intros a rest [= -> ->] N. eapply Hz; [done|by destruct rest].
Qed.

Lemma small_decimals text : Forall is_digit text -> no_leading_zero text ->
  dec_value 0 text < 2 ^ 64 -> (length text <= 20)%nat.
Proof.
  intros Ht Hz Hv. destruct text as [|c [|c2 text]]; [cbn; lia..|].
  apply Forall_cons in Ht as [Hc Ht]. unfold is_digit in Hc.
  assert (char_code c <> 48).
  { intros E. apply (Hz c (c2 :: text)); [done..|]. rewrite <- (char_of_code c), E. reflexivity. }
  assert (forall t a, 1 <= a -> Forall is_digit t -> 10 ^ Z.of_nat (length t) <= dec_value a t) as G.
  { induction t as [|x t IH] using rev_ind; intros a Ha; [cbn; lia|].
    rewrite Forall_app, Forall_singleton, dec_value_snoc, length_app. intros [Hf Hx].
    specialize (IH a Ha Hf). unfold is_digit in Hx. cbn [length].
    rewrite Nat2Z.inj_add, Z.pow_add_r by lia. lia. }
  pose proof (G (c2 :: text) (char_code c - 48) ltac:(lia) Ht) as B.
  change (dec_value 0 (c :: c2 :: text)) with (dec_value (char_code c - 48) (c2 :: text)) in Hv.
  destruct (Nat.le_gt_cases (length (c :: c2 :: text)) 20) as [|L]; [done|].
  assert (10 ^ 20 <= 10 ^ Z.of_nat (length (c2 :: text))).
  { apply Z.pow_le_mono_r; [lia|]. cbn [length] in *. lia. }
  lia.
Qed.

Lemma scalar_text limit text v : 0 <= limit < 2 ^ 64 ->
  scalar_parse limit text = Some v <-> 0 <= v <= limit /\ dec_text v = text.
Proof.
  intros Hm. unfold dec_text. split.
  - unfold scalar_parse. destruct text as [|c text]; [done|].
    destruct (Nat.ltb_spec 20 (length (c :: text))) as [|L]; [done|].
    destruct (_ && _) eqn:Z0; [done|]. intros H.
    apply scalar_loop_spec in H as (F & <- & Hv); [|lia..].
    split; [split; [apply dec_value_grows; [lia|done]|done]|].
    apply dec_digits_unique; [done..| |done].
    intros a rest [= -> ->] N E. subst a. apply andb_false_iff in Z0 as [Z0|Z0].
    + apply Nat.ltb_ge in Z0. destruct rest; [done|cbn in Z0; lia].
    + by apply bool_decide_eq_false in Z0.
  - intros [Hv <-]. destruct (dec_digits_spec 20 v) as (F & V & N & L & Z0); [cbn; lia|lia|].
    unfold scalar_parse. destruct (dec_digits 20 v) as [|c rest] eqn:E; [done|].
    rewrite (proj2 (Nat.ltb_ge _ _)) by done.
    assert ((1 <? length (c :: rest))%nat && bool_decide (c = "0"%char) = false) as ->.
    { apply andb_false_iff. destruct (Z.le_gt_cases 1 v).
      - right. apply bool_decide_eq_false. by eapply Z0.
      - left. assert (v = 0) as -> by lia. cbn in E. injection E as <- <-. reflexivity. }
    apply scalar_loop_spec; [lia..|]. split_and!; [done|done|lia].
Qed.

(** A number has exactly one spelling: with a 32-bit or a 64-bit type,
    [StrongScalar::parse] and [Generation::parse] accept a text as the value [v]
    precisely when [v] is in the type's range and [std::to_string] prints it as
    that text: no sign, no leading zero, no wrapped-around value is accepted. *)
Theorem scalar_text_canonical limit text v : limit = UINT32_MAX \/ limit = UINT64_MAX ->
  scalar_parse limit text = Some v <-> 0 <= v <= limit /\ dec_text v = text.
Proof. intros H. apply scalar_text. unfold UINT32_MAX, UINT64_MAX in H. lia. Qed.

Lemma scalar_text_canonical_witness :
  scalar_parse UINT64_MAX (dec_text 18446744073709551615) = Some 18446744073709551615.
Proof. apply scalar_text_canonical; [by right|]. split; [vm_compute; split; discriminate|done]. Defined.
