(* ===== verification/ConfigProps.v ===== *)
(** * ConfigProps: what an accepted configuration file guarantees

    The reading of [src/config.cpp] as a step relation on the parser's locals,
    the invariant its steps keep, and the soundness of [parse_config]. *)

From stdpp Require Import base gmap list strings sorting.
From Stdlib Require Import Ascii.
From S2P Require Import Prelude Status Ids Enums Model Codec Service Config IdsProps.

#[local] Open Scope string_scope.
#[local] Open Scope Z_scope.

(** ** Texts *)

Lemma strip_prefix_app prefix text rest :
  strip_prefix prefix text = Some rest -> text = (prefix ++ rest)%list.
Proof.
  revert text. induction prefix as [|p prefix IH]; intros text; cbn [strip_prefix].
  { by intros [= ->]. }
  destruct text as [|c text]; [done|]. case_bool_decide; [|done]. subst.
  intros E%IH. by rewrite E.
Qed.

Lemma chars_app s t : chars (s +:+ t) = (chars s ++ chars t)%list.
Proof.
  induction s as [|c s IH]; [done|].
  change (c :: chars (s +:+ t) = c :: (chars s ++ chars t))%list. by rewrite IH.
Qed.
Lemma chars_inj s t : chars s = chars t -> s = t.
Proof. intros E. by rewrite <- (text_chars s), E, text_chars. Qed.

Lemma has_prefix_app prefix key rest : has_prefix prefix key = Some rest -> key = prefix +:+ rest.
Proof.
  unfold has_prefix. case_match eqn:E; [|done]. intros [= <-]. apply strip_prefix_app in E.
  apply chars_inj. by rewrite chars_app, chars_text.
Qed.

Lemma text_ltb_irrefl l : text_ltb l l = false.
Proof. induction l; cbn [text_ltb]; [done|]. by rewrite Z.ltb_irrefl. Qed.

Lemma text_ltb_trans l m r : text_ltb l m = true -> text_ltb m r = true -> text_ltb l r = true.
Proof.
  revert m r. induction l as [|a l IH]; intros [|b m] [|c r]; cbn [text_ltb]; try done.
  repeat (case_match; try lia; try done). apply IH.
Qed.

Lemma text_ltb_total l r : text_ltb l r = false -> l <> r -> text_ltb r l = true.
Proof.
  revert r. induction l as [|a l IH]; intros [|b r]; cbn [text_ltb]; try done.
  destruct (Z.ltb_spec (char_code a) (char_code b)); [done|].
  destruct (Z.ltb_spec (char_code b) (char_code a)); [done|].
  intros E N. apply IH; [done|]. intros ->. apply N. f_equal.
  rewrite <- (char_of_code a), <- (char_of_code b). f_equal. lia.
Qed.

(** ** Ordered maps *)

Section ordered.
Context {A : Type}.
Implicit Types (m : list (string * A)) (f : A -> A).

(** The keys are in strictly increasing order. *)
Inductive ordered : list (string * A) -> Prop :=
| ordered_nil : ordered []
| ordered_cons k a m : Forall (fun e => string_ltb k e.1 = true) m -> ordered m -> ordered ((k, a) :: m).

Lemma elem_of_at_key initial key f m k a :
  (k, a) ∈ at_key initial key f m ->
  (k, a) ∈ m \/ k = key /\ exists b, (b = initial \/ (key, b) ∈ m) /\ a = f b.
Proof.
  induction m as [|[k' a'] m IH]; cbn [at_key].
  { rewrite list_elem_of_singleton. intros [= -> ->]. eauto 6. }
  destruct (String.eqb_spec k' key) as [->|N]; [|destruct (string_ltb k' key)]; rewrite !elem_of_cons.
  - intros [[= -> ->]|H]; [right; split; [done|]; exists a'; set_solver|set_solver].
  - intros [E|H]; [set_solver|]. destruct (IH H) as [?|(->&b&[->|?]&->)]; set_solver.
  - intros [[= -> ->]|H]; [eauto 6|set_solver].
Qed.

Lemma at_key_ordered initial key f m : ordered m -> ordered (at_key initial key f m).
Proof.
  induction 1 as [|k a m F O IH]; cbn [at_key]; [by repeat constructor|].
  destruct (String.eqb_spec k key) as [->|N]; [by constructor|]. case_match eqn:E; constructor; try done.
  - apply Forall_forall. intros [k' b] H. apply elem_of_at_key in H as [H|[-> _]]; [|done].
    rewrite Forall_forall in F. exact (F _ H).
  - assert (string_ltb key k = true) as L by (apply text_ltb_total; [done|by intros ?%chars_inj]).
    constructor; [done|]. eapply Forall_impl; [exact F|]. cbn. intros e He. by eapply text_ltb_trans.
  - by constructor.
Qed.

Lemma ordered_nodup m : ordered m -> NoDup m.*1.
Proof.
  induction 1 as [|k a m F O IH]; cbn [fmap list_fmap fst]; constructor; [|done].
  intros (e & E & H)%list_elem_of_fmap. rewrite Forall_forall in F. specialize (F _ H).
  rewrite <- E in F. unfold string_ltb in F. by rewrite text_ltb_irrefl in F.
Qed.

(** Keys that are the names of their values make the values distinct. *)
Lemma named_nodup {B} (g : A -> B) (named : string -> B -> Prop) m :
  (forall s t b, named s b -> named t b -> s = t) ->
  Forall (fun e => named e.1 (g e.2)) m -> NoDup m.*1 -> NoDup (map (fun e => g e.2) m).
Proof.
  intros inj. induction 1 as [|e m H F IH]; cbn [fmap list_fmap map]; [constructor|].
  intros [N D]%NoDup_cons. constructor; [|by apply IH].
  intros (e' & E & H')%list_elem_of_fmap. apply N. rewrite Forall_forall in F.
  specialize (F _ H'). rewrite <- E in F. rewrite (inj _ _ _ H F). by apply list_elem_of_fmap_2.
Qed.
End ordered.

(** ** The keys as steps *)

(** An envelope draft under a name it was created for. *)
Definition envelope_named (name : string) (draft : EnvelopeDraft) : Prop :=
  ed_seen draft = true /\ isolation_class_from_string name = Some (iec_isolation (ed_value draft)).
Definition path_named (name : string) (p : PathClass) : Prop :=
  sc_parse name = Some (pc_id p) /\ sc_value (pc_id p) <> 0.
Definition contract_named (name : string) (c : WorkloadContract) : Prop :=
  id_parse name = Some (wc_workload c).

(** What one accepted [key = value] does to the parser's locals. *)
Inductive key_step (key value : string) (d : Draft) : Draft -> Prop :=
| step_config config :
    pol_generation (cc_policy config) = pol_generation (cc_policy (dr_config d)) ->
    topo_generation (cc_topology config) = topo_generation (cc_topology (dr_config d)) ->
    key_step key value d (d <| dr_config := config |>)
| step_policy_generation v :
    key = "policy.generation" -> scalar_parse UINT64_MAX (chars value) = Some v ->
    key_step key value d
      ((set_policy (fun p => p <| pol_generation := mkGen v |>) d) <| dr_policy_generation_seen := true |>)
| step_topology_generation v :
    key = "topology.generation" -> scalar_parse UINT64_MAX (chars value) = Some v ->
    key_step key value d
      ((set_config (fun c => c <| cc_topology := (cc_topology c) <| topo_generation := mkGen v |> |>) d)
         <| dr_topology_generation_seen := true |>)
| step_envelope name f :
    (forall draft, draft = EnvelopeDraft_default \/ envelope_named name draft ->
       envelope_named name (f draft)) ->
    key_step key value d
      (d <| dr_envelopes := at_key EnvelopeDraft_default name f (dr_envelopes d) |>)
| step_path name f :
    (forall p, path_named name (f p)) ->
    key_step key value d (d <| dr_paths := at_key PathClass_default name f (dr_paths d) |>)
| step_contract name f :
    (forall c, contract_named name (f c)) ->
    key_step key value d
      (d <| dr_contracts := at_key WorkloadContract_default name f (dr_contracts d) |>).
#[local] Hint Constructors key_step : core.

Section steps.
Context (line : nat) (key value : string).

(** The goals left by the branches of a chain of key comparisons. *)
Ltac branches := repeat first
  [ progress unfold take_u64, take_u32, take_bool, parsed, parse_u64, parse_u32, parse_bool in *
  | done
  | match goal with H : Val _ = Val _ |- _ => injection H as <- end
  | match goal with H : (if ?b then _ else _) = Val _ |- _ => destruct b eqn:? end
  | match goal with H : (match ?m with _ => _ end) = Val _ |- _ => destruct m eqn:? end ].

Lemma envelope_field_keeps field change draft : envelope_field line key value field = Val change ->
  iec_isolation (change draft) = iec_isolation draft.
Proof. unfold envelope_field. intros H. branches. Qed.
Lemma path_field_keeps field change p : path_field line key value field = Val change ->
  pc_id (change p) = pc_id p.
Proof. unfold path_field. intros H. branches. Qed.
Lemma contract_field_keeps field change c : contract_field line key value field = Val change ->
  wc_workload (change c) = wc_workload c.
Proof. unfold contract_field. intros H. branches. Qed.

Lemma envelope_key_step rest d d' : envelope_key line key value rest d = Val d' -> key_step key value d d'.
Proof.
  unfold envelope_key. intros H. destruct (cut_dot rest) as [[name field]|]; [|done].
  destruct (isolation_class_from_string name) as [isolation|] eqn:N; [|done].
  destruct (envelope_field line key value field) as [change|] eqn:F; [|done].
  injection H as <-. apply step_envelope. intros draft Hd. split; cbn [ed_seen ed_value].
  - destruct (ed_seen draft) eqn:S; [done|reflexivity].
  - rewrite (envelope_field_keeps _ _ _ F). destruct (ed_seen draft) eqn:S; [|by rewrite N].
    destruct Hd as [->|[_ Hn]]; [done|]. by rewrite Hn.
Qed.

Lemma path_key_step rest d d' : path_key line key value rest d = Val d' -> key_step key value d d'.
Proof.
  unfold path_key. intros H. destruct (cut_dot rest) as [[name field]|]; [|done].
  destruct (sc_parse name) as [id|] eqn:N; [|done]. destruct (Z.eqb_spec (sc_value id) 0); [done|].
  destruct (path_field line key value field) as [change|] eqn:F; [|done].
  injection H as <-. apply step_path. intros p. unfold path_named.
  by rewrite (path_field_keeps _ _ _ F).
Qed.

Lemma contract_key_step rest d d' : contract_key line key value rest d = Val d' -> key_step key value d d'.
Proof.
  unfold contract_key. intros H. destruct (cut_dot rest) as [[name field]|]; [|done].
  destruct (id_parse name) as [id|] eqn:N; [|done].
  destruct (contract_field line key value field) as [change|] eqn:F; [|done].
  injection H as <-. apply step_contract. intros c. unfold contract_named.
  by rewrite (contract_field_keeps _ _ _ F).
Qed.

Lemma policy_key_step field d d' : key = "policy." +:+ field ->
  policy_key line key value field d = Val d' -> key_step key value d d'.
Proof.
  unfold policy_key. intros K H. destruct (String.eqb_spec field "generation") as [->|_].
  - branches. by apply step_policy_generation.
  - branches; by apply step_config.
Qed.

Lemma limits_key_step field d d' : limits_key line key value field d = Val d' -> key_step key value d d'.
Proof. unfold limits_key. intros H. branches; by apply step_config. Qed.

Lemma apply_key_step d d' : apply_key line key value d = Val d' -> key_step key value d d'.
Proof.
  unfold apply_key. intros H.
  repeat match goal with H : (if ?b then _ else _) = Val _ |- _ =>
    destruct b; [branches; by apply step_config|] end.
  destruct (has_prefix "policy.envelope." key); [by eapply envelope_key_step|].
  destruct (has_prefix "policy." key) eqn:E; [by eapply policy_key_step; [apply has_prefix_app|]|].
  destruct (has_prefix "topology.path." key); [by eapply path_key_step|].
  destruct (String.eqb_spec key "topology.generation"); [branches; by apply step_topology_generation|].
  destruct (has_prefix "contract." key); [by eapply contract_key_step|].
  destruct (has_prefix "limits." key); [by eapply limits_key_step|done].
Qed.
End steps.

(** ** The text as entries *)

(** What a line says, before the key is looked at: nothing, an entry, or
    something malformed. *)
Inductive Line := Blank | Entry (key value : string) | Malformed.
Definition read_line (line_text : list ascii) : Line :=
  match trim (strip_comment line_text) with
  | [] => Blank
  | line =>
      match cut "="%char line with
      | None => Malformed
      | Some (before, after) =>
          let key := text_of (trim before) in
          let value := text_of (trim after) in
          if String.eqb key "" || String.eqb value "" then Malformed else Entry key value
      end
  end.

(** The entries of a text all of whose lines are blank or entries. *)
Fixpoint config_entries (lines : list (list ascii)) : option (list (string * string)) :=
  match lines with
  | [] => Some []
  | line :: rest =>
      match read_line line, config_entries rest with
      | Blank, Some entries => Some entries
      | Entry key value, Some entries => Some ((key, value) :: entries)
      | _, _ => None
      end
  end.

Lemma parse_line_read n text d d' : parse_line n text d = Val d' ->
  (read_line text = Blank /\ d' = d) \/
  (exists key value, read_line text = Entry key value /\ dr_seen_keys d !! key = None /\
     key_step key value (d <| dr_seen_keys := <[key := value]> (dr_seen_keys d) |>) d').
Proof.
  unfold parse_line, read_line. destruct (trim (strip_comment text)) as [|c line].
  { intros [= ->]. by left. }
  destruct (cut "="%char (c :: line)) as [[before after]|]; [|done]. cbn zeta.
  destruct (String.eqb _ "" || _); [done|]. case_bool_decide as S; [done|].
  intros H%apply_key_step. right. eexists _, _. split; [done|]. split; [|done].
  by apply eq_None_not_Some.
Qed.

(** The invariant of the loop, over the entries read so far. *)
Definition generation_from (entries : list (string * string)) (key : string) (v : Z) : Prop :=
  exists value, (key, value) ∈ entries /\ chars value = dec_text v.
Record draft_ok (entries : list (string * string)) (d : Draft) : Prop := {
  ok_seen key : is_Some (dr_seen_keys d !! key) <-> key ∈ entries.*1;
  ok_keys : NoDup entries.*1;
  ok_envelopes : ordered (dr_envelopes d) /\ Forall (fun e => envelope_named e.1 e.2) (dr_envelopes d);
  ok_paths : ordered (dr_paths d) /\ Forall (fun e => path_named e.1 e.2) (dr_paths d);
  ok_contracts : ordered (dr_contracts d) /\ Forall (fun e => contract_named e.1 e.2) (dr_contracts d);
  ok_policy : dr_policy_generation_seen d = true ->
    generation_from entries "policy.generation" (gen_value (pol_generation (cc_policy (dr_config d))));
  ok_topology : dr_topology_generation_seen d = true ->
    generation_from entries "topology.generation" (gen_value (topo_generation (cc_topology (dr_config d))))
}.

Lemma draft_start_ok : draft_ok [] draft_start.
Proof.
  split; cbn; [|constructor|split; constructor..|done|done].
  intros key. rewrite lookup_empty, elem_of_nil. split; [by intros [? ?]|done].
Qed.

Lemma generation_from_cons e entries key v :
  generation_from entries key v -> generation_from (e :: entries) key v.
Proof. intros (value & H & E). exists value. split; [by apply list_elem_of_further|done]. Qed.
#[local] Hint Resolve generation_from_cons : core.

Lemma forall_at_key {A} (P : string -> A -> Prop) initial name f (m : list (string * A)) :
  (forall a, a = initial \/ P name a -> P name (f a)) ->
  Forall (fun e => P e.1 e.2) m -> Forall (fun e => P e.1 e.2) (at_key initial name f m).
Proof.
  rewrite !Forall_forall. intros Hf Hm [k a] H. cbn.
  apply elem_of_at_key in H as [H|(-> & b & Hb & ->)]; [exact (Hm _ H)|].
  apply Hf. destruct Hb as [->|H]; [by left|right; exact (Hm _ H)].
Qed.

Lemma dec_text_parse value v : scalar_parse UINT64_MAX (chars value) = Some v -> chars value = dec_text v.
Proof. intros H. symmetry. apply scalar_text in H; [tauto|]. unfold UINT64_MAX. lia. Qed.

Lemma draft_ok_step entries key value d d' : draft_ok entries d -> dr_seen_keys d !! key = None ->
  key_step key value (d <| dr_seen_keys := <[key := value]> (dr_seen_keys d) |>) d' ->
  draft_ok ((key, value) :: entries) d'.
Proof.
  intros [Hs Hk [Oe Fe] [Op Fp] [Oc Fc] Hp Ht] N H.
  assert (forall k, is_Some (<[key := value]> (dr_seen_keys d) !! k) <-> k ∈ key :: entries.*1) as Hs'.
  { intros k. rewrite lookup_insert_is_Some', elem_of_cons, Hs. naive_solver. }
  assert (NoDup (key :: entries.*1)) as Hk'.
  { constructor; [|done]. rewrite <- Hs, N. by intros [? ?]. }
  destruct H as [config Ep Et|v Ek Ev|v Ek Ev|name f Hf|name f Hf|name f Hf];
    constructor; try assumption; try (split; assumption); cbn in *; auto.
  - rewrite Ep. auto.
  - rewrite Et. auto.
  - intros _. exists value. rewrite Ek. split; [left|by apply dec_text_parse].
  - intros _. exists value. rewrite Ek. split; [left|by apply dec_text_parse].
  - split; [by apply at_key_ordered|by apply (forall_at_key envelope_named)].
  - split; [by apply at_key_ordered|by apply (forall_at_key path_named)].
  - split; [by apply at_key_ordered|by apply (forall_at_key contract_named)].
Qed.

Lemma parse_lines_ok n lines entries d d' : draft_ok entries d -> parse_lines n lines d = Val d' ->
  exists added, config_entries lines = Some added /\ draft_ok (reverse added ++ entries) d'.
Proof.
  revert n entries d. induction lines as [|line lines IH]; intros n entries d Hd; cbn [parse_lines].
  { intros [= <-]. by exists []. }
  unfold parsed. destruct (parse_line (S n) line d) as [d1|] eqn:P; [|done]. intros H.
  cbn [config_entries]. apply parse_line_read in P as [[R ->]|(key & value & R & N & Hstep)].
  - destruct (IH _ _ _ Hd H) as (added & E & Ho). exists added. by rewrite R, E.
  - destruct (IH _ _ _ (draft_ok_step _ _ _ _ _ Hd N Hstep) H) as (added & E & Ho).
    exists ((key, value) :: added). rewrite R, E. by rewrite reverse_cons, <- app_assoc.
Qed.

(** ** Names determine values *)

Lemma isolation_name_inj s t b :
  isolation_class_from_string s = Some b -> isolation_class_from_string t = Some b -> s = t.
Proof.
  unfold isolation_class_from_string. intros H1 H2.
  apply find_some in H1 as [_ H1]. apply find_some in H2 as [_ H2].
  apply String.eqb_eq in H1, H2. congruence.
Qed.

Lemma scalar_name_inj {T} s t (b : StrongScalar T) : sc_parse s = Some b -> sc_parse t = Some b -> s = t.
Proof.
  unfold sc_parse. intros H1 H2.
  destruct (scalar_parse _ (chars s)) as [v|] eqn:E1; [|done].
  destruct (scalar_parse _ (chars t)) as [w|] eqn:E2; [|done].
  injection H1 as <-. injection H2 as ->. apply chars_inj.
  apply scalar_text in E1 as [_ <-], E2 as [_ <-]; unfold UINT32_MAX; [done|lia..].
Qed.

Lemma id_name_inj {T} s t (b : StrongId T) : id_parse s = Some b -> id_parse t = Some b -> s = t.
Proof.
  unfold id_parse. intros H1 H2.
  destruct (Uuid128_parse s) as [v|] eqn:E1; [|done]. destruct (Uuid128_parse t) as [w|] eqn:E2; [|done].
  injection H1 as <-. injection H2 as ->.
  apply uuid_parsed_prints in E1 as [_ <-], E2 as [_ <-]. done.
Qed.

(** C39: an accepted configuration file is well formed: every line is blank, a
    comment or [key = value]; no key occurs twice; both generations are the
    numbers the file spells; each isolation class has at most one envelope, each
    path class and each workload exactly one record, none of the three lists is
    empty and no path class is 0; and a persistent coordinator has a data
    directory. *)
Theorem parse_config_sound text label fc : parse_config text label = Val fc ->
  let config := fc_coordinator fc in
  let envelopes := pol_envelopes (cc_policy config) in
  let paths := topo_path_classes (cc_topology config) in
  exists entries, config_entries (getlines (chars text)) = Some entries /\ NoDup entries.*1 /\
    generation_from entries "policy.generation" (gen_value (pol_generation (cc_policy config))) /\
    generation_from entries "topology.generation" (gen_value (topo_generation (cc_topology config))) /\
    NoDup (map iec_isolation envelopes) /\ envelopes <> [] /\
    NoDup (map pc_id paths) /\ Forall (fun p => sc_value (pc_id p) <> 0) paths /\ paths <> [] /\
    NoDup (map wc_workload (cc_contracts config)) /\ cc_contracts config <> [] /\
    (cc_persist config = true -> cc_data_directory config <> "") /\ fc_source fc = label.
Proof.
  unfold parse_config, parsed. destruct (parse_lines _ _ _) as [d|] eqn:P; [|done].
  apply (parse_lines_ok _ _ [] _ _ draft_start_ok) in P as (entries & E & Ho).
  rewrite app_nil_r in Ho. destruct Ho as [Hs Hk [Oe Fe] [Op Fp] [Oc Fc] Hp Ht].
  unfold finish_config. intros H.
  destruct (dr_policy_generation_seen d); [|done]. destruct (dr_topology_generation_seen d); [|done].
  cbn [negb] in H. rewrite !length_map in H.
  destruct (Nat.eqb_spec (length (dr_envelopes d)) 0) as [|Ne]; [done|].
  destruct (Nat.eqb_spec (length (dr_paths d)) 0) as [|Np]; [done|].
  destruct (Nat.eqb_spec (length (dr_contracts d)) 0) as [|Nc]; [done|].
  destruct (_ && _) eqn:D; [done|]. injection H as <-.
  apply ordered_nodup in Oe, Op, Oc. cbn in *. exists entries.
  assert (forall k v, generation_from (reverse entries) k v -> generation_from entries k v) as G.
  { intros k v (x & Hx & Ex). exists x. split; [by apply elem_of_reverse|done]. }
  rewrite !map_map. split_and!; auto.
  - by rewrite fmap_reverse, reverse_Permutation in Hk.
  - apply (named_nodup (fun a => iec_isolation (ed_value a)) _ _ isolation_name_inj); [|done].
    eapply Forall_impl; [exact Fe|]. by intros e [].
  - intros E0. apply (f_equal length) in E0. by rewrite length_map in E0.
  - apply (named_nodup pc_id _ _ scalar_name_inj); [|done].
    eapply Forall_impl; [exact Fp|]. by intros e [].
  - apply Forall_map. eapply Forall_impl; [exact Fp|]. by intros e [].
  - intros E0. apply (f_equal length) in E0. by rewrite length_map in E0.
  - by apply (named_nodup wc_workload _ _ id_name_inj).
  - intros E0. apply (f_equal length) in E0. by rewrite length_map in E0.
  - intros Hper Hdir. rewrite Hper, Hdir in D. done.
Qed.

(** A small configuration file. *)
Definition sample_config : string :=
"# a lab coordinator
policy.generation = 3
policy.envelope.TrainingBulk.ceiling_bps = 8388608   # bytes per second
topology.generation = 2
topology.path.1.destination = SyntheticLab
topology.path.1.capacity_bps = 67108864

contract.11111111-2222-4333-8444-555555555555.generation = 1
persist = true
data_directory = /var/lib/ctf
".

Lemma parse_config_sound_witness :
  match parse_config sample_config "ctf.conf" with
  | Val fc => NoDup (map pc_id (topo_path_classes (cc_topology (fc_coordinator fc)))) /\
              cc_contracts (fc_coordinator fc) <> []
  | Err _ => False
  end.
Proof.
  destruct (parse_config sample_config "ctf.conf") as [fc|] eqn:E; [|vm_compute in E; discriminate].
  destruct (parse_config_sound _ _ _ E) as (entries & H). tauto.
Defined.
