(* ===== verification/WireTheory.v ===== *)
(** * WireTheory: when a decoder action reads back what an encoder wrote

    [coded lim w m x] says that the encoder statement [w] appends some
    non-empty bytes, and that the decoder action [m], run under limits [lim] in
    front of those bytes, returns [x] and moves just past them.  The lemmas
    compose it along the statements the codecs are made of; the tactic [codec]
    applies them. *)

From stdpp Require Import base gmap list strings.
From Stdlib Require Import Ascii ZArith Lia.
From S2P Require Import Prelude Status Ids Bytes Hash Enums Model Wire.

Create HintDb codec.

(** ** Big-endian integers *)

Lemma be_bytes_S n v :
  be_bytes (S n) v = Z.land (Z.shiftr v (8 * Z.of_nat n)) 255 :: be_bytes n v.
Proof.
  unfold be_bytes. cbn [seq map]. rewrite <-seq_shift, map_map. f_equal.
  - do 3 f_equal. lia.
  - apply map_ext. intros i. do 3 f_equal. lia.
Qed.

Lemma be_bytes_length n v : length (be_bytes n v) = n.
Proof. unfold be_bytes. by rewrite length_map, length_seq. Qed.

Lemma be_bytes_ok n v : Forall byte_ok (be_bytes n v).
Proof.
  induction n as [|n IH]; [constructor|]. rewrite be_bytes_S. constructor; [|done].
  unfold byte_ok. change 255 with (Z.ones 8). rewrite Z.land_ones by lia. apply Z.mod_pos_bound. lia.
Qed.

Lemma byte_split y : Z.lor (Z.shiftl (Z.shiftr y 8) 8) (Z.land y 255) = y.
Proof.
  apply Z.bits_inj'. intros n Hn. change 255 with (Z.ones 8).
  rewrite Z.lor_spec, Z.land_spec, Z.shiftl_spec by lia.
  destruct (Z.ltb_spec n 8).
  - rewrite Z.testbit_neg_r by lia. rewrite Z.ones_spec_low by lia. by rewrite andb_true_r.
  - rewrite Z.shiftr_spec, Z.ones_spec_high, andb_false_r, orb_false_r by lia. f_equal. lia.
Qed.

(** Reading the bytes of a value back, from the accumulator that holds the
    digits before them. *)
Lemma be_fold_bytes (wrap : Z -> Z) n v :
  (forall x, 0 <= x <= v -> wrap x = x) -> 0 <= v ->
  foldl (fun acc b => Z.lor (wrap (Z.shiftl acc 8)) b) (Z.shiftr v (8 * Z.of_nat n))
    (be_bytes n v) = v.
Proof.
  intros Hw Hv. induction n as [|n IH].
  - cbn [be_bytes seq map foldl]. by rewrite Z.shiftr_0_r.
  - rewrite be_bytes_S. cbn [foldl].
    assert (Z.shiftr v (8 * Z.of_nat (S n)) = Z.shiftr (Z.shiftr v (8 * Z.of_nat n)) 8) as ->.
    { rewrite Z.shiftr_shiftr by lia. f_equal. lia. }
    rewrite Hw; [by rewrite byte_split|].
    set (y := Z.shiftr v (8 * Z.of_nat n)).
    assert (0 <= y <= v).
    { subst y. rewrite Z.shiftr_div_pow2 by lia. split; [apply Z.div_pos; lia|].
      apply Z.div_le_upper_bound; [lia|].
      pose proof (Z.pow_pos_nonneg 2 (8 * Z.of_nat n)). nia. }
    rewrite Z.shiftl_mul_pow2, Z.shiftr_div_pow2 by lia.
    pose proof (Z.div_mod y (2 ^ 8)). pose proof (Z.mod_pos_bound y (2 ^ 8)).
    pose proof (Z.div_pos y (2 ^ 8)). lia.
Qed.

Lemma be_combine_bytes (wrap : Z -> Z) n v :
  (forall x, 0 <= x <= v -> wrap x = x) -> 0 <= v < 2 ^ (8 * Z.of_nat n) ->
  be_combine wrap (be_bytes n v) = v.
Proof.
  intros Hw Hv. unfold be_combine.
  rewrite <-(be_fold_bytes wrap n v Hw ltac:(lia)) at 2. f_equal.
  rewrite Z.shiftr_div_pow2, Z.div_small by lia. done.
Qed.

Lemma byte_join a b : 0 <= b < 256 -> Z.lor (Z.shiftl a 8) b = a * 256 + b.
Proof.
  intros Hb. rewrite <-(byte_split (a * 256 + b)). change 255 with (Z.ones 8).
  rewrite Z.land_ones, (Z.shiftr_div_pow2 (a * 256 + b)) by lia. change (2 ^ 8) with 256.
  rewrite Z.div_add_l, (Z.div_small b) by lia. rewrite Z.add_0_r.
  f_equal. rewrite Z.add_comm, Z.mod_add, Z.mod_small by lia. done.
Qed.

Lemma get_u16_combine a b : byte_ok a -> byte_ok b -> get_u16 [a; b] = be_combine u16 [a; b].
Proof.
  unfold byte_ok. intros Ha Hb. unfold get_u16, be_combine. cbn [foldl].
  change (u16 (Z.shiftl 0 8)) with 0. rewrite Z.lor_0_l.
  assert (u16 (Z.shiftl a 8) = Z.shiftl a 8) as ->.
  { apply Z.mod_small. rewrite Z.shiftl_mul_pow2 by lia. lia. }
  rewrite byte_join by lia. apply Z.mod_small. lia.
Qed.

Lemma get_u16_bytes v : 0 <= v < 2 ^ 16 -> get_u16 (be_bytes 2 v) = v.
Proof.
  intros Hv. pose proof (be_bytes_ok 2 v) as Hok.
  destruct (be_bytes 2 v) as [|a [|b [|c l]]] eqn:Hl;
    try (apply (f_equal length) in Hl; rewrite be_bytes_length in Hl; discriminate).
  apply Forall_cons in Hok as [Ha [Hb _]%Forall_cons].
  rewrite get_u16_combine, <-Hl by done.
  apply be_combine_bytes; [|cbn; lia]. intros x Hx. apply Z.mod_small. lia.
Qed.
Lemma get_u32_bytes v : 0 <= v < 2 ^ 32 -> get_u32 (be_bytes 4 v) = v.
Proof. intros Hv. apply be_combine_bytes; [|cbn; lia]. intros x Hx. apply u32_small. lia. Qed.
Lemma get_u64_bytes v : 0 <= v < 2 ^ 64 -> get_u64 (be_bytes 8 v) = v.
Proof. intros Hv. apply be_combine_bytes; [|cbn; lia]. intros x Hx. apply u64_small. lia. Qed.

(** ** Values that fit their wire form *)

Definition id_wire {T} (i : StrongId T) : Prop := uuid_wf (id_value i).
Definition scalar_wire {T} (s : StrongScalar T) : Prop := in_u32 (sc_value s).
Definition gen_wire {T} (g : Generation T) : Prop := in_u64 (gen_value g).
Definition option_wire {T} (P : T -> Prop) (o : option T) : Prop :=
  match o with Some x => P x | None => True end.

(** ** Writing and reading *)

Definition writes (w : Enc) (b : list Z) : Prop :=
  forall e, enc_ok e = true -> w e = mkEncoder (enc_raw e ++ b) (enc_status e).

Definition rest (d : Decoder) : list Z := drop (dec_offset d) (dec_data d).

Definition reads {A} (lim : Limits) (m : Dec A) (b : list Z) (a : A) : Prop :=
  forall d after, dec_ok d = true -> dec_limits d = lim -> rest d = b ++ after ->
    m d = (a, advance (length b) d).

Definition coded {A} (lim : Limits) (w : Enc) (m : Dec A) (a : A) : Prop :=
  exists b, b <> [] /\ writes w b /\ reads lim m b a.

Lemma rest_advance d b after : rest d = b ++ after -> rest (advance (length b) d) = after.
Proof.
  unfold rest. intros H. cbn. rewrite <-drop_drop, H. apply drop_app_length.
Qed.
Lemma view_prefix d b after : rest d = b ++ after -> view (length b) d = b.
Proof. unfold rest, view. intros ->. apply take_app_length. Qed.
Lemma remaining_rest d : remaining d = length (rest d).
Proof. unfold remaining, rest. by rewrite length_drop. Qed.
Lemma advance_add n m d : advance m (advance n d) = advance (n + m) d.
Proof. destruct d. unfold advance, upd. cbn. by rewrite Nat.add_assoc. Qed.

Lemma writes_seq w1 w2 b1 b2 : writes w1 b1 -> writes w2 b2 -> writes (w1 ;> w2) (b1 ++ b2).
Proof.
  intros H1 H2 e He. unfold enc_seq. rewrite (H1 e He), H2 by done. cbn. by rewrite app_assoc.
Qed.
Lemma writes_append b : writes (enc_append b) b.
Proof. by intros e _. Qed.

Lemma reads_return {A} lim (a : A) : reads lim (dec_return a) [] a.
Proof. intros d after _ _ _. unfold dec_return, advance, upd. destruct d; cbn. by rewrite Nat.add_0_r. Qed.

Lemma reads_bind {A B} lim (m : Dec A) (k : A -> Dec B) b1 b2 a c :
  reads lim m b1 a -> reads lim (k a) b2 c -> reads lim (dec_bind m k) (b1 ++ b2) c.
Proof.
  intros H1 H2 d after Hok Hlim Hr. rewrite <-app_assoc in Hr. unfold dec_bind.
  rewrite (H1 d _ Hok Hlim Hr), (H2 _ after) by (done || by eapply rest_advance).
  by rewrite advance_add, length_app.
Qed.

(** A step that looks at the decoder but reads nothing. *)
Lemma reads_map {A B} lim (m : Dec A) (k : A -> Dec B) b a c :
  reads lim m b a -> (forall d, dec_ok d = true -> dec_limits d = lim -> k a d = (c, d)) ->
  reads lim (dec_bind m k) b c.
Proof.
  intros H1 H2 d after Hok Hlim Hr. unfold dec_bind. rewrite (H1 d after Hok Hlim Hr). by apply H2.
Qed.

Lemma reads_fixed {A} lim n (get : list Z -> A) zero b :
  length b = n -> reads lim (dec_fixed n get zero) b (get b).
Proof.
  intros Hn d after Hok _ Hr. unfold dec_fixed, require. rewrite Hok. cbn [negb].
  rewrite remaining_rest, Hr, length_app, Hn.
  destruct (n + length after <? n)%nat eqn:E; [apply Nat.ltb_lt in E; lia|].
  cbn [negb]. by rewrite <-Hn, (view_prefix d b after).
Qed.

(** ** Primitives *)

Section primitives.
Context (lim : Limits).

Lemma coded_fixed {A} n (get : list Z -> A) zero w b :
  length b = S n -> writes w b -> coded lim w (dec_fixed (S n) get zero) (get b).
Proof. intros Hn Hw. exists b. split; [by destruct b|]. split; [done|]. by apply reads_fixed. Qed.

Lemma coded_fixed_eq {A} n (get : list Z -> A) zero w b a :
  length b = S n -> writes w b -> get b = a -> coded lim w (dec_fixed (S n) get zero) a.
Proof. intros Hn Hw <-. by apply coded_fixed. Qed.

Lemma coded_map {A B} w (m : Dec A) (k : A -> Dec B) a c :
  coded lim w m a -> (forall d, dec_ok d = true -> dec_limits d = lim -> k a d = (c, d)) ->
  coded lim w (dec_bind m k) c.
Proof. intros (b & Hb & Hw & Hr) Hk. exists b. split; [done|]. split; [done|]. by eapply reads_map. Qed.

Lemma coded_bind {A B} w1 w2 (m : Dec A) (k : A -> Dec B) a c :
  coded lim w1 m a -> coded lim w2 (k a) c -> coded lim (w1 ;> w2) (dec_bind m k) c.
Proof.
  intros (b1 & Hb1 & Hw1 & Hr1) (b2 & _ & Hw2 & Hr2). exists (b1 ++ b2).
  split; [by destruct b1|]. split; [by apply writes_seq|by eapply reads_bind].
Qed.

Lemma coded_u8 v : coded lim (enc_u8 v) dec_u8 v.
Proof. by eapply coded_fixed_eq; [|apply writes_append|]. Qed.
Lemma coded_u16 v : 0 <= v < 2 ^ 16 -> coded lim (enc_u16 v) dec_u16 v.
Proof.
  intros. eapply coded_fixed_eq; [|apply writes_append|by apply get_u16_bytes]. apply be_bytes_length.
Qed.
Lemma coded_u32 v : in_u32 v -> coded lim (enc_u32 v) dec_u32 v.
Proof.
  intros. eapply coded_fixed_eq; [|apply writes_append|by apply get_u32_bytes]. apply be_bytes_length.
Qed.
Lemma coded_u64 v : in_u64 v -> coded lim (enc_u64 v) dec_u64 v.
Proof.
  intros. eapply coded_fixed_eq; [|apply writes_append|by apply get_u64_bytes]. apply be_bytes_length.
Qed.
Lemma s64_u64 v : in_s64 v -> s64 (u64 v) = v.
Proof.
  intros Hv. unfold s64, u64. rewrite Zplus_mod_idemp_l. unfold in_s64 in Hv.
  rewrite Z.mod_small; lia.
Qed.
Lemma coded_i64 v : in_s64 v -> coded lim (enc_i64 v) dec_i64 v.
Proof.
  intros Hv. eapply coded_map; [apply coded_u64, u64_range|].
  intros d _ _. by rewrite s64_u64.
Qed.
(** The same bytes written by a cast to [std::uint64_t]. *)
Lemma coded_cast v : in_s64 v -> coded lim (enc_u64 (u64 v)) dec_i64 v.
Proof. apply coded_i64. Qed.
Lemma coded_uuid u : uuid_wf u -> coded lim (enc_uuid u) dec_uuid u.
Proof. intros [Hl _]. eapply coded_fixed_eq; [exact Hl|apply writes_append|by destruct u]. Qed.
Lemma coded_boolean v : coded lim (enc_boolean v) dec_boolean v.
Proof.
  eapply coded_map; [apply coded_u8|]. intros d Hok _. rewrite Hok. by destruct v.
Qed.

(** A length prefix and that many bytes. *)
Lemma coded_prefixed {A} w (m : Dec Z) (k : Z -> Dec A) (data : list Z) a :
  coded lim w m (Z.of_nat (length data)) -> reads lim (k (Z.of_nat (length data))) data a ->
  coded lim (w ;> enc_append data) (dec_bind m k) a.
Proof.
  intros (b & Hb & Hw & Hr) Hk. exists (b ++ data). split; [by destruct b|].
  split; [by apply writes_seq; [|apply writes_append]|by eapply reads_bind].
Qed.

Lemma require_ok n d : (n <= remaining d)%nat -> require n d = (true, d).
Proof.
  intros H. unfold require. destruct (remaining d <? n)%nat eqn:E; [apply Nat.ltb_lt in E; lia|done].
Qed.

Definition bytes_wire (data : list Z) : Prop := Z.of_nat (length data) <= kMaxPayloadBytes.

Lemma coded_bytes data : bytes_wire data -> coded lim (enc_bytes data) dec_bytes data.
Proof.
  unfold bytes_wire, kMaxPayloadBytes. intros Hl.
  assert (coded lim (enc_u32 (u32 (Z.of_nat (length data))) ;> enc_append data) dec_bytes data)
    as (b & Hb & Hw & Hr).
  { apply coded_prefixed.
    - rewrite u32_small by lia. apply coded_u32. unfold in_u32. lia.
    - intros d after Hok _ Hrest. rewrite Hok. cbn [negb].
      destruct (_ >? _) eqn:E; [apply Z.gtb_lt in E; unfold kMaxPayloadBytes in E; lia|].
      rewrite Nat2Z.id, require_ok by (rewrite remaining_rest, Hrest, length_app; lia).
      cbn [negb]. by rewrite (view_prefix d data after). }
  exists b. split; [done|]. split; [|done]. intros e He. unfold enc_bytes.
  destruct (_ >? _) eqn:E; [apply Z.gtb_lt in E; unfold kMaxPayloadBytes in E; lia|]. by apply Hw.
Qed.

(** A string the encoder can represent. *)
Definition string_wire (s : string) : Prop :=
  Z.of_nat (length (string_bytes s)) <= kMaxStringBytes /\ is_valid_utf8 (string_bytes s) = true.

Lemma writes_string s : string_wire s ->
  writes (enc_string s) (be_bytes 2 (u16 (Z.of_nat (length (string_bytes s)))) ++ string_bytes s).
Proof.
  intros [Hl Hu] e He. unfold enc_string. rewrite Z.gtb_ltb, (proj2 (Z.ltb_ge _ _)), Hu by done.
  by apply writes_seq; [apply writes_append..|].
Qed.
Lemma writes_error_code c : writes (encode_ErrorCode c) (be_bytes 2 (ErrorCode.value c)).
Proof. apply writes_append. Qed.
Lemma writes_u8 v : writes (enc_u8 v) [v].
Proof. apply writes_append. Qed.
Lemma writes_u64 v : writes (enc_u64 v) (be_bytes 8 v).
Proof. apply writes_append. Qed.
Lemma writes_boolean b : writes (enc_boolean b) [if b then 1 else 0].
Proof. apply writes_append. Qed.
Lemma writes_digest d : writes (encode_Digest d) (be_bytes 4 (dg_crc d) ++ be_bytes 8 (dg_fnv d)).
Proof. apply writes_seq; apply writes_append. Qed.
Lemma writes_enum {E} (value : E -> Z) x : writes (encode_enum value x) [value x].
Proof. apply writes_append. Qed.

Lemma string_bytes_back s : text_of (string_from_bytes (string_bytes s)) = s.
Proof.
  unfold string_bytes, string_from_bytes, bytes_from_string. rewrite map_map.
  rewrite (map_ext _ id) by (intros; apply char_of_code).
  by rewrite map_id, String.string_of_list_ascii_of_string.
Qed.

Lemma coded_string s : string_wire s -> coded lim (enc_string s) dec_string s.
Proof.
  unfold string_wire, kMaxStringBytes. intros [Hl Hu]. set (data := string_bytes s) in *.
  assert (coded lim (enc_u16 (u16 (Z.of_nat (length data))) ;> enc_append data) dec_string s)
    as (b & Hb & Hw & Hr).
  { apply coded_prefixed.
    - unfold u16. rewrite Z.mod_small by lia. apply coded_u16. lia.
    - intros d after Hok _ Hrest. rewrite Hok. cbn [negb].
      destruct (_ >? _) eqn:E; [apply Z.gtb_lt in E; unfold kMaxStringBytes in E; lia|].
      rewrite Nat2Z.id, require_ok by (rewrite remaining_rest, Hrest, length_app; lia).
      cbn [negb]. rewrite (view_prefix d data after Hrest), Hu. cbn [negb].
      by unfold data at 1; rewrite string_bytes_back. }
  exists b. split; [done|]. split; [|done]. intros e He. unfold enc_string. cbn zeta. fold data.
  destruct (_ >? _) eqn:E; [apply Z.gtb_lt in E; unfold kMaxStringBytes in E; lia|].
  rewrite Hu. by apply Hw.
Qed.

Lemma coded_enum {E} (value : E -> Z) (of_value : Z -> option E) zero x :
  of_value (value x) = Some x ->
  coded lim (encode_enum value x) (decode_enum of_value zero) x.
Proof. intros Hx. eapply coded_map; [apply coded_u8|]. intros d _ _. by rewrite Hx. Qed.
Lemma coded_ErrorCode c : coded lim (encode_ErrorCode c) decode_ErrorCode c.
Proof.
  eapply coded_map; [apply coded_u16; destruct c; cbn; lia|].
  intros d _ _. by rewrite value_of_value.
Qed.

Lemma coded_id {T} (i : StrongId T) : uuid_wf (id_value i) -> coded lim (encode_id i) decode_id i.
Proof. intros Hi. eapply coded_map; [by apply coded_uuid|]. intros d _ _. by destruct i. Qed.
Lemma coded_scalar {T} (s : StrongScalar T) :
  in_u32 (sc_value s) -> coded lim (encode_scalar s) decode_scalar s.
Proof.
  unfold in_u32. intros Hs. eapply coded_map; [apply coded_u64; unfold in_u64; lia|].
  intros d _ _. destruct (_ >? _) eqn:E; [apply Z.gtb_lt in E; unfold UINT32_MAX in E; lia|].
  by destruct s.
Qed.
Lemma coded_gen {T} (g : Generation T) :
  in_u64 (gen_value g) -> coded lim (encode_gen g) decode_gen g.
Proof. intros Hg. eapply coded_map; [by apply coded_u64|]. intros d _ _. by destruct g. Qed.

Definition Digest_wire (g : Digest) : Prop := in_u32 (dg_crc g) /\ in_u64 (dg_fnv g).
Lemma coded_Digest g : Digest_wire g -> coded lim (encode_Digest g) decode_Digest g.
Proof.
  intros [Hc Hf]. eapply coded_bind; [by apply coded_u32|].
  eapply coded_map; [by apply coded_u64|]. intros d _ _. by destruct g.
Qed.
Definition epoch_wire (p : CoordinatorEpoch) : Prop :=
  in_u64 (gen_value (ep_incarnation p)) /\ in_u64 (gen_value (ep_term p)).
Lemma coded_epoch p :
  epoch_wire p -> coded lim (encode_CoordinatorEpoch p) decode_CoordinatorEpoch p.
Proof.
  intros [Hi Ht]. eapply coded_bind; [by apply coded_gen|].
  eapply coded_map; [by apply coded_gen|]. intros d _ _. by destruct p.
Qed.

(** ** Fields *)

Lemma coded_into {R T} (f : R -> T) `{Setter R T f} w (m : Dec T) x value :
  coded lim w m x -> coded lim w (into f m value) (value <| f := x |>).
Proof. intros Hc. by eapply coded_map. Qed.
Lemma coded_into_sub {R T} (f : R -> T) `{Setter R T f} w (g : T -> Dec T) x value :
  (forall initial, coded lim w (g initial) x) -> coded lim w (into_sub f g value) (value <| f := x |>).
Proof. intros Hc. by eapply coded_map. Qed.
Lemma coded_then {R} w1 w2 (f g : R -> Dec R) v0 v1 v2 :
  coded lim w1 (f v0) v1 -> coded lim w2 (g v1) v2 -> coded lim (w1 ;> w2) ((f >=> g) v0) v2.
Proof. apply coded_bind. Qed.
Lemma coded_guard {R} w (g : R -> Dec R) v0 v :
  coded lim w (g v0) v -> coded lim w (guard_ok g v0) v.
Proof.
  intros (b & Hb & Hw & Hr). exists b. split; [done|]. split; [done|].
  intros d after Hok Hlim Hrest. unfold guard_ok. rewrite Hok. by eapply Hr.
Qed.

Lemma coded_optional {R T} (f : R -> option T) `{Setter R (option T) f} (enc : T -> Enc)
    (m : Dec T) o value :
  (forall x, o = Some x -> coded lim (enc x) m x) ->
  coded lim (encode_optional enc o) (optional f m value) (value <| f := o |>).
Proof.
  intros Hc. destruct o as [x|]; cbn [encode_optional].
  - eapply coded_bind; [apply coded_boolean|]. by eapply coded_map; [apply Hc|].
  - by eapply coded_map; [apply coded_boolean|].
Qed.

(** ** Collections *)

Lemma coded_elements {T} (enc : T -> Enc) (m : Dec T) l :
  Forall (fun x => coded lim (enc x) m x) l ->
  exists b, (length l <= length b)%nat /\ writes (encode_items enc l) b /\
    forall out, reads lim (decode_items (length l) m out) b (out ++ l).
Proof.
  induction 1 as [|x l (b1 & Hb1 & Hw1 & Hr1) _ (b2 & Hb2 & Hw2 & Hr2)].
  - exists []. split; [done|]. split; [intros [raw st] _; cbn; by rewrite app_nil_r|].
    intros out. cbn. rewrite app_nil_r. apply reads_return.
  - exists (b1 ++ b2). split; [|split].
    + rewrite length_app. destruct b1; [done|]. cbn. lia.
    + exact (writes_seq (enc x) (encode_items enc l) b1 b2 Hw1 Hw2).
    + intros out. cbn [length decode_items]. eapply reads_bind; [done|].
      intros d after Hok Hlim Hr. rewrite Hok. cbn [negb].
      rewrite (Hr2 (out ++ [x]) d after Hok Hlim Hr), <-app_assoc. done.
Qed.

(** A list within the bounds of the protocol and of the configuration. *)
Definition list_wire {T} (P : T -> Prop) (bound : Z) (l : list T) : Prop :=
  Z.of_nat (length l) <= kMaxCollectionElements /\ Z.of_nat (length l) <= bound /\ Forall P l.

Lemma reads_items {R T} (f : R -> list T) `{Setter R (list T) f} bound detail (m : Dec T)
    (k : R -> Dec R) value b1 b2 l v :
  Z.of_nat (length l) <= kMaxCollectionElements -> Z.of_nat (length l) <= bound lim ->
  (length l <= length b1)%nat ->
  reads lim (decode_items (length l) m []) b1 l -> reads lim (k (value <| f := l |>)) b2 v ->
  reads lim (items f bound detail m k value) (be_bytes 4 (Z.of_nat (length l)) ++ b1 ++ b2) v.
Proof.
  unfold kMaxCollectionElements. intros Hm Hb Hl Hi Hk d after Hok Hlim Hr.
  unfold items, collection_count, dec_bind, dec_u32. rewrite <-app_assoc in Hr.
  assert (get_u32 (be_bytes 4 (Z.of_nat (length l))) = Z.of_nat (length l)) as Hg
    by (apply get_u32_bytes; lia).
  rewrite (reads_fixed lim 4 get_u32 0 _ (be_bytes_length 4 _) d _ Hok Hlim Hr), Hg.
  set (d1 := advance _ d). assert (rest d1 = b1 ++ b2 ++ after) as Hr1.
  { rewrite app_assoc. by apply rest_advance. }
  assert (dec_ok d1 = true) as Hok1 by done. assert (dec_limits d1 = lim) as Hlim1 by done.
  rewrite Hok1. cbn [negb].
  destruct (_ >? kMaxCollectionElements) eqn:E;
    [apply Z.gtb_lt in E; unfold kMaxCollectionElements in E; lia|].
  rewrite remaining_rest, Hr1, length_app.
  destruct (_ >? Z.of_nat _) eqn:E2; [apply Z.gtb_lt in E2; lia|]. rewrite Hok1. cbn [negb].
  rewrite Hlim1. destruct (_ >? bound lim) eqn:E3; [apply Z.gtb_lt in E3; lia|].
  rewrite Nat2Z.id, (Hi d1 _ Hok1 Hlim1 Hr1). unfold guard_ok.
  change (dec_ok (advance (length b1) d1)) with (dec_ok d1). rewrite Hok1.
  rewrite (Hk _ after) by (done || by apply rest_advance).
  subst d1. by rewrite !advance_add, !length_app, Nat.add_assoc.
Qed.

Lemma coded_items {R T} (f : R -> list T) `{Setter R (list T) f} bound detail (enc : T -> Enc)
    (m : Dec T) (k : R -> Dec R) w value l v :
  list_wire (fun x => coded lim (enc x) m x) (bound lim) l ->
  coded lim w (k (value <| f := l |>)) v ->
  coded lim (encode_list enc l ;> w) (items f bound detail m k value) v.
Proof.
  intros (Hm & Hb & Hall) (b2 & Hb2 & Hw2 & Hr2).
  destruct (coded_elements enc m l Hall) as (b1 & Hl & Hw1 & Hr1).
  exists (be_bytes 4 (Z.of_nat (length l)) ++ b1 ++ b2). split; [|split].
  - rewrite be_bytes_S. done.
  - unfold encode_list. unfold kMaxCollectionElements in Hm. rewrite u32_small by lia.
    rewrite app_assoc. apply writes_seq; [|done]. apply writes_seq; [apply writes_append|done].
  - by apply reads_items.
Qed.

Lemma coded_items_last {R T} (f : R -> list T) `{Setter R (list T) f} bound detail (enc : T -> Enc)
    (m : Dec T) value l :
  list_wire (fun x => coded lim (enc x) m x) (bound lim) l ->
  coded lim (encode_list enc l) (items f bound detail m done value) (value <| f := l |>).
Proof.
  intros (Hm & Hb & Hall).
  destruct (coded_elements enc m l Hall) as (b1 & Hl & Hw1 & Hr1).
  exists (be_bytes 4 (Z.of_nat (length l)) ++ b1 ++ []). split; [|split].
  - rewrite be_bytes_S. done.
  - rewrite app_nil_r. unfold encode_list, kMaxCollectionElements in *. rewrite u32_small by lia.
    apply writes_seq; [apply writes_append|done].
  - apply reads_items; try done. apply reads_return.
Qed.

Lemma list_wire_impl {T} (P Q : T -> Prop) bound l :
  (forall x, P x -> Q x) -> list_wire P bound l -> list_wire Q bound l.
Proof. intros HPQ (? & ? & ?). split_and!; try done. by eapply Forall_impl. Qed.

(** ** Payloads *)

Lemma coded_payload {T} (enc : T -> Enc) (dec : T -> Dec T) initial v :
  coded lim (enc v) (dec initial) v ->
  decode_payload dec initial (encode_payload enc v) lim = Val v.
Proof.
  intros (b & _ & Hw & Hr). unfold decode_payload, encode_payload.
  rewrite (Hw Encoder_default) by done. cbn [enc_raw app Encoder_default].
  rewrite (Hr (Decoder_init b lim) []) by (done || unfold rest; cbn; by rewrite app_nil_r).
  unfold expect_end. change (dec_ok (advance _ _)) with true. cbn [negb].
  unfold at_end, advance. cbn. by rewrite Nat.eqb_refl.
Qed.

End primitives.
