(* ===== verification/CodecProps.v ===== *)
(** * CodecProps: every domain codec reads back what it writes

    For each record [X] of [Codec], [X_wire lim v] collects what a C++ value of
    that type satisfies by its types (integers within their width, identities of
    16 bytes) together with what the encoder and the decoder demand (strings of
    at most 512 bytes of valid UTF-8, collections within the protocol bound and
    the configured limits), and [coded_X] is the round trip under it. *)

From stdpp Require Import base gmap list strings.
From Stdlib Require Import Ascii ZArith Lia.
From S2P Require Import Prelude Status Ids Bytes Hash Enums Model Fence Shaper.
From S2P Require Import EngineState EngineAuthority EngineAdmission EngineLifecycle.
From S2P Require Import EngineInspect Wire Codec WireTheory.

Lemma coded_enum_of {E} (value : E -> Z) (of_value : Z -> option E) zero x lim :
  (forall y, of_value (value y) = Some y) ->
  coded lim (encode_enum value x) (decode_enum of_value zero) x.
Proof. intros H. by apply coded_enum. Qed.

Lemma coded_eq {A} lim w (m : Dec A) x y : coded lim w m x -> x = y -> coded lim w m y.
Proof. by intros ? <-. Qed.

#[export] Hint Resolve coded_u32 coded_u64 coded_i64 coded_cast coded_boolean coded_string coded_bytes
  coded_id coded_scalar coded_gen coded_Digest coded_epoch coded_ErrorCode : codec.
#[export] Hint Extern 2 (coded _ (encode_enum _ _) _ _) =>
  apply coded_enum_of; intros []; reflexivity : codec.
#[export] Hint Unfold id_wire scalar_wire gen_wire : codec.

(** The steps of a decoder are taken by their lemmas only. *)
#[global] Opaque into into_sub optional items guard_ok dec_then dec_bind enc_seq encode_list
  encode_optional encode_enum encode_id encode_scalar encode_gen encode_Digest encode_ErrorCode
  encode_CoordinatorEpoch enc_u8 enc_u16 enc_u32 enc_u64 enc_i64 enc_boolean enc_string enc_bytes
  decode_enum decode_id decode_scalar decode_gen decode_Digest decode_ErrorCode
  decode_CoordinatorEpoch dec_u8 dec_u16 dec_u32 dec_u64 dec_i64 dec_boolean dec_string dec_bytes.

(** Simplify the record filled in so far. *)
Ltac fill :=
  try match goal with
  | |- coded _ _ (_ ?v) _ => let v' := eval lazy in v in change v with v'
  end.
Ltac codec_elements :=
  match goal with H : list_wire _ _ ?l |- list_wire _ _ ?l => revert H; apply list_wire_impl end;
  intros; eauto with codec.
Ltac codec_step :=
  eapply coded_eq;
  [first
    [ eapply coded_into; solve [eauto with codec]
    | eapply coded_into_sub; intros; solve [eauto with codec]
    | eapply coded_optional; intros ? Hsome; cbn in Hsome; subst; cbn [option_wire] in *;
      solve [eauto with codec]
    | eapply coded_items_last; codec_elements ]
  | reflexivity ].
(** The round trip of a record whose conditions are in the context. *)
Ltac codec_steps :=
  repeat first
    [ eapply coded_guard; fill
    | eapply coded_items; [codec_elements|]; fill
    | eapply coded_then; [codec_step|]; fill
    | codec_step
    | eapply coded_bind; [solve [eauto with codec]|]; cbv beta ].
Ltac codec :=
  intros Hwire;
  match type of Hwire with ?P _ ?v => unfold P in Hwire; destruct v end;
  match goal with |- coded _ (?E _) (?D ?i) _ => destruct i; unfold E, D end;
  cbn -[in_u64 in_u32 in_s64] in Hwire; destruct_and? Hwire; codec_steps.

Definition ShardDescriptor_wire (lim : Limits) (v : ShardDescriptor) : Prop :=
  scalar_wire (sd_index v) /\ in_u64 (sd_declared_bytes v) /\
  Digest_wire (sd_declared_digest v) /\ scalar_wire (sd_path_class v).
Lemma coded_ShardDescriptor lim v initial :
  ShardDescriptor_wire lim v -> coded lim (encode_ShardDescriptor v) (decode_ShardDescriptor initial) v.
Proof. codec. Qed.
#[export] Hint Resolve coded_ShardDescriptor : codec.

Definition CheckpointManifest_wire (lim : Limits) (v : CheckpointManifest) : Prop :=
  id_wire (mf_checkpoint v) /\ gen_wire (mf_generation v) /\ id_wire (mf_workload v) /\
  gen_wire (mf_contract_generation v) /\ in_u64 (mf_total_bytes v) /\
  list_wire (ShardDescriptor_wire lim) (lim_max_shards_per_checkpoint lim) (mf_shards v) /\
  Digest_wire (mf_manifest_digest v) /\ in_s64 (mf_declared_at v).
Lemma coded_CheckpointManifest lim v initial :
  CheckpointManifest_wire lim v -> coded lim (encode_CheckpointManifest v) (decode_CheckpointManifest initial) v.
Proof. codec. Qed.
#[export] Hint Resolve coded_CheckpointManifest : codec.

Definition Limits_wire (lim : Limits) (v : Limits) : Prop :=
  in_u32 (lim_max_shards_per_checkpoint v) /\ in_u64 (lim_max_checkpoint_bytes v) /\
  in_u32 (lim_max_sessions v) /\ in_u32 (lim_max_attempts_in_flight v) /\
  in_u32 (lim_max_retained_history v) /\ in_u32 (lim_max_wave_width v) /\
  in_u32 (lim_max_path_classes v) /\ in_u32 (lim_max_sessions_per_workload v) /\
  in_u32 (lim_max_workloads v) /\ in_u64 (lim_max_identity_text_bytes v) /\
  in_u64 (lim_max_string_bytes v) /\ in_u32 (lim_max_supersession_chain v).
Lemma coded_Limits lim v initial :
  Limits_wire lim v -> coded lim (encode_Limits v) (decode_Limits initial) v.
Proof. codec. Qed.
#[export] Hint Resolve coded_Limits : codec.

Definition IsolationEnvelopeConfig_wire (lim : Limits) (v : IsolationEnvelopeConfig) : Prop :=
  in_u64 (iec_ceiling_bps v) /\ in_u64 (iec_burst_window_ns v) /\
  in_u32 (iec_max_in_flight_sessions v).
Lemma coded_IsolationEnvelopeConfig lim v initial :
  IsolationEnvelopeConfig_wire lim v -> coded lim (encode_IsolationEnvelopeConfig v) (decode_IsolationEnvelopeConfig initial) v.
Proof. codec. Qed.
#[export] Hint Resolve coded_IsolationEnvelopeConfig : codec.

Definition PolicySnapshot_wire (lim : Limits) (v : PolicySnapshot) : Prop :=
  gen_wire (pol_generation v) /\
  list_wire (IsolationEnvelopeConfig_wire lim) 8 (pol_envelopes v) /\
  in_u32 (pol_max_wave_width v) /\ in_u64 (pol_max_session_bytes v) /\
  in_u32 (pol_max_sessions v) /\ in_u32 (pol_max_attempts_in_flight v) /\
  in_u32 (pol_retained_history v) /\ in_s64 (pol_defer_horizon_ns v) /\
  in_s64 (pol_default_deadline_ns v) /\ in_s64 (pol_minimum_rate_bps_for_admission v) /\
  (Limits_wire lim) (pol_limits v).
Lemma coded_PolicySnapshot lim v initial :
  PolicySnapshot_wire lim v -> coded lim (encode_PolicySnapshot v) (decode_PolicySnapshot initial) v.
Proof. codec. Qed.
#[export] Hint Resolve coded_PolicySnapshot : codec.

Definition PathClass_wire (lim : Limits) (v : PathClass) : Prop :=
  scalar_wire (pc_id v) /\ in_u64 (pc_capacity_bps v) /\ string_wire (pc_label v).
Lemma coded_PathClass lim v initial :
  PathClass_wire lim v -> coded lim (encode_PathClass v) (decode_PathClass initial) v.
Proof. codec. Qed.
#[export] Hint Resolve coded_PathClass : codec.

Definition TopologySnapshot_wire (lim : Limits) (v : TopologySnapshot) : Prop :=
  gen_wire (topo_generation v) /\
  list_wire (PathClass_wire lim) (lim_max_path_classes lim) (topo_path_classes v).
Lemma coded_TopologySnapshot lim v initial :
  TopologySnapshot_wire lim v -> coded lim (encode_TopologySnapshot v) (decode_TopologySnapshot initial) v.
Proof. codec. Qed.
#[export] Hint Resolve coded_TopologySnapshot : codec.

Definition WorkloadContract_wire (lim : Limits) (v : WorkloadContract) : Prop :=
  id_wire (wc_workload v) /\ gen_wire (wc_generation v) /\ in_u64 (wc_ceiling_bps v) /\
  in_u64 (wc_floor_bps v) /\ in_u32 (wc_max_in_flight_sessions v) /\
  in_u32 (wc_max_shards_per_wave v) /\ in_s64 (wc_deadline_budget_ns v).
Lemma coded_WorkloadContract lim v initial :
  WorkloadContract_wire lim v -> coded lim (encode_WorkloadContract v) (decode_WorkloadContract initial) v.
Proof. codec. Qed.
#[export] Hint Resolve coded_WorkloadContract : codec.

Definition SessionRequest_wire (lim : Limits) (v : SessionRequest) : Prop :=
  id_wire (req_command v) /\ id_wire (req_workload v) /\ gen_wire (req_contract_generation v) /\
  gen_wire (req_policy_generation v) /\ gen_wire (req_topology_generation v) /\
  id_wire (req_checkpoint v) /\ gen_wire (req_checkpoint_generation v) /\
  in_u64 (req_requested_rate_bps v) /\ in_s64 (req_deadline_horizon_ns v) /\
  (CheckpointManifest_wire lim) (req_manifest v).
Lemma coded_SessionRequest lim v initial :
  SessionRequest_wire lim v -> coded lim (encode_SessionRequest v) (decode_SessionRequest initial) v.
Proof. codec. Qed.
#[export] Hint Resolve coded_SessionRequest : codec.

Definition CommandFence_wire (lim : Limits) (v : CommandFence) : Prop :=
  epoch_wire (cf_epoch v) /\ gen_wire (cf_policy_generation v) /\
  gen_wire (cf_topology_generation v) /\ gen_wire (cf_contract_generation v) /\
  option_wire gen_wire (cf_checkpoint_generation v) /\
  option_wire gen_wire (cf_attempt_sequence v).
Lemma coded_CommandFence lim v initial :
  CommandFence_wire lim v -> coded lim (encode_CommandFence v) (decode_CommandFence initial) v.
Proof. codec. Qed.
#[export] Hint Resolve coded_CommandFence : codec.

Definition WavePlan_wire (lim : Limits) (v : WavePlan) : Prop :=
  scalar_wire (wp_index v) /\
  list_wire scalar_wire (lim_max_shards_per_checkpoint lim) (wp_shards v) /\
  in_u64 (wp_planned_bytes v).
Lemma coded_WavePlan lim v initial :
  WavePlan_wire lim v -> coded lim (encode_WavePlan v) (decode_WavePlan initial) v.
Proof. codec. Qed.
#[export] Hint Resolve coded_WavePlan : codec.

Definition TrafficEnvelope_wire (lim : Limits) (v : TrafficEnvelope) : Prop :=
  id_wire (te_session v) /\ gen_wire (te_sequence v) /\ in_u64 (te_rate_bps v) /\
  in_u64 (te_burst_bytes v) /\ in_u32 (te_wave_width v) /\
  list_wire (WavePlan_wire lim) (lim_max_shards_per_checkpoint lim) (te_waves v) /\
  option_wire scalar_wire (te_path_class v) /\ in_s64 (te_issued_at v) /\
  in_s64 (te_deadline_target v).
Lemma coded_TrafficEnvelope lim v initial :
  TrafficEnvelope_wire lim v -> coded lim (encode_TrafficEnvelope v) (decode_TrafficEnvelope initial) v.
Proof. codec. Qed.
#[export] Hint Resolve coded_TrafficEnvelope : codec.

Definition AdmissionDecision_wire (lim : Limits) (v : AdmissionDecision) : Prop :=
  string_wire (ad_detail v) /\ id_wire (ad_session v) /\
  option_wire (TrafficEnvelope_wire lim) (ad_envelope v) /\
  list_wire id_wire (u32 (lim_max_supersession_chain lim * 8)) (ad_superseded v) /\
  option_wire in_s64 (ad_retry_after v) /\ epoch_wire (ad_epoch v) /\ in_s64 (ad_decided_at v).
Lemma coded_AdmissionDecision lim v initial :
  AdmissionDecision_wire lim v -> coded lim (encode_AdmissionDecision v) (decode_AdmissionDecision initial) v.
Proof. codec. Qed.
#[export] Hint Resolve coded_AdmissionDecision : codec.

Definition WaveGrant_wire (lim : Limits) (v : WaveGrant) : Prop :=
  id_wire (wg_session v) /\ id_wire (wg_attempt v) /\ gen_wire (wg_sequence v) /\
  scalar_wire (wg_shard v) /\ scalar_wire (wg_wave v) /\ in_u64 (wg_max_bytes v) /\
  in_u64 (wg_rate_bps v) /\ in_u64 (wg_burst_bytes v) /\ in_s64 (wg_issued_at v) /\
  in_s64 (wg_expires_at v) /\ epoch_wire (wg_epoch v).
Lemma coded_WaveGrant lim v initial :
  WaveGrant_wire lim v -> coded lim (encode_WaveGrant v) (decode_WaveGrant initial) v.
Proof. codec. Qed.
#[export] Hint Resolve coded_WaveGrant : codec.

Definition WaveOutcome_wire (lim : Limits) (v : WaveOutcome) : Prop :=
  string_wire (wo_detail v) /\ option_wire (WaveGrant_wire lim) (wo_grant v) /\
  option_wire in_s64 (wo_retry_after v) /\ in_s64 (wo_decided_at v).
Lemma coded_WaveOutcome lim v initial :
  WaveOutcome_wire lim v -> coded lim (encode_WaveOutcome v) (decode_WaveOutcome initial) v.
Proof. codec. Qed.
#[export] Hint Resolve coded_WaveOutcome : codec.

Definition SourceCompleteEvidence_wire (lim : Limits) (v : SourceCompleteEvidence) : Prop :=
  id_wire (sce_session v) /\ id_wire (sce_attempt v) /\ gen_wire (sce_sequence v) /\
  scalar_wire (sce_wave v) /\ scalar_wire (sce_shard v) /\ in_u64 (sce_source_bytes v) /\
  Digest_wire (sce_source_digest v) /\ in_s64 (sce_observed_at v).
Lemma coded_SourceCompleteEvidence lim v initial :
  SourceCompleteEvidence_wire lim v -> coded lim (encode_SourceCompleteEvidence v) (decode_SourceCompleteEvidence initial) v.
Proof. codec. Qed.
#[export] Hint Resolve coded_SourceCompleteEvidence : codec.

Definition TransferEvidence_wire (lim : Limits) (v : TransferEvidence) : Prop :=
  id_wire (tev_session v) /\ id_wire (tev_attempt v) /\ gen_wire (tev_sequence v) /\
  scalar_wire (tev_shard v) /\ in_u64 (tev_arrived_bytes v) /\
  Digest_wire (tev_arrived_digest v) /\ in_s64 (tev_observed_at v).
Lemma coded_TransferEvidence lim v initial :
  TransferEvidence_wire lim v -> coded lim (encode_TransferEvidence v) (decode_TransferEvidence initial) v.
Proof. codec. Qed.
#[export] Hint Resolve coded_TransferEvidence : codec.

Definition VerificationEvidence_wire (lim : Limits) (v : VerificationEvidence) : Prop :=
  id_wire (vev_session v) /\ id_wire (vev_attempt v) /\ gen_wire (vev_sequence v) /\
  scalar_wire (vev_shard v) /\ in_u64 (vev_verified_bytes v) /\
  Digest_wire (vev_verified_digest v) /\ string_wire (vev_verifier_identity v) /\
  in_s64 (vev_observed_at v).
Lemma coded_VerificationEvidence lim v initial :
  VerificationEvidence_wire lim v -> coded lim (encode_VerificationEvidence v) (decode_VerificationEvidence initial) v.
Proof. codec. Qed.
#[export] Hint Resolve coded_VerificationEvidence : codec.

Definition DurabilityAssertion_wire (lim : Limits) (v : DurabilityAssertion) : Prop :=
  string_wire (da_backend_identity v) /\ Digest_wire (da_evidence_digest v) /\
  in_s64 (da_observed_at v).
Lemma coded_DurabilityAssertion lim v initial :
  DurabilityAssertion_wire lim v -> coded lim (encode_DurabilityAssertion v) (decode_DurabilityAssertion initial) v.
Proof. codec. Qed.
#[export] Hint Resolve coded_DurabilityAssertion : codec.

Definition ShardProgress_wire (lim : Limits) (v : ShardProgress) : Prop :=
  scalar_wire (spr_index v) /\ in_u64 (spr_declared_bytes v) /\
  in_u64 (spr_transferred_bytes v) /\ in_u64 (spr_verified_bytes v) /\
  gen_wire (spr_sequence v) /\ option_wire id_wire (spr_attempt v) /\
  Digest_wire (spr_declared_digest v) /\ option_wire Digest_wire (spr_observed_digest v).
Lemma coded_ShardProgress lim v initial :
  ShardProgress_wire lim v -> coded lim (encode_ShardProgress v) (decode_ShardProgress initial) v.
Proof. codec. Qed.
#[export] Hint Resolve coded_ShardProgress : codec.

Definition SessionView_wire (lim : Limits) (v : SessionView) : Prop :=
  id_wire (sv_session v) /\ id_wire (sv_checkpoint v) /\ gen_wire (sv_checkpoint_generation v) /\
  id_wire (sv_workload v) /\ gen_wire (sv_contract_generation v) /\
  in_u64 (sv_declared_bytes v) /\ in_u64 (sv_transferred_bytes v) /\
  in_u64 (sv_verified_bytes v) /\ in_u32 (sv_shards_total v) /\
  in_u32 (sv_shards_transferred v) /\ in_u32 (sv_shards_verified v) /\
  in_u32 (sv_shards_ambiguous v) /\ string_wire (sv_last_detail v) /\
  string_wire (sv_stale_reason v) /\ option_wire id_wire (sv_superseded_by v) /\
  option_wire (TrafficEnvelope_wire lim) (sv_envelope v) /\
  list_wire (ShardProgress_wire lim) (lim_max_shards_per_checkpoint lim) (sv_shards v) /\
  in_s64 (sv_created_at v) /\ in_s64 (sv_updated_at v) /\
  option_wire in_s64 (sv_deadline_target v).
Lemma coded_SessionView lim v initial :
  SessionView_wire lim v -> coded lim (encode_SessionView v) (decode_SessionView initial) v.
Proof. codec. Qed.
#[export] Hint Resolve coded_SessionView : codec.

Definition SessionSummary_wire (lim : Limits) (v : SessionSummary) : Prop :=
  id_wire (ss_session v) /\ id_wire (ss_checkpoint v) /\ gen_wire (ss_checkpoint_generation v) /\
  id_wire (ss_workload v) /\ in_u64 (ss_declared_bytes v) /\ in_u64 (ss_transferred_bytes v) /\
  in_u64 (ss_verified_bytes v) /\ in_s64 (ss_updated_at v).
Lemma coded_SessionSummary lim v initial :
  SessionSummary_wire lim v -> coded lim (encode_SessionSummary v) (decode_SessionSummary initial) v.
Proof. codec. Qed.
#[export] Hint Resolve coded_SessionSummary : codec.

Definition AccountingSnapshot_wire (lim : Limits) (v : AccountingSnapshot) : Prop :=
  in_u64 (acc_bytes_admitted v) /\ in_u64 (acc_bytes_transferred v) /\
  in_u64 (acc_bytes_verified v) /\ in_u64 (acc_bytes_cancelled v) /\
  in_u64 (acc_bytes_wasted v) /\ in_u64 (acc_bytes_unproven v) /\
  in_u64 (acc_bytes_deferred v) /\ in_u64 (acc_granted_outstanding_bytes v) /\
  in_u64 (acc_sessions_admitted v) /\ in_u64 (acc_sessions_deferred v) /\
  in_u64 (acc_sessions_denied v) /\ in_u64 (acc_sessions_completed v) /\
  in_u64 (acc_sessions_cancelled v) /\ in_u64 (acc_sessions_superseded v) /\
  in_u64 (acc_sessions_failed v) /\ in_u64 (acc_commands_processed v) /\
  in_u32 (acc_active_sessions v) /\ in_u32 (acc_active_attempts v).
Lemma coded_AccountingSnapshot lim v initial :
  AccountingSnapshot_wire lim v -> coded lim (encode_AccountingSnapshot v) (decode_AccountingSnapshot initial) v.
Proof. codec. Qed.
#[export] Hint Resolve coded_AccountingSnapshot : codec.

Definition Explanation_wire (lim : Limits) (v : Explanation) : Prop :=
  id_wire (ex_session v) /\ string_wire (ex_summary v) /\
  list_wire string_wire 4096 (ex_timeline v).
Lemma coded_Explanation lim v initial :
  Explanation_wire lim v -> coded lim (encode_Explanation v) (decode_Explanation initial) v.
Proof. codec. Qed.
#[export] Hint Resolve coded_Explanation : codec.

Definition FabricEvent_wire (lim : Limits) (v : FabricEvent) : Prop :=
  id_wire (ev_session v) /\ string_wire (ev_detail v) /\ in_s64 (ev_at v).
Lemma coded_FabricEvent lim v initial :
  FabricEvent_wire lim v -> coded lim (encode_FabricEvent v) (decode_FabricEvent initial) v.
Proof. codec. Qed.
#[export] Hint Resolve coded_FabricEvent : codec.

Definition contract_generation_wire (r : WorkloadId * WorkloadContractGeneration) : Prop :=
  id_wire r.1 /\ gen_wire r.2.
Lemma coded_contract_generation lim r :
  contract_generation_wire r ->
  coded lim (encode_ContractGenerationRecord r) decode_ContractGenerationRecord r.
Proof.
  intros [Hw Hg]. eapply coded_bind; [by apply coded_id|].
  eapply coded_map; [by apply coded_gen|]. intros d _ _. by destruct r.
Qed.
#[export] Hint Resolve coded_contract_generation : codec.
