(* ===== verification/WireCanon.v ===== *)
(** * WireCanon: what a decoder accepts is what an encoder writes

    [accepts lim m P] says of a decoder action that whenever it ends without a
    failure it has read some bytes [b] and produced a value [a] with [P a b].
    With [P a b] saying that the encoder writes exactly [b] for [a], it states
    that the decoder takes canonical encodings only.  [sticky m] says that [m]
    does nothing once the decoder has failed. *)

From stdpp Require Import base gmap list strings.
From Stdlib Require Import Ascii ZArith Lia.
From S2P Require Import Prelude Status Ids Bytes Hash Enums Model Wire WireTheory.

(** ** Big-endian integers, the other way *)

Lemma be_bytes_snoc n v : be_bytes (S n) v = be_bytes n (Z.shiftr v 8) ++ [Z.land v 255].
Proof.
  unfold be_bytes. rewrite seq_S, map_app. cbn [map]. f_equal.
  - apply map_ext_in. intros i Hi%in_seq. rewrite Z.shiftr_shiftr by lia. do 2 f_equal. lia.
  - do 2 f_equal. rewrite <-(Z.shiftr_0_r v) at 2. f_equal. lia.
Qed.

Lemma be_bytes_combine (wrap : Z -> Z) l :
  Forall byte_ok l -> (forall x, 0 <= x < 2 ^ (8 * Z.of_nat (length l)) -> wrap x = x) ->
  be_bytes (length l) (be_combine wrap l) = l /\
  0 <= be_combine wrap l < 2 ^ (8 * Z.of_nat (length l)).
Proof.
  intros Hl Hw. induction l as [|b l IH] using rev_ind; [cbn; split; [done|lia]|].
  apply Forall_app in Hl as [Hl [Hb _]%Forall_cons]. unfold byte_ok in Hb.
  rewrite length_app in *. cbn [length] in *. rewrite Nat.add_1_r in *.
  assert (2 ^ (8 * Z.of_nat (S (length l))) = 256 * 2 ^ (8 * Z.of_nat (length l))) as Hp.
  { replace (8 * Z.of_nat (S (length l))) with (8 + 8 * Z.of_nat (length l)) by lia.
    rewrite Z.pow_add_r by lia. done. }
  rewrite Hp in *. pose proof (Z.pow_pos_nonneg 2 (8 * Z.of_nat (length l))) as Hpos.
  destruct IH as [IH1 IH2]; [done| |].
  { intros x Hx. apply Hw. lia. }
  unfold be_combine. rewrite foldl_app. cbn [foldl]. fold (be_combine wrap l).
  set (x := be_combine wrap l) in *.
  assert (wrap (Z.shiftl x 8) = Z.shiftl x 8) as ->.
  { apply Hw. rewrite Z.shiftl_mul_pow2 by lia. lia. }
  rewrite byte_join by lia. split; [|lia].
  rewrite be_bytes_snoc, Z.shiftr_div_pow2 by lia. change (2 ^ 8) with 256.
  rewrite Z.div_add_l, (Z.div_small b), Z.add_0_r, IH1 by lia. do 2 f_equal.
  change 255 with (Z.ones 8). rewrite Z.land_ones, Z.add_comm, Z.mod_add, Z.mod_small by lia. done.
Qed.

(** ** Sticky failure *)

Definition sticky {A} (m : Dec A) : Prop := forall d, dec_ok d = false -> (m d).2 = d.

Lemma sticky_return {A} (a : A) : sticky (dec_return a).
Proof. by intros d _. Qed.
Lemma sticky_fail {A} code detail (a : A) : sticky (dec_fail code detail a).
Proof. intros d Hd. unfold dec_fail. by rewrite Hd. Qed.
Lemma sticky_bind {A B} (m : Dec A) (k : A -> Dec B) :
  sticky m -> (forall a, sticky (k a)) -> sticky (dec_bind m k).
Proof.
  intros Hm Hk d Hd. unfold dec_bind. pose proof (Hm d Hd) as H1.
  destruct (m d) as [a d1]; cbn in H1; subst. by apply Hk.
Qed.
Lemma sticky_fixed {A} n (get : list Z -> A) zero : sticky (dec_fixed n get zero).
Proof. intros d Hd. unfold dec_fixed. by rewrite Hd. Qed.
(** A continuation that checks the status first. *)
Lemma sticky_checked {A} (a : A) (k : Decoder -> A * Decoder) :
  sticky (fun d => if negb (dec_ok d) then (a, d) else k d).
Proof. intros d Hd. by rewrite Hd. Qed.

Create HintDb sticky.
#[export] Hint Resolve sticky_return sticky_fail sticky_bind sticky_fixed sticky_checked : sticky.
Ltac sticky := repeat (apply sticky_bind; [|intros]); eauto with sticky.

Lemma sticky_i64 : sticky dec_i64. Proof. unfold dec_i64, dec_u64. sticky. Qed.
Lemma sticky_boolean : sticky dec_boolean. Proof. unfold dec_boolean, dec_u8. sticky. Qed.
Lemma sticky_bytes : sticky dec_bytes. Proof. unfold dec_bytes, dec_u32. sticky. Qed.
Lemma sticky_string : sticky dec_string. Proof. unfold dec_string, dec_u16. sticky. Qed.
Lemma sticky_enum {E} (of_value : Z -> option E) zero : sticky (decode_enum of_value zero).
Proof. unfold decode_enum, dec_u8. sticky. destruct (of_value a); sticky. Qed.
Lemma sticky_ErrorCode : sticky decode_ErrorCode.
Proof. unfold decode_ErrorCode, dec_u16. sticky. destruct (ErrorCode.of_value a); sticky. Qed.
Lemma sticky_id {T} : sticky (@decode_id T). Proof. unfold decode_id, dec_uuid. sticky. Qed.
Lemma sticky_scalar {T} : sticky (@decode_scalar T).
Proof. unfold decode_scalar, dec_u64. sticky. destruct (_ >? _); sticky. Qed.
Lemma sticky_gen {T} : sticky (@decode_gen T). Proof. unfold decode_gen, dec_u64. sticky. Qed.
Lemma sticky_Digest : sticky decode_Digest.
Proof. unfold decode_Digest, dec_u32, dec_u64. sticky. Qed.
Lemma sticky_epoch : sticky decode_CoordinatorEpoch.
Proof. unfold decode_CoordinatorEpoch, decode_gen, dec_u64. sticky. Qed.
Lemma sticky_u8 : sticky dec_u8. Proof. apply sticky_fixed. Qed.
Lemma sticky_u16 : sticky dec_u16. Proof. apply sticky_fixed. Qed.
Lemma sticky_u32 : sticky dec_u32. Proof. apply sticky_fixed. Qed.
Lemma sticky_u64 : sticky dec_u64. Proof. apply sticky_fixed. Qed.
#[export] Hint Resolve sticky_i64 sticky_boolean sticky_bytes sticky_string sticky_enum
  sticky_ErrorCode sticky_id sticky_scalar sticky_gen sticky_Digest sticky_epoch sticky_u8
  sticky_u16 sticky_u32 sticky_u64 : sticky.

Lemma sticky_into {R T} (f : R -> T) `{Setter R T f} (m : Dec T) v :
  sticky m -> sticky (into f m v).
Proof. intros Hm. unfold into. by sticky. Qed.
Lemma sticky_into_sub {R T} (f : R -> T) `{Setter R T f} (g : T -> Dec T) v :
  (forall i, sticky (g i)) -> sticky (into_sub f g v).
Proof. intros Hm. unfold into_sub. by sticky. Qed.
Lemma sticky_optional {R T} (f : R -> option T) `{Setter R (option T) f} (m : Dec T) v :
  sticky m -> sticky (optional f m v).
Proof. intros Hm. unfold optional. sticky. destruct a; sticky. Qed.
Lemma sticky_then {R} (f g : R -> Dec R) v :
  (forall v, sticky (f v)) -> (forall v, sticky (g v)) -> sticky ((f >=> g) v).
Proof. intros Hf Hg. unfold dec_then. by sticky. Qed.
Lemma sticky_guard {R} (g : R -> Dec R) v : sticky (guard_ok g v).
Proof. intros d Hd. unfold guard_ok. by rewrite Hd. Qed.
Lemma sticky_items {R T} (f : R -> list T) `{Setter R (list T) f} bound detail (m : Dec T) k v :
  sticky (items f bound detail m k v).
Proof. unfold items, collection_count, dec_u32. sticky. Qed.
#[export] Hint Resolve sticky_into sticky_into_sub sticky_optional sticky_then sticky_guard
  sticky_items : sticky.
(** The body of a [decode] overload. *)
Ltac sticky_record :=
  repeat first
    [ apply sticky_then; intros | apply sticky_guard | apply sticky_items | apply sticky_into
    | apply sticky_into_sub; intros | apply sticky_optional | apply sticky_bind; [|intros] ];
  eauto with sticky.

(** ** Accepting *)

Section accepting.
Context (lim : Limits).

Definition accepts {A} (m : Dec A) (P : A -> list Z -> Prop) : Prop :=
  forall d a d', dec_ok d = true -> dec_limits d = lim -> Forall byte_ok (dec_data d) ->
    m d = (a, d') -> dec_ok d' = true ->
    exists b, rest d = b ++ rest d' /\ d' = advance (length b) d /\ P a b.

Lemma accepts_impl {A} (m : Dec A) (P Q : A -> list Z -> Prop) :
  accepts m P -> (forall a b, P a b -> Q a b) -> accepts m Q.
Proof.
  intros Hm HPQ d a d' Hok Hlim Hb Hd Hok'.
  destruct (Hm d a d' Hok Hlim Hb Hd Hok') as (b & H1 & H2 & H3). eauto.
Qed.

Lemma accepts_bind {A B} (m : Dec A) (k : A -> Dec B) P Q :
  accepts m P -> (forall a, sticky (k a)) ->
  (forall a b, P a b -> accepts (k a) (fun c b' => Q c (b ++ b'))) -> accepts (dec_bind m k) Q.
Proof.
  intros Hm Hst Hk d c d' Hok Hlim Hby Hd Hok'. unfold dec_bind in Hd.
  destruct (m d) as [a d1] eqn:E. destruct (dec_ok d1) eqn:Hok1.
  2: { pose proof (Hst a d1 Hok1) as Hs. rewrite Hd in Hs. cbn in Hs. subst. congruence. }
  destruct (Hm d a d1 Hok Hlim Hby E Hok1) as (b & Hr & -> & HP).
  destruct (Hk a b HP _ c d' Hok1 Hlim Hby Hd Hok') as (b' & Hr' & -> & HQ).
  exists (b ++ b'). split; [by rewrite Hr, Hr', app_assoc|].
  split; [by rewrite advance_add, length_app|done].
Qed.

Lemma accepts_return {A} (a : A) (P : A -> list Z -> Prop) : P a [] -> accepts (dec_return a) P.
Proof.
  intros HP d x d' _ _ _ Hd _. injection Hd as <- <-. exists []. split; [done|]. split; [|done].
  unfold advance, upd. destruct d; cbn. by rewrite Nat.add_0_r.
Qed.

(** The last statement of a body: a value computed from what was read. *)
Lemma accepts_map {A B} (m : Dec A) (g : A -> B) P (Q : B -> list Z -> Prop) :
  accepts m P -> (forall a b, P a b -> Q (g a) b) ->
  accepts (dec_bind m (fun a => dec_return (g a))) Q.
Proof.
  intros Hm HPQ. eapply accepts_bind; [exact Hm|intros; apply sticky_return|].
  intros a b HP. apply accepts_return. rewrite app_nil_r. auto.
Qed.

Lemma fail_not_ok {A} code detail (a : A) d : code <> ErrorCode.Ok ->
  dec_ok (dec_fail code detail a d).2 = false.
Proof.
  intros Hc. unfold dec_fail. destruct (dec_ok d) eqn:E; [|done]. cbn. by apply error_not_ok.
Qed.
Lemma accepts_fail {A} code detail (a : A) P : code <> ErrorCode.Ok ->
  accepts (dec_fail code detail a) P.
Proof.
  intros Hc d x d' _ _ _ Hd Hok. pose proof (fail_not_ok code detail a d Hc) as Hf.
  rewrite Hd in Hf. cbn in Hf. congruence.
Qed.

Lemma require_true n d d' : require n d = (true, d') -> d' = d /\ (n <= remaining d)%nat.
Proof.
  unfold require. destruct (_ <? _)%nat eqn:E; [discriminate|]. intros [= <-].
  apply Nat.ltb_ge in E. done.
Qed.
Lemma require_false n d d' : dec_ok d = true -> require n d = (false, d') -> dec_ok d' = false.
Proof.
  intros Hd. unfold require. destruct (_ <? _)%nat; [|discriminate].
  intros H. by rewrite <-(fail_not_ok ErrorCode.TruncatedInput
    "message ended before the declared length" false d), H.
Qed.
Lemma view_rest n d : (n <= remaining d)%nat ->
  rest d = view n d ++ rest (advance n d) /\ length (view n d) = n.
Proof.
  intros Hn. rewrite remaining_rest in Hn. unfold view, rest in *. cbn. rewrite <-drop_drop.
  rewrite take_drop. split; [done|]. rewrite length_take. lia.
Qed.
Lemma view_ok n d : Forall byte_ok (dec_data d) -> Forall byte_ok (view n d).
Proof. intros H. by apply Forall_take, Forall_drop. Qed.

Lemma accepts_fixed {A} n (get : list Z -> A) zero P :
  (forall b, length b = n -> Forall byte_ok b -> P (get b) b) -> accepts (dec_fixed n get zero) P.
Proof.
  intros HP d a d' Hok _ Hby Hd Hok'. unfold dec_fixed in Hd. rewrite Hok in Hd. cbn [negb] in Hd.
  destruct (require n d) as [av d1] eqn:E. destruct av; cbn [negb] in Hd.
  - apply require_true in E as [-> Hn]. injection Hd as <- <-.
    destruct (view_rest n d Hn) as [Hv Hl]. exists (view n d). rewrite Hl.
    split; [done|]. split; [done|]. apply HP; [done|by apply view_ok].
  - injection Hd as <- <-. pose proof (require_false n d d1 Hok E). congruence.
Qed.

Lemma get_int_canon n (get : list Z -> Z) (wrap : Z -> Z) b :
  length b = n -> Forall byte_ok b -> get b = be_combine wrap b ->
  (forall x, 0 <= x < 2 ^ (8 * Z.of_nat n) -> wrap x = x) ->
  0 <= get b < 2 ^ (8 * Z.of_nat n) /\ be_bytes n (get b) = b.
Proof.
  intros Hn Hb -> Hw. subst n. destruct (be_bytes_combine wrap b Hb Hw). done.
Qed.

Lemma writes_as w b b' : writes w b -> b = b' -> writes w b'.
Proof. by intros ? <-. Qed.

Lemma accepts_u8 : accepts dec_u8 (fun v b => 0 <= v < 256 /\ writes (enc_u8 v) b).
Proof.
  apply accepts_fixed. intros [|x [|y l]] Hl Hb; try discriminate.
  apply Forall_cons in Hb as [Hx _]. split; [exact Hx|]. apply writes_append.
Qed.
Lemma accepts_u16 : accepts dec_u16 (fun v b => 0 <= v < 2 ^ 16 /\ writes (enc_u16 v) b).
Proof.
  apply accepts_fixed. intros b Hl Hb.
  assert (get_u16 b = be_combine u16 b) as Hg.
  { destruct b as [|x [|y [|z l]]]; try discriminate.
    apply Forall_cons in Hb as [Hx [Hy _]%Forall_cons]. by apply get_u16_combine. }
  destruct (get_int_canon 2 get_u16 u16 b Hl Hb Hg) as [Hv Hw].
  { intros x Hx. by apply Z.mod_small. }
  split; [exact Hv|]. eapply writes_as; [apply writes_append|done].
Qed.
Lemma accepts_u32 : accepts dec_u32 (fun v b => in_u32 v /\ writes (enc_u32 v) b).
Proof.
  apply accepts_fixed. intros b Hl Hb.
  destruct (get_int_canon 4 get_u32 u32 b Hl Hb eq_refl) as [Hv Hw]; [apply u32_small|].
  split; [exact Hv|]. eapply writes_as; [apply writes_append|done].
Qed.
Lemma accepts_u64 : accepts dec_u64 (fun v b => in_u64 v /\ writes (enc_u64 v) b).
Proof.
  apply accepts_fixed. intros b Hl Hb.
  destruct (get_int_canon 8 get_u64 u64 b Hl Hb eq_refl) as [Hv Hw]; [apply u64_small|].
  split; [exact Hv|]. eapply writes_as; [apply writes_append|done].
Qed.
Lemma u64_s64 v : in_u64 v -> u64 (s64 v) = v.
Proof.
  intros Hv. unfold s64, u64. rewrite Zminus_mod_idemp_l.
  replace (v + 2 ^ 63 - 2 ^ 63) with v by lia. by apply Z.mod_small.
Qed.
Lemma accepts_i64 : accepts dec_i64 (fun v b => in_s64 v /\ writes (enc_i64 v) b).
Proof.
  eapply accepts_map; [apply accepts_u64|]. intros v b [Hv Hw]. split; [apply s64_range|].
  unfold enc_i64. by rewrite u64_s64.
Qed.
Lemma accepts_uuid : accepts dec_uuid (fun u b => uuid_wf u /\ writes (enc_uuid u) b).
Proof. apply accepts_fixed. intros b Hl Hb. split; [done|]. apply writes_append. Qed.

(** A step that may fail but reads nothing. *)
Lemma accepts_pure {A} (m : Dec A) (P : A -> list Z -> Prop) :
  (forall d a d', dec_ok d = true -> dec_limits d = lim -> m d = (a, d') -> dec_ok d' = true ->
     d' = d /\ P a []) ->
  accepts m P.
Proof.
  intros H d a d' Hok Hlim _ Hd Hok'. destruct (H d a d' Hok Hlim Hd Hok') as [-> HP].
  exists []. split; [done|]. split; [|done].
  unfold advance, upd. destruct d; cbn. by rewrite Nat.add_0_r.
Qed.

(** Case analysis on the tests of such a step, refuting the failing ones. *)
Ltac refuse H Hok' :=
  match type of H with
  | context [dec_fail ?c ?s ?a ?d] =>
      let Hf := fresh in
      pose proof (fail_not_ok c s a d ltac:(discriminate)) as Hf; rewrite H in Hf; cbn in Hf; congruence
  end.

Lemma accepts_boolean : accepts dec_boolean (fun v b => writes (enc_boolean v) b).
Proof.
  eapply accepts_bind; [apply accepts_u8|intros; apply sticky_checked|].
  intros raw b [Hraw Hw]. apply accepts_pure. intros d a d' Hok _ Hd Hok'.
  rewrite Hok in Hd. cbn [negb] in Hd. destruct (raw >? 1) eqn:E; [refuse Hd Hok'|].
  injection Hd as <- <-. split; [done|]. rewrite app_nil_r. unfold enc_boolean.
  rewrite Z.gtb_ltb in E. bool_facts.
  assert (raw = 0 \/ raw = 1) as [-> | ->] by lia; done.
Qed.

Lemma accepts_bytes : accepts dec_bytes (fun v b => bytes_wire v /\ writes (enc_bytes v) b).
Proof.
  eapply accepts_bind; [apply accepts_u32|intros; apply sticky_checked|].
  intros len b [Hlen Hw] d a d' Hok _ Hby Hd Hok'. rewrite Hok in Hd. cbn [negb] in Hd.
  destruct (len >? kMaxPayloadBytes) eqn:E; [refuse Hd Hok'|].
  rewrite Z.gtb_ltb in E. bool_facts.
  destruct (require (Z.to_nat len) d) as [av d1] eqn:R. destruct av; cbn [negb] in Hd.
  2: { injection Hd as <- <-. pose proof (require_false _ d d1 Hok R). congruence. }
  apply require_true in R as [-> Hn]. injection Hd as <- <-.
  destruct (view_rest _ d Hn) as [Hv Hl]. set (v := view (Z.to_nat len) d) in *.
  unfold in_u32 in Hlen. assert (Z.of_nat (length v) = len) as HL by lia.
  exists v. rewrite Hl. split; [done|]. split; [done|]. unfold bytes_wire. split; [lia|].
  intros e He. unfold enc_bytes. rewrite HL. rewrite Z.gtb_ltb.
  destruct (Z.ltb_spec kMaxPayloadBytes len) as [|_]; [lia|].
  rewrite u32_small by lia. by apply writes_seq; [|apply writes_append|].
Qed.

Lemma bytes_string_back l :
  Forall byte_ok l -> string_bytes (text_of (string_from_bytes l)) = l.
Proof.
  intros Hl. unfold string_bytes, string_from_bytes, bytes_from_string.
  rewrite String.list_ascii_of_string_of_list_ascii, map_map.
  induction Hl as [|z l Hz _ IH]; [done|]. cbn [map]. by rewrite char_code_of, IH.
Qed.

Lemma accepts_string : accepts dec_string (fun v b => string_wire v /\ writes (enc_string v) b).
Proof.
  eapply accepts_bind; [apply accepts_u16|intros; apply sticky_checked|].
  intros len b [Hlen Hw] d a d' Hok _ Hby Hd Hok'. rewrite Hok in Hd. cbn [negb] in Hd.
  destruct (len >? kMaxStringBytes) eqn:E; [refuse Hd Hok'|].
  rewrite Z.gtb_ltb in E. bool_facts.
  destruct (require (Z.to_nat len) d) as [av d1] eqn:R. destruct av; cbn [negb] in Hd.
  2: { injection Hd as <- <-. pose proof (require_false _ d d1 Hok R). congruence. }
  apply require_true in R as [-> Hn]. destruct (view_rest _ d Hn) as [Hv Hl].
  pose proof (view_ok (Z.to_nat len) d Hby) as Hvok. set (v := view (Z.to_nat len) d) in *.
  destruct (is_valid_utf8 v) eqn:U; cbn [negb] in Hd; [|refuse Hd Hok'].
  injection Hd as <- <-. assert (Z.of_nat (length v) = len) as HL by lia.
  exists v. rewrite Hl. split; [done|]. split; [done|]. unfold string_wire.
  pose proof (bytes_string_back v Hvok) as Hback. rewrite Hback. split; [split; [lia|done]|].
  intros e He. unfold enc_string. cbn zeta. rewrite Hback, HL, Z.gtb_ltb.
  destruct (Z.ltb_spec kMaxStringBytes len) as [|_]; [lia|]. rewrite U. cbn [negb].
  unfold u16. rewrite Z.mod_small by lia. by apply writes_seq; [|apply writes_append|].
Qed.

Lemma accepts_enum {E} (value : E -> Z) (of_value : Z -> option E) zero :
  (forall raw x, of_value raw = Some x -> value x = raw) ->
  accepts (decode_enum of_value zero) (fun x b => writes (encode_enum value x) b).
Proof.
  intros Hv. eapply accepts_bind; [apply accepts_u8|intros raw; destruct (of_value raw); sticky|].
  intros raw b [_ Hw]. destruct (of_value raw) as [x|] eqn:Hx.
  - apply accepts_return. rewrite app_nil_r. unfold encode_enum. by rewrite (Hv raw x).
  - by apply accepts_fail.
Qed.
Lemma accepts_ErrorCode :
  accepts decode_ErrorCode (fun c b => writes (encode_ErrorCode c) b).
Proof.
  eapply accepts_bind;
    [apply accepts_u16|intros raw; destruct (ErrorCode.of_value raw); sticky|].
  intros raw b [_ Hw]. destruct (ErrorCode.of_value raw) as [x|] eqn:Hx.
  - apply accepts_return. rewrite app_nil_r. unfold encode_ErrorCode.
    by rewrite (of_value_value raw x).
  - by apply accepts_fail.
Qed.

Lemma accepts_id {T} :
  accepts (@decode_id T) (fun i b => uuid_wf (id_value i) /\ writes (encode_id i) b).
Proof. by eapply accepts_map; [apply accepts_uuid|]. Qed.
Lemma accepts_scalar {T} :
  accepts (@decode_scalar T) (fun s b => in_u32 (sc_value s) /\ writes (encode_scalar s) b).
Proof.
  eapply accepts_bind; [apply accepts_u64|intros raw; destruct (raw >? UINT32_MAX); sticky|].
  intros raw b [Hr Hw]. destruct (raw >? UINT32_MAX) eqn:E; [by apply accepts_fail|].
  apply accepts_return. rewrite app_nil_r. split; [|done].
  rewrite Z.gtb_ltb in E. bool_facts. unfold in_u64, in_u32, UINT32_MAX in *. cbn. lia.
Qed.
Lemma accepts_gen {T} :
  accepts (@decode_gen T) (fun g b => in_u64 (gen_value g) /\ writes (encode_gen g) b).
Proof. by eapply accepts_map; [apply accepts_u64|]. Qed.
Lemma accepts_Digest :
  accepts decode_Digest (fun g b => Digest_wire g /\ writes (encode_Digest g) b).
Proof.
  eapply accepts_bind; [apply accepts_u32|intros; sticky|]. intros c b [Hc Hw].
  eapply accepts_map; [apply accepts_u64|]. intros f b' [Hf Hw']. split; [done|].
  by apply writes_seq.
Qed.
Lemma accepts_epoch :
  accepts decode_CoordinatorEpoch (fun p b => epoch_wire p /\ writes (encode_CoordinatorEpoch p) b).
Proof.
  eapply accepts_bind; [apply accepts_gen|intros; sticky|]. intros c b [Hc Hw].
  eapply accepts_map; [apply accepts_gen|]. intros f b' [Hf Hw']. split; [done|].
  by apply writes_seq.
Qed.

(** ** Fields and collections *)

(** The canonical codec of a type: accepted values satisfy [W] and what was read
    is what [enc] writes for them. *)
Definition canon {A} (W : A -> Prop) (enc : A -> Enc) (m : Dec A) : Prop :=
  accepts m (fun a b => W a /\ writes (enc a) b).

Lemma accepts_into {R T} (f : R -> T) `{Setter R T f} W enc (m : Dec T) value :
  canon W enc m ->
  accepts (into f m value) (fun v b => exists x, (W x /\ writes (enc x) b) /\ v = value <| f := x |>).
Proof. intros Hm. eapply accepts_map; [exact Hm|]. intros x b HP. by exists x. Qed.
Lemma accepts_into_sub {R T} (f : R -> T) `{Setter R T f} W enc (g : T -> Dec T) value :
  (forall i, canon W enc (g i)) ->
  accepts (into_sub f g value)
    (fun v b => exists x, (W x /\ writes (enc x) b) /\ v = value <| f := x |>).
Proof. intros Hm. eapply accepts_map; [apply Hm|]. intros x b HP. by exists x. Qed.
Lemma accepts_optional {R T} (f : R -> option T) `{Setter R (option T) f} W enc (m : Dec T) value :
  canon W enc m -> sticky m ->
  accepts (optional f m value) (fun v b =>
    exists o, (option_wire W o /\ writes (encode_optional enc o) b) /\ v = value <| f := o |>).
Proof.
  intros Hm Hst. eapply accepts_bind; [apply accepts_boolean|intros [|]; sticky|].
  intros [|] b Hw.
  - eapply accepts_map; [exact Hm|]. intros x b' [HW Hw']. exists (Some x).
    split; [|done]. split; [done|]. by apply writes_seq.
  - apply accepts_return. exists None. rewrite app_nil_r. done.
Qed.
Lemma accepts_then {R} (f g : R -> Dec R) P Q v0 :
  accepts (f v0) P -> (forall v, sticky (g v)) ->
  (forall v b, P v b -> accepts (g v) (fun c b' => Q c (b ++ b'))) -> accepts ((f >=> g) v0) Q.
Proof. apply accepts_bind. Qed.
Lemma accepts_guard {R} (g : R -> Dec R) Q v0 : accepts (g v0) Q -> accepts (guard_ok g v0) Q.
Proof. intros Hg d a d' Hok Hlim Hby Hd. unfold guard_ok in Hd. rewrite Hok in Hd. by apply Hg. Qed.
Lemma accepts_checked {A} (a : A) (k : Dec A) Q :
  accepts k Q -> accepts (fun d => if negb (dec_ok d) then (a, d) else k d) Q.
Proof. intros Hk d x d' Hok Hlim Hby Hd. rewrite Hok in Hd. by apply Hk. Qed.

Lemma accepts_count :
  accepts collection_count (fun n b => 0 <= n <= kMaxCollectionElements /\ writes (enc_u32 n) b).
Proof.
  eapply accepts_bind; [apply accepts_u32|intros; apply sticky_checked|].
  intros n b [Hn Hw]. apply accepts_checked, accepts_pure. intros d a d' Hok _ Hd Hok'.
  destruct (n >? kMaxCollectionElements) eqn:E; [refuse Hd Hok'|].
  destruct (n >? Z.of_nat (remaining d)) eqn:E'; [refuse Hd Hok'|].
  injection Hd as <- <-. rewrite app_nil_r. split; [done|]. split; [|done].
  rewrite Z.gtb_ltb in E. bool_facts. unfold in_u32 in Hn. lia.
Qed.

Lemma sticky_decode_items {T} (m : Dec T) n out : sticky m -> sticky (decode_items n m out).
Proof. intros Hm. destruct n; cbn [decode_items]; sticky. Qed.

Lemma accepts_elements {T} W enc (m : Dec T) n out :
  canon W enc m -> sticky m ->
  accepts (decode_items n m out) (fun l b =>
    exists l', l = out ++ l' /\ length l' = n /\ Forall W l' /\ writes (encode_items enc l') b).
Proof.
  intros Hm Hst. revert out. induction n as [|n IH]; intros out; cbn [decode_items].
  - apply accepts_return. exists []. rewrite app_nil_r. split_and!; try done.
    intros [raw st] _. cbn. by rewrite app_nil_r.
  - eapply accepts_bind; [exact Hm|intros; apply sticky_checked|]. intros x b [HW Hw].
    apply accepts_checked. eapply accepts_impl; [apply IH|].
    intros l b' (l' & -> & Hl & Hall & Hw'). exists (x :: l'). rewrite <-app_assoc.
    split; [done|]. split; [cbn; lia|]. split; [by constructor|].
    exact (writes_seq (enc x) (encode_items enc l') b b' Hw Hw').
Qed.

Lemma accepts_items {R T} (f : R -> list T) `{Setter R (list T) f} bound detail W enc (m : Dec T)
    (k : R -> Dec R) value Q :
  canon W enc m -> sticky m ->
  (forall l b, list_wire W (bound lim) l -> writes (encode_list enc l) b ->
     accepts (k (value <| f := l |>)) (fun v b' => Q v (b ++ b'))) ->
  accepts (items f bound detail m k value) Q.
Proof.
  intros Hm Hst Hk. eapply accepts_bind; [apply accepts_count|intros; apply sticky_checked|].
  intros n b [Hn Hw]. apply accepts_checked. intros d a d' Hok Hlim Hby Hd Hok'.
  rewrite Hlim in Hd. destruct (n >? bound lim) eqn:E; [refuse Hd Hok'|].
  rewrite Z.gtb_ltb in E. bool_facts. unfold kMaxCollectionElements in Hn.
  refine (accepts_bind (decode_items (Z.to_nat n) m [])
            (fun out => guard_ok k (value <| f := out |>)) _ (fun c b' => Q c (b ++ b')) _ _ _
            d a d' Hok Hlim Hby Hd Hok').
  - by apply accepts_elements.
  - intros. apply sticky_guard.
  - intros l b' (l' & -> & Hl & Hall & Hw'). cbn [app]. apply accepts_guard.
    eapply accepts_impl; [apply (Hk l' (b ++ b'))|].
    + unfold list_wire, kMaxCollectionElements. split_and!; [lia|lia|done].
    + unfold encode_list. rewrite Hl, Z2Nat.id, u32_small by lia. by apply writes_seq.
    + intros v b''. by rewrite app_assoc.
Qed.

Lemma accepts_done {R} (v : R) (Q : R -> list Z -> Prop) : Q v [] -> accepts (done v) Q.
Proof. apply accepts_return. Qed.

Lemma canon_u32 : canon in_u32 enc_u32 dec_u32. Proof. exact accepts_u32. Qed.
Lemma canon_u64 : canon in_u64 enc_u64 dec_u64. Proof. exact accepts_u64. Qed.
Lemma canon_i64 : canon in_s64 enc_i64 dec_i64. Proof. exact accepts_i64. Qed.
Lemma canon_string : canon string_wire enc_string dec_string. Proof. exact accepts_string. Qed.
Lemma canon_bytes : canon bytes_wire enc_bytes dec_bytes. Proof. exact accepts_bytes. Qed.
Lemma canon_boolean : canon (fun _ => True) enc_boolean dec_boolean.
Proof. eapply accepts_impl; [apply accepts_boolean|done]. Qed.
Lemma canon_id {T} : canon id_wire encode_id (@decode_id T). Proof. exact accepts_id. Qed.
Lemma canon_scalar {T} : canon scalar_wire encode_scalar (@decode_scalar T).
Proof. exact accepts_scalar. Qed.
Lemma canon_gen {T} : canon gen_wire encode_gen (@decode_gen T). Proof. exact accepts_gen. Qed.
Lemma canon_Digest : canon Digest_wire encode_Digest decode_Digest. Proof. exact accepts_Digest. Qed.
Lemma canon_epoch : canon epoch_wire encode_CoordinatorEpoch decode_CoordinatorEpoch.
Proof. exact accepts_epoch. Qed.
Lemma canon_ErrorCode : canon (fun _ => True) encode_ErrorCode decode_ErrorCode.
Proof. eapply accepts_impl; [apply accepts_ErrorCode|done]. Qed.
Lemma canon_enum {E} (value : E -> Z) (all : list E) zero :
  canon (fun _ => True) (encode_enum value)
    (decode_enum (fun raw => List.find (fun x => value x =? raw) all) zero).
Proof.
  eapply accepts_impl; [apply (accepts_enum value)|done].
  intros raw x [_ H]%find_some. by apply Z.eqb_eq in H.
Qed.

(** ** Payloads *)

Lemma canon_payload {T} W (enc : T -> Enc) (dec : T -> Dec T) initial payload v :
  canon W enc (dec initial) -> Forall byte_ok payload ->
  decode_payload dec initial payload lim = Val v ->
  W v /\ encode_payload enc v = payload.
Proof.
  intros Hc Hby. unfold decode_payload.
  destruct (dec initial (Decoder_init payload lim)) as [a d] eqn:E.
  destruct (dec_ok d) eqn:Hok; cbn [negb]; [|discriminate].
  destruct (Hc (Decoder_init payload lim) a d eq_refl eq_refl Hby E Hok) as (b & Hr & Hd & HW & Hw).
  unfold expect_end. rewrite Hok. cbn [negb].
  destruct (at_end d) eqn:Hend; cbn [negb].
  - intros [= <-]. split; [done|]. unfold encode_payload. rewrite Hw by done. cbn.
    apply Nat.eqb_eq in Hend. unfold rest in Hr. rewrite Hend, drop_all, app_nil_r in Hr.
    symmetry. exact Hr.
  - pose proof (fail_not_ok ErrorCode.TrailingGarbage
      "message has trailing bytes after the payload" tt d ltac:(discriminate)) as Hf.
    destruct (dec_fail _ _ tt d) as [u d2] eqn:E2. cbn in Hf.
    unfold dec_ok in Hf. rewrite Hf. discriminate.
Qed.

End accepting.
