(* ===== verification/CodecCanon.v ===== *)
(** * CodecCanon: the domain codecs accept canonical encodings only

    For each record [X] of [Codec], [canon_X]: when [decode_X] ends without a
    failure, the value satisfies [X_wire] and the bytes read are exactly those
    [encode_X] writes for it; and [sticky_X]: after a failure it does nothing. *)

From stdpp Require Import base gmap list strings.
From Stdlib Require Import Ascii ZArith Lia.
From S2P Require Import Prelude Status Ids Bytes Hash Enums Model Fence Shaper.
From S2P Require Import EngineState EngineAuthority EngineAdmission EngineLifecycle.
From S2P Require Import EngineInspect Wire Codec WireTheory WireCanon CodecProps.

Create HintDb canon.

Lemma canon_IsolationClass lim zero :
  canon lim (fun _ => True) (encode_enum IsolationClass.value) (decode_enum IsolationClass.of_value zero).
Proof. exact (canon_enum lim IsolationClass.value IsolationClass.all zero). Qed.
Lemma canon_DestinationClass lim zero :
  canon lim (fun _ => True) (encode_enum DestinationClass.value) (decode_enum DestinationClass.of_value zero).
Proof. exact (canon_enum lim DestinationClass.value DestinationClass.all zero). Qed.
Lemma canon_EvidenceLevel lim zero :
  canon lim (fun _ => True) (encode_enum EvidenceLevel.value) (decode_enum EvidenceLevel.of_value zero).
Proof. exact (canon_enum lim EvidenceLevel.value EvidenceLevel.all zero). Qed.
Lemma canon_DurabilityStatus lim zero :
  canon lim (fun _ => True) (encode_enum DurabilityStatus.value) (decode_enum DurabilityStatus.of_value zero).
Proof. exact (canon_enum lim DurabilityStatus.value DurabilityStatus.all zero). Qed.
Lemma canon_SessionState lim zero :
  canon lim (fun _ => True) (encode_enum SessionState.value) (decode_enum SessionState.of_value zero).
Proof. exact (canon_enum lim SessionState.value SessionState.all zero). Qed.
Lemma canon_ShardState lim zero :
  canon lim (fun _ => True) (encode_enum ShardState.value) (decode_enum ShardState.of_value zero).
Proof. exact (canon_enum lim ShardState.value ShardState.all zero). Qed.
Lemma canon_AttemptOutcome lim zero :
  canon lim (fun _ => True) (encode_enum AttemptOutcome.value) (decode_enum AttemptOutcome.of_value zero).
Proof. exact (canon_enum lim AttemptOutcome.value AttemptOutcome.all zero). Qed.
Lemma canon_DecisionKind lim zero :
  canon lim (fun _ => True) (encode_enum DecisionKind.value) (decode_enum DecisionKind.of_value zero).
Proof. exact (canon_enum lim DecisionKind.value DecisionKind.all zero). Qed.
Lemma canon_ReasonCode lim zero :
  canon lim (fun _ => True) (encode_enum ReasonCode.value) (decode_enum ReasonCode.of_value zero).
Proof. exact (canon_enum lim ReasonCode.value ReasonCode.all zero). Qed.
Lemma canon_EventKind lim zero :
  canon lim (fun _ => True) (encode_enum EventKind.value) (decode_enum EventKind.of_value zero).
Proof. exact (canon_enum lim EventKind.value EventKind.all zero). Qed.
Lemma canon_VerificationOutcome lim zero :
  canon lim (fun _ => True) (encode_enum VerificationOutcome.value) (decode_enum VerificationOutcome.of_value zero).
Proof. exact (canon_enum lim VerificationOutcome.value VerificationOutcome.all zero). Qed.
#[export] Hint Resolve canon_IsolationClass canon_DestinationClass canon_EvidenceLevel canon_DurabilityStatus canon_SessionState canon_ShardState canon_AttemptOutcome canon_DecisionKind canon_ReasonCode canon_EventKind canon_VerificationOutcome
  canon_u32 canon_u64 canon_i64 canon_string canon_bytes canon_boolean canon_id canon_scalar canon_gen
  canon_Digest canon_epoch canon_ErrorCode : canon.

Ltac canon_fill :=
  try match goal with
  | |- accepts _ (_ ?v) _ => let v' := eval lazy in v in change v with v'
  end.
Ltac canon_field :=
  first
    [ eapply accepts_into; solve [eauto with canon]
    | eapply accepts_into_sub; intros; solve [eauto with canon]
    | eapply accepts_optional; [solve [eauto with canon]|solve [sticky_record]] ].
(** The value is complete: it is well-formed and its encoding is what was read. *)
Ltac canon_end :=
  cbv beta;
  lazymatch goal with
  | |- ?W _ ?v /\ writes _ _ =>
      let v' := eval lazy in v in change v with v'; rewrite ?app_nil_r; split; [unfold W|]
  end;
  [ cbn -[in_u64 in_u32 in_s64]; split_and?; (assumption || exact I)
  | repeat first [assumption | apply writes_seq] ].
Ltac canon_steps :=
  repeat first
    [ apply accepts_guard; canon_fill
    | eapply accepts_items; [solve [eauto with canon]|solve [sticky_record]|];
      intros ? ? ? ?; canon_fill
    | eapply accepts_then; [canon_field|intros; solve [sticky_record]|];
      intros ? ? (? & [? ?] & ->); canon_fill
    | eapply accepts_impl; [canon_field|]; intros ? ? (? & [? ?] & ->); canon_end
    | apply accepts_done; canon_end
    | eapply accepts_bind; [solve [apply canon_u64]|intros; solve [sticky_record]|]; intros ? ? [? ?]; cbv beta ].
Ltac canonical :=
  match goal with |- canon _ _ ?E (?D ?i) => unfold canon, E, D; destruct i end; canon_steps.

Lemma sticky_ShardDescriptor initial : sticky (decode_ShardDescriptor initial).
Proof. unfold decode_ShardDescriptor. sticky_record. Qed.
#[export] Hint Resolve sticky_ShardDescriptor : sticky.
Lemma canon_ShardDescriptor lim initial :
  canon lim (ShardDescriptor_wire lim) encode_ShardDescriptor (decode_ShardDescriptor initial).
Proof. canonical. Qed.
#[export] Hint Resolve canon_ShardDescriptor : canon.

Lemma sticky_CheckpointManifest initial : sticky (decode_CheckpointManifest initial).
Proof. unfold decode_CheckpointManifest. sticky_record. Qed.
#[export] Hint Resolve sticky_CheckpointManifest : sticky.
Lemma canon_CheckpointManifest lim initial :
  canon lim (CheckpointManifest_wire lim) encode_CheckpointManifest (decode_CheckpointManifest initial).
Proof. canonical. Qed.
#[export] Hint Resolve canon_CheckpointManifest : canon.

Lemma sticky_Limits initial : sticky (decode_Limits initial).
Proof. unfold decode_Limits. sticky_record. Qed.
#[export] Hint Resolve sticky_Limits : sticky.
Lemma canon_Limits lim initial :
  canon lim (Limits_wire lim) encode_Limits (decode_Limits initial).
Proof. canonical. Qed.
#[export] Hint Resolve canon_Limits : canon.

Lemma sticky_IsolationEnvelopeConfig initial : sticky (decode_IsolationEnvelopeConfig initial).
Proof. unfold decode_IsolationEnvelopeConfig. sticky_record. Qed.
#[export] Hint Resolve sticky_IsolationEnvelopeConfig : sticky.
Lemma canon_IsolationEnvelopeConfig lim initial :
  canon lim (IsolationEnvelopeConfig_wire lim) encode_IsolationEnvelopeConfig (decode_IsolationEnvelopeConfig initial).
Proof. canonical. Qed.
#[export] Hint Resolve canon_IsolationEnvelopeConfig : canon.

Lemma sticky_PolicySnapshot initial : sticky (decode_PolicySnapshot initial).
Proof. unfold decode_PolicySnapshot. sticky_record. Qed.
#[export] Hint Resolve sticky_PolicySnapshot : sticky.
Lemma canon_PolicySnapshot lim initial :
  canon lim (PolicySnapshot_wire lim) encode_PolicySnapshot (decode_PolicySnapshot initial).
Proof. canonical. Qed.
#[export] Hint Resolve canon_PolicySnapshot : canon.

Lemma sticky_PathClass initial : sticky (decode_PathClass initial).
Proof. unfold decode_PathClass. sticky_record. Qed.
#[export] Hint Resolve sticky_PathClass : sticky.
Lemma canon_PathClass lim initial :
  canon lim (PathClass_wire lim) encode_PathClass (decode_PathClass initial).
Proof. canonical. Qed.
#[export] Hint Resolve canon_PathClass : canon.

Lemma sticky_TopologySnapshot initial : sticky (decode_TopologySnapshot initial).
Proof. unfold decode_TopologySnapshot. sticky_record. Qed.
#[export] Hint Resolve sticky_TopologySnapshot : sticky.
Lemma canon_TopologySnapshot lim initial :
  canon lim (TopologySnapshot_wire lim) encode_TopologySnapshot (decode_TopologySnapshot initial).
Proof. canonical. Qed.
#[export] Hint Resolve canon_TopologySnapshot : canon.

Lemma sticky_WorkloadContract initial : sticky (decode_WorkloadContract initial).
Proof. unfold decode_WorkloadContract. sticky_record. Qed.
#[export] Hint Resolve sticky_WorkloadContract : sticky.
Lemma canon_WorkloadContract lim initial :
  canon lim (WorkloadContract_wire lim) encode_WorkloadContract (decode_WorkloadContract initial).
Proof. canonical. Qed.
#[export] Hint Resolve canon_WorkloadContract : canon.

Lemma sticky_SessionRequest initial : sticky (decode_SessionRequest initial).
Proof. unfold decode_SessionRequest. sticky_record. Qed.
#[export] Hint Resolve sticky_SessionRequest : sticky.
Lemma canon_SessionRequest lim initial :
  canon lim (SessionRequest_wire lim) encode_SessionRequest (decode_SessionRequest initial).
Proof. canonical. Qed.
#[export] Hint Resolve canon_SessionRequest : canon.

Lemma sticky_CommandFence initial : sticky (decode_CommandFence initial).
Proof. unfold decode_CommandFence. sticky_record. Qed.
#[export] Hint Resolve sticky_CommandFence : sticky.
Lemma canon_CommandFence lim initial :
  canon lim (CommandFence_wire lim) encode_CommandFence (decode_CommandFence initial).
Proof. canonical. Qed.
#[export] Hint Resolve canon_CommandFence : canon.

Lemma sticky_WavePlan initial : sticky (decode_WavePlan initial).
Proof. unfold decode_WavePlan. sticky_record. Qed.
#[export] Hint Resolve sticky_WavePlan : sticky.
Lemma canon_WavePlan lim initial :
  canon lim (WavePlan_wire lim) encode_WavePlan (decode_WavePlan initial).
Proof. canonical. Qed.
#[export] Hint Resolve canon_WavePlan : canon.

Lemma sticky_TrafficEnvelope initial : sticky (decode_TrafficEnvelope initial).
Proof. unfold decode_TrafficEnvelope. sticky_record. Qed.
#[export] Hint Resolve sticky_TrafficEnvelope : sticky.
Lemma canon_TrafficEnvelope lim initial :
  canon lim (TrafficEnvelope_wire lim) encode_TrafficEnvelope (decode_TrafficEnvelope initial).
Proof. canonical. Qed.
#[export] Hint Resolve canon_TrafficEnvelope : canon.

Lemma sticky_AdmissionDecision initial : sticky (decode_AdmissionDecision initial).
Proof. unfold decode_AdmissionDecision. sticky_record. Qed.
#[export] Hint Resolve sticky_AdmissionDecision : sticky.
Lemma canon_AdmissionDecision lim initial :
  canon lim (AdmissionDecision_wire lim) encode_AdmissionDecision (decode_AdmissionDecision initial).
Proof. canonical. Qed.
#[export] Hint Resolve canon_AdmissionDecision : canon.

Lemma sticky_WaveGrant initial : sticky (decode_WaveGrant initial).
Proof. unfold decode_WaveGrant. sticky_record. Qed.
#[export] Hint Resolve sticky_WaveGrant : sticky.
Lemma canon_WaveGrant lim initial :
  canon lim (WaveGrant_wire lim) encode_WaveGrant (decode_WaveGrant initial).
Proof. canonical. Qed.
#[export] Hint Resolve canon_WaveGrant : canon.

Lemma sticky_WaveOutcome initial : sticky (decode_WaveOutcome initial).
Proof. unfold decode_WaveOutcome. sticky_record. Qed.
#[export] Hint Resolve sticky_WaveOutcome : sticky.
Lemma canon_WaveOutcome lim initial :
  canon lim (WaveOutcome_wire lim) encode_WaveOutcome (decode_WaveOutcome initial).
Proof. canonical. Qed.
#[export] Hint Resolve canon_WaveOutcome : canon.

Lemma sticky_SourceCompleteEvidence initial : sticky (decode_SourceCompleteEvidence initial).
Proof. unfold decode_SourceCompleteEvidence. sticky_record. Qed.
#[export] Hint Resolve sticky_SourceCompleteEvidence : sticky.
Lemma canon_SourceCompleteEvidence lim initial :
  canon lim (SourceCompleteEvidence_wire lim) encode_SourceCompleteEvidence (decode_SourceCompleteEvidence initial).
Proof. canonical. Qed.
#[export] Hint Resolve canon_SourceCompleteEvidence : canon.

Lemma sticky_TransferEvidence initial : sticky (decode_TransferEvidence initial).
Proof. unfold decode_TransferEvidence. sticky_record. Qed.
#[export] Hint Resolve sticky_TransferEvidence : sticky.
Lemma canon_TransferEvidence lim initial :
  canon lim (TransferEvidence_wire lim) encode_TransferEvidence (decode_TransferEvidence initial).
Proof. canonical. Qed.
#[export] Hint Resolve canon_TransferEvidence : canon.

Lemma sticky_VerificationEvidence initial : sticky (decode_VerificationEvidence initial).
Proof. unfold decode_VerificationEvidence. sticky_record. Qed.
#[export] Hint Resolve sticky_VerificationEvidence : sticky.
Lemma canon_VerificationEvidence lim initial :
  canon lim (VerificationEvidence_wire lim) encode_VerificationEvidence (decode_VerificationEvidence initial).
Proof. canonical. Qed.
#[export] Hint Resolve canon_VerificationEvidence : canon.

Lemma sticky_DurabilityAssertion initial : sticky (decode_DurabilityAssertion initial).
Proof. unfold decode_DurabilityAssertion. sticky_record. Qed.
#[export] Hint Resolve sticky_DurabilityAssertion : sticky.
Lemma canon_DurabilityAssertion lim initial :
  canon lim (DurabilityAssertion_wire lim) encode_DurabilityAssertion (decode_DurabilityAssertion initial).
Proof. canonical. Qed.
#[export] Hint Resolve canon_DurabilityAssertion : canon.

Lemma sticky_ShardProgress initial : sticky (decode_ShardProgress initial).
Proof. unfold decode_ShardProgress. sticky_record. Qed.
#[export] Hint Resolve sticky_ShardProgress : sticky.
Lemma canon_ShardProgress lim initial :
  canon lim (ShardProgress_wire lim) encode_ShardProgress (decode_ShardProgress initial).
Proof. canonical. Qed.
#[export] Hint Resolve canon_ShardProgress : canon.

Lemma sticky_SessionView initial : sticky (decode_SessionView initial).
Proof. unfold decode_SessionView. sticky_record. Qed.
#[export] Hint Resolve sticky_SessionView : sticky.
Lemma canon_SessionView lim initial :
  canon lim (SessionView_wire lim) encode_SessionView (decode_SessionView initial).
Proof. canonical. Qed.
#[export] Hint Resolve canon_SessionView : canon.

Lemma sticky_SessionSummary initial : sticky (decode_SessionSummary initial).
Proof. unfold decode_SessionSummary. sticky_record. Qed.
#[export] Hint Resolve sticky_SessionSummary : sticky.
Lemma canon_SessionSummary lim initial :
  canon lim (SessionSummary_wire lim) encode_SessionSummary (decode_SessionSummary initial).
Proof. canonical. Qed.
#[export] Hint Resolve canon_SessionSummary : canon.

Lemma sticky_AccountingSnapshot initial : sticky (decode_AccountingSnapshot initial).
Proof. unfold decode_AccountingSnapshot. sticky_record. Qed.
#[export] Hint Resolve sticky_AccountingSnapshot : sticky.
Lemma canon_AccountingSnapshot lim initial :
  canon lim (AccountingSnapshot_wire lim) encode_AccountingSnapshot (decode_AccountingSnapshot initial).
Proof. canonical. Qed.
#[export] Hint Resolve canon_AccountingSnapshot : canon.

Lemma sticky_Explanation initial : sticky (decode_Explanation initial).
Proof. unfold decode_Explanation. sticky_record. Qed.
#[export] Hint Resolve sticky_Explanation : sticky.
Lemma canon_Explanation lim initial :
  canon lim (Explanation_wire lim) encode_Explanation (decode_Explanation initial).
Proof. canonical. Qed.
#[export] Hint Resolve canon_Explanation : canon.

Lemma sticky_FabricEvent initial : sticky (decode_FabricEvent initial).
Proof. unfold decode_FabricEvent. sticky_record. Qed.
#[export] Hint Resolve sticky_FabricEvent : sticky.
Lemma canon_FabricEvent lim initial :
  canon lim (FabricEvent_wire lim) encode_FabricEvent (decode_FabricEvent initial).
Proof. canonical. Qed.
#[export] Hint Resolve canon_FabricEvent : canon.

Lemma sticky_contract_generation : sticky decode_ContractGenerationRecord.
Proof. unfold decode_ContractGenerationRecord. sticky_record. Qed.
#[export] Hint Resolve sticky_contract_generation : sticky.
Lemma canon_contract_generation lim :
  canon lim contract_generation_wire encode_ContractGenerationRecord decode_ContractGenerationRecord.
Proof.
  eapply accepts_bind; [apply accepts_id|intros; sticky_record|]. intros c b [Hc Hw].
  eapply accepts_map; [apply accepts_gen|]. intros f b' [Hf Hw']. split; [done|].
  by apply writes_seq.
Qed.
#[export] Hint Resolve canon_contract_generation : canon.
