(* ===== verification/ProtocolCodec.v ===== *)
(** * ProtocolCodec: round trip and canonicity of the message payloads

    [X_wire], [coded_X], [sticky_X] and [canon_X] for every payload record of
    [Protocol], as in [CodecProps] and [CodecCanon]. *)

From stdpp Require Import base gmap list strings.
From Stdlib Require Import Ascii ZArith Lia.
From S2P Require Import Prelude Status Ids Bytes Hash Enums Model Fence Shaper.
From S2P Require Import EngineState EngineAuthority EngineAdmission EngineLifecycle.
From S2P Require Import EngineInspect Wire Codec WireTheory WireCanon CodecProps CodecCanon.
From S2P Require Import Protocol.

(** ** Round trips *)

Definition ShardBeginPayload_wire (lim : Limits) (v : ShardBeginPayload) : Prop :=
  id_wire (sbp_session v) /\ id_wire (sbp_attempt v) /\ gen_wire (sbp_sequence v) /\
  id_wire (sbp_checkpoint v) /\ gen_wire (sbp_checkpoint_generation v) /\
  id_wire (sbp_workload v) /\ scalar_wire (sbp_shard v) /\ in_u64 (sbp_declared_bytes v) /\
  Digest_wire (sbp_declared_digest v).
Lemma coded_ShardBeginPayload lim v initial :
  ShardBeginPayload_wire lim v -> coded lim (encode_ShardBeginPayload v) (decode_ShardBeginPayload initial) v.
Proof. codec. Qed.
#[export] Hint Resolve coded_ShardBeginPayload : codec.

Definition ShardDataPayload_wire (lim : Limits) (v : ShardDataPayload) : Prop :=
  id_wire (sdp_attempt v) /\ gen_wire (sdp_sequence v) /\ in_u64 (sdp_offset v) /\
  bytes_wire (sdp_data v).
Lemma coded_ShardDataPayload lim v initial :
  ShardDataPayload_wire lim v -> coded lim (encode_ShardDataPayload v) (decode_ShardDataPayload initial) v.
Proof. codec. Qed.
#[export] Hint Resolve coded_ShardDataPayload : codec.

Definition ShardEndPayload_wire (lim : Limits) (v : ShardEndPayload) : Prop :=
  in_u64 (sep_bytes_sent v) /\ Digest_wire (sep_sent_digest v).
Lemma coded_ShardEndPayload lim v initial :
  ShardEndPayload_wire lim v -> coded lim (encode_ShardEndPayload v) (decode_ShardEndPayload initial) v.
Proof. codec. Qed.
#[export] Hint Resolve coded_ShardEndPayload : codec.

Definition ShardAckPayload_wire (lim : Limits) (v : ShardAckPayload) : Prop :=
  in_u64 (sap_bytes_received v) /\ Digest_wire (sap_received_digest v) /\
  string_wire (sap_detail v).
Lemma coded_ShardAckPayload lim v initial :
  ShardAckPayload_wire lim v -> coded lim (encode_ShardAckPayload v) (decode_ShardAckPayload initial) v.
Proof. codec. Qed.
#[export] Hint Resolve coded_ShardAckPayload : codec.

Definition HelloResponse_wire (lim : Limits) (v : HelloResponse) : Prop :=
  epoch_wire (hrs_epoch v) /\ gen_wire (hrs_policy_generation v) /\
  gen_wire (hrs_topology_generation v) /\
  list_wire contract_generation_wire (lim_max_workloads lim) (hrs_contracts v) /\
  (Limits_wire lim) (hrs_limits v) /\ string_wire (hrs_server_label v).
Lemma coded_HelloResponse lim v initial :
  HelloResponse_wire lim v -> coded lim (encode_HelloResponse v) (decode_HelloResponse initial) v.
Proof. codec. Qed.
#[export] Hint Resolve coded_HelloResponse : codec.

Definition SubmitRequest_wire (lim : Limits) (v : SubmitRequest) : Prop :=
  (SessionRequest_wire lim) (sbr_request v) /\ (CommandFence_wire lim) (sbr_fence v).
Lemma coded_SubmitRequest lim v initial :
  SubmitRequest_wire lim v -> coded lim (encode_SubmitRequest v) (decode_SubmitRequest initial) v.
Proof. codec. Qed.
#[export] Hint Resolve coded_SubmitRequest : codec.

Definition SessionQuery_wire (lim : Limits) (v : SessionQuery) : Prop :=
  id_wire (sq_session v).
Lemma coded_SessionQuery lim v initial :
  SessionQuery_wire lim v -> coded lim (encode_SessionQuery v) (decode_SessionQuery initial) v.
Proof. codec. Qed.
#[export] Hint Resolve coded_SessionQuery : codec.

Definition SessionsQuery_wire (lim : Limits) (v : SessionsQuery) : Prop :=
  id_wire (ssq_workload v) /\ in_u32 (ssq_limit v).
Lemma coded_SessionsQuery lim v initial :
  SessionsQuery_wire lim v -> coded lim (encode_SessionsQuery v) (decode_SessionsQuery initial) v.
Proof. codec. Qed.
#[export] Hint Resolve coded_SessionsQuery : codec.

Definition CancelRequest_wire (lim : Limits) (v : CancelRequest) : Prop :=
  id_wire (cr_session v) /\ (CommandFence_wire lim) (cr_fence v) /\ string_wire (cr_detail v).
Lemma coded_CancelRequest lim v initial :
  CancelRequest_wire lim v -> coded lim (encode_CancelRequest v) (decode_CancelRequest initial) v.
Proof. codec. Qed.
#[export] Hint Resolve coded_CancelRequest : codec.

Definition PauseRequest_wire (lim : Limits) (v : PauseRequest) : Prop :=
  id_wire (pr_session v) /\ (CommandFence_wire lim) (pr_fence v) /\ string_wire (pr_reason v).
Lemma coded_PauseRequest lim v initial :
  PauseRequest_wire lim v -> coded lim (encode_PauseRequest v) (decode_PauseRequest initial) v.
Proof. codec. Qed.
#[export] Hint Resolve coded_PauseRequest : codec.

Definition ResumeRequest_wire (lim : Limits) (v : ResumeRequest) : Prop :=
  id_wire (rr_session v) /\ (CommandFence_wire lim) (rr_fence v).
Lemma coded_ResumeRequest lim v initial :
  ResumeRequest_wire lim v -> coded lim (encode_ResumeRequest v) (decode_ResumeRequest initial) v.
Proof. codec. Qed.
#[export] Hint Resolve coded_ResumeRequest : codec.

Definition RevalidateRequest_wire (lim : Limits) (v : RevalidateRequest) : Prop :=
  id_wire (rvr_session v) /\ (CommandFence_wire lim) (rvr_fence v).
Lemma coded_RevalidateRequest lim v initial :
  RevalidateRequest_wire lim v -> coded lim (encode_RevalidateRequest v) (decode_RevalidateRequest initial) v.
Proof. codec. Qed.
#[export] Hint Resolve coded_RevalidateRequest : codec.

Definition WaveRequest_wire (lim : Limits) (v : WaveRequest) : Prop :=
  id_wire (wr_session v) /\ scalar_wire (wr_shard v) /\ (CommandFence_wire lim) (wr_fence v).
Lemma coded_WaveRequest lim v initial :
  WaveRequest_wire lim v -> coded lim (encode_WaveRequest v) (decode_WaveRequest initial) v.
Proof. codec. Qed.
#[export] Hint Resolve coded_WaveRequest : codec.

Definition AmbiguityRequest_wire (lim : Limits) (v : AmbiguityRequest) : Prop :=
  id_wire (ar_session v) /\ id_wire (ar_attempt v) /\ gen_wire (ar_sequence v) /\
  string_wire (ar_cause v) /\ (CommandFence_wire lim) (ar_fence v).
Lemma coded_AmbiguityRequest lim v initial :
  AmbiguityRequest_wire lim v -> coded lim (encode_AmbiguityRequest v) (decode_AmbiguityRequest initial) v.
Proof. codec. Qed.
#[export] Hint Resolve coded_AmbiguityRequest : codec.

Definition SourceCompleteRequest_wire (lim : Limits) (v : SourceCompleteRequest) : Prop :=
  (SourceCompleteEvidence_wire lim) (scr_evidence v) /\ (CommandFence_wire lim) (scr_fence v).
Lemma coded_SourceCompleteRequest lim v initial :
  SourceCompleteRequest_wire lim v -> coded lim (encode_SourceCompleteRequest v) (decode_SourceCompleteRequest initial) v.
Proof. codec. Qed.
#[export] Hint Resolve coded_SourceCompleteRequest : codec.

Definition TransferReport_wire (lim : Limits) (v : TransferReport) : Prop :=
  (TransferEvidence_wire lim) (tr_evidence v) /\ (CommandFence_wire lim) (tr_fence v).
Lemma coded_TransferReport lim v initial :
  TransferReport_wire lim v -> coded lim (encode_TransferReport v) (decode_TransferReport initial) v.
Proof. codec. Qed.
#[export] Hint Resolve coded_TransferReport : codec.

Definition VerificationReport_wire (lim : Limits) (v : VerificationReport) : Prop :=
  (VerificationEvidence_wire lim) (vr_evidence v) /\ (CommandFence_wire lim) (vr_fence v).
Lemma coded_VerificationReport lim v initial :
  VerificationReport_wire lim v -> coded lim (encode_VerificationReport v) (decode_VerificationReport initial) v.
Proof. codec. Qed.
#[export] Hint Resolve coded_VerificationReport : codec.

Definition DurabilityRequest_wire (lim : Limits) (v : DurabilityRequest) : Prop :=
  id_wire (dr_session v) /\ (DurabilityAssertion_wire lim) (dr_assertion v) /\
  (CommandFence_wire lim) (dr_fence v).
Lemma coded_DurabilityRequest lim v initial :
  DurabilityRequest_wire lim v -> coded lim (encode_DurabilityRequest v) (decode_DurabilityRequest initial) v.
Proof. codec. Qed.
#[export] Hint Resolve coded_DurabilityRequest : codec.

Definition SessionListResponse_wire (lim : Limits) (v : SessionListResponse) : Prop :=
  list_wire (SessionSummary_wire lim) (lim_max_sessions lim) (slr_sessions v).
Lemma coded_SessionListResponse lim v initial :
  SessionListResponse_wire lim v -> coded lim (encode_SessionListResponse v) (decode_SessionListResponse initial) v.
Proof. codec. Qed.
#[export] Hint Resolve coded_SessionListResponse : codec.

Definition StatusPayload_wire (lim : Limits) (v : StatusPayload) : Prop :=
  string_wire (sp_detail v).
Lemma coded_StatusPayload lim v initial :
  StatusPayload_wire lim v -> coded lim (encode_StatusPayload v) (decode_StatusPayload initial) v.
Proof. codec. Qed.
#[export] Hint Resolve coded_StatusPayload : codec.

Definition HelloRequest_wire (lim : Limits) (v : HelloRequest) : Prop := string_wire (hrq_identity v).
Lemma coded_HelloRequest lim v initial :
  HelloRequest_wire lim v -> coded lim (encode_HelloRequest v) (decode_HelloRequest initial) v.
Proof.
  intros Hv. destruct v as [kind identity], initial as [kind0 identity0].
  eapply coded_bind; [apply coded_u8|]. apply coded_guard. cbn [hrq_kind].
  assert (ClientKind.of_value (ClientKind.value kind) = Some kind) as -> by by destruct kind.
  eapply coded_eq; [apply coded_into, coded_string, Hv|reflexivity].
Qed.
#[export] Hint Resolve coded_HelloRequest : codec.

(** ** Canonicity *)

Lemma sticky_ShardBeginPayload initial : sticky (decode_ShardBeginPayload initial).
Proof. unfold decode_ShardBeginPayload. sticky_record. Qed.
#[export] Hint Resolve sticky_ShardBeginPayload : sticky.
Lemma canon_ShardBeginPayload lim initial :
  canon lim (ShardBeginPayload_wire lim) encode_ShardBeginPayload (decode_ShardBeginPayload initial).
Proof. canonical. Qed.
#[export] Hint Resolve canon_ShardBeginPayload : canon.

Lemma sticky_ShardDataPayload initial : sticky (decode_ShardDataPayload initial).
Proof. unfold decode_ShardDataPayload. sticky_record. Qed.
#[export] Hint Resolve sticky_ShardDataPayload : sticky.
Lemma canon_ShardDataPayload lim initial :
  canon lim (ShardDataPayload_wire lim) encode_ShardDataPayload (decode_ShardDataPayload initial).
Proof. canonical. Qed.
#[export] Hint Resolve canon_ShardDataPayload : canon.

Lemma sticky_ShardEndPayload initial : sticky (decode_ShardEndPayload initial).
Proof. unfold decode_ShardEndPayload. sticky_record. Qed.
#[export] Hint Resolve sticky_ShardEndPayload : sticky.
Lemma canon_ShardEndPayload lim initial :
  canon lim (ShardEndPayload_wire lim) encode_ShardEndPayload (decode_ShardEndPayload initial).
Proof. canonical. Qed.
#[export] Hint Resolve canon_ShardEndPayload : canon.

Lemma sticky_ShardAckPayload initial : sticky (decode_ShardAckPayload initial).
Proof. unfold decode_ShardAckPayload. sticky_record. Qed.
#[export] Hint Resolve sticky_ShardAckPayload : sticky.
Lemma canon_ShardAckPayload lim initial :
  canon lim (ShardAckPayload_wire lim) encode_ShardAckPayload (decode_ShardAckPayload initial).
Proof. canonical. Qed.
#[export] Hint Resolve canon_ShardAckPayload : canon.

Lemma sticky_HelloResponse initial : sticky (decode_HelloResponse initial).
Proof. unfold decode_HelloResponse. sticky_record. Qed.
#[export] Hint Resolve sticky_HelloResponse : sticky.
Lemma canon_HelloResponse lim initial :
  canon lim (HelloResponse_wire lim) encode_HelloResponse (decode_HelloResponse initial).
Proof. canonical. Qed.
#[export] Hint Resolve canon_HelloResponse : canon.

Lemma sticky_SubmitRequest initial : sticky (decode_SubmitRequest initial).
Proof. unfold decode_SubmitRequest. sticky_record. Qed.
#[export] Hint Resolve sticky_SubmitRequest : sticky.
Lemma canon_SubmitRequest lim initial :
  canon lim (SubmitRequest_wire lim) encode_SubmitRequest (decode_SubmitRequest initial).
Proof. canonical. Qed.
#[export] Hint Resolve canon_SubmitRequest : canon.

Lemma sticky_SessionQuery initial : sticky (decode_SessionQuery initial).
Proof. unfold decode_SessionQuery. sticky_record. Qed.
#[export] Hint Resolve sticky_SessionQuery : sticky.
Lemma canon_SessionQuery lim initial :
  canon lim (SessionQuery_wire lim) encode_SessionQuery (decode_SessionQuery initial).
Proof. canonical. Qed.
#[export] Hint Resolve canon_SessionQuery : canon.

Lemma sticky_SessionsQuery initial : sticky (decode_SessionsQuery initial).
Proof. unfold decode_SessionsQuery. sticky_record. Qed.
#[export] Hint Resolve sticky_SessionsQuery : sticky.
Lemma canon_SessionsQuery lim initial :
  canon lim (SessionsQuery_wire lim) encode_SessionsQuery (decode_SessionsQuery initial).
Proof. canonical. Qed.
#[export] Hint Resolve canon_SessionsQuery : canon.

Lemma sticky_CancelRequest initial : sticky (decode_CancelRequest initial).
Proof. unfold decode_CancelRequest. sticky_record. Qed.
#[export] Hint Resolve sticky_CancelRequest : sticky.
Lemma canon_CancelRequest lim initial :
  canon lim (CancelRequest_wire lim) encode_CancelRequest (decode_CancelRequest initial).
Proof. canonical. Qed.
#[export] Hint Resolve canon_CancelRequest : canon.

Lemma sticky_PauseRequest initial : sticky (decode_PauseRequest initial).
Proof. unfold decode_PauseRequest. sticky_record. Qed.
#[export] Hint Resolve sticky_PauseRequest : sticky.
Lemma canon_PauseRequest lim initial :
  canon lim (PauseRequest_wire lim) encode_PauseRequest (decode_PauseRequest initial).
Proof. canonical. Qed.
#[export] Hint Resolve canon_PauseRequest : canon.

Lemma sticky_ResumeRequest initial : sticky (decode_ResumeRequest initial).
Proof. unfold decode_ResumeRequest. sticky_record. Qed.
#[export] Hint Resolve sticky_ResumeRequest : sticky.
Lemma canon_ResumeRequest lim initial :
  canon lim (ResumeRequest_wire lim) encode_ResumeRequest (decode_ResumeRequest initial).
Proof. canonical. Qed.
#[export] Hint Resolve canon_ResumeRequest : canon.

Lemma sticky_RevalidateRequest initial : sticky (decode_RevalidateRequest initial).
Proof. unfold decode_RevalidateRequest. sticky_record. Qed.
#[export] Hint Resolve sticky_RevalidateRequest : sticky.
Lemma canon_RevalidateRequest lim initial :
  canon lim (RevalidateRequest_wire lim) encode_RevalidateRequest (decode_RevalidateRequest initial).
Proof. canonical. Qed.
#[export] Hint Resolve canon_RevalidateRequest : canon.

Lemma sticky_WaveRequest initial : sticky (decode_WaveRequest initial).
Proof. unfold decode_WaveRequest. sticky_record. Qed.
#[export] Hint Resolve sticky_WaveRequest : sticky.
Lemma canon_WaveRequest lim initial :
  canon lim (WaveRequest_wire lim) encode_WaveRequest (decode_WaveRequest initial).
Proof. canonical. Qed.
#[export] Hint Resolve canon_WaveRequest : canon.

Lemma sticky_AmbiguityRequest initial : sticky (decode_AmbiguityRequest initial).
Proof. unfold decode_AmbiguityRequest. sticky_record. Qed.
#[export] Hint Resolve sticky_AmbiguityRequest : sticky.
Lemma canon_AmbiguityRequest lim initial :
  canon lim (AmbiguityRequest_wire lim) encode_AmbiguityRequest (decode_AmbiguityRequest initial).
Proof. canonical. Qed.
#[export] Hint Resolve canon_AmbiguityRequest : canon.

Lemma sticky_SourceCompleteRequest initial : sticky (decode_SourceCompleteRequest initial).
Proof. unfold decode_SourceCompleteRequest. sticky_record. Qed.
#[export] Hint Resolve sticky_SourceCompleteRequest : sticky.
Lemma canon_SourceCompleteRequest lim initial :
  canon lim (SourceCompleteRequest_wire lim) encode_SourceCompleteRequest (decode_SourceCompleteRequest initial).
Proof. canonical. Qed.
#[export] Hint Resolve canon_SourceCompleteRequest : canon.

Lemma sticky_TransferReport initial : sticky (decode_TransferReport initial).
Proof. unfold decode_TransferReport. sticky_record. Qed.
#[export] Hint Resolve sticky_TransferReport : sticky.
Lemma canon_TransferReport lim initial :
  canon lim (TransferReport_wire lim) encode_TransferReport (decode_TransferReport initial).
Proof. canonical. Qed.
#[export] Hint Resolve canon_TransferReport : canon.

Lemma sticky_VerificationReport initial : sticky (decode_VerificationReport initial).
Proof. unfold decode_VerificationReport. sticky_record. Qed.
#[export] Hint Resolve sticky_VerificationReport : sticky.
Lemma canon_VerificationReport lim initial :
  canon lim (VerificationReport_wire lim) encode_VerificationReport (decode_VerificationReport initial).
Proof. canonical. Qed.
#[export] Hint Resolve canon_VerificationReport : canon.

Lemma sticky_DurabilityRequest initial : sticky (decode_DurabilityRequest initial).
Proof. unfold decode_DurabilityRequest. sticky_record. Qed.
#[export] Hint Resolve sticky_DurabilityRequest : sticky.
Lemma canon_DurabilityRequest lim initial :
  canon lim (DurabilityRequest_wire lim) encode_DurabilityRequest (decode_DurabilityRequest initial).
Proof. canonical. Qed.
#[export] Hint Resolve canon_DurabilityRequest : canon.

Lemma sticky_SessionListResponse initial : sticky (decode_SessionListResponse initial).
Proof. unfold decode_SessionListResponse. sticky_record. Qed.
#[export] Hint Resolve sticky_SessionListResponse : sticky.
Lemma canon_SessionListResponse lim initial :
  canon lim (SessionListResponse_wire lim) encode_SessionListResponse (decode_SessionListResponse initial).
Proof. canonical. Qed.
#[export] Hint Resolve canon_SessionListResponse : canon.

Lemma sticky_StatusPayload initial : sticky (decode_StatusPayload initial).
Proof. unfold decode_StatusPayload. sticky_record. Qed.
#[export] Hint Resolve sticky_StatusPayload : sticky.
Lemma canon_StatusPayload lim initial :
  canon lim (StatusPayload_wire lim) encode_StatusPayload (decode_StatusPayload initial).
Proof. canonical. Qed.
#[export] Hint Resolve canon_StatusPayload : canon.

Lemma sticky_HelloRequest initial : sticky (decode_HelloRequest initial).
Proof. unfold decode_HelloRequest. sticky_record. Qed.
#[export] Hint Resolve sticky_HelloRequest : sticky.
Lemma canon_HelloRequest lim initial :
  canon lim (HelloRequest_wire lim) encode_HelloRequest (decode_HelloRequest initial).
Proof.
  destruct initial as [kind0 identity0]. unfold canon, decode_HelloRequest.
  eapply accepts_bind; [apply accepts_u8|intros; apply sticky_guard|]. intros raw b [_ Hw].
  apply accepts_guard. cbv beta. destruct (ClientKind.of_value raw) as [kind|] eqn:Hk.
  2: { by apply accepts_fail. }
  eapply accepts_impl; [eapply accepts_into, canon_string|].
  intros v b' (x & [Hx Hw'] & ->). split; [exact Hx|].
  apply find_some in Hk as [_ Hk%Z.eqb_eq]. unfold encode_HelloRequest.
  apply writes_seq; [|exact Hw']. cbn. by rewrite Hk.
Qed.
#[export] Hint Resolve canon_HelloRequest : canon.

(** A concrete value is within the limits when it decodes from its own payload. *)
Lemma wire_computed {T} lim (W : Limits -> T -> Prop) (enc : T -> Enc) (dec : T -> Dec T) initial v :
  canon lim (W lim) enc (dec initial) ->
  forallb (fun b => (0 <=? b) && (b <? 256)) (encode_payload enc v) = true ->
  decode_payload dec initial (encode_payload enc v) lim = Val v -> W lim v.
Proof.
  intros Hc Hb Hd. eapply canon_payload in Hd as [Hw _]; [exact Hw|exact Hc|].
  apply Forall_forall. intros b Hin. rewrite forallb_forall in Hb.
  apply list_elem_of_In in Hin. specialize (Hb b Hin). unfold byte_ok. lia.
Qed.
