(* ===== verification/FrameProps.v ===== *)
(** * FrameProps: framing

    The round trip of frames, that only canonical frames are accepted, and that
    no corruption of a single byte of a frame goes unnoticed.  The last rests on
    the CRC-32C table: its entries differ in their top byte, so one step of the
    checksum is injective in the running value and in the byte. *)

From stdpp Require Import base gmap list strings.
From Stdlib Require Import Ascii ZArith Lia.
From S2P Require Import Prelude Status Ids Bytes Hash Enums Model Wire WireTheory WireCanon.

(** ** Checksum *)

Lemma lxor_range a b n :
  0 <= n -> 0 <= a < 2 ^ n -> 0 <= b < 2 ^ n -> 0 <= Z.lxor a b < 2 ^ n.
Proof.
  intros Hn Ha Hb. split; [apply Z.lxor_nonneg; lia|].
  assert (Z.lxor a b = Z.lxor a b mod 2 ^ n) as ->; [|apply Z.mod_pos_bound; lia].
  rewrite <-Z.land_ones by lia. apply Z.bits_inj'. intros k Hk.
  rewrite Z.land_spec, Z.lxor_spec. destruct (Z.ltb_spec k n).
  - rewrite Z.ones_spec_low by lia. by rewrite andb_true_r.
  - rewrite Z.ones_spec_high, andb_false_r by lia.
    rewrite <-(Z.mod_small a (2 ^ n)), <-(Z.mod_small b (2 ^ n)) by lia.
    by rewrite !Z.mod_pow2_bits_high by lia.
Qed.

Lemma land255 x : Z.land x 255 = x mod 256.
Proof. change 255 with (Z.ones 8). rewrite Z.land_ones by lia. done. Qed.

Definition crc_entry (i : Z) : Z := nth (Z.to_nat i) kCrcTable 0.

Lemma crc_table_checked :
  forallb (fun t => (0 <=? t) && (t <? 2 ^ 32)) kCrcTable = true /\
  bool_decide (NoDup (map (fun t => Z.shiftr t 24) kCrcTable)) = true.
Proof. split; vm_compute; reflexivity. Qed.

Lemma crc_table_length : length kCrcTable = 256%nat.
Proof. reflexivity. Qed.

Lemma crc_entry_lookup i : 0 <= i < 256 -> kCrcTable !! Z.to_nat i = Some (crc_entry i).
Proof.
  intros Hi. destruct (lookup_lt_is_Some_2 kCrcTable (Z.to_nat i)) as [t Ht].
  { rewrite crc_table_length. lia. }
  rewrite Ht. f_equal. unfold crc_entry. symmetry. by apply nth_lookup_Some.
Qed.

Lemma crc_entry_range i : 0 <= i < 256 -> 0 <= crc_entry i < 2 ^ 32.
Proof.
  intros Hi. destruct crc_table_checked as [Hf _]. rewrite forallb_forall in Hf.
  pose proof (crc_entry_lookup i Hi) as Hl. apply list_elem_of_lookup_2, list_elem_of_In in Hl.
  specialize (Hf _ Hl). bool_facts. lia.
Qed.

Lemma crc_entry_inj i j : 0 <= i < 256 -> 0 <= j < 256 ->
  Z.shiftr (crc_entry i) 24 = Z.shiftr (crc_entry j) 24 -> i = j.
Proof.
  intros Hi Hj H. destruct crc_table_checked as [_ Hn]. apply bool_decide_eq_true_1 in Hn.
  enough (Z.to_nat i = Z.to_nat j) by lia.
  apply (NoDup_lookup _ _ _ (Z.shiftr (crc_entry i) 24) Hn);
    rewrite list_lookup_fmap, crc_entry_lookup by done; [done|].
  change (Some (Z.shiftr (crc_entry j) 24) = Some (Z.shiftr (crc_entry i) 24)). by rewrite H.
Qed.

Lemma crc_step_entry c b :
  crc_step c b = Z.lxor (crc_entry (Z.lxor c b mod 256)) (Z.shiftr c 8).
Proof. unfold crc_step, crc_entry. by rewrite land255. Qed.

Lemma crc_step_range c b : 0 <= c < 2 ^ 32 -> 0 <= crc_step c b < 2 ^ 32.
Proof.
  intros Hc. rewrite crc_step_entry. apply lxor_range; [lia| |].
  - apply crc_entry_range, Z.mod_pos_bound. lia.
  - rewrite Z.shiftr_div_pow2 by lia.
    split; [apply Z.div_pos; lia|apply Z.div_lt_upper_bound; lia].
Qed.

Lemma crc_step_top c b : 0 <= c < 2 ^ 32 ->
  Z.shiftr (crc_step c b) 24 = Z.shiftr (crc_entry (Z.lxor c b mod 256)) 24.
Proof.
  intros Hc. rewrite crc_step_entry, Z.shiftr_lxor, Z.shiftr_shiftr by lia.
  rewrite (Z.shiftr_div_pow2 c), (Z.div_small c) by lia. apply Z.lxor_0_r.
Qed.

(** One step determines the table index it used. *)
Lemma crc_step_index c1 c2 b1 b2 : 0 <= c1 < 2 ^ 32 -> 0 <= c2 < 2 ^ 32 ->
  crc_step c1 b1 = crc_step c2 b2 -> Z.lxor c1 b1 mod 256 = Z.lxor c2 b2 mod 256.
Proof.
  intros H1 H2 H. apply crc_entry_inj; [apply Z.mod_pos_bound; lia..|].
  by rewrite <-!crc_step_top, H.
Qed.

Lemma lxor_mod256 a b : Z.lxor a b mod 256 = Z.lxor (a mod 256) (b mod 256).
Proof.
  rewrite <-!land255. apply Z.bits_inj'. intros k Hk. rewrite !Z.land_spec, !Z.lxor_spec, !Z.land_spec.
  by destruct (Z.testbit a k), (Z.testbit b k), (Z.testbit 255 k).
Qed.
Lemma lxor_cancel_r a b c : Z.lxor a c = Z.lxor b c -> a = b.
Proof.
  intros H. apply (f_equal (fun x => Z.lxor x c)) in H.
  by rewrite !Z.lxor_assoc, Z.lxor_nilpotent, !Z.lxor_0_r in H.
Qed.
Lemma lxor_cancel_l a b c : Z.lxor c a = Z.lxor c b -> a = b.
Proof. rewrite !(Z.lxor_comm c). apply lxor_cancel_r. Qed.

Lemma crc_step_inj_crc c1 c2 b : 0 <= c1 < 2 ^ 32 -> 0 <= c2 < 2 ^ 32 ->
  crc_step c1 b = crc_step c2 b -> c1 = c2.
Proof.
  intros H1 H2 H. pose proof (crc_step_index c1 c2 b b H1 H2 H) as Hi.
  rewrite !crc_step_entry, Hi in H. apply lxor_cancel_l in H.
  rewrite !lxor_mod256 in Hi. apply lxor_cancel_r in Hi.
  rewrite !Z.shiftr_div_pow2 in H by lia. change (2 ^ 8) with 256 in H.
  rewrite (Z.div_mod c1 256), (Z.div_mod c2 256) by lia. congruence.
Qed.

Lemma crc_step_inj_byte c b1 b2 : 0 <= c < 2 ^ 32 -> byte_ok b1 -> byte_ok b2 ->
  crc_step c b1 = crc_step c b2 -> b1 = b2.
Proof.
  unfold byte_ok. intros Hc H1 H2 H. pose proof (crc_step_index c c b1 b2 Hc Hc H) as Hi.
  rewrite !lxor_mod256 in Hi. apply lxor_cancel_l in Hi. by rewrite !Z.mod_small in Hi by lia.
Qed.

Lemma crc_fold_range data c : 0 <= c < 2 ^ 32 -> 0 <= foldl crc_step c data < 2 ^ 32.
Proof. revert c. induction data as [|b l IH]; intros c Hc; [done|]. by apply IH, crc_step_range. Qed.

Lemma crc_fold_inj data c1 c2 : 0 <= c1 < 2 ^ 32 -> 0 <= c2 < 2 ^ 32 ->
  foldl crc_step c1 data = foldl crc_step c2 data -> c1 = c2.
Proof.
  revert c1 c2. induction data as [|b l IH]; intros c1 c2 H1 H2 H; [done|].
  cbn [foldl] in H. apply IH in H; [|by apply crc_step_range..]. by eapply crc_step_inj_crc.
Qed.

(** A single changed byte changes the running checksum. *)
Lemma crc_fold_changed data i x y c :
  0 <= c < 2 ^ 32 -> data !! i = Some x -> byte_ok x -> byte_ok y -> x <> y ->
  foldl crc_step c (<[i := y]> data) <> foldl crc_step c data.
Proof.
  revert i c. induction data as [|b l IH]; intros i c Hc Hi Hx Hy Hne; [done|].
  destruct i as [|i]; cbn in Hi.
  - injection Hi as ->. cbn. intros H. apply crc_fold_inj in H; [|by apply crc_step_range..].
    by apply crc_step_inj_byte in H.
  - cbn. apply IH; try done. by apply crc_step_range.
Qed.

Lemma crc32c_range data : in_u32 (crc32c data 0).
Proof.
  unfold crc32c, in_u32, not32, UINT32_MAX.
  pose proof (crc_fold_range data (2 ^ 32 - 1 - 0) ltac:(lia)). lia.
Qed.
Lemma crc32c_changed data i x y :
  data !! i = Some x -> byte_ok x -> byte_ok y -> x <> y ->
  crc32c (<[i := y]> data) 0 <> crc32c data 0.
Proof.
  intros Hi Hx Hy Hne. unfold crc32c, not32, UINT32_MAX. intros H.
  apply (crc_fold_changed data i x y (2 ^ 32 - 1 - 0)); try done; lia.
Qed.

(** ** The fields of a frame *)

Lemma at_offset_here a b c o n :
  length a = o -> length b = n -> at_offset o n (a ++ b ++ c) = b.
Proof. intros <- <-. unfold at_offset. by rewrite drop_app_length, take_app_length. Qed.
Lemma at_offset_length o n f : (o + n <= length f)%nat -> length (at_offset o n f) = n.
Proof. intros H. unfold at_offset. rewrite length_take, length_drop. lia. Qed.
Lemma at_offset_ok o n f : Forall byte_ok f -> Forall byte_ok (at_offset o n f).
Proof. intros H. by apply Forall_take, Forall_drop. Qed.
Lemma at_offset_tail o n f : length f = (o + n)%nat -> at_offset o n f = drop o f.
Proof. intros H. apply take_ge. rewrite length_drop. lia. Qed.
Lemma at_offset_cut o n f : at_offset o n f ++ drop (o + n) f = drop o f.
Proof. unfold at_offset. rewrite <-drop_drop. apply take_drop. Qed.

Lemma get_u16_canon b : length b = 2%nat -> Forall byte_ok b ->
  0 <= get_u16 b < 2 ^ 16 /\ be_bytes 2 (get_u16 b) = b.
Proof.
  intros Hl Hb. apply (get_int_canon 2 get_u16 u16); try done; [|intros x; apply Z.mod_small].
  destruct b as [|x [|y [|z l]]]; try discriminate.
  apply Forall_cons in Hb as [Hx [Hy _]%Forall_cons]. by apply get_u16_combine.
Qed.
Lemma get_u32_canon b : length b = 4%nat -> Forall byte_ok b ->
  in_u32 (get_u32 b) /\ be_bytes 4 (get_u32 b) = b.
Proof. intros Hl Hb. by apply (get_int_canon 4 get_u32 u32 b Hl Hb eq_refl); apply u32_small. Qed.
Lemma get_u64_canon b : length b = 8%nat -> Forall byte_ok b ->
  in_u64 (get_u64 b) /\ be_bytes 8 (get_u64 b) = b.
Proof. intros Hl Hb. by apply (get_int_canon 8 get_u64 u64 b Hl Hb eq_refl); apply u64_small. Qed.

Lemma get_u32_inj a b : length a = 4%nat -> length b = 4%nat ->
  Forall byte_ok a -> Forall byte_ok b -> get_u32 a = get_u32 b -> a = b.
Proof.
  intros Ha Hb Oa Ob H. destruct (get_u32_canon a Ha Oa) as [_ <-].
  destruct (get_u32_canon b Hb Ob) as [_ <-]. by rewrite H.
Qed.

(** A header whose fields fit their widths and whose version is supported. *)
Definition header_wire (h : FrameHeader) : Prop :=
  fh_protocol_version h = kProtocolVersion /\ 0 <= fh_message_type h < 2 ^ 16 /\
  in_u32 (fh_flags h) /\ in_u64 (fh_sequence h).

(** What [decode_frame] has checked of a frame it accepts. *)
Definition frame_checked (f payload : list Z) (h : FrameHeader) : Prop :=
  let n := Z.to_nat (fh_payload_bytes h) in
  length f = (kFrameHeaderBytes + n)%nat /\
  fh_payload_bytes h = get_u32 (at_offset 20 4 f) /\ fh_payload_bytes h <= kMaxPayloadBytes /\
  payload = drop kFrameHeaderBytes f /\
  get_u32 (at_offset 0 4 f) = kFrameMagic /\ fh_protocol_version h = kProtocolVersion /\
  fh_protocol_version h = get_u16 (at_offset 4 2 f) /\
  fh_message_type h = get_u16 (at_offset 6 2 f) /\ fh_flags h = get_u32 (at_offset 8 4 f) /\
  fh_sequence h = get_u64 (at_offset 12 8 f) /\
  get_u32 (at_offset 24 4 f) = crc32c (take 24 f) 0 /\
  fh_payload_crc h = get_u32 (at_offset 28 4 f) /\ fh_payload_crc h = crc32c payload 0.

Lemma decode_frame_checked f payload h :
  decode_frame f = Val (payload, h) -> frame_checked f payload h.
Proof.
  unfold decode_frame, kHeaderChecksumCoverage. cbn zeta.
  destruct (length f <? kFrameHeaderBytes)%nat; [discriminate|].
  destruct (get_u32 (at_offset 0 4 f) =? kFrameMagic) eqn:E1; cbn [negb]; [|discriminate].
  destruct (get_u16 (at_offset 4 2 f) =? kProtocolVersion) eqn:E2; cbn [negb]; [|discriminate].
  destruct (get_u32 (at_offset 24 4 f) =? _) eqn:E3; cbn [negb]; [|discriminate].
  destruct (get_u32 (at_offset 20 4 f) >? kMaxPayloadBytes) eqn:E4; [discriminate|].
  destruct (Nat.eqb (length f) _) eqn:E5; cbn [negb]; [|discriminate].
  destruct (get_u32 (at_offset 28 4 f) =? _) eqn:E6; cbn [negb]; [|discriminate].
  intros [= <- <-]. apply Nat.eqb_eq in E5.
  rewrite (at_offset_tail kFrameHeaderBytes) by done.
  rewrite Z.gtb_ltb in E4. bool_facts.
  unfold frame_checked.
  cbn [fh_payload_bytes fh_protocol_version fh_message_type fh_flags fh_sequence fh_payload_crc].
  rewrite (at_offset_tail kFrameHeaderBytes) in E6 by done. by split_and!.
Qed.

Lemma frame_prefix_length h payload : length (frame_prefix h payload) = 24%nat.
Proof. unfold frame_prefix. by rewrite !length_app, !be_bytes_length. Qed.

(** The 32 bytes of the header and the payload, cut at the field boundaries. *)
Lemma frame_cut (f : list Z) :
  f = at_offset 0 4 f ++ at_offset 4 2 f ++ at_offset 6 2 f ++ at_offset 8 4 f ++
      at_offset 12 8 f ++ at_offset 20 4 f ++ at_offset 24 4 f ++ at_offset 28 4 f ++ drop 32 f.
Proof.
  rewrite (at_offset_cut 28 4), (at_offset_cut 24 4), (at_offset_cut 20 4), (at_offset_cut 12 8),
    (at_offset_cut 8 4), (at_offset_cut 6 2), (at_offset_cut 4 2), (at_offset_cut 0 4). done.
Qed.

Lemma frame_checked_canon f payload h :
  Forall byte_ok f -> frame_checked f payload h ->
  header_wire h /\ Z.of_nat (length payload) = fh_payload_bytes h /\
  Z.of_nat (length payload) <= kMaxPayloadBytes /\
  f = frame_prefix h payload ++ be_bytes 4 (crc32c (frame_prefix h payload) 0) ++
      be_bytes 4 (crc32c payload 0) ++ payload.
Proof.
  intros Hf (Hl & Hn & Hmax & Hp & Hm & Hv1 & Hv & Ht & Hfl & Hs & Hc & Hpc & Hpc').
  assert (forall o n, (o + n <= 32)%nat -> length (at_offset o n f) = n) as Hlen.
  { intros o n H. apply at_offset_length. unfold kFrameHeaderBytes in Hl. lia. }
  pose proof (fun o n => at_offset_ok o n f Hf) as Hok.
  destruct (get_u32_canon _ (Hlen 0 4 ltac:(lia))%nat (Hok _ _)) as [_ C0].
  destruct (get_u16_canon _ (Hlen 4 2 ltac:(lia))%nat (Hok _ _)) as [_ C4].
  destruct (get_u16_canon _ (Hlen 6 2 ltac:(lia))%nat (Hok _ _)) as [R6 C6].
  destruct (get_u32_canon _ (Hlen 8 4 ltac:(lia))%nat (Hok _ _)) as [R8 C8].
  destruct (get_u64_canon _ (Hlen 12 8 ltac:(lia))%nat (Hok _ _)) as [R12 C12].
  destruct (get_u32_canon _ (Hlen 20 4 ltac:(lia))%nat (Hok _ _)) as [R20 C20].
  destruct (get_u32_canon _ (Hlen 24 4 ltac:(lia))%nat (Hok _ _)) as [_ C24].
  destruct (get_u32_canon _ (Hlen 28 4 ltac:(lia))%nat (Hok _ _)) as [_ C28].
  rewrite Hm in C0. rewrite <-Hv in C4. rewrite <-Ht in C6, R6. rewrite <-Hfl in C8, R8.
  rewrite <-Hs in C12, R12. rewrite <-Hn in C20, R20. rewrite <-Hpc, Hpc' in C28.
  assert (Z.of_nat (length payload) = fh_payload_bytes h) as HL.
  { rewrite Hp, length_drop, Hl. unfold in_u32 in R20. unfold kFrameHeaderBytes. lia. }
  split; [by unfold header_wire|]. split; [done|]. split; [lia|].
  assert (frame_prefix h payload = take 24 f) as Hpre.
  { unfold frame_prefix. rewrite HL, u32_small by exact R20. rewrite C0, C4, C6, C8, C12, C20.
    rewrite (frame_cut f) at 7. symmetry. rewrite !app_assoc.
    rewrite <-!app_assoc. rewrite (app_assoc (at_offset 12 8 f)), (app_assoc (at_offset 8 4 f)),
      (app_assoc (at_offset 6 2 f)), (app_assoc (at_offset 4 2 f)), (app_assoc (at_offset 0 4 f)).
    apply take_app_length'. rewrite !length_app, !Hlen by lia. done. }
  rewrite Hpre, <-Hc, C24, C28, Hp. unfold kFrameHeaderBytes.
  rewrite (at_offset_cut 28 4), (at_offset_cut 24 4). by rewrite take_drop.
Qed.

Lemma at_offset_skip a l o n : (length a <= o)%nat ->
  at_offset o n (a ++ l) = at_offset (o - length a) n l.
Proof. intros H. unfold at_offset. by rewrite drop_app_ge. Qed.

Ltac frame_field :=
  rewrite <-?app_assoc;
  repeat (rewrite at_offset_skip by (rewrite be_bytes_length; lia); rewrite be_bytes_length;
          cbn [Nat.sub]);
  apply (at_offset_here []); [done|apply be_bytes_length].

Lemma frame_fields h payload c1 c2 :
  let f := frame_prefix h payload ++ be_bytes 4 c1 ++ be_bytes 4 c2 ++ payload in
  at_offset 0 4 f = be_bytes 4 kFrameMagic /\ at_offset 4 2 f = be_bytes 2 (fh_protocol_version h) /\
  at_offset 6 2 f = be_bytes 2 (fh_message_type h) /\ at_offset 8 4 f = be_bytes 4 (fh_flags h) /\
  at_offset 12 8 f = be_bytes 8 (fh_sequence h) /\
  at_offset 20 4 f = be_bytes 4 (u32 (Z.of_nat (length payload))) /\
  at_offset 24 4 f = be_bytes 4 c1 /\ at_offset 28 4 f = be_bytes 4 c2 /\
  take 24 f = frame_prefix h payload /\ at_offset 32 (length payload) f = payload /\
  length f = (32 + length payload)%nat.
Proof.
  intros f. pose proof (frame_prefix_length h payload) as Hl.
  split_and!; [subst f; unfold frame_prefix; frame_field..| | |].
  - by apply take_app_length'.
  - rewrite at_offset_tail by (subst f; rewrite !length_app, Hl, !be_bytes_length; lia).
    subst f. rewrite !app_assoc. apply drop_app_length'. by rewrite !length_app, Hl, !be_bytes_length.
  - subst f. rewrite !length_app, Hl, !be_bytes_length. lia.
Qed.

Lemma encode_frame_ok h payload : Z.of_nat (length payload) <= kMaxPayloadBytes ->
  encode_frame h payload = Val (frame_prefix h payload ++
    be_bytes 4 (crc32c (frame_prefix h payload) 0) ++ be_bytes 4 (crc32c payload 0) ++ payload).
Proof.
  intros Hp. unfold encode_frame. rewrite Z.gtb_ltb.
  destruct (Z.ltb_spec kMaxPayloadBytes (Z.of_nat (length payload))); [lia|done].
Qed.

(** The header as [decode_frame] returns it for [payload]. *)
Definition received_header (h : FrameHeader) (payload : list Z) : FrameHeader :=
  mkFrameHeader (fh_protocol_version h) (fh_message_type h) (fh_flags h) (fh_sequence h)
    (Z.of_nat (length payload)) (crc32c payload 0).

Lemma decode_encoded h payload :
  header_wire h -> Z.of_nat (length payload) <= kMaxPayloadBytes ->
  decode_frame (frame_prefix h payload ++
    be_bytes 4 (crc32c (frame_prefix h payload) 0) ++ be_bytes 4 (crc32c payload 0) ++ payload) =
  Val (payload, received_header h payload).
Proof.
  intros (Hv & Ht & Hfl & Hs) Hp.
  destruct (frame_fields h payload (crc32c (frame_prefix h payload) 0) (crc32c payload 0))
    as (F0 & F4 & F6 & F8 & F12 & F20 & F24 & F28 & Ft & Fp & Fl).
  set (f := _ ++ _) in *. clearbody f.
  assert (0 <= Z.of_nat (length payload) < 2 ^ 32) as Hn by (unfold kMaxPayloadBytes in Hp; lia).
  rewrite u32_small in F20 by done.
  unfold decode_frame, kHeaderChecksumCoverage, kFrameHeaderBytes. cbn zeta.
  rewrite F0, F4, F6, F8, F12, F20, F24, F28, Ft, Fl.
  rewrite (get_u32_bytes kFrameMagic) by done.
  rewrite Hv, (get_u16_bytes kProtocolVersion) by done.
  rewrite (get_u16_bytes (fh_message_type h)), (get_u32_bytes (fh_flags h)),
    (get_u64_bytes (fh_sequence h)), !(get_u32_bytes (crc32c _ 0)), (get_u32_bytes (Z.of_nat _))
    by (done || apply crc32c_range).
  rewrite Nat2Z.id, Fp, Nat.eqb_refl, !Z.eqb_refl, Z.gtb_ltb. cbn [negb].
  destruct (Nat.ltb_spec (32 + length payload) 32); [lia|].
  destruct (Z.ltb_spec kMaxPayloadBytes (Z.of_nat (length payload))); [lia|].
  unfold received_header. by rewrite Hv.
Qed.

(** ** The theorems *)

(** C27: a frame written for a supported, in-range header and a payload within
    the bound is at most [kMaxFrameBytes] long and is read back as that payload
    and that header, with the payload's length and checksum filled in. *)
Theorem frame_round_trip h payload :
  header_wire h -> Z.of_nat (length payload) <= kMaxPayloadBytes ->
  exists f, encode_frame h payload = Val f /\ Z.of_nat (length f) <= kMaxFrameBytes /\
    decode_frame f = Val (payload, received_header h payload).
Proof.
  intros Hh Hp. eexists. split; [by apply encode_frame_ok|]. split; [|by apply decode_encoded].
  rewrite !length_app, frame_prefix_length, !be_bytes_length.
  unfold kMaxFrameBytes, kFrameHeaderBytes. lia.
Qed.
Lemma frame_round_trip_witness :
  exists f, encode_frame (mkFrameHeader 1 3 0 7 0 0) [1; 2; 255] = Val f /\
    Z.of_nat (length f) <= kMaxFrameBytes /\
    decode_frame f = Val ([1; 2; 255], received_header (mkFrameHeader 1 3 0 7 0 0) [1; 2; 255]).
Proof.
  apply (frame_round_trip (mkFrameHeader 1 3 0 7 0 0) [1; 2; 255]);
    unfold header_wire, in_u32, in_u64, kMaxPayloadBytes, kProtocolVersion; cbn; lia.
Defined.

(** the frame reader accepts canonical frames only: a byte string it accepts
    is, byte for byte, the frame the writer produces for the header and the
    payload it returned, so no two byte strings carry the same message. *)
Theorem accepted_frame_canonical f payload h :
  Forall byte_ok f -> decode_frame f = Val (payload, h) ->
  header_wire h /\ h = received_header h payload /\ encode_frame h payload = Val f.
Proof.
  intros Hf Hd. apply decode_frame_checked in Hd as Hc.
  destruct (frame_checked_canon f payload h Hf Hc) as (Hh & Hl & Hm & Hfr).
  split; [done|]. split; [|rewrite encode_frame_ok by done; by rewrite <-Hfr].
  destruct Hc as (_ & _ & _ & _ & _ & _ & _ & _ & _ & _ & _ & _ & Hcrc).
  unfold received_header. rewrite Hl, <-Hcrc. by destruct h.
Qed.
(** A frame of message type 3, sequence 7 and a three-byte payload. *)
Definition sample_frame : list Z :=
  [49; 70; 84; 67; 0; 1; 0; 3; 0; 0; 0; 0; 0; 0; 0; 0; 0; 0; 0; 7; 0; 0; 0; 3; 198; 160; 194; 145;
   79; 29; 82; 187; 1; 2; 255].
Lemma sample_frame_bytes : Forall byte_ok sample_frame.
Proof. unfold sample_frame, byte_ok. repeat (constructor; [lia|]). constructor. Qed.

Lemma accepted_frame_canonical_witness :
  let h := mkFrameHeader 1 3 0 7 3 1327321787 in
  header_wire h /\ h = received_header h [1; 2; 255] /\
  encode_frame h [1; 2; 255] = Val sample_frame.
Proof.
  intros h. apply (accepted_frame_canonical sample_frame [1; 2; 255] h sample_frame_bytes).
  vm_compute. reflexivity.
Defined.

(** The bytes of a changed frame outside the field that changed. *)
Lemma at_offset_insert_out o n i y f : (i < o \/ o + n <= i)%nat ->
  at_offset o n (<[i := y]> f) = at_offset o n f.
Proof.
  intros Hi. unfold at_offset. rewrite drop_insert. destruct (decide _); [|done].
  rewrite take_insert_ge by lia. done.
Qed.
Lemma at_offset_insert_in o n i y f : (o <= i < o + n)%nat ->
  at_offset o n (<[i := y]> f) = <[(i - o)%nat := y]> (at_offset o n f).
Proof.
  intros Hi. unfold at_offset. rewrite drop_insert_ge, take_insert_lt by lia. done.
Qed.
Lemma insert_changes (l : list Z) i x y : l !! i = Some x -> x <> y -> <[i := y]> l <> l.
Proof.
  intros Hi Hne H. apply (f_equal (fun l => l !! i)) in H.
  rewrite list_lookup_insert_eq in H by (by eapply lookup_lt_Some). congruence.
Qed.

(** A changed byte inside one of the two checksum fields changes its value. *)
Lemma checksum_field_changed o i x y f :
  Forall byte_ok f -> (o + 4 <= length f)%nat -> (o <= i < o + 4)%nat ->
  f !! i = Some x -> byte_ok y -> x <> y ->
  get_u32 (at_offset o 4 (<[i := y]> f)) <> get_u32 (at_offset o 4 f).
Proof.
  intros Hf Hl Hi Hx Hy Hne H. rewrite at_offset_insert_in in H by done.
  assert (at_offset o 4 f !! (i - o)%nat = Some x) as Hx'.
  { unfold at_offset. rewrite lookup_take_lt, lookup_drop by lia. by rewrite Nat.add_sub_assoc, Nat.add_comm, Nat.add_sub by lia. }
  apply get_u32_inj in H; [by eapply insert_changes| | | |by apply at_offset_ok].
  - rewrite length_insert. by apply at_offset_length.
  - by apply at_offset_length.
  - apply Forall_insert; [by apply at_offset_ok|done].
Qed.

(** C26: no change of a single byte goes unnoticed: whatever byte of an accepted
    frame is replaced by a different one, in the header, in either checksum or
    in the payload, the reader refuses the result. *)
Theorem single_byte_corruption_refused f payload h i x y :
  Forall byte_ok f -> decode_frame f = Val (payload, h) ->
  f !! i = Some x -> byte_ok y -> x <> y ->
  exists s, decode_frame (<[i := y]> f) = Err s.
Proof.
  intros Hf Hd Hi Hy Hne. destruct (decode_frame (<[i := y]> f)) as [[payload' h']|s] eqn:Hd';
    [exfalso|by exists s].
  apply decode_frame_checked in Hd as (Hl & _ & _ & Hp & _ & _ & _ & _ & _ & _ & Hc & Hpc & Hpc').
  apply decode_frame_checked in Hd'
    as (Hl' & _ & _ & Hp' & _ & _ & _ & _ & _ & _ & Hc' & Hq & Hq').
  unfold kFrameHeaderBytes in *. assert (byte_ok x) as Hx by (by eapply Forall_lookup_1).
  destruct (Nat.lt_ge_cases i 24); [|destruct (Nat.lt_ge_cases i 28); [|destruct (Nat.lt_ge_cases i 32)]].
  - rewrite at_offset_insert_out, take_insert_lt, Hc in Hc' by lia. symmetry in Hc'.
    revert Hc'. apply (crc32c_changed (take 24 f) i x y); try done. by rewrite lookup_take_lt.
  - apply (checksum_field_changed 24 i x y f); try done; try lia.
    by rewrite Hc', Hc, take_insert_ge by lia.
  - apply (checksum_field_changed 28 i x y f); try done; try lia.
    rewrite <-Hq, <-Hpc, Hq', Hpc', Hp', Hp, drop_insert_lt by lia. done.
  - rewrite Hq', Hp', at_offset_insert_out in Hq by lia. rewrite <-Hpc, Hpc', Hp in Hq.
    rewrite drop_insert_ge in Hq by done. revert Hq.
    apply (crc32c_changed (drop 32 f) (i - 32) x y); try done.
    rewrite lookup_drop. rewrite <-Hi. f_equal. lia.
Qed.
Lemma single_byte_corruption_refused_witness :
  exists s, decode_frame (<[33%nat := 3]> sample_frame) = Err s.
Proof.
  apply (single_byte_corruption_refused sample_frame [1; 2; 255] (mkFrameHeader 1 3 0 7 3 1327321787)
           33 2 3 sample_frame_bytes); try (vm_compute; reflexivity); unfold byte_ok; lia.
Defined.
