(* ===== verification/ChannelProps.v ===== *)
(** * ChannelProps: message delivery over a byte stream

    [StreamLaws] states what a channel relies on of the socket under it: bytes
    are delivered in order, a read returns some of the bytes at the front and
    never more than was asked for, and a write queues all of its bytes; sizes are
    those an [int] holds.  Against that interface a channel delivers the messages
    sent, however the stream fragments them; whatever the stream does, sequence
    numbers only increase. *)

From stdpp Require Import base gmap list strings sorting.
From Stdlib Require Import Ascii ZArith Lia.
From S2P Require Import Prelude Status Ids Bytes Hash Enums Model Wire WireTheory WireCanon.
From S2P Require Import FrameProps Protocol.

Class StreamLaws (S : Type) `{ByteStream S} := {
  incoming : S -> list Z;
  outgoing : S -> list Z;
  stream_read_front n s : (0 < n)%nat -> Z.of_nat n < 2 ^ 31 -> incoming s <> [] ->
    exists chunk s', stream_read n s = (Val chunk, s') /\ chunk <> [] /\ (length chunk <= n)%nat /\
      incoming s = chunk ++ incoming s';
  stream_write_all data s : Z.of_nat (length data) < 2 ^ 31 ->
    exists s', stream_write data s = (Status_success, s') /\ outgoing s' = outgoing s ++ data
}.

(** The two directions of a stream are independent: what an end that both reads
    and writes relies on besides. *)
Class DuplexLaws (S : Type) `{StreamLaws S} : Prop := {
  stream_read_outgoing n s : outgoing (stream_read n s).2 = outgoing s;
  stream_write_incoming data s : incoming (stream_write data s).2 = incoming s
}.

(** ** Reading a given number of bytes *)

Section reading.
Context {S : Type} `{ByteStream S}.

(** One iteration of the loop. *)
Lemma read_exactly_step fuel size buffer (s : S) : (length buffer < size)%nat ->
  read_exactly (Datatypes.S fuel) size buffer s =
  match stream_read (size - length buffer) s with
  | (Err status, s) => (Err status, s)
  | (Val [], s) => (Err (Status_error ErrorCode.PeerClosed "peer closed the connection"), s)
  | (Val chunk, s) => read_exactly fuel size (buffer ++ chunk) s
  end.
Proof.
  intros Hl. cbn [read_exactly]. apply Nat.ltb_lt in Hl. by rewrite Hl.
Qed.
Lemma read_exactly_full fuel size buffer (s : S) : (size <= length buffer)%nat ->
  read_exactly fuel size buffer s = (Val buffer, s).
Proof. intros Hl. apply Nat.ltb_ge in Hl. destruct fuel; cbn [read_exactly]; by rewrite Hl. Qed.

(** the loop that fills a buffer returns: one unit of fuel per missing byte
    is enough on any stream, so more fuel never changes the result. *)
Theorem read_exactly_terminates fuel more size buffer (s : S) :
  (size - length buffer <= fuel)%nat ->
  read_exactly (fuel + more) size buffer s = read_exactly fuel size buffer s.
Proof.
  revert buffer s. induction fuel as [|fuel IH]; intros buffer s Hf.
  - by rewrite !read_exactly_full by lia.
  - destruct (Nat.lt_ge_cases (length buffer) size); [|by rewrite !read_exactly_full by lia].
    cbn [Nat.add]. rewrite !read_exactly_step by done.
    destruct (stream_read _ s) as [[chunk|status] s']; [|done].
    destruct chunk as [|b chunk]; [done|]. apply IH. rewrite length_app. cbn. lia.
Qed.

Context `{!StreamLaws S}.

Lemma read_exactly_front fuel size buffer (s : S) front after :
  (size - length buffer <= fuel)%nat -> Z.of_nat size < 2 ^ 31 -> incoming s = front ++ after ->
  (length buffer + length front)%nat = size ->
  exists s', read_exactly fuel size buffer s = (Val (buffer ++ front), s') /\ incoming s' = after.
Proof.
  revert buffer s front. induction fuel as [|fuel IH]; intros buffer s front Hf Hz Hin Hl.
  - destruct front as [|b front]; [|cbn in Hl; lia]. exists s.
    rewrite read_exactly_full, app_nil_r by (cbn in Hl; lia). done.
  - destruct front as [|b front].
    { exists s. rewrite read_exactly_full, app_nil_r by (cbn in Hl; lia). done. }
    assert (length buffer < size)%nat as Hlt by (cbn in Hl; lia).
    destruct (stream_read_front (size - length buffer) s) as (chunk & s' & Hr & Hne & Hc & Hi);
      [lia|lia|by rewrite Hin|].
    rewrite read_exactly_step, Hr by done. destruct chunk as [|x chunk]; [done|].
    rewrite Hin in Hi. set (whole := b :: front) in *. set (c := x :: chunk) in *.
    assert (whole = c ++ drop (length c) whole /\ incoming s' = drop (length c) whole ++ after)
      as [Hw Hi'].
    { assert (length c <= length whole)%nat by lia.
      pose proof (f_equal (take (length c)) Hi) as Ht. pose proof (f_equal (drop (length c)) Hi) as Hd.
      rewrite take_app_length, take_app_le in Ht by lia.
      rewrite drop_app_length, drop_app_le in Hd by lia.
      split; [|done]. rewrite <-Ht at 1. by rewrite take_drop. }
    destruct (IH (buffer ++ c) s' (drop (length c) whole)) as (s2 & Hs2 & Hi2).
    + rewrite length_app. unfold c. cbn. lia.
    + done.
    + done.
    + rewrite length_app, length_drop. apply (f_equal length) in Hw.
      rewrite length_app, length_drop in Hw. lia.
    + exists s2. rewrite Hs2, <-app_assoc, <-Hw. done.
Qed.

(** A whole frame at the front of the stream is read as that frame. *)
Lemma read_frame_front (s : S) f payload h after :
  frame_checked f payload h -> incoming s = f ++ after ->
  exists s', read_frame s = (Val f, s') /\ incoming s' = after.
Proof.
  intros (Hl & Hn & Hmax & Hp & Hm & _) Hin. unfold kFrameHeaderBytes in *.
  assert (length (take 32 f) = 32%nat) as Hl32 by (rewrite length_take; lia).
  destruct (read_exactly_front 32 32 [] s (take 32 f) (drop 32 f ++ after)) as (s1 & H1 & Hi1);
    [cbn; lia|done|by rewrite app_assoc, take_drop|cbn; lia|].
  unfold read_frame, kFrameHeaderBytes. rewrite H1. cbn [app].
  assert (forall o n, (o + n <= 32)%nat -> at_offset o n (take 32 f) = at_offset o n f) as Hoff.
  { intros o n Hon. unfold at_offset. rewrite skipn_firstn_comm, take_take, Nat.min_l by lia. done. }
  rewrite !Hoff, Hm, Z.eqb_refl, <-Hn by lia. cbn [negb]. rewrite !Z.gtb_ltb.
  destruct (Z.ltb_spec kMaxPayloadBytes (fh_payload_bytes h)); [lia|].
  destruct (Z.ltb_spec 0 (fh_payload_bytes h)) as [Hpos|Hz].
  - set (n := Z.to_nat (fh_payload_bytes h)) in *.
    destruct (read_exactly_front n n [] s1 (drop 32 f) after) as (s2 & H2 & Hi2);
      [cbn; lia|unfold kMaxPayloadBytes in *; lia|done|cbn; rewrite length_drop; lia|].
    exists s2. rewrite H2. cbn [app]. by rewrite take_drop.
  - exists s1. rewrite take_ge by lia. split; [done|]. rewrite Hi1, drop_ge by lia. done.
Qed.
End reading.

(** ** A concrete stream *)

(** The chunks still to arrive, each as the network delivers it, and the bytes
    written so far. *)
Record Pipe := mkPipe { pipe_chunks : list (list Z); pipe_written : list Z }.

Fixpoint pipe_read (n : nat) (chunks : list (list Z)) : list Z * list (list Z) :=
  match chunks with
  | [] => ([], [])
  | [] :: chunks => pipe_read n chunks
  | chunk :: chunks => (take n chunk, drop n chunk :: chunks)
  end.
#[global] Instance Pipe_stream : ByteStream Pipe := {
  stream_write data p := (Status_success, mkPipe (pipe_chunks p) (pipe_written p ++ data));
  stream_read n p :=
    let '(chunk, chunks) := pipe_read n (pipe_chunks p) in
    (Val chunk, mkPipe chunks (pipe_written p))
}.

Lemma pipe_read_front n chunks : (0 < n)%nat -> concat chunks <> [] ->
  let '(chunk, chunks') := pipe_read n chunks in
  chunk <> [] /\ (length chunk <= n)%nat /\ concat chunks = chunk ++ concat chunks'.
Proof.
  intros Hn. induction chunks as [|[|b c] chunks IH]; intros Hne; [done|by apply IH|].
  destruct n as [|n]; [lia|]. cbn. split; [done|]. rewrite length_take. split; [lia|].
  by rewrite app_assoc, take_drop.
Qed.

#[global, program] Instance Pipe_laws : StreamLaws Pipe := {
  incoming p := concat (pipe_chunks p);
  outgoing p := pipe_written p
}.
Next Obligation.
  intros n p Hn _ Hne. cbn. pose proof (pipe_read_front n (pipe_chunks p) Hn Hne) as H.
  destruct (pipe_read n (pipe_chunks p)) as [chunk chunks]. by eexists _, _.
Qed.
Next Obligation. intros data p _. by eexists. Qed.

#[global] Instance Pipe_duplex : DuplexLaws Pipe.
Proof.
  split; [|done]. intros n s. cbn. by destruct (pipe_read n (pipe_chunks s)).
Qed.

Lemma read_exactly_terminates_witness :
  read_exactly (4 + 5) 4 [] (mkPipe [[1]; [2; 3]; [4; 5]] []) =
  read_exactly 4 4 [] (mkPipe [[1]; [2; 3]; [4; 5]] []).
Proof. apply (read_exactly_terminates 4 5 4 [] (mkPipe [[1]; [2; 3]; [4; 5]] [])). cbn. lia. Defined.

(** ** Sequence numbers *)

Section ordering.
Context {S : Type} `{ByteStream S}.

(** [n] calls of [receive], with the messages that were delivered. *)
Fixpoint receives (n : nat) (c : MessageChannel S) : list Message * MessageChannel S :=
  match n with
  | O => ([], c)
  | Datatypes.S n' =>
      let '(r, c) := receive c in
      let '(rest, c) := receives n' c in
      (match r with Val m => m :: rest | Err _ => rest end, c)
  end.

Definition sequenced (c : MessageChannel S) (q : Z) : Prop :=
  ch_received_any c = true -> ch_last_received_sequence c < q.

Lemma receive_cases (c : MessageChannel S) :
  let '(r, c') := receive c in
  ch_send_sequence c' = ch_send_sequence c /\
  match r with
  | Val m => sequenced c (msg_sequence m) /\ ch_received_any c' = true /\
             ch_last_received_sequence c' = msg_sequence m
  | Err _ => ch_received_any c' = ch_received_any c /\
             ch_last_received_sequence c' = ch_last_received_sequence c
  end.
Proof.
  unfold receive, accept_frame, sequenced.
  destruct (read_frame (ch_socket c)) as [[f|status] s]; [|done].
  destruct (decode_frame f) as [[payload h]|status]; [|done].
  destruct (MessageType.of_value (fh_message_type h)); [|done]. cbn.
  destruct (ch_received_any c) eqn:E; cbn; [|done].
  destruct (Z.leb_spec (fh_sequence h) (ch_last_received_sequence c)); cbn; [by rewrite E|].
  done.
Qed.

Lemma receives_above n (c : MessageChannel S) :
  Forall (fun m => sequenced c (msg_sequence m)) (receives n c).1.
Proof.
  revert c. induction n as [|n IH]; intros c; [constructor|]. cbn [receives].
  pose proof (receive_cases c) as Hc. destruct (receive c) as [r c1]. destruct Hc as [_ Hc].
  specialize (IH c1). destruct (receives n c1) as [rest c2]. cbn in *. unfold sequenced in *.
  destruct r as [m|status].
  - destruct Hc as (Hm & Hany & Hlast). constructor; [done|].
    eapply Forall_impl; [exact IH|]. intros m' Hm' Hc. specialize (Hm Hc). specialize (Hm' Hany). lia.
  - destruct Hc as [E1 E2]. by rewrite E1, E2 in IH.
Qed.

(** replay protection: whatever bytes the peer or the network produces, the
    sequence numbers of the messages a channel delivers strictly increase, so no
    frame is delivered twice and none out of order; a refused frame leaves the
    high-water mark where it was. *)
Theorem received_sequences_increase n (c : MessageChannel S) :
  StronglySorted Z.lt (map msg_sequence (receives n c).1).
Proof.
  revert c. induction n as [|n IH]; intros c; [constructor|]. cbn [receives].
  pose proof (receive_cases c) as Hc. destruct (receive c) as [r c1]. destruct Hc as [_ Hc].
  pose proof (IH c1) as Hs. pose proof (receives_above n c1) as Ha.
  destruct (receives n c1) as [rest c2]. cbn in *. destruct r as [m|status]; [|done].
  destruct Hc as (_ & Hany & Hlast). cbn. constructor; [done|].
  apply Forall_map. eapply Forall_impl; [exact Ha|]. intros m' Hm'. unfold sequenced in Hm'.
  rewrite <-Hlast. by apply Hm'.
Qed.
End ordering.

(** ** Delivery *)

Section delivery.
Context {S : Type} `{StreamLaws S}.

Fixpoint sends (messages : list (MessageType * list Z)) (c : MessageChannel S)
  : list Status * MessageChannel S :=
  match messages with
  | [] => ([], c)
  | (type, payload) :: messages =>
      let '(status, c) := send type payload c in
      let '(rest, c) := sends messages c in (status :: rest, c)
  end.

(** The messages as the peer sees them: numbered from the one after [q]. *)
Fixpoint numbered (q : Z) (messages : list (MessageType * list Z)) : list Message :=
  match messages with
  | [] => []
  | (type, payload) :: messages => mkMessage type (q + 1) payload :: numbered (q + 1) messages
  end.

Lemma message_value_back t : MessageType.of_value (MessageType.value t) = Some t.
Proof. by destruct t. Qed.

Lemma send_frame type payload (c : MessageChannel S) :
  0 <= ch_send_sequence c -> ch_send_sequence c + 1 < 2 ^ 64 ->
  Z.of_nat (length payload) <= kMaxPayloadBytes ->
  exists f h s', send type payload c =
      (Status_success, mkChannel s' (ch_send_sequence c + 1) (ch_last_received_sequence c)
                         (ch_received_any c)) /\
    outgoing s' = outgoing (ch_socket c) ++ f /\ decode_frame f = Val (payload, h) /\
    fh_message_type h = MessageType.value type /\ fh_sequence h = ch_send_sequence c + 1.
Proof.
  intros Hq Hq' Hp. unfold send. rewrite u64_small by lia. cbn zeta.
  set (h := mkFrameHeader _ _ _ _ _ _). rewrite encode_frame_ok by done. cbn [ch_socket].
  set (f := _ ++ _).
  destruct (stream_write_all f (ch_socket c)) as (s' & -> & Hs').
  { unfold f. rewrite !length_app, frame_prefix_length, !be_bytes_length.
    unfold kMaxPayloadBytes in Hp. lia. }
  exists f, (received_header h payload), s'. split_and!; try done.
  apply decode_encoded; [|done]. unfold header_wire, in_u32, in_u64. cbn.
  assert (0 <= MessageType.value type < 2 ^ 16) by (destruct type; cbn; lia). lia.
Qed.

Lemma receive_frame f payload h type (c : MessageChannel S) after :
  decode_frame f = Val (payload, h) -> incoming (ch_socket c) = f ++ after ->
  MessageType.of_value (fh_message_type h) = Some type -> sequenced c (fh_sequence h) ->
  exists s', receive c =
      (Val (mkMessage type (fh_sequence h) payload),
       mkChannel s' (ch_send_sequence c) (fh_sequence h) true) /\ incoming s' = after.
Proof.
  intros Hd Hi Ht Hs. pose proof (decode_frame_checked f payload h Hd) as Hc.
  destruct (read_frame_front _ f payload h after Hc Hi) as (s' & Hr & Hi').
  exists s'. split; [|done]. unfold receive. rewrite Hr. unfold accept_frame. rewrite Hd, Ht. cbn.
  unfold sequenced in Hs. destruct (ch_received_any c); cbn; [|done].
  destruct (Z.leb_spec (fh_sequence h) (ch_last_received_sequence c)); [|done].
  specialize (Hs eq_refl). lia.
Qed.

(** The frame that carries a message, and the frames of messages numbered from the
    one after [q]. *)
Definition frame_of (q : Z) (type : MessageType) (payload : list Z) : list Z :=
  match encode_frame (mkFrameHeader kProtocolVersion (MessageType.value type) 0 q
                        (u32 (Z.of_nat (length payload))) 0) payload with
  | Val f => f
  | Err _ => []
  end.
Fixpoint frames (q : Z) (messages : list (MessageType * list Z)) : list Z :=
  match messages with
  | [] => []
  | (type, payload) :: messages => frame_of (q + 1) type payload ++ frames (q + 1) messages
  end.
Lemma frames_app q ms ms' :
  frames q (ms ++ ms') = frames q ms ++ frames (q + Z.of_nat (length ms)) ms'.
Proof.
  revert q. induction ms as [|[type payload] ms IH]; intros q; cbn [frames length app].
  - by rewrite Z.add_0_r.
  - rewrite IH, <- app_assoc. do 3 f_equal. lia.
Qed.

Lemma frame_of_decodes q type payload : 0 <= q < 2 ^ 64 -> Z.of_nat (length payload) <= kMaxPayloadBytes ->
  exists h, decode_frame (frame_of q type payload) = Val (payload, h) /\
    fh_message_type h = MessageType.value type /\ fh_sequence h = q.
Proof.
  intros Hq Hp. unfold frame_of. set (h := mkFrameHeader _ _ _ _ _ _). rewrite encode_frame_ok by done.
  exists (received_header h payload). split_and!; try done. apply decode_encoded; [|done].
  unfold header_wire, in_u32, in_u64. cbn.
  assert (0 <= MessageType.value type < 2 ^ 16) by (destruct type; cbn; lia). lia.
Qed.

Context `{!DuplexLaws S}.

Lemma read_exactly_outgoing fuel size buffer (s : S) :
  outgoing (read_exactly fuel size buffer s).2 = outgoing s.
Proof.
  revert buffer s. induction fuel as [|fuel IH]; intros buffer s; cbn [read_exactly];
    (destruct (_ <? _)%nat; [|done]); [done|].
  pose proof (stream_read_outgoing (size - length buffer) s) as Ho.
  destruct (stream_read _ s) as [[[|b chunk]|status] s']; cbn in *; [done| |done]. by rewrite IH.
Qed.
Lemma receive_outgoing (c : MessageChannel S) : outgoing (ch_socket (receive c).2) = outgoing (ch_socket c).
Proof.
  assert (outgoing (read_frame (ch_socket c)).2 = outgoing (ch_socket c)) as Hf.
  { unfold read_frame. pose proof (read_exactly_outgoing kFrameHeaderBytes kFrameHeaderBytes [] (ch_socket c)) as H1.
    destruct (read_exactly _ _ _ _) as [[header|status] s1]; [|done]. cbn in H1. destruct (negb _); [done|].
    cbn zeta. destruct (_ >? _); [done|]. destruct (_ >? 0); [|done].
    match goal with |- context [read_exactly ?f ?n [] s1] =>
      pose proof (read_exactly_outgoing f n [] s1) as H2; destruct (read_exactly f n [] s1) as [[payload|status] s2] end;
      cbn in *; congruence. }
  unfold receive. destruct (read_frame _) as [[f|status] s']; cbn in *; [|done].
  unfold accept_frame. destruct (decode_frame f) as [[payload h]|status]; [|done].
  destruct (MessageType.of_value _); [|done]. by destruct (_ && _).
Qed.

(** One message, received and sent, with both directions accounted for. *)
Lemma receive_message q type payload (c : MessageChannel S) after :
  0 <= q < 2 ^ 64 -> Z.of_nat (length payload) <= kMaxPayloadBytes -> sequenced c q ->
  incoming (ch_socket c) = frame_of q type payload ++ after ->
  exists s', receive c = (Val (mkMessage type q payload), mkChannel s' (ch_send_sequence c) q true) /\
    incoming s' = after /\ outgoing s' = outgoing (ch_socket c).
Proof.
  intros Hq Hp Hs Hi. destruct (frame_of_decodes q type payload Hq Hp) as (h & Hd & Ht & Hn).
  destruct (receive_frame _ payload h type c after Hd Hi) as (s' & Hr & Ha);
    [rewrite Ht; apply message_value_back|by rewrite Hn|].
  rewrite Hn in Hr. exists s'. split_and!; [done|done|].
  pose proof (receive_outgoing c) as Ho. by rewrite Hr in Ho.
Qed.
Lemma send_message type payload (c : MessageChannel S) :
  0 <= ch_send_sequence c -> ch_send_sequence c + 1 < 2 ^ 64 ->
  Z.of_nat (length payload) <= kMaxPayloadBytes ->
  exists s', send type payload c =
      (Status_success, mkChannel s' (ch_send_sequence c + 1) (ch_last_received_sequence c)
                         (ch_received_any c)) /\
    incoming s' = incoming (ch_socket c) /\
    outgoing s' = outgoing (ch_socket c) ++ frame_of (ch_send_sequence c + 1) type payload.
Proof.
  intros Hq Hq' Hp. unfold send, frame_of. rewrite (u64_small (_ + 1)) by lia. cbn zeta.
  set (h := mkFrameHeader _ _ _ _ _ _). rewrite encode_frame_ok by done. cbn [ch_socket].
  set (f := _ ++ _). pose proof (stream_write_incoming f (ch_socket c)) as Hi.
  destruct (stream_write_all f (ch_socket c)) as (s' & Hw & Hs').
  { unfold f. rewrite !length_app, frame_prefix_length, !be_bytes_length.
    unfold kMaxPayloadBytes in Hp. lia. }
  rewrite Hw in *. by exists s'.
Qed.

(** C28: delivery: messages whose payloads fit are all accepted by [send], and a
    peer that reads the bytes written, split into fragments in any way, delivers
    exactly those messages, in order, numbered consecutively, and stops at the
    first byte after them. *)
Theorem channel_delivers messages (sender : MessageChannel S) :
  0 <= ch_send_sequence sender ->
  ch_send_sequence sender + Z.of_nat (length messages) < 2 ^ 64 ->
  Forall (fun m => Z.of_nat (length m.2) <= kMaxPayloadBytes) messages ->
  let '(statuses, sender') := sends messages sender in
  Forall (fun s => Status_ok s = true) statuses /\
  exists bytes, outgoing (ch_socket sender') = outgoing (ch_socket sender) ++ bytes /\
    forall (receiver : MessageChannel S) after,
      sequenced receiver (ch_send_sequence sender + 1) ->
      incoming (ch_socket receiver) = bytes ++ after ->
      exists receiver',
        receives (length messages) receiver =
          (numbered (ch_send_sequence sender) messages, receiver') /\
        incoming (ch_socket receiver') = after.
Proof.
  revert sender. induction messages as [|[type payload] messages IH]; intros sender Hq0 Hq Hall.
  { cbn. split; [constructor|]. exists []. rewrite app_nil_r. split; [done|].
    intros receiver after _ Hi. by exists receiver. }
  apply Forall_cons in Hall as [Hp Hall]. cbn in Hp. cbn [length sends] in *.
  destruct (send_frame type payload sender Hq0 ltac:(lia) Hp)
    as (f & h & s1 & Hs & Ho & Hd & Ht & Hn). rewrite Hs.
  specialize (IH (mkChannel s1 (ch_send_sequence sender + 1) (ch_last_received_sequence sender)
                    (ch_received_any sender))). cbn in IH.
  destruct (sends messages _) as [rest c2].
  destruct IH as (Hst & bytes & Hb & Hrec); [lia|lia|done|].
  split; [by constructor|]. exists (f ++ bytes). split; [by rewrite Hb, Ho, app_assoc|].
  intros receiver after Hseq Hi. rewrite <-app_assoc in Hi.
  destruct (receive_frame f payload h type receiver (bytes ++ after) Hd Hi) as (s' & Hr & Hi').
  { rewrite Ht. apply message_value_back. }
  { by rewrite Hn. }
  rewrite Hn in Hr. cbn [receives numbered]. rewrite Hr.
  destruct (Hrec (mkChannel s' (ch_send_sequence receiver) (ch_send_sequence sender + 1) true) after)
    as (receiver' & -> & Ha); [intros _; cbn; lia|done|by exists receiver'].
Qed.
End delivery.

Definition sample_messages : list (MessageType * list Z) :=
  [(MessageType.QueryAccounting, []); (MessageType.ShardData, [1; 2; 255])].

Definition fresh_channel : MessageChannel Pipe := channel_open (mkPipe [] []).

Lemma channel_delivers_witness :
  let '(statuses, sender') := sends sample_messages fresh_channel in
  Forall (fun s => Status_ok s = true) statuses /\
  exists bytes,
    outgoing (ch_socket sender') = outgoing (ch_socket fresh_channel) ++ bytes /\
    forall (receiver : MessageChannel Pipe) after,
      sequenced receiver (ch_send_sequence fresh_channel + 1) ->
      incoming (ch_socket receiver) = bytes ++ after ->
      exists receiver',
        receives (length sample_messages) receiver =
          (numbered (ch_send_sequence fresh_channel) sample_messages, receiver') /\
        incoming (ch_socket receiver') = after.
Proof.
  apply (channel_delivers sample_messages fresh_channel); cbn; [lia|lia|].
  unfold kMaxPayloadBytes. repeat (constructor; [cbn; lia|]). constructor.
Defined.
