(* ===== verification/WireProps.v ===== *)
(** * WireProps: the message payloads cross the wire unchanged

    The round trip and the canonicity of the twenty-six payload codecs (the twenty-one
    request, response and transfer payloads of [protocol.hpp] and the five model
    records the service answers with), from the lemmas of [ProtocolCodec],
    [CodecProps] and [CodecCanon], as statements about [encode_payload] and
    [decode_payload]. *)

From stdpp Require Import base gmap list strings.
From Stdlib Require Import Ascii ZArith Lia.
From S2P Require Import Prelude Status Ids Bytes Hash Enums Model Fence Shaper.
From S2P Require Import EngineState EngineAuthority EngineAdmission EngineLifecycle.
From S2P Require Import EngineInspect Wire Codec WireTheory WireCanon CodecProps CodecCanon.
From S2P Require Import Protocol ProtocolCodec Client.

(** Every value that fits the limits is decoded from its own payload. *)
Definition round_trips {T} (lim : Limits) (W : Limits -> T -> Prop) (enc : T -> Enc)
    (dec : T -> Dec T) (initial : T) : Prop :=
  forall v, W lim v -> decode_payload dec initial (encode_payload enc v) lim = Val v.

(** A byte string that decodes is the payload of the value it decodes to, and
    that value fits the limits. *)
Definition only_canonical {T} (lim : Limits) (W : Limits -> T -> Prop) (enc : T -> Enc)
    (dec : T -> Dec T) (initial : T) : Prop :=
  forall payload v, Forall byte_ok payload -> decode_payload dec initial payload lim = Val v ->
    W lim v /\ encode_payload enc v = payload.

Lemma round_trips_coded {T} lim W (enc : T -> Enc) (dec : T -> Dec T) initial :
  (forall v, W lim v -> coded lim (enc v) (dec initial) v) -> round_trips lim W enc dec initial.
Proof. intros H v Hv. by apply coded_payload, H. Qed.
Lemma only_canonical_canon {T} lim W (enc : T -> Enc) (dec : T -> Dec T) initial :
  canon lim (W lim) enc (dec initial) -> only_canonical lim W enc dec initial.
Proof. intros H payload v Hb Hd. by eapply canon_payload. Qed.

(** C33: every one of the twenty-six payloads that an end of the protocol decodes
    (the requests, the answers to them, and the shard transfer messages) is read
    back from its bytes as it was written, whenever its strings, collections and
    integers are within the limits of the receiver (the [_wire] predicate of its
    type). *)
Theorem payloads_round_trip lim :
  round_trips lim ShardBeginPayload_wire encode_ShardBeginPayload decode_ShardBeginPayload ShardBeginPayload_default /\
  round_trips lim ShardDataPayload_wire encode_ShardDataPayload decode_ShardDataPayload ShardDataPayload_default /\
  round_trips lim ShardEndPayload_wire encode_ShardEndPayload decode_ShardEndPayload ShardEndPayload_default /\
  round_trips lim ShardAckPayload_wire encode_ShardAckPayload decode_ShardAckPayload ShardAckPayload_default /\
  round_trips lim HelloResponse_wire encode_HelloResponse decode_HelloResponse HelloResponse_default /\
  round_trips lim SubmitRequest_wire encode_SubmitRequest decode_SubmitRequest SubmitRequest_default /\
  round_trips lim SessionQuery_wire encode_SessionQuery decode_SessionQuery SessionQuery_default /\
  round_trips lim SessionsQuery_wire encode_SessionsQuery decode_SessionsQuery SessionsQuery_default /\
  round_trips lim CancelRequest_wire encode_CancelRequest decode_CancelRequest CancelRequest_default /\
  round_trips lim PauseRequest_wire encode_PauseRequest decode_PauseRequest PauseRequest_default /\
  round_trips lim ResumeRequest_wire encode_ResumeRequest decode_ResumeRequest ResumeRequest_default /\
  round_trips lim RevalidateRequest_wire encode_RevalidateRequest decode_RevalidateRequest RevalidateRequest_default /\
  round_trips lim WaveRequest_wire encode_WaveRequest decode_WaveRequest WaveRequest_default /\
  round_trips lim AmbiguityRequest_wire encode_AmbiguityRequest decode_AmbiguityRequest AmbiguityRequest_default /\
  round_trips lim SourceCompleteRequest_wire encode_SourceCompleteRequest decode_SourceCompleteRequest SourceCompleteRequest_default /\
  round_trips lim TransferReport_wire encode_TransferReport decode_TransferReport TransferReport_default /\
  round_trips lim VerificationReport_wire encode_VerificationReport decode_VerificationReport VerificationReport_default /\
  round_trips lim DurabilityRequest_wire encode_DurabilityRequest decode_DurabilityRequest DurabilityRequest_default /\
  round_trips lim SessionListResponse_wire encode_SessionListResponse decode_SessionListResponse SessionListResponse_default /\
  round_trips lim StatusPayload_wire encode_StatusPayload decode_StatusPayload StatusPayload_default /\
  round_trips lim HelloRequest_wire encode_HelloRequest decode_HelloRequest HelloRequest_default /\
  round_trips lim AdmissionDecision_wire encode_AdmissionDecision decode_AdmissionDecision AdmissionDecision_default /\
  round_trips lim WaveOutcome_wire encode_WaveOutcome decode_WaveOutcome WaveOutcome_default /\
  round_trips lim SessionView_wire encode_SessionView decode_SessionView SessionView_default /\
  round_trips lim AccountingSnapshot_wire encode_AccountingSnapshot decode_AccountingSnapshot AccountingSnapshot_default /\
  round_trips lim Explanation_wire encode_Explanation decode_Explanation Explanation_default.
Proof. split_and!; apply round_trips_coded; intros; auto with codec. Qed.

(** A grant that crosses the wire in a wave outcome. *)
Definition granted_outcome : WaveOutcome :=
  mkWaveOutcome true ReasonCode.Admitted_ "granted"
    (Some (WaveGrant_default <| wg_max_bytes := 65536 |> <| wg_expires_at := 5 |>)) None 3.
Lemma payloads_round_trip_witness :
  decode_payload decode_WaveOutcome WaveOutcome_default
    (encode_payload encode_WaveOutcome granted_outcome) Limits_default = Val granted_outcome.
Proof.
  pose proof (payloads_round_trip Limits_default) as
    (_ & _ & _ & _ & _ & _ & _ & _ & _ & _ & _ & _ & _ & _ & _ & _ & _ & _ & _ & _ & _ & _ & H & _).
  apply H. repeat split; try (vm_compute; congruence); repeat constructor; vm_compute; congruence.
Defined.

(** C34: each of the twenty-six payload decoders accepts canonical encodings only:
    whatever bytes it accepts, the value obeys the receiver's limits and
    re-encodes to the very bytes received, so no message has two spellings and
    trailing bytes are refused. *)
Theorem payloads_canonical lim :
  only_canonical lim ShardBeginPayload_wire encode_ShardBeginPayload decode_ShardBeginPayload ShardBeginPayload_default /\
  only_canonical lim ShardDataPayload_wire encode_ShardDataPayload decode_ShardDataPayload ShardDataPayload_default /\
  only_canonical lim ShardEndPayload_wire encode_ShardEndPayload decode_ShardEndPayload ShardEndPayload_default /\
  only_canonical lim ShardAckPayload_wire encode_ShardAckPayload decode_ShardAckPayload ShardAckPayload_default /\
  only_canonical lim HelloResponse_wire encode_HelloResponse decode_HelloResponse HelloResponse_default /\
  only_canonical lim SubmitRequest_wire encode_SubmitRequest decode_SubmitRequest SubmitRequest_default /\
  only_canonical lim SessionQuery_wire encode_SessionQuery decode_SessionQuery SessionQuery_default /\
  only_canonical lim SessionsQuery_wire encode_SessionsQuery decode_SessionsQuery SessionsQuery_default /\
  only_canonical lim CancelRequest_wire encode_CancelRequest decode_CancelRequest CancelRequest_default /\
  only_canonical lim PauseRequest_wire encode_PauseRequest decode_PauseRequest PauseRequest_default /\
  only_canonical lim ResumeRequest_wire encode_ResumeRequest decode_ResumeRequest ResumeRequest_default /\
  only_canonical lim RevalidateRequest_wire encode_RevalidateRequest decode_RevalidateRequest RevalidateRequest_default /\
  only_canonical lim WaveRequest_wire encode_WaveRequest decode_WaveRequest WaveRequest_default /\
  only_canonical lim AmbiguityRequest_wire encode_AmbiguityRequest decode_AmbiguityRequest AmbiguityRequest_default /\
  only_canonical lim SourceCompleteRequest_wire encode_SourceCompleteRequest decode_SourceCompleteRequest SourceCompleteRequest_default /\
  only_canonical lim TransferReport_wire encode_TransferReport decode_TransferReport TransferReport_default /\
  only_canonical lim VerificationReport_wire encode_VerificationReport decode_VerificationReport VerificationReport_default /\
  only_canonical lim DurabilityRequest_wire encode_DurabilityRequest decode_DurabilityRequest DurabilityRequest_default /\
  only_canonical lim SessionListResponse_wire encode_SessionListResponse decode_SessionListResponse SessionListResponse_default /\
  only_canonical lim StatusPayload_wire encode_StatusPayload decode_StatusPayload StatusPayload_default /\
  only_canonical lim HelloRequest_wire encode_HelloRequest decode_HelloRequest HelloRequest_default /\
  only_canonical lim AdmissionDecision_wire encode_AdmissionDecision decode_AdmissionDecision AdmissionDecision_default /\
  only_canonical lim WaveOutcome_wire encode_WaveOutcome decode_WaveOutcome WaveOutcome_default /\
  only_canonical lim SessionView_wire encode_SessionView decode_SessionView SessionView_default /\
  only_canonical lim AccountingSnapshot_wire encode_AccountingSnapshot decode_AccountingSnapshot AccountingSnapshot_default /\
  only_canonical lim Explanation_wire encode_Explanation decode_Explanation Explanation_default.
Proof. split_and!; apply only_canonical_canon; auto with canon. Qed.
(** Twenty-six bytes a sender may receive as an acknowledgement. *)
Definition ack_bytes : list Z :=
  [0; 0; 0; 0; 0; 0; 3; 232; 1; 0; 0; 0; 0; 0; 203; 242; 156; 228; 132; 34; 35; 37; 0; 2; 111; 107].
Lemma payloads_canonical_witness :
  encode_payload encode_ShardAckPayload (mkShardAckPayload 1000 true false Digest_default "ok") =
  ack_bytes.
Proof.
  pose proof (payloads_canonical Limits_default) as (_ & _ & _ & H & _).
  apply (H ack_bytes); [|vm_compute; reflexivity].
  repeat constructor; vm_compute; congruence.
Defined.
