(* ===== verification/SnapshotCodec.v ===== *)
(** * SnapshotCodec: round trip and canonicity of the persistent form

    [X_wire], [coded_X], [sticky_X] and [canon_X] for the persisted records and
    the whole snapshot, as in [CodecProps] and [CodecCanon]. *)

From stdpp Require Import base gmap list strings.
From Stdlib Require Import Ascii ZArith Lia.
From S2P Require Import Prelude Status Ids Bytes Hash Enums Model Fence Shaper.
From S2P Require Import EngineState EngineAuthority EngineAdmission EngineLifecycle.
From S2P Require Import EngineInspect Wire Codec WireTheory WireCanon CodecProps CodecCanon.
From S2P Require Import Snapshot.

(** ** Round trips *)

Definition PersistedShard_wire (lim : Limits) (v : PersistedShard) : Prop :=
  scalar_wire (ps_index v) /\ gen_wire (ps_sequence v) /\ in_u64 (ps_granted_bytes v) /\
  in_u64 (ps_transferred_bytes v) /\ in_u64 (ps_verified_bytes v) /\
  Digest_wire (ps_observed_digest v) /\ option_wire id_wire (ps_attempt v) /\
  in_u64 (ps_source_bytes v).
Lemma coded_PersistedShard lim v initial :
  PersistedShard_wire lim v -> coded lim (encode_PersistedShard v) (decode_PersistedShard initial) v.
Proof. codec. Qed.
#[export] Hint Resolve coded_PersistedShard : codec.

Definition PersistedAttempt_wire (lim : Limits) (v : PersistedAttempt) : Prop :=
  id_wire (pa_id v) /\ gen_wire (pa_sequence v) /\ scalar_wire (pa_shard v) /\
  scalar_wire (pa_wave v) /\ in_u64 (pa_granted_bytes v) /\ in_u64 (pa_delivered_bytes v) /\
  Digest_wire (pa_observed_digest v) /\ in_s64 (pa_granted_at v) /\ in_s64 (pa_updated_at v).
Lemma coded_PersistedAttempt lim v initial :
  PersistedAttempt_wire lim v -> coded lim (encode_PersistedAttempt v) (decode_PersistedAttempt initial) v.
Proof. codec. Qed.
#[export] Hint Resolve coded_PersistedAttempt : codec.

Definition PersistedSession_wire (lim : Limits) (v : PersistedSession) : Prop :=
  id_wire (psn_session v) /\ (SessionRequest_wire lim) (psn_request v) /\
  (TrafficEnvelope_wire lim) (psn_envelope v) /\ in_u64 (psn_envelope_sequence v) /\
  in_u64 (psn_attempt_counter v) /\
  list_wire (PersistedShard_wire lim) (lim_max_shards_per_checkpoint lim) (psn_shards v) /\
  list_wire (PersistedAttempt_wire lim) (lim_max_retained_history lim) (psn_attempts v) /\
  list_wire string_wire (lim_max_retained_history lim) (psn_timeline v) /\
  in_u64 (psn_admitted_bytes v) /\ in_u64 (psn_transferred_bytes v) /\
  in_u64 (psn_verified_bytes v) /\ in_u64 (psn_cancelled_bytes v) /\
  in_u64 (psn_wasted_bytes v) /\ in_u64 (psn_unproven_bytes v) /\
  in_u64 (psn_outstanding_bytes v) /\ in_u32 (psn_active_attempts v) /\
  in_s64 (psn_created_at v) /\ in_s64 (psn_updated_at v) /\ string_wire (psn_last_detail v) /\
  string_wire (psn_stale_reason v) /\ option_wire id_wire (psn_superseded_by v).
Lemma coded_PersistedSession lim v initial :
  PersistedSession_wire lim v -> coded lim (encode_PersistedSession v) (decode_PersistedSession initial) v.
Proof. codec. Qed.
#[export] Hint Resolve coded_PersistedSession : codec.

Definition EngineSnapshot_wire (lim : Limits) (v : EngineSnapshot) : Prop :=
  epoch_wire (snap_epoch v) /\ gen_wire (snap_policy_generation v) /\
  gen_wire (snap_topology_generation v) /\
  list_wire contract_generation_wire (lim_max_workloads lim) (snap_contract_generations v) /\
  list_wire (PersistedSession_wire lim) (lim_max_sessions lim) (snap_sessions v) /\
  (AccountingSnapshot_wire lim) (snap_accounting v) /\ in_u64 (snap_commands_processed v).
Lemma coded_EngineSnapshot lim v initial :
  EngineSnapshot_wire lim v -> coded lim (encode_EngineSnapshot v) (decode_EngineSnapshot initial) v.
Proof. codec. Qed.
#[export] Hint Resolve coded_EngineSnapshot : codec.

(** ** Canonicity *)

Lemma sticky_PersistedShard initial : sticky (decode_PersistedShard initial).
Proof. unfold decode_PersistedShard. sticky_record. Qed.
#[export] Hint Resolve sticky_PersistedShard : sticky.
Lemma canon_PersistedShard lim initial :
  canon lim (PersistedShard_wire lim) encode_PersistedShard (decode_PersistedShard initial).
Proof. canonical. Qed.
#[export] Hint Resolve canon_PersistedShard : canon.

Lemma sticky_PersistedAttempt initial : sticky (decode_PersistedAttempt initial).
Proof. unfold decode_PersistedAttempt. sticky_record. Qed.
#[export] Hint Resolve sticky_PersistedAttempt : sticky.
Lemma canon_PersistedAttempt lim initial :
  canon lim (PersistedAttempt_wire lim) encode_PersistedAttempt (decode_PersistedAttempt initial).
Proof. canonical. Qed.
#[export] Hint Resolve canon_PersistedAttempt : canon.

Lemma sticky_PersistedSession initial : sticky (decode_PersistedSession initial).
Proof. unfold decode_PersistedSession. sticky_record. Qed.
#[export] Hint Resolve sticky_PersistedSession : sticky.
Lemma canon_PersistedSession lim initial :
  canon lim (PersistedSession_wire lim) encode_PersistedSession (decode_PersistedSession initial).
Proof. canonical. Qed.
#[export] Hint Resolve canon_PersistedSession : canon.

Lemma sticky_EngineSnapshot initial : sticky (decode_EngineSnapshot initial).
Proof. unfold decode_EngineSnapshot. sticky_record. Qed.
#[export] Hint Resolve sticky_EngineSnapshot : sticky.
Lemma canon_EngineSnapshot lim initial :
  canon lim (EngineSnapshot_wire lim) encode_EngineSnapshot (decode_EngineSnapshot initial).
Proof. canonical. Qed.
#[export] Hint Resolve canon_EngineSnapshot : canon.
