(* ===== verification/RecordProps.v ===== *)
(** * RecordProps: journal records

    The round trip of a journal record in front of any bytes, and that a record
    cut short anywhere is refused, which is what makes a torn tail detectable. *)

From stdpp Require Import base gmap list strings.
From Stdlib Require Import Ascii ZArith Lia.
From S2P Require Import Prelude Status Ids Bytes Hash Enums Model Wire WireTheory WireCanon.
From S2P Require Import FrameProps Snapshot.

(** Feeding a checksum piece by piece is feeding it the whole. *)
Lemma crc32c_app a b seed : crc32c b (crc32c a seed) = crc32c (a ++ b) seed.
Proof.
  unfold crc32c, not32. rewrite foldl_app. do 2 f_equal. lia.
Qed.

Definition record_wire (r : JournalRecord) : Prop :=
  in_u64 (jr_sequence r) /\ Z.of_nat (length (string_bytes (jr_label r))) <= kMaxLabelBytes /\
  Z.of_nat (length (jr_payload r)) <= kMaxPayloadBytes.

(** The bytes of a record that fits. *)
Definition record_bytes (r : JournalRecord) : list Z :=
  journal_prefix r ++
  be_bytes 4 (crc32c (journal_prefix r ++ string_bytes (jr_label r) ++ jr_payload r) 0) ++
  string_bytes (jr_label r) ++ jr_payload r.

Lemma encode_record_ok r : record_wire r -> encode_journal_record r = record_bytes r.
Proof.
  intros (_ & Hl & Hp). unfold encode_journal_record, record_bytes. cbn zeta. rewrite !Z.gtb_ltb.
  destruct (Z.ltb_spec kMaxLabelBytes (Z.of_nat (length (string_bytes (jr_label r))))); [lia|].
  destruct (Z.ltb_spec kMaxPayloadBytes (Z.of_nat (length (jr_payload r)))); [lia|].
  cbn [orb]. by rewrite !crc32c_app.
Qed.

Lemma journal_prefix_length r : length (journal_prefix r) = 24%nat.
Proof. unfold journal_prefix. by rewrite !length_app, !be_bytes_length. Qed.
Lemma record_bytes_length r : length (record_bytes r) =
  (28 + length (string_bytes (jr_label r)) + length (jr_payload r))%nat.
Proof. unfold record_bytes. rewrite !length_app, journal_prefix_length, be_bytes_length. lia. Qed.

Ltac record_field :=
  unfold record_bytes, journal_prefix; rewrite <-?app_assoc;
  repeat (rewrite at_offset_skip by (rewrite ?be_bytes_length; cbn; lia);
          rewrite ?be_bytes_length; cbn [Nat.sub length]);
  apply (at_offset_here []); [done|apply be_bytes_length].

Lemma nth_drop_hd (l : list Z) i : nth i l 0 = hd 0 (drop i l).
Proof. revert i. induction l as [|x l IH]; intros [|i]; cbn; try done. Qed.

Lemma record_fields r after :
  let f := record_bytes r ++ after in
  let label := string_bytes (jr_label r) in
  let crc := crc32c (journal_prefix r ++ label ++ jr_payload r) 0 in
  at_offset 0 4 f = be_bytes 4 kJournalMagic /\
  at_offset 4 2 f = be_bytes 2 kPersistenceFormatVersion /\
  at_offset 8 8 f = be_bytes 8 (jr_sequence r) /\
  at_offset 16 4 f = be_bytes 4 (u32 (Z.of_nat (length (jr_payload r)))) /\
  at_offset 20 2 f = be_bytes 2 (Z.of_nat (length label)) /\ at_offset 24 4 f = be_bytes 4 crc /\
  take 24 f = journal_prefix r /\ at_offset 28 (length label) f = label /\
  at_offset (28 + length label) (length (jr_payload r)) f = jr_payload r.
Proof.
  intros f label crc. pose proof (journal_prefix_length r) as Hl.
  split_and!; [subst f; record_field..| | |]; subst f; unfold record_bytes; rewrite <-!app_assoc.
  - by apply take_app_length'.
  - rewrite (app_assoc (journal_prefix r)). apply at_offset_here; [|done].
    by rewrite length_app, Hl, be_bytes_length.
  - rewrite (app_assoc (journal_prefix r)), (app_assoc (_ ++ _)). apply at_offset_here; [|done].
    by rewrite !length_app, Hl, be_bytes_length.
Qed.
Lemma record_reserved r after :
  let f := record_bytes r ++ after in
  nth 6 f 0 = 0 /\ nth 7 f 0 = 0 /\ nth 22 f 0 = 0 /\ nth 23 f 0 = 0.
Proof.
  intros f. rewrite !nth_drop_hd. subst f. unfold record_bytes, journal_prefix.
  rewrite <-!app_assoc. split_and!;
    repeat (rewrite drop_app_ge by (rewrite ?be_bytes_length; cbn; lia);
            rewrite ?be_bytes_length; cbn [Nat.sub length]); done.
Qed.

Lemma decode_record r after : record_wire r ->
  decode_journal_record (record_bytes r ++ after) = Val (r, length (record_bytes r)).
Proof.
  intros (Hs & Hlab & Hpay). unfold kMaxLabelBytes, kMaxPayloadBytes in *.
  destruct (record_fields r after) as (F0 & F4 & F8 & F16 & F20 & F24 & Ft & Fl & Fp).
  destruct (record_reserved r after) as (R6 & R7 & R22 & R23).
  pose proof (record_bytes_length r) as HL.
  set (f := record_bytes r ++ after) in *.
  assert (length f = (length (record_bytes r) + length after)%nat) as Hf by apply length_app.
  rewrite u32_small in F16 by lia.
  unfold decode_journal_record, kJournalHeaderBytes. cbn zeta.
  rewrite F0, F4, F8, F16, F20, F24, Ft, R6, R7, R22, R23.
  rewrite (get_u32_bytes kJournalMagic), (get_u16_bytes kPersistenceFormatVersion) by done.
  rewrite (get_u64_bytes (jr_sequence r)) by done.
  rewrite (get_u16_bytes (Z.of_nat _)), (get_u32_bytes (Z.of_nat _)) by lia.
  rewrite (get_u32_bytes (crc32c _ 0)) by apply crc32c_range.
  rewrite !Nat2Z.id, Fl, Fp, !crc32c_app, !Z.eqb_refl, !Z.gtb_ltb. cbn [negb orb].
  unfold kMaxLabelBytes, kMaxPayloadBytes.
  destruct (Nat.ltb_spec (length f) 28); [lia|].
  destruct (Z.ltb_spec 64 (Z.of_nat (length (string_bytes (jr_label r))))); [lia|].
  destruct (Z.ltb_spec (2 ^ 20) (Z.of_nat (length (jr_payload r)))); [lia|].
  destruct (Nat.ltb_spec (length f) (28 + length (string_bytes (jr_label r)) +
    length (jr_payload r))); [lia|].
  rewrite string_bytes_back, HL. by destruct r.
Qed.

Lemma at_offset_take o k n f : (o + k <= n)%nat -> at_offset o k (take n f) = at_offset o k f.
Proof. intros H. unfold at_offset. rewrite skipn_firstn_comm, take_take, Nat.min_l by lia. done. Qed.
Lemma nth_take (l : list Z) i n : (i < n)%nat -> nth i (take n l) 0 = nth i l 0.
Proof.
  revert i n. induction l as [|x l IH]; intros i n H; destruct n, i; cbn; try lia; try done.
  apply IH. lia.
Qed.

(** A record cut short is refused, wherever it is cut. *)
Lemma decode_record_cut data r total n :
  decode_journal_record data = Val (r, total) -> (n < total)%nat ->
  exists s, decode_journal_record (take n data) = Err s.
Proof.
  intros Hd Hn. destruct (Nat.lt_ge_cases n 28) as [Hs|Hs].
  { unfold decode_journal_record, kJournalHeaderBytes.
    destruct (Nat.ltb_spec (length (take n data)) 28) as [|H]; [by eexists|].
    rewrite length_take in H. lia. }
  revert Hd. unfold decode_journal_record, kJournalHeaderBytes. cbn zeta.
  rewrite !(at_offset_take 0 4), !(at_offset_take 4 2), !(at_offset_take 8 8),
    !(at_offset_take 16 4), !(at_offset_take 20 2), !nth_take by lia.
  destruct (Nat.ltb_spec (length data) 28); [discriminate|].
  destruct (Nat.ltb_spec (length (take n data)) 28); [by eexists|].
  destruct (_ =? kJournalMagic); cbn [negb]; [|discriminate].
  destruct (_ =? kPersistenceFormatVersion); cbn [negb]; [|discriminate].
  destruct (_ || _ || _ || _); [discriminate|].
  destruct (_ >? kMaxLabelBytes); [discriminate|].
  destruct (_ >? kMaxPayloadBytes); [discriminate|].
  set (t := (28 + _ + _)%nat). destruct (Nat.ltb_spec (length data) t); [discriminate|].
  destruct (negb _); [discriminate|]. intros [= _ <-].
  destruct (Nat.ltb_spec (length (take n data)) t) as [|H']; [by eexists|].
  rewrite length_take in H'. lia.
Qed.

Lemma record_bytes_cut r n : record_wire r -> (n < length (record_bytes r))%nat ->
  exists s, decode_journal_record (take n (record_bytes r)) = Err s.
Proof.
  intros Hr Hn. eapply decode_record_cut; [|exact Hn].
  pose proof (decode_record r [] Hr) as Hd. by rewrite app_nil_r in Hd.
Qed.
