(* ===== verification/StoreProps.v ===== *)
(** * StoreProps: recovery

    A disk is described by the entries written to it: one in the snapshot file,
    a list of them in the journal, and a tail of bytes that recovery stops at.
    [load] on such a disk returns the state of the last entry.  Every operation,
    whatever fault or crash interrupts it, leaves such a disk, for the old state
    or for the new one. *)

From stdpp Require Import base gmap list strings.
From Stdlib Require Import Ascii ZArith Lia.
From S2P Require Import Prelude Status Ids Bytes Hash Enums Model Fence Shaper.
From S2P Require Import EngineState EngineAuthority EngineAdmission EngineLifecycle.
From S2P Require Import EngineInspect Wire Codec WireTheory WireCanon CodecProps FrameProps.
From S2P Require Import Snapshot Store SnapshotCodec RecordProps.

(** ** Entries *)

Record Entry := mkEntry { en_sequence : Z; en_label : string; en_state : EngineSnapshot }.

Definition entry_record (e : Entry) : JournalRecord :=
  mkRecord (en_sequence e) (en_label e) (encode_snapshot (en_state e)).
Definition entry_bytes (e : Entry) : list Z := record_bytes (entry_record e).

(** A state that the store can write and read back under [lim]. *)
Definition storable (lim : Limits) (s : EngineSnapshot) : Prop :=
  EngineSnapshot_wire lim s /\ Z.of_nat (length (encode_snapshot s)) <= kMaxPayloadBytes.
Definition label_fits (label : string) : Prop :=
  Z.of_nat (length (string_bytes label)) <= kMaxLabelBytes.
Definition entry_ok (lim : Limits) (e : Entry) : Prop :=
  in_u64 (en_sequence e) /\ label_fits (en_label e) /\ storable lim (en_state e).

Lemma entry_record_wire lim e : entry_ok lim e -> record_wire (entry_record e).
Proof. by intros (? & ? & ? & ?). Qed.
Lemma snapshot_back lim s :
  EngineSnapshot_wire lim s -> decode_snapshot (encode_snapshot s) lim = Val s.
Proof. intros H. by apply coded_payload, coded_EngineSnapshot. Qed.

Lemma snapshot_nonempty lim s :
  EngineSnapshot_wire lim s -> Nat.eqb (length (encode_snapshot s)) 0 = false.
Proof.
  intros H. destruct (coded_EngineSnapshot lim s EngineSnapshot_default H) as (b & Hb & Hw & _).
  unfold encode_snapshot, encode_payload. rewrite Hw by done. cbn. by destruct b.
Qed.

Lemma entry_bytes_length e : length (entry_bytes e) =
  (28 + length (string_bytes (en_label e)) + length (encode_snapshot (en_state e)))%nat.
Proof. unfold entry_bytes. by rewrite record_bytes_length. Qed.
Lemma entry_bytes_long e : (28 <= length (entry_bytes e))%nat.
Proof. unfold entry_bytes. rewrite record_bytes_length. lia. Qed.
Lemma encode_entry lim q label s : entry_ok lim (mkEntry q label s) ->
  encode_journal_record (mkRecord q label (encode_snapshot s)) = entry_bytes (mkEntry q label s) /\
  Nat.eqb (length (entry_bytes (mkEntry q label s))) 0 = false.
Proof.
  intros H. split; [exact (encode_record_ok _ (entry_record_wire lim _ H))|].
  apply Nat.eqb_neq. pose proof (entry_bytes_long (mkEntry q label s)). lia.
Qed.

(** ** Reading the journal *)

(** The state and the sequence number after the entries [es]. *)
Definition last_state (s : EngineSnapshot) (es : list Entry) : EngineSnapshot :=
  foldl (fun _ e => en_state e) s es.
Fixpoint increasing (q : Z) (es : list Entry) : Prop :=
  match es with [] => True | e :: es => q < en_sequence e /\ increasing (en_sequence e) es end.
Definition last_sequence (q : Z) (es : list Entry) : Z := foldl (fun _ e => en_sequence e) q es.

(** Bytes at which recovery stops when it has seen sequence [q]. *)
Definition dead (q : Z) (tail : list Z) : Prop :=
  tail = [] \/ (exists status, decode_journal_record tail = Err status) \/
  (exists r n, decode_journal_record tail = Val (r, n) /\ jr_sequence r <= q).

Lemma journal_loop_dead fuel lim tail q s local :
  dead q tail -> (journal_loop fuel lim tail q s local).1 = s.
Proof.
  intros Hd. destruct fuel as [|fuel]; [done|]. cbn [journal_loop].
  destruct (Nat.eqb (length tail) 0) eqn:E; [done|].
  destruct Hd as [-> | [[status Hs] | (r & n & Hr & Hq)]]; [done|by rewrite Hs|].
  rewrite Hr. by destruct (Z.leb_spec (jr_sequence r) q); [|lia].
Qed.

Lemma journal_loop_entries lim es fuel tail q s local :
  Forall (entry_ok lim) es -> increasing q es -> dead (last_sequence q es) tail ->
  (length (concat (map entry_bytes es) ++ tail) <= fuel)%nat ->
  (journal_loop fuel lim (concat (map entry_bytes es) ++ tail) q s local).1 = last_state s es.
Proof.
  revert fuel q s local. induction es as [|e es IH]; intros fuel q s local Hok Hinc Hdead Hf.
  { by apply journal_loop_dead. }
  apply Forall_cons in Hok as [He Hok]. destruct Hinc as [Hq Hinc].
  cbn [map concat] in *. rewrite <-app_assoc in *. pose proof (entry_bytes_long e).
  rewrite length_app in Hf. destruct fuel as [|fuel]; [lia|]. cbn [journal_loop].
  destruct (Nat.eqb_spec (length (entry_bytes e ++ concat (map entry_bytes es) ++ tail)) 0) as [E|_];
    [rewrite length_app in E; lia|].
  unfold entry_bytes at 1. rewrite decode_record by (by eapply entry_record_wire).
  cbn [entry_record jr_sequence jr_payload].
  destruct (Z.leb_spec (en_sequence e) q); [lia|].
  destruct He as (_ & _ & Hw & _). rewrite (snapshot_back lim) by done.
  unfold entry_bytes at 1. rewrite drop_app_length. apply IH; try done. lia.
Qed.

(** ** Disks *)

(** A disk that recovery reads as the entry [e0] followed by [es]. *)
Definition disk_holds (lim : Limits) (disk : Disk) (e0 : Entry) (es : list Entry) : Prop :=
  entry_ok lim e0 /\ disk_snapshot disk = Some (entry_bytes e0) /\
  exists tail, disk_journal disk = Some (concat (map entry_bytes es) ++ tail) /\
    Z.of_nat (length (concat (map entry_bytes es) ++ tail)) <= max_file_bytes /\
    Forall (entry_ok lim) es /\ increasing (en_sequence e0) es /\
    dead (last_sequence (en_sequence e0) es) tail.

(** The [load] of a process with the same configuration returns [s].  What the
    engine makes of it is a matter of [restore] (file [RestartProps]). *)
Definition recovers (st : PersistentStore) (disk : Disk) (s : EngineSnapshot) : Prop :=
  (load read_fine read_fine (PersistentStore_init (config_ st)) disk).1 = Val s.

Lemma entry_bytes_small lim e : entry_ok lim e ->
  Z.of_nat (length (entry_bytes e)) <= max_file_bytes.
Proof.
  intros (_ & Hl & _ & Hp). unfold entry_bytes. rewrite record_bytes_length.
  unfold label_fits, kMaxLabelBytes, kMaxPayloadBytes in *.
  cbn [entry_record jr_label jr_payload]. change max_file_bytes with (2 ^ 20 + 4096). lia.
Qed.
Lemma read_small path file : Z.of_nat (length file) <= max_file_bytes ->
  read_file_bytes read_fine path file = Val file.
Proof.
  intros H. unfold read_file_bytes. cbn [read_fine rf_size rf_open negb]. rewrite Z.gtb_ltb.
  destruct (Z.ltb_spec max_file_bytes (Z.of_nat (length file))); [lia|done].
Qed.

Lemma load_holds_any st disk e0 es :
  disk_holds (sc_limits (config_ st)) disk e0 es ->
  (load read_fine read_fine st disk).1 = Val (last_state (en_state e0) es).
Proof.
  intros (H0 & Hs & tail & Hj & Hb & Hok & Hinc & Hdead). unfold load. rewrite Hs.
  unfold load_snapshot. rewrite read_small by (by eapply entry_bytes_small).
  pose proof (decode_record (entry_record e0) [] (entry_record_wire _ _ H0)) as Hd.
  rewrite app_nil_r in Hd. unfold entry_bytes at 1. rewrite Hd.
  unfold entry_bytes at 1. rewrite Nat.eqb_refl. cbn [negb entry_record jr_payload].
  destruct H0 as (Hq0 & Hl0 & Hw0 & Hp0). rewrite (snapshot_back (sc_limits (config_ st))) by done.
  unfold load_journal. rewrite Hj, read_small by done.
  pose proof (journal_loop_entries (sc_limits (config_ st)) es
    (length (concat (map entry_bytes es) ++ tail)) tail (en_sequence e0) (en_state e0)
    (LoadReport_default <| rep_snapshot_present := true |>
      <| rep_snapshot_sequence := en_sequence e0 |> <| rep_journal_present := true |>)
    Hok Hinc Hdead ltac:(lia)) as Hl.
  revert Hl. cbn. destruct (journal_loop _ _ _ _ _ _) as [s1 l1]. cbn. by intros ->.
Qed.
Lemma load_holds st disk e0 es :
  disk_holds (sc_limits (config_ st)) disk e0 es -> recovers st disk (last_state (en_state e0) es).
Proof. apply (load_holds_any (PersistentStore_init (config_ st))). Qed.

(** ** Writing *)

Lemma write_cases fault path data app file :
  let '(status, file') := write_file_flushed fault path data app file in
  let before := if (app : bool) then default [] file else [] in
  (Status_ok status = true /\ file' = Some (before ++ data)) \/
  (Status_ok status = false /\ (file' = file \/ exists n, file' = Some (before ++ take n data))).
Proof.
  unfold write_file_flushed. destruct (wf_open fault); cbn [negb]; [|right; by eauto].
  set (status := if negb (wf_fclose fault) && _ then _ else _).
  destruct (Status_ok status) eqn:E; [by left|]. right. split; [done|]. by eauto.
Qed.

(** An entry of which only a part may have been written, after the entries [es]:
    it is all there, or it is a dead tail. *)
Lemma written_part lim q es e n :
  entry_ok lim e -> q < en_sequence e ->
  take n (entry_bytes e) = entry_bytes e \/ dead (last_sequence q es) (take n (entry_bytes e)).
Proof.
  intros He Hq. destruct (Nat.lt_ge_cases n (length (entry_bytes e))) as [Hn|Hn].
  - right. right. left. eapply record_bytes_cut; [by eapply entry_record_wire|exact Hn].
  - left. by apply take_ge.
Qed.

Lemma increasing_last q es : increasing q es -> q <= last_sequence q es.
Proof.
  revert q. induction es as [|e es IH]; intros q H; cbn in *; [lia|].
  destruct H as [H1 H2]. specialize (IH _ H2). unfold last_sequence in IH. lia.
Qed.

(** The bytes of entries not newer than [q] are dead once [q] has been seen. *)
Lemma old_journal_dead lim q0 q es tail :
  Forall (entry_ok lim) es -> increasing q0 es -> dead (last_sequence q0 es) tail ->
  q0 <= q -> last_sequence q0 es <= q -> dead q (concat (map entry_bytes es) ++ tail).
Proof.
  intros Hok Hinc Hdead Hq0 Hq. destruct es as [|e es].
  - destruct Hdead as [? | [? | (r & n & Hr & Hs)]]; [by left|by right; left|].
    right; right. exists r, n. split; [done|]. cbn in *. lia.
  - apply Forall_cons in Hok as [He _]. right. right. cbn [map concat]. rewrite <-app_assoc.
    exists (entry_record e), (length (entry_bytes e)).
    split; [apply decode_record; by eapply entry_record_wire|]. cbn.
    destruct Hinc as [_ H2]. pose proof (increasing_last _ _ H2). unfold last_sequence in *.
    cbn in *. lia.
Qed.

(** ** The two operations *)

Opaque entry_bytes.

(** A store whose disk recovers [s] and whose counter is past every sequence
    number on it; the journal has no tail. *)
Definition holds_state (st : PersistentStore) (disk : Disk) (s : EngineSnapshot) : Prop :=
  exists e0 es, disk_holds (sc_limits (config_ st)) disk e0 es /\
    disk_journal disk = Some (concat (map entry_bytes es)) /\
    s = last_state (en_state e0) es /\ 0 <= en_sequence e0 <= sequence_ st /\
    last_sequence (en_sequence e0) es <= sequence_ st /\
    journal_bytes_ st = Z.of_nat (length (concat (map entry_bytes es))).

Lemma holds_recovers st disk s : holds_state st disk s -> recovers st disk s.
Proof. intros (e0 & es & H & _ & -> & _). by apply load_holds. Qed.

Lemma entry_at lim q label s : 0 <= q < 2 ^ 64 -> label_fits label -> storable lim s ->
  entry_ok lim (mkEntry q label s).
Proof. intros Hq Hl Hs. split; [exact Hq|]. by split. Qed.
Lemma snapshot_label_fits : label_fits "snapshot".
Proof. unfold label_fits, kMaxLabelBytes. cbn. lia. Qed.

(** The next write of an operation, with its possible outcomes. *)
Ltac write_step W status file :=
  match goal with |- context [write_file_flushed ?a ?b ?c ?d ?e] =>
    pose proof (write_cases a b c d e) as W; cbv zeta in W;
    destruct (write_file_flushed a b c d e) as [status file]
  end.

(** What [persist] leaves on the disk, whatever was there before. *)
Lemma persist_spec faults s st disk :
  0 <= sequence_ st -> sequence_ st + 2 < 2 ^ 64 -> storable (sc_limits (config_ st)) s ->
  let e1 := mkEntry (sequence_ st + 1) "snapshot" s in
  let e2 := mkEntry (sequence_ st + 2) "snapshot" s in
  let '(status, st', disk') := persist faults s st disk in
  config_ st' = config_ st /\
  ((Status_ok status = true /\ sequence_ st' = sequence_ st + 2 /\
    disk_snapshot disk' = Some (entry_bytes e1) /\ disk_journal disk' = Some (entry_bytes e2) /\
    journal_bytes_ st' = Z.of_nat (length (entry_bytes e2))) \/
   (Status_ok status = false /\
    ((disk_snapshot disk' = disk_snapshot disk /\ disk_journal disk' = disk_journal disk) \/
     (disk_snapshot disk' = Some (entry_bytes e1) /\
      (disk_journal disk' = disk_journal disk \/
       exists n, disk_journal disk' = Some (take n (entry_bytes e2))))))).
Proof.
  intros Hq0 Hq Hs e1 e2. set (lim := sc_limits (config_ st)).
  assert (entry_ok lim e1) as H1 by (apply entry_at; [lia|apply snapshot_label_fits|done]).
  assert (entry_ok lim e2) as H2 by (apply entry_at; [lia|apply snapshot_label_fits|done]).
  destruct (encode_entry lim _ _ _ H1) as [E1 N1]. destruct (encode_entry lim _ _ _ H2) as [E2 N2].
  fold e1 in E1, N1. fold e2 in E2, N2.
  unfold persist, upd. destruct st as [cfg q jr jb]. cbn [sequence_ config_] in *.
  cbv beta. cbn [sequence_ config_ journal_records_ journal_bytes_ jr_payload] in *.
  rewrite (u64_small (q + 1)) by lia. replace (q + 1 + 1) with (q + 2) by lia.
  rewrite (u64_small (q + 2)) by lia.
  rewrite (snapshot_nonempty lim s) by apply Hs. cbn [andb]. rewrite E1, N1.
  write_step W1 ws temp. destruct W1 as [[Hok ->] | [Hok _]]; rewrite Hok; cbn [negb].
  2: { split; [done|]. right. split; [done|]. by left. }
  unfold atomic_replace. destruct (pf_replace faults) as [message|].
  { split; [done|]. right. split; [done|]. by left. }
  change (Status_ok Status_success) with true. cbn [negb]. rewrite E2, N2.
  write_step W2 js journal. cbn [app] in *.
  destruct W2 as [[Hok2 ->] | [Hok2 Hj]]; rewrite Hok2; cbn [negb]; (split; [done|]).
  - left. split_and!; done.
  - right. split; [done|]. right. split; [done|]. exact Hj.
Qed.

Lemma persist_ok_holds st st' disk' s :
  0 <= sequence_ st -> sequence_ st + 2 < 2 ^ 64 -> storable (sc_limits (config_ st)) s ->
  config_ st' = config_ st -> sequence_ st' = sequence_ st + 2 ->
  disk_snapshot disk' = Some (entry_bytes (mkEntry (sequence_ st + 1) "snapshot" s)) ->
  disk_journal disk' = Some (entry_bytes (mkEntry (sequence_ st + 2) "snapshot" s)) ->
  journal_bytes_ st' = Z.of_nat (length (entry_bytes (mkEntry (sequence_ st + 2) "snapshot" s))) ->
  holds_state st' disk' s.
Proof.
  intros Hq0 Hq Hs Hc Hq' Hsnap Hj Hb.
  set (e1 := mkEntry _ _ s) in Hsnap. set (e2 := mkEntry _ _ s) in Hj, Hb.
  assert (entry_ok (sc_limits (config_ st')) e1 /\ entry_ok (sc_limits (config_ st')) e2) as [H1 H2].
  { rewrite Hc. split; apply entry_at; try apply snapshot_label_fits; done || lia. }
  assert (concat (map entry_bytes [e2]) = entry_bytes e2) as He by (cbn; apply app_nil_r).
  exists e1, [e2]. rewrite He. split; [|split_and!; [exact Hj|reflexivity|cbn; lia..|exact Hb]].
  split; [exact H1|]. split; [exact Hsnap|]. exists []. rewrite He, app_nil_r.
  split_and!; [exact Hj|by eapply entry_bytes_small|by constructor|cbn; lia|by left].
Qed.

(** After [persist], returned or interrupted, from a disk that holds [s]. *)
Lemma persist_crash faults s s' st disk :
  holds_state st disk s -> sequence_ st + 2 < 2 ^ 64 -> storable (sc_limits (config_ st)) s' ->
  let '(status, st', disk') := persist faults s' st disk in
  (recovers st' disk' s \/ recovers st' disk' s') /\
  (Status_ok status = true -> holds_state st' disk' s').
Proof.
  intros (e0 & es & Hd & Hj & -> & Hq0 & Hl & Hb) Hq Hs.
  pose proof (persist_spec faults s' st disk ltac:(lia) Hq Hs) as Hp. cbv zeta in Hp.
  destruct (persist faults s' st disk) as [[status st'] disk'].
  destruct Hp as [Hc [(Hok & Hq' & Hsn & Hjn & Hbn) | [Hok Hcase]]].
  { assert (holds_state st' disk' s') as H
      by (apply (persist_ok_holds st); assumption || lia).
    split; [right; by apply holds_recovers|done]. }
  split; [|by rewrite Hok]. destruct Hd as (H0 & Hsnap & tail & Htail & Hlen & Hes & Hinc & Hdead).
  destruct Hcase as [[Hsn Hjn] | [Hsn Hjn]].
  { left. apply load_holds. rewrite Hc. split; [done|]. split; [congruence|].
    exists tail. by rewrite Hjn. }
  right. set (e1 := mkEntry _ _ s') in Hsn. set (e2 := mkEntry _ _ s') in Hjn.
  assert (entry_ok (sc_limits (config_ st)) e1 /\ entry_ok (sc_limits (config_ st)) e2) as [H1 H2].
  { split; apply entry_at; try apply snapshot_label_fits; done || lia. }
  destruct Hjn as [Hjn | [n Hjn]].
  - apply (load_holds st' disk' e1 []). rewrite Hc. split; [done|]. split; [done|].
    exists (concat (map entry_bytes es) ++ tail). cbn [map concat app].
    split_and!; try done; [congruence|].
    eapply old_journal_dead; try done; cbn; lia.
  - destruct (written_part (sc_limits (config_ st)) (en_sequence e1) [] e2 n) as [Hall | Hpart];
      [done|cbn; lia| |].
    + apply (load_holds st' disk' e1 [e2]). rewrite Hc. split; [done|]. split; [done|]. exists [].
      cbn [map concat]. rewrite !app_nil_r, <-Hall. split_and!; try done.
      * rewrite Hall. by eapply entry_bytes_small.
      * by constructor.
      * cbn. lia.
      * by left.
    + apply (load_holds st' disk' e1 []). rewrite Hc. split; [done|]. split; [done|].
      exists (take n (entry_bytes e2)). split_and!; try done. cbn [map concat app].
      rewrite length_take. pose proof (entry_bytes_small _ _ H2). lia.
Qed.

Lemma concat_snoc es e :
  concat (map entry_bytes (es ++ [e])) = concat (map entry_bytes es) ++ entry_bytes e.
Proof. by rewrite map_app, concat_app; cbn; rewrite app_nil_r. Qed.
Lemma increasing_snoc q es e :
  increasing q es -> last_sequence q es < en_sequence e -> increasing q (es ++ [e]).
Proof.
  revert q. induction es as [|x es IH]; intros q H Hl; cbn in *; [done|].
  destruct H as [H1 H2]. split; [done|]. by apply IH.
Qed.

(** One more complete entry at the end of the journal. *)
Lemma disk_snoc lim disk disk' e0 es e :
  disk_holds lim disk e0 es -> disk_journal disk = Some (concat (map entry_bytes es)) ->
  entry_ok lim e -> last_sequence (en_sequence e0) es < en_sequence e ->
  disk_snapshot disk' = disk_snapshot disk ->
  disk_journal disk' = Some (default [] (disk_journal disk) ++ entry_bytes e) ->
  Z.of_nat (length (default [] (disk_journal disk) ++ entry_bytes e)) <= max_file_bytes ->
  disk_holds lim disk' e0 (es ++ [e]) /\
  disk_journal disk' = Some (concat (map entry_bytes (es ++ [e]))).
Proof.
  intros (H0 & Hsnap & tail & _ & _ & Hes & Hinc & _) Hj He Hq Hsn Hj' Hlen.
  rewrite Hj in Hj', Hlen. cbn [default from_option id] in Hj', Hlen. rewrite concat_snoc. split; [|exact Hj'].
  split; [done|]. split; [congruence|]. exists []. rewrite concat_snoc, app_nil_r.
  split; [exact Hj'|]. split; [exact Hlen|]. split; [apply Forall_app; by split; [|constructor]|].
  split; [by apply increasing_snoc|by left].
Qed.

Lemma append_holds st st' disk disk' s s' label :
  holds_state st disk s -> sequence_ st + 1 < 2 ^ 64 -> label_fits label ->
  storable (sc_limits (config_ st)) s' -> config_ st' = config_ st ->
  sequence_ st' = sequence_ st + 1 -> disk_snapshot disk' = disk_snapshot disk ->
  let e := mkEntry (sequence_ st + 1) label s' in
  disk_journal disk' = Some (default [] (disk_journal disk) ++ entry_bytes e) ->
  Z.of_nat (length (default [] (disk_journal disk) ++ entry_bytes e)) <= max_file_bytes ->
  journal_bytes_ st' = journal_bytes_ st + Z.of_nat (length (entry_bytes e)) ->
  holds_state st' disk' s'.
Proof.
  intros (e0 & es & Hd & Hj & _ & Hq0 & Hl & Hb) Hq Hlab Hs Hc Hq' Hsn e Hj' Hlen Hb'.
  assert (entry_ok (sc_limits (config_ st)) e) as He by (apply entry_at; [lia|done|done]).
  destruct (disk_snoc _ _ disk' _ _ e Hd Hj He ltac:(cbn; lia) Hsn Hj' Hlen) as [Hd' Hj2].
  exists e0, (es ++ [e]). rewrite Hc, Hq', Hb', Hb. split; [exact Hd'|]. split; [exact Hj2|].
  unfold last_state, last_sequence. rewrite !foldl_app, concat_snoc, length_app.
  split; [reflexivity|]. cbn [foldl en_sequence e]. lia.
Qed.

(** What [append] does before it decides whether to compact: [None] when it has
    returned, and otherwise the store and the disk with the record in place. *)
Lemma append_spec fault faults label s st disk :
  0 <= sequence_ st -> sequence_ st + 1 < 2 ^ 64 -> label_fits label ->
  storable (sc_limits (config_ st)) s ->
  0 <= journal_bytes_ st -> journal_bytes_ st + max_file_bytes < 2 ^ 64 ->
  let e := mkEntry (sequence_ st + 1) label s in
  exists status st1 disk1, config_ st1 = config_ st /\ sequence_ st1 = sequence_ st + 1 /\
    disk_snapshot disk1 = disk_snapshot disk /\
    ((Status_ok status = false /\ append fault faults label s st disk = (status, st1, disk1) /\
      (disk_journal disk1 = disk_journal disk \/
       exists n, disk_journal disk1 = Some (default [] (disk_journal disk) ++ take n (entry_bytes e)))) \/
     (disk_journal disk1 = Some (default [] (disk_journal disk) ++ entry_bytes e) /\
      journal_bytes_ st1 = journal_bytes_ st + Z.of_nat (length (entry_bytes e)) /\
      append fault faults label s st disk =
        if (journal_bytes_ st1 >? sc_max_journal_bytes (config_ st)) ||
           (journal_records_ st1 >? sc_max_journal_records (config_ st))
        then persist faults s st1 disk1 else (Status_success, st1, disk1))).
Proof.
  intros Hq0 Hq Hlab Hs Hb0 Hb e. set (lim := sc_limits (config_ st)).
  assert (entry_ok lim e) as He by (apply entry_at; [lia|done|done]).
  destruct (encode_entry lim _ _ _ He) as [E1 N1]. fold e in E1, N1.
  pose proof (entry_bytes_small lim e He) as Hsmall.
  unfold append, upd. destruct st as [cfg q jr jb]. cbv beta zeta.
  cbn [sequence_ config_ journal_records_ journal_bytes_] in *.
  rewrite (u64_small (q + 1)) by lia. rewrite E1, N1.
  write_step W ws journal. destruct W as [[Hok ->] | [Hok Hcase]]; rewrite Hok; cbn [negb].
  - exists Status_success, (mkStore cfg (q + 1) (u32 (jr + 1)) (jb + Z.of_nat (length (entry_bytes e)))).
    exists (mkDisk (disk_temp disk) (disk_snapshot disk)
              (Some (default [] (disk_journal disk) ++ entry_bytes e))).
    cbn [config_ sequence_ journal_bytes_ journal_records_ disk_snapshot disk_journal].
    rewrite (u64_small (jb + _)) by lia. split_and!; try reflexivity. right.
    split_and!; reflexivity.
  - exists ws, (mkStore cfg (q + 1) jr jb), (mkDisk (disk_temp disk) (disk_snapshot disk) journal).
    split_and!; try reflexivity. left. split; [done|]. split; [reflexivity|]. exact Hcase.
Qed.

(** After [append], returned or interrupted, from a disk that holds [s]. *)
Lemma append_crash fault faults label s s' st disk :
  holds_state st disk s -> sequence_ st + 3 < 2 ^ 64 -> label_fits label ->
  storable (sc_limits (config_ st)) s' ->
  Z.of_nat (length (default [] (disk_journal disk)) +
            length (entry_bytes (mkEntry (sequence_ st + 1) label s'))) <= max_file_bytes ->
  let '(status, st', disk') := append fault faults label s' st disk in
  (recovers st' disk' s \/ recovers st' disk' s') /\
  (Status_ok status = true -> holds_state st' disk' s').
Proof.
  intros Hold Hq Hlab Hs Hfits.
  pose proof Hold as (e0 & es & Hd & Hj & Hst & Hq0 & Hl & Hb).
  rewrite Hj in Hfits. cbn [default from_option id] in Hfits.
  destruct (append_spec fault faults label s' st disk) as
    (status & st1 & disk1 & Hc & Hq1 & Hsn & Hcase); try done; try lia.
  { rewrite Hb. unfold max_file_bytes, kMaxPayloadBytes in *. lia. }
  set (e := mkEntry _ _ s') in *.
  assert (entry_ok (sc_limits (config_ st)) e) as He by (apply entry_at; [lia|done|done]).
  assert (Z.of_nat (length (default [] (disk_journal disk) ++ entry_bytes e)) <= max_file_bytes)
    as Hlen by (rewrite Hj; cbn [default from_option id]; rewrite length_app; lia).
  destruct Hcase as [(Hok & -> & Hjn) | (Hjn & Hbn & ->)].
  - split; [|by rewrite Hok].
    assert (recovers st1 disk s) as Hsame by (subst s; apply load_holds; by rewrite Hc).
    destruct Hjn as [Hjn | [n Hjn]].
    + left. unfold recovers, load in *. unfold load_journal in *. by rewrite Hsn, Hjn.
    + destruct (written_part (sc_limits (config_ st)) (en_sequence e0) es e n) as [Hall | Hdead];
        [done|cbn; lia| |].
      * right. rewrite Hall in Hjn.
        destruct (disk_snoc _ _ disk1 _ _ e Hd Hj He ltac:(cbn; lia) Hsn Hjn Hlen) as [Hd' _].
        rewrite <-Hc in Hd'. apply load_holds in Hd'. unfold last_state in Hd'.
        by rewrite foldl_app in Hd'.
      * left. subst s. apply load_holds. rewrite Hc.
        destruct Hd as (H0 & Hsnap & tail & _ & _ & Hes & Hinc & _). rewrite Hj in Hjn.
        split; [done|]. split; [congruence|]. exists (take n (entry_bytes e)).
        split; [exact Hjn|]. split; [|by split]. rewrite length_app, length_take. lia.
  - assert (holds_state st1 disk1 s') as Hh
      by (apply (append_holds st st1 disk disk1 s s' label); assumption || lia).
    destruct (_ || _).
    + pose proof (persist_crash faults s' s' st1 disk1 Hh) as Hp.
      destruct (persist faults s' st1 disk1) as [[status2 st2] disk2].
      destruct Hp as [[Hr|Hr] Hp]; [rewrite Hq1; lia|by rewrite Hc| |]; split; by eauto.
    + split; [right; by apply holds_recovers|done].
Qed.

(** ** The theorems *)

Inductive StoreOp :=
| Persist (s : EngineSnapshot)
| Append (label : string) (s : EngineSnapshot).

Definition op_state (op : StoreOp) : EngineSnapshot :=
  match op with Persist s | Append _ s => s end.
Definition op_label (op : StoreOp) : string :=
  match op with Persist _ => "snapshot" | Append label _ => label end.
Definition run_op (fault : WriteFault) (faults : PersistFaults) (op : StoreOp)
    (st : PersistentStore) (disk : Disk) : Status * PersistentStore * Disk :=
  match op with
  | Persist s => persist faults s st disk
  | Append label s => append fault faults label s st disk
  end.
(** The state can be written and read back, and so can its label. *)
Definition op_fits (lim : Limits) (op : StoreOp) : Prop :=
  storable lim (op_state op) /\ label_fits (op_label op).

(** C14: crash safety: take a store in order with [s] ([holds_state]: its files load
    as [s], the journal has no torn tail, the store's counters are those of the
    files) and a state [s'] the format can hold with a label that fits ([op_fits]),
    the counter not within three of 2^64 and the journal with the new record within
    the size [load] reads.  Whatever fault or crash interrupts a [persist] or an
    [append] of [s'], at whatever byte, [load] then returns exactly [s] or exactly
    [s'], never a mixture and never nothing; and when the operation reports success
    it returns [s'] and the store is in order with it.  After a failed append the
    store need not be in order any more ([finding_torn_append_loses]). *)
Theorem store_crash_safe fault faults op st disk s :
  holds_state st disk s -> sequence_ st + 3 < 2 ^ 64 -> op_fits (sc_limits (config_ st)) op ->
  Z.of_nat (length (default [] (disk_journal disk)) + length
    (encode_journal_record (mkRecord (sequence_ st + 1) (op_label op) (encode_snapshot (op_state op)))))
    <= max_file_bytes ->
  let '(status, st', disk') := run_op fault faults op st disk in
  (recovers st' disk' s \/ recovers st' disk' (op_state op)) /\
  (Status_ok status = true -> recovers st' disk' (op_state op) /\ holds_state st' disk' (op_state op)).
Proof.
  intros Hh Hq [Hs Hlab] Hfits.
  assert (0 <= sequence_ st) as Hq0 by (destruct Hh as (? & ? & _ & _ & _ & ? & _); lia).
  assert (entry_ok (sc_limits (config_ st)) (mkEntry (sequence_ st + 1) (op_label op) (op_state op)))
    as He by (apply entry_at; [lia|done|done]).
  rewrite (proj1 (encode_entry _ _ _ _ He)) in Hfits.
  destruct op as [s'|label s']; cbn [run_op op_state op_label] in *.
  - pose proof (persist_crash faults s s' st disk Hh ltac:(lia) Hs) as Hp.
    destruct (persist faults s' st disk) as [[status st'] disk']. destruct Hp as [Hr Ho].
    split; [exact Hr|]. intros Hok. specialize (Ho Hok). split; [by apply holds_recovers|exact Ho].
  - pose proof (append_crash fault faults label s s' st disk Hh Hq Hlab Hs Hfits) as Hp.
    destruct (append fault faults label s' st disk) as [[status st'] disk']. destruct Hp as [Hr Ho].
    split; [exact Hr|]. intros Hok. specialize (Ho Hok). split; [by apply holds_recovers|exact Ho].
Qed.

(** Operations one after the other, each with its faults. *)
Fixpoint run_ops (ops : list (WriteFault * PersistFaults * StoreOp)) (st : PersistentStore)
    (disk : Disk) : list Status * PersistentStore * Disk :=
  match ops with
  | [] => ([], st, disk)
  | (fault, faults, op) :: ops =>
      let '(status, st, disk) := run_op fault faults op st disk in
      let '(rest, st, disk) := run_ops ops st disk in (status :: rest, st, disk)
  end.
Definition last_op (s : EngineSnapshot) (ops : list (WriteFault * PersistFaults * StoreOp))
  : EngineSnapshot := foldl (fun _ o => op_state o.2) s ops.

Lemma append_ok_holds fault faults label s s' st disk :
  holds_state st disk s -> sequence_ st + 3 < 2 ^ 64 -> label_fits label ->
  storable (sc_limits (config_ st)) s' -> sc_max_journal_bytes (config_ st) <= max_file_bytes ->
  let '(status, st', disk') := append fault faults label s' st disk in
  Status_ok status = true ->
  holds_state st' disk' s' /\ config_ st' = config_ st /\ sequence_ st' <= sequence_ st + 3.
Proof.
  intros Hold Hq Hlab Hs Hmax. pose proof Hold as (e0 & es & Hd & Hj & _ & Hq0 & _ & Hb).
  assert (journal_bytes_ st <= max_file_bytes) as Hjb.
  { rewrite Hb. destruct Hd as (_ & _ & tail & Htail & Hlen & _). rewrite length_app in Hlen. lia. }
  destruct (append_spec fault faults label s' st disk) as
    (status & st1 & disk1 & Hc & Hq1 & Hsn & Hcase); try done; try lia.
  { unfold max_file_bytes, kMaxPayloadBytes in *. lia. }
  destruct Hcase as [(Hok & -> & _) | (Hjn & Hbn & ->)]; [congruence|].
  destruct (_ || _) eqn:Ecompact.
  - pose proof (persist_spec faults s' st1 disk1) as Hp. rewrite Hc, Hq1 in Hp.
    specialize (Hp ltac:(lia) ltac:(lia) Hs). cbv zeta in Hp.
    destruct (persist faults s' st1 disk1) as [[status2 st2] disk2]. intros Hok.
    destruct Hp as [Hc2 [(_ & Hq2 & Hsn2 & Hjn2 & Hb2) | [Hbad _]]]; [|congruence].
    split; [|split; [done|lia]]. apply (persist_ok_holds st1); try congruence; rewrite ?Hc, ?Hq1;
      assumption || lia.
  - intros _. apply orb_false_iff in Ecompact as [Eb _]. rewrite Z.gtb_ltb in Eb. bool_facts.
    split; [|split; [done|lia]].
    apply (append_holds st st1 disk disk1 s s' label); try assumption; try lia.
    rewrite Hj. cbn [default from_option id]. rewrite length_app. lia.
Qed.

Lemma persist_ok_any faults s st disk :
  0 <= sequence_ st -> sequence_ st + 2 < 2 ^ 64 -> storable (sc_limits (config_ st)) s ->
  let '(status, st', disk') := persist faults s st disk in
  Status_ok status = true ->
  holds_state st' disk' s /\ config_ st' = config_ st /\ sequence_ st' = sequence_ st + 2.
Proof.
  intros Hq0 Hq Hs. pose proof (persist_spec faults s st disk Hq0 Hq Hs) as Hp. cbv zeta in Hp.
  destruct (persist faults s st disk) as [[status st'] disk']. intros Hok.
  destruct Hp as [Hc [(_ & Hq' & Hsn & Hj & Hb) | [Hbad _]]]; [|congruence].
  split; [|by split]. apply (persist_ok_holds st); assumption.
Qed.

Lemma run_ops_hold ops st disk s :
  holds_state st disk s -> sequence_ st + 3 * Z.of_nat (length ops) < 2 ^ 64 ->
  Forall (fun o => op_fits (sc_limits (config_ st)) o.2) ops ->
  sc_max_journal_bytes (config_ st) <= max_file_bytes ->
  let '(statuses, st', disk') := run_ops ops st disk in
  Forall (fun x => Status_ok x = true) statuses ->
  holds_state st' disk' (last_op s ops) /\ config_ st' = config_ st.
Proof.
  revert st disk s. induction ops as [|[[fault faults] op] ops IH]; intros st disk s Hh Hq Hall Hmax.
  { cbn. done. }
  apply Forall_cons in Hall as [[Hs Hl] Hall]. cbn [length snd] in *. cbn [run_ops].
  assert (let '(status, st', disk') := run_op fault faults op st disk in
    Status_ok status = true -> holds_state st' disk' (op_state op) /\ config_ st' = config_ st /\
      sequence_ st' <= sequence_ st + 3) as Hop.
  { destruct op as [s'|label s']; cbn [run_op op_state op_label] in *.
    - pose proof (persist_ok_any faults s' st disk) as Hp.
      destruct (persist faults s' st disk) as [[status st'] disk']. intros Hok.
      assert (0 <= sequence_ st) by (destruct Hh as (? & ? & _ & _ & _ & ? & _); lia).
      destruct Hp as (Hh' & Hc' & Hq'); [lia|lia|done|done|]. split_and!; [done|done|lia].
    - apply (append_ok_holds fault faults label s s' st disk); done || lia. }
  destruct (run_op fault faults op st disk) as [[status st1] disk1].
  specialize (IH st1 disk1 (op_state op)).
  destruct (run_ops ops st1 disk1) as [[rest st2] disk2]. intros [Hok Hrest]%Forall_cons.
  destruct (Hop Hok) as (Hh1 & Hc1 & Hq1). rewrite Hc1 in IH.
  apply IH; try done. lia.
Qed.

(** C15: durability: a process that opens the store over any files whatever, takes
    its first snapshot and then runs any sequence of writes, all reported as
    successful, leaves files from which [load] returns the state of the last write;
    compaction on the way changes nothing.  Every state written must be one the
    format can hold and every label must fit ([storable], [op_fits]; a write of
    another state can be reported as successful and not be readable, see
    [finding_snapshot_unreadable]), the configured journal bound must not exceed the
    size [load] reads (the default does, see [finding_journal_unreadable]), and
    there are fewer than about 2^62 writes. *)
Theorem acknowledged_state_recovered config disk faults s ops :
  storable (sc_limits config) s -> 3 * Z.of_nat (length ops) + 2 < 2 ^ 64 ->
  Forall (fun o => op_fits (sc_limits config) o.2) ops ->
  sc_max_journal_bytes config <= max_file_bytes ->
  let '(status, st, disk) := persist faults s (PersistentStore_init config) disk in
  let '(statuses, st, disk) := run_ops ops st disk in
  Forall (fun x => Status_ok x = true) (status :: statuses) ->
  recovers st disk (last_op s ops) /\ config_ st = config.
Proof.
  intros Hs Hq Hall Hmax. set (st0 := PersistentStore_init config).
  pose proof (persist_ok_any faults s st0 disk) as Hp.
  destruct (persist faults s st0 disk) as [[status st1] disk1].
  pose proof (run_ops_hold ops st1 disk1 s) as Hr.
  destruct (run_ops ops st1 disk1) as [[statuses st2] disk2]. intros [Hok Hrest]%Forall_cons.
  destruct Hp as (Hh & Hc & Hq1); try done. cbn [st0 PersistentStore_init config_ sequence_] in Hc, Hq1.
  rewrite Hc in Hr. destruct Hr as [Hh2 Hc2]; try done; try lia.
  split; [by apply holds_recovers|done].
Qed.

(** a journal record is read back as written, in front of whatever follows it,
    and cut short at any byte it is refused, so a torn tail is never mistaken
    for a record. *)
Theorem journal_record_round_trip r after :
  record_wire r ->
  decode_journal_record (encode_journal_record r ++ after) =
    Val (r, length (encode_journal_record r)) /\
  forall n, (n < length (encode_journal_record r))%nat ->
    exists s, decode_journal_record (take n (encode_journal_record r)) = Err s.
Proof.
  intros Hr. rewrite encode_record_ok by done. split; [by apply decode_record|].
  intros n Hn. by apply record_bytes_cut.
Qed.

(** the engine snapshot is read back from its bytes as it was written, and the
    bytes the snapshot reader accepts are those the writer produces. *)
Theorem snapshot_round_trip lim s :
  (EngineSnapshot_wire lim s -> decode_snapshot (encode_snapshot s) lim = Val s) /\
  (forall data, Forall byte_ok data -> decode_snapshot data lim = Val s ->
     EngineSnapshot_wire lim s /\ encode_snapshot s = data).
Proof.
  split; [apply snapshot_back|]. intros data Hb Hd.
  eapply canon_payload; [apply canon_EngineSnapshot|exact Hb|exact Hd].
Qed.

(** ** Witnesses *)

(** The state of an engine that has seen [n] commands and no session. *)
Definition idle_snapshot (n : Z) : EngineSnapshot :=
  EngineSnapshot_default <| snap_commands_processed := n |>.
Definition sample_config : StoreConfig := mkStoreConfig "/var/ctf" Limits_default 4096 8.

Lemma idle_storable n : in_u64 n -> storable Limits_default (idle_snapshot n).
Proof.
  intros Hn. split.
  - unfold EngineSnapshot_wire, epoch_wire, gen_wire, list_wire, AccountingSnapshot_wire, in_u64, in_u32 in *.
    cbn. unfold kMaxCollectionElements. split_and!; try lia; constructor.
  - vm_compute. discriminate.
Qed.

(** The store after its first snapshot on an empty disk. *)
Definition first_store : PersistentStore :=
  (persist persist_fine (idle_snapshot 1) (PersistentStore_init sample_config)
     (mkDisk None None None)).1.2.
Definition first_disk : Disk :=
  (persist persist_fine (idle_snapshot 1) (PersistentStore_init sample_config)
     (mkDisk None None None)).2.

Lemma first_holds : holds_state first_store first_disk (idle_snapshot 1).
Proof.
  pose proof (persist_ok_any persist_fine (idle_snapshot 1) (PersistentStore_init sample_config)
    (mkDisk None None None)) as H.
  assert (Status_ok (persist persist_fine (idle_snapshot 1) (PersistentStore_init sample_config)
    (mkDisk None None None)).1.1 = true) as Hok by (vm_compute; reflexivity).
  unfold first_store, first_disk.
  destruct (persist _ _ _ _) as [[status st] disk].
  apply H; [cbn; lia|cbn; lia|apply idle_storable; unfold in_u64; lia|exact Hok].
Qed.
(** A write that stops after 40 bytes. *)
Definition short_write : WriteFault := mkWriteFault true false true true true 40.

Lemma store_crash_safe_witness :
  let '(status, st', disk') :=
    run_op short_write persist_fine (Append "wave" (idle_snapshot 2)) first_store first_disk in
  (recovers st' disk' (idle_snapshot 1) \/
   recovers st' disk' (op_state (Append "wave" (idle_snapshot 2)))) /\
  (Status_ok status = true -> recovers st' disk' (op_state (Append "wave" (idle_snapshot 2))) /\
     holds_state st' disk' (op_state (Append "wave" (idle_snapshot 2)))).
Proof.
  apply (store_crash_safe short_write persist_fine (Append "wave" (idle_snapshot 2)) first_store
           first_disk (idle_snapshot 1)).
  - exact first_holds.
  - vm_compute. reflexivity.
  - split; [apply idle_storable; unfold in_u64; lia|vm_compute; discriminate].
  - vm_compute. discriminate.
Defined.

Definition sample_ops : list (WriteFault * PersistFaults * StoreOp) :=
  [(no_fault, persist_fine, Append "wave" (idle_snapshot 2));
   (no_fault, persist_fine, Persist (idle_snapshot 3))].

Lemma acknowledged_state_recovered_witness :
  let '(status, st, disk) := persist persist_fine (idle_snapshot 1)
    (PersistentStore_init sample_config) (mkDisk None (Some [1; 2]) (Some [3])) in
  let '(statuses, st, disk) := run_ops sample_ops st disk in
  Forall (fun x => Status_ok x = true) (status :: statuses) ->
  recovers st disk (last_op (idle_snapshot 1) sample_ops) /\ config_ st = sample_config.
Proof.
  apply (acknowledged_state_recovered sample_config (mkDisk None (Some [1; 2]) (Some [3])) persist_fine
           (idle_snapshot 1) sample_ops).
  - apply idle_storable. unfold in_u64. lia.
  - cbn. lia.
  - apply Forall_cons; split; [|apply Forall_cons; split; [|by apply Forall_nil]];
      (split; [apply idle_storable; unfold in_u64; lia|vm_compute; discriminate]).
  - vm_compute. discriminate.
Defined.

Definition sample_record : JournalRecord := mkRecord 7 "wave" [1; 2; 3].
Lemma journal_record_round_trip_witness :
  decode_journal_record (encode_journal_record sample_record ++ [9]) =
    Val (sample_record, length (encode_journal_record sample_record)) /\
  forall n, (n < length (encode_journal_record sample_record))%nat ->
    exists s, decode_journal_record (take n (encode_journal_record sample_record)) = Err s.
Proof.
  apply (journal_record_round_trip sample_record [9]).
  unfold record_wire, in_u64, kMaxLabelBytes, kMaxPayloadBytes. cbn. lia.
Defined.
