(* ===== verification/ServiceProps.v ===== *)
(** * ServiceProps: what the coordinator promises its clients

    Every request gets exactly one response of the type that answers it; a
    message that does not decode or that the client's role does not permit
    changes nothing; a command is acknowledged only once its effect would survive
    a crash; a restart is a new incarnation that starts from a durable boot
    snapshot. *)

From stdpp Require Import base gmap list strings.
From Stdlib Require Import Ascii ZArith Lia.
From S2P Require Import Prelude Status Ids Bytes Hash Enums Model Fence Shaper.
From S2P Require Import EngineState EngineAuthority EngineAdmission EngineLifecycle EngineEvidence.
From S2P Require Import EngineInspect Wire Codec WireTheory WireCanon FrameProps Protocol.
From S2P Require Import ChannelProps Snapshot Store SnapshotCodec StoreProps Service Scenario.

(** ** Responses *)

Section responses.
Context {S : Type} `{StreamLaws S}.

(** [h] answers once, with a message of one of [types]: it writes one frame, or,
    when the payload does not fit a frame, it writes nothing and fails. *)
Definition answered (types : list MessageType) (before after : MessageChannel S) (status : Status)
  : Prop :=
  ch_send_sequence after = ch_send_sequence before + 1 /\
  ((Status_ok status = false /\ outgoing (ch_socket after) = outgoing (ch_socket before)) \/
   (Status_ok status = true /\ exists f payload h t, t ∈ types /\
      outgoing (ch_socket after) = outgoing (ch_socket before) ++ f /\
      decode_frame f = Val (payload, h) /\ fh_message_type h = MessageType.value t /\
      fh_sequence h = ch_send_sequence before + 1)).
Definition answers (types : list MessageType) (h : Handler S) : Prop :=
  forall c, 0 <= ch_send_sequence (cn_channel c) -> ch_send_sequence (cn_channel c) + 1 < 2 ^ 64 ->
    let '(status, c') := h c in answered types (cn_channel c) (cn_channel c') status.

Lemma answers_send {T} type (enc : T -> Enc) value types :
  type ∈ types -> answers types (send_payload type enc value).
Proof.
  intros Ht c Hq0 Hq. unfold send_payload.
  destruct (Z.le_gt_cases (Z.of_nat (length (encode_payload enc value))) kMaxPayloadBytes) as [Hp|Hp].
  - destruct (send_frame type (encode_payload enc value) (cn_channel c) Hq0 Hq Hp)
      as (f & h & s' & -> & Ho & Hd & Hty & Hs). split; [done|]. right. split; [done|].
    exists f, (encode_payload enc value), h, type. done.
  - unfold send, encode_frame. rewrite Z.gtb_ltb.
    destruct (Z.ltb_spec kMaxPayloadBytes (Z.of_nat (length (encode_payload enc value)))); [|lia].
    rewrite u64_small by lia. cbn zeta. split; [done|]. by left.
Qed.
Lemma answers_server types f (h : Handler S) :
  answers types h -> answers types (fun c => h (with_server f c)).
Proof. intros Hh c. apply (Hh (with_server f c)). Qed.
Lemma answers_fail types code detail reason :
  MessageType.StatusResponse ∈ types -> answers types (fail (S := S) code detail reason).
Proof. intros Ht. unfold fail. by apply (answers_server _ note_protocol_error), answers_send. Qed.
Lemma answers_with_request {T} types (dec : T -> Dec T) initial message (k : T -> Handler S) :
  MessageType.StatusResponse ∈ types -> (forall r, answers types (k r)) ->
  answers types (with_request dec initial message k).
Proof.
  intros Ht Hk c. unfold with_request. destruct (decode_payload _ _ _ _); [apply Hk|].
  by apply answers_fail.
Qed.
Lemma answers_with_engine {A} types (op : Engine -> A * Engine) (k : A -> Handler S) :
  (forall a, answers types (k a)) -> answers types (with_engine op k).
Proof.
  intros Hk c. unfold with_engine. destruct (op _) as [a e].
  apply (answers_server _ (fun sv => sv <| srv_engine := e |>) (k a) (Hk a)).
Qed.
Lemma answers_with_durable types mo label (k : Handler S) :
  MessageType.StatusResponse ∈ types -> answers types k -> answers types (with_durable mo label k).
Proof.
  intros Ht Hk c. unfold with_durable. destruct (service_persist _ _ _) as [durable sv].
  destruct (negb _).
  - apply (answers_fail types _ _ _ Ht (mkConn sv (cn_channel c))).
  - apply (Hk (mkConn sv (cn_channel c))).
Qed.
Lemma answers_finish types mo label status :
  MessageType.StatusResponse ∈ types -> answers types (finish_command mo label status).
Proof.
  intros Ht. unfold finish_command. destruct (negb _); [by apply answers_fail|].
  apply answers_with_durable; [done|]. by apply answers_send.
Qed.
Lemma answers_decision types mo label decision :
  MessageType.StatusResponse ∈ types -> MessageType.DecisionResponse ∈ types ->
  answers types (finish_decision mo label decision).
Proof.
  intros Ht Hd. destruct decision as [d|status]; [|by apply answers_fail].
  apply answers_with_durable; [done|]. by apply answers_send.
Qed.

(** The types a request may be answered with. *)
Definition answer_types (request : MessageType) : list MessageType :=
  MessageType.StatusResponse :: match MessageType.response_for request with
                                | Some t => [t] | None => [] end.

Lemma answers_shutdown types mo kind :
  MessageType.StatusResponse ∈ types -> answers types (handle_shutdown mo kind).
Proof.
  intros Ht. unfold handle_shutdown. destruct (_ && _); [by apply answers_fail|].
  apply answers_with_engine. intros _ c. destruct (service_persist _ _ _) as [durable sv].
  pose proof (answers_send MessageType.StatusResponse encode_StatusPayload
    (status_payload durable ReasonCode.FabricShuttingDown) types Ht (mkConn sv (cn_channel c))) as Ha.
  unfold respond. destruct (send_payload _ _ _ _) as [sent c']. exact Ha.
Qed.

(** whatever a client sends, the service answers it exactly once: one frame,
    of the type the protocol names as the response to that request or a status
    response, numbered with the channel's next sequence number; only an answer
    too large for a frame is dropped, and then the handler reports the failure. *)
Theorem one_answer mo kind identity message (c : Conn S) :
  0 <= ch_send_sequence (cn_channel c) -> ch_send_sequence (cn_channel c) + 1 < 2 ^ 64 ->
  let '(status, c') := dispatch mo kind identity message c in
  answered (answer_types (msg_type message)) (cn_channel c) (cn_channel c') status.
Proof.
  revert c. change (answers (answer_types (msg_type message)) (dispatch mo kind identity message)).
  assert (MessageType.StatusResponse ∈ answer_types (msg_type message)) as Hs by left.
  unfold dispatch, answer_types in *. destruct (msg_type message); cbn [MessageType.response_for] in *.
  all: try (by apply answers_fail); try (by apply answers_shutdown).
  all: try (apply answers_with_request; [done|intros r];
            apply answers_with_engine; intros a; by apply answers_finish || apply answers_decision; set_solver).
  all: try (intros c; apply answers_send; set_solver).
  - apply answers_with_request; [done|intros r]. destruct (negb _); [by apply answers_fail|].
    apply answers_with_engine. intros [outcome|status]; [|by apply answers_fail].
    destruct (wo_granted outcome); [apply answers_with_durable; [done|]|]; apply answers_send; set_solver.
  - apply answers_with_request; [done|intros r]. destruct (negb _); [by apply answers_fail|].
    apply answers_with_engine. intros a. by apply answers_finish.
  - apply answers_with_request; [done|intros r c].
    destruct (view_session _ _); [apply answers_send; set_solver|by apply answers_fail].
  - apply answers_with_request; [done|intros r c]. apply answers_send. set_solver.
  - apply answers_with_request; [done|intros r c].
    destruct (explain _ _); [apply answers_send; set_solver|by apply answers_fail].
Qed.
End responses.

(** ** Refusals *)

Section refusals.
Context {S : Type} `{ByteStream S}.

Definition decodes {T} (dec : T -> Dec T) (initial : T) (payload : list Z) (lim : Limits) : bool :=
  match decode_payload dec initial payload lim with Val _ => true | Err _ => false end.

(** Whether the payload is one of the message's type; types that are not requests
    have none. *)
Definition well_formed (lim : Limits) (message : Message) : bool :=
  let p := msg_payload message in
  match msg_type message with
  | MessageType.SubmitSession => decodes decode_SubmitRequest SubmitRequest_default p lim
  | MessageType.RevalidateSession => decodes decode_RevalidateRequest RevalidateRequest_default p lim
  | MessageType.RequestWave => decodes decode_WaveRequest WaveRequest_default p lim
  | MessageType.ReportSourceComplete =>
      decodes decode_SourceCompleteRequest SourceCompleteRequest_default p lim
  | MessageType.ReportTransfer => decodes decode_TransferReport TransferReport_default p lim
  | MessageType.ReportVerification =>
      decodes decode_VerificationReport VerificationReport_default p lim
  | MessageType.ReportAmbiguous => decodes decode_AmbiguityRequest AmbiguityRequest_default p lim
  | MessageType.CancelSession => decodes decode_CancelRequest CancelRequest_default p lim
  | MessageType.PauseSession => decodes decode_PauseRequest PauseRequest_default p lim
  | MessageType.ResumeSession => decodes decode_ResumeRequest ResumeRequest_default p lim
  | MessageType.RecordDurability => decodes decode_DurabilityRequest DurabilityRequest_default p lim
  | MessageType.QuerySession | MessageType.QueryExplain =>
      decodes decode_SessionQuery SessionQuery_default p lim
  | MessageType.QuerySessions => decodes decode_SessionsQuery SessionsQuery_default p lim
  | MessageType.QueryAccounting | MessageType.QueryInvariants | MessageType.ShutdownRequest => true
  | _ => false
  end.
(** Which clients may send it. *)
Definition permitted (kind : ClientKind) (type : MessageType) : bool :=
  match type with
  | MessageType.RequestWave => bool_decide (kind = ClientKind.Sender)
  | MessageType.ReportVerification => bool_decide (kind = ClientKind.Sink)
  | MessageType.ShutdownRequest =>
      bool_decide (kind = ClientKind.Operator) || bool_decide (kind = ClientKind.Observer)
  | _ => true
  end.

(** The authoritative state: the engine, the store and the disk. *)
Definition same_state (a b : Server) : Prop :=
  srv_engine a = srv_engine b /\ srv_store a = srv_store b /\ srv_disk a = srv_disk b /\
  srv_stop a = srv_stop b.
Definition refused (c c' : Conn S) : Prop :=
  same_state (cn_server c') (cn_server c) /\
  stat_protocol_errors (srv_stats (cn_server c')) =
    u64 (stat_protocol_errors (srv_stats (cn_server c)) + 1).

Lemma send_server {T} type (enc : T -> Enc) value (c : Conn S) :
  cn_server (send_payload type enc value c).2 = cn_server c.
Proof. unfold send_payload. by destruct (send _ _ _). Qed.
Lemma fail_refused code detail reason (c : Conn S) : refused c (fail code detail reason c).2.
Proof.
  unfold fail, respond, refused. rewrite send_server. done.
Qed.
Lemma with_request_refused {T} (dec : T -> Dec T) initial message (k : T -> Handler S) c :
  decodes dec initial (msg_payload message) (cc_limits (srv_config (cn_server c))) = false ->
  refused c (with_request dec initial message k c).2.
Proof.
  unfold decodes, with_request. destruct (decode_payload _ _ _ _); [discriminate|].
  intros _. apply fail_refused.
Qed.
Lemma with_request_guarded {T} (dec : T -> Dec T) initial message (k : T -> Handler S) c :
  (forall r, refused c (k r c).2) -> refused c (with_request dec initial message k c).2.
Proof.
  intros Hk. unfold with_request. destruct (decode_payload _ _ _ _); [apply Hk|apply fail_refused].
Qed.

(** C35: a message that does not decode under the configured limits, that is not a
    request, or that the client's role does not permit leaves the engine, the
    store, the disk and the stop flag exactly as they were and is counted as one
    protocol error. *)
Theorem refused_message_inert mo kind identity message (c : Conn S) :
  well_formed (cc_limits (srv_config (cn_server c))) message &&
  permitted kind (msg_type message) = false ->
  refused c (dispatch mo kind identity message c).2.
Proof.
  unfold well_formed, permitted, dispatch. intros Hf.
  destruct (msg_type message); rewrite ?andb_true_r in Hf; try discriminate;
    try apply fail_refused; try (by apply with_request_refused).
  - apply andb_false_iff in Hf as [Hf|Hf]; [by apply with_request_refused|].
    apply with_request_guarded. intros r. rewrite Hf. apply fail_refused.
  - apply andb_false_iff in Hf as [Hf|Hf]; [by apply with_request_refused|].
    apply with_request_guarded. intros r. rewrite Hf. apply fail_refused.
  - cbn [andb] in Hf. unfold handle_shutdown. rewrite <-negb_orb, Hf. apply fail_refused.
Qed.
End refusals.

(** ** Durability before acknowledgement *)

Section durability.
Context {S : Type} `{ByteStream S}.

(** The store is in order and can take a record of the state of [e]. *)
Definition ready (sv : Server) (e : Engine) : Prop :=
  cc_persist (srv_config sv) = true /\
  exists st s, srv_store sv = Some st /\ holds_state st (srv_disk sv) s /\
    sequence_ st + 3 < 2 ^ 64 /\ storable (sc_limits (config_ st)) (export_snapshot e) /\
    Z.of_nat (length (default [] (disk_journal (srv_disk sv)))) +
    Z.of_nat (length (encode_snapshot (export_snapshot e))) + 92 <= max_file_bytes.
(** The files hold the state of the engine: [load] returns it. *)
Definition durable (sv : Server) : Prop :=
  exists st, srv_store sv = Some st /\
    holds_state st (srv_disk sv) (export_snapshot (srv_engine sv)) /\
    recovers st (srv_disk sv) (export_snapshot (srv_engine sv)).

Definition errors (c : Conn S) : Z := stat_protocol_errors (srv_stats (cn_server c)).
(** [h] leaves a durable state whenever it answers without an error. *)
Definition acks (h : Handler S) : Prop :=
  forall c, ready (cn_server c) (srv_engine (cn_server (h c).2)) -> errors (h c).2 = errors c ->
    durable (cn_server (h c).2).

Lemma u64_succ_neq n : u64 (n + 1) <> n.
Proof.
  unfold u64. intros E. pose proof (Z.mod_pos_bound (n + 1) (2 ^ 64)).
  destruct (Z.eq_dec (n + 1) (2 ^ 64)) as [Hn|Hn].
  - rewrite Hn, Z_mod_same_full in E. lia.
  - rewrite Z.mod_small in E; lia.
Qed.
Lemma acks_fail code detail reason : acks (fail code detail reason).
Proof.
  intros c _ He. destruct (fail_refused code detail reason c) as [_ Hc]. unfold errors in He.
  rewrite Hc in He. by apply u64_succ_neq in He.
Qed.
Lemma acks_with_request {T} (dec : T -> Dec T) initial message (k : T -> Handler S) :
  (forall r, acks (k r)) -> acks (with_request dec initial message k).
Proof.
  intros Hk c. unfold with_request. destruct (decode_payload _ _ _ _); [apply Hk|apply acks_fail].
Qed.
Lemma acks_with_engine {A} (op : Engine -> A * Engine) (k : A -> Handler S) :
  (forall a, acks (k a)) -> acks (with_engine op k).
Proof.
  intros Hk c. unfold with_engine. destruct (op _) as [a e]. intros Hr He.
  by apply (Hk a (with_server (fun sv => sv <| srv_engine := e |>) c)).
Qed.
Lemma acks_with_durable {T} mo label type (enc : T -> Enc) value :
  label_fits label -> acks (with_durable mo label (send_payload type enc value)).
Proof.
  intros Hl c. unfold with_durable, service_persist.
  intros (Hp & st & s & Hst & Hh & Hq & Hs & Hfits) He. revert Hs Hfits He. rewrite Hst, Hp.
  cbn [negb]. pose proof (append_crash (mo_append mo) (mo_persist mo) label s
    (export_snapshot (srv_engine (cn_server c))) st (srv_disk (cn_server c)) Hh Hq Hl) as Ha.
  destruct (append _ _ _ _ _ _) as [[status st'] disk']. destruct (Status_ok status) eqn:Hok; cbn [negb].
  - rewrite send_server. cbn. intros Hs Hfits _. exists st'. split; [done|].
    destruct Ha as [_ Hholds]; [done| |].
    { rewrite entry_bytes_length. cbn [en_label en_state]. unfold label_fits, kMaxLabelBytes in Hl.
      lia. }
    specialize (Hholds eq_refl). split; [exact Hholds|by apply holds_recovers].
  - intros _ _ He. exfalso. unfold fail_status in He.
    match type of He with errors (fail ?a ?b ?r ?c2).2 = _ =>
      destruct (fail_refused a b r c2) as [_ Hc] end.
    unfold errors in He. rewrite Hc in He. revert He. apply u64_succ_neq.
Qed.
Lemma acks_finish mo label status : label_fits label -> acks (finish_command mo label status).
Proof.
  intros Hl. unfold finish_command. destruct (negb _); [apply acks_fail|by apply acks_with_durable].
Qed.
Lemma acks_decision mo label decision : label_fits label -> acks (finish_decision mo label decision).
Proof. intros Hl. destruct decision; [by apply acks_with_durable|apply acks_fail]. Qed.

(** The messages whose positive answer promises that their effect is durable: the
    commands, and a request for a wave that was granted. *)
Definition commits (mo : Moment) (message : Message) (sv : Server) : Prop :=
  match msg_type message with
  | MessageType.SubmitSession | MessageType.RevalidateSession | MessageType.ReportSourceComplete
  | MessageType.ReportTransfer | MessageType.ReportVerification | MessageType.ReportAmbiguous
  | MessageType.CancelSession | MessageType.PauseSession | MessageType.ResumeSession
  | MessageType.RecordDurability => True
  | MessageType.RequestWave =>
      forall r o, decode_payload decode_WaveRequest WaveRequest_default (msg_payload message)
                (cc_limits (srv_config sv)) = Val r ->
      (request_wave (wr_session r) (wr_shard r) (wr_fence r) (mo_now mo) (srv_engine sv)).1 = Val o ->
      wo_granted o = true
  | _ => False
  end.

Lemma label_fits_short label : (length (string_bytes label) <= 64)%nat -> label_fits label.
Proof. unfold label_fits, kMaxLabelBytes. lia. Qed.

Lemma dispatch_durable mo kind identity message (c : Conn S) :
  commits mo message (cn_server c) ->
  let c' := (dispatch mo kind identity message c).2 in
  ready (cn_server c) (srv_engine (cn_server c')) -> errors c' = errors c ->
  durable (cn_server c').
Proof.
  unfold commits, dispatch. intros Hc.
  destruct (msg_type message); try done.
  all: try (apply acks_with_request; intros r; apply acks_with_engine; intros a;
            first [apply acks_finish | apply acks_decision]; apply label_fits_short; cbn; lia).
  - cbv zeta. unfold handle_wave, with_request.
    destruct (decode_payload _ _ _ _) as [r|status]; [|by apply acks_fail].
    destruct (negb _); [by apply acks_fail|]. specialize (Hc r). unfold with_engine.
    destruct (request_wave _ _ _ _ _) as [[o|status] e]; intros Hr He.
    2: { by apply (acks_fail (st_code status) (st_detail status)
                     (reason_for_fence_code (st_code status))
                     (with_server (fun sv => sv <| srv_engine := e |>) c)). }
    rewrite (Hc o eq_refl eq_refl) in *.
    by apply (acks_with_durable mo "wave-grant" MessageType.WaveResponse encode_WaveOutcome o
             ltac:(apply label_fits_short; cbn; lia)
             (with_server (fun sv => sv <| srv_engine := e |>) c)).
  - apply acks_with_request. intros r. destruct (negb _); [apply acks_fail|].
    apply acks_with_engine. intros a. apply acks_finish, label_fits_short. cbn. lia.
Qed.

(** C7: durability before acknowledgement: when a command, or a wave request that
    is granted, is answered without an error, the snapshot and journal files
    already hold the state the engine is in after it: the store's [load] over them
    returns that state.  The store must be in a condition to take the record
    ([ready]): persistence is on, the files hold a state with no torn tail and no
    record past the store's counter, the counter is not within three of 2^64, the
    new state is one the format can hold ([storable]: every string and list within
    the decoder's limits, at most 1 MiB encoded), and the journal with the record
    stays within the size the reader accepts. *)
Theorem acknowledged_command_durable mo kind identity message (c : Conn S) :
  commits mo message (cn_server c) ->
  let c' := (dispatch mo kind identity message c).2 in
  ready (cn_server c) (srv_engine (cn_server c')) -> errors c' = errors c ->
  durable (cn_server c').
Proof. apply dispatch_durable. Qed.
End durability.

(** ** Witnesses *)

Definition coordinator1 : CoordinatorConfig :=
  mkCoordinatorConfig "127.0.0.1" 0 "/var/ctf" (policy_n 1 256) topology1 [contract1] Limits_default 4 64 true 7
    "ctf-coordinator".
(** The coordinator with the engine of [Scenario] over the disk of [first_disk]. *)
Definition server1 : Server :=
  mkServer coordinator1 engine1 (Some first_store) first_disk LoadReport_default ServiceStats_default
    true false false false.
Definition conn1 : Conn Pipe := mkConn server1 fresh_channel.
Definition submit_message (payload : list Z) : Message :=
  mkMessage MessageType.SubmitSession 2 payload.
Definition submit_payload1 : list Z :=
  encode_payload encode_SubmitRequest (mkSubmitRequest request1 (fence_now engine1)).

Lemma one_answer_witness :
  let '(status, c') := dispatch (calm 1) ClientKind.Sender "agent" (submit_message []) conn1 in
  answered (answer_types MessageType.SubmitSession) (cn_channel conn1) (cn_channel c') status.
Proof.
  apply (one_answer (calm 1) ClientKind.Sender "agent" (submit_message []) conn1); cbn; lia.
Defined.
Lemma refused_message_inert_witness :
  refused conn1 (dispatch (calm 1) ClientKind.Sender "agent" (submit_message [1]) conn1).2.
Proof. apply (refused_message_inert (calm 1) ClientKind.Sender "agent" (submit_message [1]) conn1).
  vm_compute. reflexivity. Defined.

Definition bytes_okb (l : list Z) : bool := forallb (fun x => (0 <=? x) && (x <? 256)) l.
Lemma bytes_okb_ok l : bytes_okb l = true -> Forall byte_ok l.
Proof.
  unfold bytes_okb. rewrite forallb_forall, Forall_forall. intros Hl x Hx%list_elem_of_In.
  specialize (Hl x Hx). unfold byte_ok. bool_facts. lia.
Qed.
(** A snapshot that decodes from its own bytes is storable. *)
Lemma storable_computed lim s :
  bytes_okb (encode_snapshot s) = true -> decode_snapshot (encode_snapshot s) lim = Val s ->
  (Z.of_nat (length (encode_snapshot s)) <=? kMaxPayloadBytes) = true -> storable lim s.
Proof.
  intros Hb%bytes_okb_ok Hd Hl. split; [|by apply Z.leb_le].
  apply (canon_payload lim _ encode_EngineSnapshot decode_EngineSnapshot EngineSnapshot_default
    (encode_snapshot s) s (canon_EngineSnapshot lim EngineSnapshot_default) Hb Hd).
Qed.

Notation submit_moment := (calm 1).
Notation submitted_conn :=
  (dispatch submit_moment ClientKind.Sender "agent" (submit_message submit_payload1) conn1).2.
Lemma submitted_storable :
  storable Limits_default (export_snapshot (srv_engine (cn_server submitted_conn))).
Proof. apply storable_computed; vm_compute; reflexivity. Qed.
Lemma submitted_fits :
  (Z.of_nat (length (default [] (disk_journal (srv_disk server1)))) +
   Z.of_nat (length (encode_snapshot (export_snapshot (srv_engine (cn_server submitted_conn))))) + 92
   <=? max_file_bytes) = true.
Proof. vm_compute. reflexivity. Qed.
Lemma first_sequence : (sequence_ first_store + 3 <? 2 ^ 64) = true.
Proof. vm_compute. reflexivity. Qed.
Lemma first_limits : sc_limits (config_ first_store) = Limits_default.
Proof. vm_compute. reflexivity. Qed.
Lemma submitted_errors : errors submitted_conn = errors conn1.
Proof. vm_compute. reflexivity. Qed.
Lemma submitted_ready : ready server1 (srv_engine (cn_server submitted_conn)).
Proof.
  split; [reflexivity|]. exists first_store, (idle_snapshot 1). rewrite first_limits.
  split; [reflexivity|]. split; [exact first_holds|]. split; [apply Z.ltb_lt, first_sequence|].
  split; [exact submitted_storable|]. apply Z.leb_le, submitted_fits.
Qed.

Lemma acknowledged_command_durable_witness : durable (cn_server submitted_conn).
Proof.
  exact (acknowledged_command_durable submit_moment ClientKind.Sender "agent"
           (submit_message submit_payload1) conn1 I submitted_ready submitted_errors).
Defined.
