(* ===== verification/Served.v ===== *)
(** * Served: a client's socket with the coordinator behind it

    The composition of [src/client.cpp] with [src/service.cpp].  A [Served] value
    is the client's end of a connection: what the client writes is delivered to
    the service, which takes its next step at once (the handshake, then one
    message per step), and what the service has written is what the client reads.
    Each step has its own [Moment]: the clock and the faults of the disk. *)

From stdpp Require Import base gmap list strings.
From Stdlib Require Import Ascii ZArith Lia.
From S2P Require Import Prelude Status Ids Bytes Hash Enums Model Fence Shaper.
From S2P Require Import EngineState EngineAuthority EngineAdmission EngineLifecycle EngineEvidence.
From S2P Require Import EngineInspect Wire Codec WireTheory WireCanon FrameProps Protocol.
From S2P Require Import ChannelProps Snapshot Store Service Client.

Record Served := mkServed {
  sd_conn : Conn Pipe;
  sd_peer : option (ClientKind * string);   (* known after the handshake *)
  sd_moments : list Moment;
  sd_consumed : nat;                         (* bytes of the service's output already read *)
  sd_written : list Z                        (* every byte the client has written *)
}.

Definition conn_pipe (c : Conn Pipe) : Pipe := ch_socket (cn_channel c).
Definition deliver (data : list Z) (c : Conn Pipe) : Conn Pipe :=
  let p := conn_pipe c in
  mkConn (cn_server c) (with_socket (cn_channel c) (mkPipe (pipe_chunks p ++ [data]) (pipe_written p))).

(** The service's next step. *)
Definition service_step (c : Conn Pipe) (peer : option (ClientKind * string)) (moments : list Moment)
  : Conn Pipe * option (ClientKind * string) * list Moment :=
  match peer with
  | None => let '(c, peer) := handshake c in (c, peer, moments)
  | Some (kind, identity) =>
      match moments with
      | [] => (c, peer, [])
      | mo :: moments => (serve [mo] kind identity c, peer, moments)
      end
  end.

Definition unread (s : Served) : list Z := drop (sd_consumed s) (pipe_written (conn_pipe (sd_conn s))).

#[global] Instance Served_stream : ByteStream Served := {
  stream_write data s :=
    let '(c, peer, moments) :=
      service_step (deliver data (sd_conn s)) (sd_peer s) (sd_moments s) in
    (Status_success, mkServed c peer moments (sd_consumed s) (sd_written s ++ data));
  stream_read n s :=
    let chunk := take n (unread s) in
    (Val chunk, mkServed (sd_conn s) (sd_peer s) (sd_moments s)
                  (sd_consumed s + length chunk) (sd_written s))
}.

#[global, program] Instance Served_laws : StreamLaws Served := {
  incoming := unread;
  outgoing := sd_written
}.
Next Obligation.
  intros n s Hn Hne. cbn. eexists _, _. split; [reflexivity|]. split_and!.
  - destruct (unread s); [done|]. by destruct n; [lia|].
  - rewrite length_take. lia.
  - unfold unread at 3. cbn. rewrite <- drop_drop. fold (unread s). rewrite length_take.
    destruct (Nat.le_ge_cases n (length (unread s))).
    + rewrite Nat.min_l by lia. by rewrite take_drop.
    + rewrite Nat.min_r, drop_ge, app_nil_r, take_ge by lia. done.
Qed.
Next Obligation.
  intros data s. cbn. destruct (service_step _ _ _) as [[c peer] moments]. by eexists.
Qed.

(** ** One exchange *)

(** Both ends are idle: everything written has been read, and the sequence
    numbers of either direction agree. *)
Definition in_step (ch : MessageChannel Served) : Prop :=
  let s := ch_socket ch in
  let server := cn_channel (sd_conn s) in
  unread s = [] /\ concat (pipe_chunks (conn_pipe (sd_conn s))) = [] /\
  (sd_consumed s <= length (pipe_written (conn_pipe (sd_conn s))))%nat /\
  0 <= ch_send_sequence ch /\ sequenced server (ch_send_sequence ch + 1) /\
  0 <= ch_send_sequence server /\ sequenced ch (ch_send_sequence server + 1).

(** [n] more messages can be sent in either direction. *)
Definition room (n : Z) (ch : MessageChannel Served) : Prop :=
  ch_send_sequence ch + n < 2 ^ 64 /\ ch_send_sequence (cn_channel (sd_conn (ch_socket ch))) + n < 2 ^ 64.

(** A handler that answers with [type] and [payload] and leaves the service as [sv]. *)
Definition replies (h : Handler Pipe) (c : Conn Pipe) (type : MessageType) (payload : list Z)
    (sv : Server) : Prop :=
  h c = let '(status, channel) := send type payload (cn_channel c) in (status, mkConn sv channel).

Lemma replies_send {T} type (enc : T -> Enc) value c :
  replies (send_payload type enc value) c type (encode_payload enc value) (cn_server c).
Proof. reflexivity. Qed.

(** [send] hands one frame to the socket, whatever the socket does with it. *)
Lemma send_writes {S} `{ByteStream S} type payload (c : MessageChannel S) :
  0 <= ch_send_sequence c -> ch_send_sequence c + 1 < 2 ^ 64 ->
  Z.of_nat (length payload) <= kMaxPayloadBytes ->
  exists f h, decode_frame f = Val (payload, h) /\ fh_message_type h = MessageType.value type /\
    fh_sequence h = ch_send_sequence c + 1 /\
    send type payload c =
      let '(status, s) := stream_write f (ch_socket c) in
      (status, mkChannel s (ch_send_sequence c + 1) (ch_last_received_sequence c) (ch_received_any c)).
Proof.
  intros Hq Hq' Hp. unfold send. rewrite u64_small by lia. cbn zeta.
  set (h := mkFrameHeader _ _ _ _ _ _). rewrite encode_frame_ok by done. cbn [ch_socket].
  eexists _, (received_header h payload).
  split_and!; [|done|done|].
  - apply decode_encoded; [|done]. unfold header_wire, in_u32, in_u64. cbn.
    assert (0 <= MessageType.value type < 2 ^ 16) by (destruct type; cbn; lia). lia.
  - by destruct (stream_write _ _).
Qed.

(** What every read keeps, [receive] keeps. *)
Section keeping.
Context {S : Type} `{ByteStream S} (P : S -> Prop).
Hypothesis reads_keep : forall n s, P s -> P (stream_read n s).2.

Lemma read_exactly_keeps fuel size buffer (s : S) : P s -> P (read_exactly fuel size buffer s).2.
Proof.
  revert buffer s. induction fuel as [|fuel IH]; intros buffer s Hs; cbn [read_exactly];
    destruct (Nat.ltb _ _); try done.
  pose proof (reads_keep (size - length buffer) s Hs) as Hr.
  destruct (stream_read _ s) as [[[|b chunk]|status] s1]; [done| |done]. by apply IH.
Qed.
Lemma receive_keeps (c : MessageChannel S) : P (ch_socket c) -> P (ch_socket (receive c).2).
Proof.
  intros Hc. assert (P (read_frame (ch_socket c)).2) as Hw.
  { unfold read_frame.
    pose proof (read_exactly_keeps kFrameHeaderBytes kFrameHeaderBytes [] _ Hc) as H1.
    destruct (read_exactly _ _ _ _) as [[header|status] s1]; [|done].
    destruct (negb _); [done|]. destruct (_ >? kMaxPayloadBytes); [done|].
    destruct (_ >? 0); [|done]. set (n := Z.to_nat _).
    pose proof (read_exactly_keeps n n [] s1 H1) as H2. by destruct (read_exactly _ _ _ _) as [[|] ?]. }
  unfold receive. destruct (read_frame (ch_socket c)) as [[f|status] s]; [|done].
  unfold accept_frame. destruct (decode_frame f) as [[payload h]|]; [|done].
  destruct (MessageType.of_value _); [|done]. by destruct (_ && _).
Qed.
End keeping.

Lemma receive_written (c : MessageChannel Pipe) :
  pipe_written (ch_socket (receive c).2) = pipe_written (ch_socket c).
Proof.
  apply (receive_keeps (fun s => pipe_written s = pipe_written (ch_socket c))); [|done].
  intros n s <-. cbn. by destruct (pipe_read n (pipe_chunks s)).
Qed.

(** Reading only moves the client's position in what the service has written. *)
Definition reads_of (s s' : Served) : Prop :=
  sd_conn s' = sd_conn s /\ sd_peer s' = sd_peer s /\ sd_moments s' = sd_moments s /\
  (sd_consumed s' <= length (pipe_written (conn_pipe (sd_conn s'))))%nat.
Lemma receive_reads (c : MessageChannel Served) :
  (sd_consumed (ch_socket c) <= length (pipe_written (conn_pipe (sd_conn (ch_socket c)))))%nat ->
  reads_of (ch_socket c) (ch_socket (receive c).2).
Proof.
  intros Hc. apply (receive_keeps (reads_of (ch_socket c))); [|done].
  intros n s (E1 & E2 & E3 & Hl). split_and!; [done..|]. cbn. rewrite length_take. unfold unread.
  rewrite length_drop. lia.
Qed.

(** The service's side of an exchange: it reads the frame and answers it. *)
Lemma serve_one mo kind identity f payload h type (c : Conn Pipe) t p sv :
  decode_frame f = Val (payload, h) -> fh_message_type h = MessageType.value type ->
  sequenced (cn_channel c) (fh_sequence h) -> incoming (conn_pipe c) = f ->
  0 <= ch_send_sequence (cn_channel c) -> ch_send_sequence (cn_channel c) + 1 < 2 ^ 64 ->
  srv_stop (cn_server c) = false -> Z.of_nat (length p) <= kMaxPayloadBytes ->
  (forall channel, replies (dispatch mo kind identity (mkMessage type (fh_sequence h) payload))
                     (mkConn (note_message (cn_server c)) channel) t p sv) ->
  exists s' f' h', decode_frame f' = Val (p, h') /\ fh_message_type h' = MessageType.value t /\
    fh_sequence h' = ch_send_sequence (cn_channel c) + 1 /\
    concat (pipe_chunks s') = [] /\ pipe_written s' = pipe_written (conn_pipe c) ++ f' /\
    serve [mo] kind identity c =
      mkConn sv (mkChannel s' (ch_send_sequence (cn_channel c) + 1) (fh_sequence h) true).
Proof.
  intros Hd Ht Hs Hi Hq Hq' Hstop Hp Hr.
  destruct (receive_frame f payload h type (cn_channel c) []) as (s1 & Hrec & Hi1);
    [done|by rewrite app_nil_r|by rewrite Ht, message_value_back|done|].
  pose proof (receive_written (cn_channel c)) as Hw. rewrite Hrec in Hw. cbn in Hw, Hi1.
  set (ch1 := mkChannel s1 _ _ _) in *.
  destruct (send_writes t p ch1 Hq Hq' Hp) as (f' & h' & Hd' & Ht' & Hs' & Hsend).
  specialize (Hr ch1). unfold replies in Hr. cbn [cn_channel] in Hr. rewrite Hsend in Hr. cbn in Hr.
  eexists _, f', h'. split_and!; [done..| | |].
  3: { cbn [serve]. rewrite Hstop, Hrec. unfold with_server. cbn [cn_server cn_channel].
       rewrite Hr. reflexivity. }
  - exact Hi1.
  - cbn. by rewrite Hw.
Qed.

Definition server_of (ch : MessageChannel Served) : Server := cn_server (sd_conn (ch_socket ch)).

(** The service reads a frame of [type] and [payload] from an idle connection,
    answers with [t] and [p], and is left as [sv]. *)
Definition step_answers (ch : MessageChannel Served) (type : MessageType) (payload : list Z)
    (t : MessageType) (p : list Z) (sv : Server) peer moments : Prop :=
  let s := ch_socket ch in
  let server := cn_channel (sd_conn s) in
  forall f h, decode_frame f = Val (payload, h) -> fh_message_type h = MessageType.value type ->
    fh_sequence h = ch_send_sequence ch + 1 ->
    exists s' f' h', decode_frame f' = Val (p, h') /\ fh_message_type h' = MessageType.value t /\
      fh_sequence h' = ch_send_sequence server + 1 /\
      concat (pipe_chunks s') = [] /\ pipe_written s' = pipe_written (conn_pipe (sd_conn s)) ++ f' /\
      service_step (deliver f (sd_conn s)) (sd_peer s) (sd_moments s) =
        (mkConn sv (mkChannel s' (ch_send_sequence server + 1) (fh_sequence h) true), peer, moments).

(** What the client finds after an exchange. *)
Definition exchanged (ch ch' : MessageChannel Served) (sv : Server) peer moments : Prop :=
  in_step ch' /\ server_of ch' = sv /\ sd_peer (ch_socket ch') = peer /\
  sd_moments (ch_socket ch') = moments /\ (forall n, room (1 + n) ch -> room n ch').

Lemma exchange type payload t p sv peer moments (ch : MessageChannel Served) :
  in_step ch -> room 1 ch -> Z.of_nat (length payload) <= kMaxPayloadBytes ->
  step_answers ch type payload t p sv peer moments ->
  exists ch1 ch2, send type payload ch = (Status_success, ch1) /\
    receive ch1 = (Val (mkMessage t (ch_send_sequence (cn_channel (sd_conn (ch_socket ch))) + 1) p), ch2) /\
    exchanged ch ch2 sv peer moments.
Proof.
  intros (Hu & Hc & Hle & Hq & Hseq & Hq' & Hseq') [R1 R2] Hp Hstep.
  destruct (send_writes type payload ch Hq ltac:(lia) Hp) as (f & h & Hd & Ht & Hn & Hsend).
  destruct (Hstep f h Hd Ht Hn) as (s' & f' & h' & Hd' & Ht' & Hn' & Hc' & Hw' & Hs).
  cbn in Hsend. rewrite Hs in Hsend. cbn in Hsend.
  set (sd := mkServed _ _ _ _ _) in Hsend. set (ch1 := mkChannel sd _ _ _) in Hsend.
  assert (unread sd = f') as Hun.
  { unfold unread, conn_pipe in *. cbn. rewrite Hw', drop_app_le by done. by rewrite Hu. }
  destruct (receive_frame f' p h' t ch1 []) as (s2 & Hrec & Hi2);
    [done|by rewrite app_nil_r|by rewrite Ht', message_value_back|by rewrite Hn'|].
  destruct (receive_reads ch1) as (E1 & E2 & E3 & Hl).
  { cbn. unfold conn_pipe in *. cbn. rewrite Hw', length_app. lia. }
  rewrite Hrec in E1, E2, E3, Hl. cbn in E1, E2, E3, Hl, Hi2.
  exists ch1. eexists. rewrite Hn' in Hrec. split_and!; [exact Hsend|exact Hrec|].
  unfold exchanged, in_step, server_of, room, sequenced. cbn. rewrite E1 in *. cbn.
  split_and!; try done; try lia.
Qed.
