(* ===== verification/ClientProps.v ===== *)
(** * ClientProps: a remote call is the engine's operation

    [src/client.cpp] over [src/service.cpp], composed in [Served]: a client that
    connects learns the live authority of the engine; each of its commands runs
    the engine's operation exactly once, reaches the durability point before it
    reports success, and otherwise reports the error the engine or the store
    gave. *)

From stdpp Require Import base gmap list strings.
From Stdlib Require Import Ascii ZArith Lia.
From S2P Require Import Prelude Status Ids Bytes Hash Enums Model Fence Shaper.
From S2P Require Import EngineState EngineAuthority EngineAdmission EngineLifecycle EngineEvidence.
From S2P Require Import EngineInspect Wire Codec WireTheory WireCanon FrameProps Protocol CodecProps.
From S2P Require Import ProtocolCodec ChannelProps Snapshot Store Service Scenario CodecCanon.
From S2P Require Import ServiceProps Client Served.

Notation Remote := (CoordinatorClient.t Served).
Notation channel_of := CoordinatorClient.channel_.

(** A client whose connection is idle, with [mo] as the service's next moment. *)
Record connected (kind : ClientKind) (identity : string) (moments : list Moment) (cl : Remote)
  : Prop := {
  con_step : in_step (channel_of cl);
  con_peer : sd_peer (ch_socket (channel_of cl)) = Some (kind, identity);
  con_moments : sd_moments (ch_socket (channel_of cl)) = moments
}.
Definition server (cl : Remote) : Server := server_of (channel_of cl).

(** The client after a call: still connected, to the service in state [sv]. *)
Definition after_call kind identity moments (cl : Remote) (sv : Server) (cl' : Remote) : Prop :=
  connected kind identity moments cl' /\ server cl' = sv /\
  CoordinatorClient.hello_ cl' = CoordinatorClient.hello_ cl /\
  CoordinatorClient.limits_ cl' = CoordinatorClient.limits_ cl /\
  (forall n, room (1 + n) (channel_of cl) -> room n (channel_of cl')).

Definition payload_fits (payload : list Z) : Prop := Z.of_nat (length payload) <= kMaxPayloadBytes.

Lemma status_read lim answer : string_wire (sp_detail answer) ->
  decode_payload decode_StatusPayload StatusPayload_default
    (encode_payload encode_StatusPayload answer) lim = Val answer.
Proof. intros Hw. apply coded_payload, coded_StatusPayload, Hw. Qed.
Lemma status_fits answer : string_wire (sp_detail answer) ->
  payload_fits (encode_payload encode_StatusPayload answer).
Proof.
  intros [Hl Hu]. unfold payload_fits, encode_payload.
  assert (writes (encode_StatusPayload answer)
    (be_bytes 2 (ErrorCode.value (sp_code answer)) ++ [ReasonCode.value (sp_reason answer)] ++
     be_bytes 2 (u16 (Z.of_nat (length (string_bytes (sp_detail answer))))) ++
     string_bytes (sp_detail answer))) as Hw.
  { apply writes_seq; [apply writes_error_code|].
    apply writes_seq; [apply writes_enum|by apply writes_string]. }
  rewrite Hw by done. cbn [enc_raw Encoder_default app]. rewrite !length_app. cbn [length].
  rewrite !length_app, !be_bytes_length.
  unfold kMaxPayloadBytes, kMaxStringBytes in *. lia.
Qed.

Lemma hello_request_fits r : string_wire (hrq_identity r) ->
  payload_fits (encode_payload encode_HelloRequest r).
Proof.
  intros Hs. unfold payload_fits, encode_payload.
  assert (writes (encode_HelloRequest r) ([ClientKind.value (hrq_kind r)] ++
     be_bytes 2 (u16 (Z.of_nat (length (string_bytes (hrq_identity r))))) ++
     string_bytes (hrq_identity r))) as Hw.
  { apply writes_seq; [apply writes_u8|by apply writes_string]. }
  rewrite Hw by done. destruct Hs as [Hl _]. cbn [enc_raw Encoder_default app length].
  rewrite !length_app, !be_bytes_length. unfold kMaxPayloadBytes, kMaxStringBytes in *. lia.
Qed.

Section call.
Context (kind : ClientKind) (identity : string) (mo : Moment) (moments : list Moment) (cl : Remote).
Hypothesis Hcon : connected kind identity (mo :: moments) cl.
Hypothesis Hroom : room 1 (channel_of cl).
Hypothesis Hlive : srv_stop (server cl) = false.

Lemma serve_answers type payload t p sv : payload_fits p ->
  (forall channel q, replies (dispatch mo kind identity (mkMessage type q payload))
                       (mkConn (note_message (server cl)) channel) t p sv) ->
  step_answers (channel_of cl) type payload t p sv (Some (kind, identity)) moments.
Proof.
  intros Hp Hr f h Hd Ht Hn. destruct Hcon as [(Hu & Hc & Hle & Hq & Hseq & Hq' & Hseq') Ep Em].
  destruct Hroom as [R1 R2]. set (s := ch_socket (channel_of cl)) in *.
  destruct (serve_one mo kind identity f payload h type (deliver f (sd_conn s)) t p sv)
    as (s' & f' & h' & Hd' & Ht' & Hn' & Hc' & Hw' & Hs);
    [done|done|cbn; by rewrite Hn| |exact Hq'|exact R2|exact Hlive|done|intros channel; apply Hr|].
  - cbn. rewrite concat_app, Hc. cbn. by rewrite app_nil_r.
  - exists s', f', h'. split_and!; try done. rewrite Ep, Em. cbn [service_step]. by rewrite Hs.
Qed.

Lemma round_trip_answered type payload t p sv expected :
  payload_fits payload -> payload_fits p ->
  (forall channel q, replies (dispatch mo kind identity (mkMessage type q payload))
                       (mkConn (note_message (server cl)) channel) t p sv) ->
  exists cl' q, after_call kind identity moments cl sv cl' /\
    CoordinatorClient.round_trip type payload expected cl =
      (if bool_decide (t = MessageType.StatusResponse) &&
          negb (bool_decide (expected = MessageType.StatusResponse))
       then Err (CoordinatorClient.status_error "" p (CoordinatorClient.limits_ cl))
       else if negb (bool_decide (t = expected))
       then Err (Status_error ErrorCode.InvalidStateTransition
              ("coordinator answered with " +:+ MessageType.to_string t +:+
               " instead of " +:+ MessageType.to_string expected))
       else Val (mkMessage t q p), cl').
Proof.
  intros Hp Hp' Hr.
  destruct (exchange type payload t p sv _ _ _ (con_step _ _ _ _ Hcon) Hroom Hp
              (serve_answers _ _ _ _ _ Hp' Hr)) as (ch1 & ch2 & Hs & Hrec & Hst & Hsv & Hpe & Hmo & Hro).
  exists (CoordinatorClient.with_channel cl ch2), (ch_send_sequence (cn_channel (sd_conn (ch_socket (channel_of cl)))) + 1).
  split; [unfold after_call; split_and!; [by constructor|done..]|]. unfold CoordinatorClient.round_trip. rewrite Hs.
  change (Status_ok Status_success) with true.
  cbn [negb CoordinatorClient.channel_ CoordinatorClient.with_channel].
  rewrite Hrec. cbn [msg_type msg_payload]. by repeat case_match.
Qed.

(** A command's answer, read back by the client. *)
Definition read_status (answer : StatusPayload) : Status :=
  if bool_decide (sp_code answer = ErrorCode.Ok) then Status_success
  else Status_error (sp_code answer) (sp_detail answer).

Lemma tell_answered type payload answer sv :
  payload_fits payload -> string_wire (sp_detail answer) ->
  (forall channel q, replies (dispatch mo kind identity (mkMessage type q payload))
     (mkConn (note_message (server cl)) channel) MessageType.StatusResponse
     (encode_payload encode_StatusPayload answer) sv) ->
  exists cl', CoordinatorClient.tell type payload cl = (read_status answer, cl') /\
    after_call kind identity moments cl sv cl'.
Proof.
  intros Hp Hw Hr.
  destruct (round_trip_answered type payload _ _ sv MessageType.StatusResponse Hp
              (status_fits _ Hw) Hr) as (cl' & q & Hafter & E).
  exists cl'. split; [|done]. unfold CoordinatorClient.tell, CoordinatorClient.command. rewrite E.
  rewrite (bool_decide_eq_true_2 (MessageType.StatusResponse = MessageType.StatusResponse) eq_refl).
  cbn [andb negb msg_payload].
  destruct Hafter as (_ & _ & _ & -> & _). rewrite (status_read _ _ Hw). unfold read_status.
  by destruct (bool_decide (sp_code answer = ErrorCode.Ok)); cbn.
Qed.

(** The answer to a query or a submission: the expected message, or a status. *)
Lemma ask_answered {A} type payload expected (enc : A -> Enc) dec initial value sv :
  expected <> MessageType.StatusResponse -> payload_fits payload ->
  payload_fits (encode_payload enc value) ->
  decode_payload dec initial (encode_payload enc value) (CoordinatorClient.limits_ cl) = Val value ->
  (forall channel q, replies (dispatch mo kind identity (mkMessage type q payload))
     (mkConn (note_message (server cl)) channel) expected (encode_payload enc value) sv) ->
  exists cl', CoordinatorClient.ask type payload expected dec initial cl = (Val value, cl') /\
    after_call kind identity moments cl sv cl'.
Proof.
  intros Hne Hp Hf Hd Hr.
  destruct (round_trip_answered type payload _ _ sv expected Hp Hf Hr) as (cl' & q & Hafter & E).
  exists cl'. split; [|done]. unfold CoordinatorClient.ask. rewrite E.
  rewrite (bool_decide_eq_false_2 _ Hne), (bool_decide_eq_true_2 (expected = expected)) by done.
  cbn [andb negb msg_payload]. destruct Hafter as (_ & _ & _ & -> & _). by rewrite Hd.
Qed.
Lemma ask_refused {A} type payload expected (dec : A -> Dec A) initial answer sv :
  expected <> MessageType.StatusResponse -> payload_fits payload -> string_wire (sp_detail answer) ->
  (forall channel q, replies (dispatch mo kind identity (mkMessage type q payload))
     (mkConn (note_message (server cl)) channel) MessageType.StatusResponse
     (encode_payload encode_StatusPayload answer) sv) ->
  exists cl', CoordinatorClient.ask type payload expected dec initial cl =
      (Err (Status_error (sp_code answer) (sp_detail answer)), cl') /\
    after_call kind identity moments cl sv cl'.
Proof.
  intros Hne Hp Hw Hr.
  destruct (round_trip_answered type payload _ _ sv expected Hp (status_fits _ Hw) Hr)
    as (cl' & q & Hafter & E).
  exists cl'. split; [|done]. unfold CoordinatorClient.ask. rewrite E.
  rewrite (bool_decide_eq_true_2 (MessageType.StatusResponse = MessageType.StatusResponse) eq_refl), (bool_decide_eq_false_2 _ Hne) by done.
  cbn [andb negb]. unfold CoordinatorClient.status_error. by rewrite (status_read _ _ Hw).
Qed.
End call.

(** ** The operations behind the commands *)

Definition refusal (status : Status) (reason : ReasonCode) : StatusPayload :=
  mkStatusPayload (st_code status) reason (st_detail status).

(** A status command as a local operation: the engine's operation, then the
    durability point, with the answer that tells how far it got. *)
Definition local_command (mo : Moment) (label : string) (op : Engine -> Status * Engine) (sv : Server)
  : StatusPayload * Server :=
  let '(status, e) := op (srv_engine sv) in
  let sv := sv <| srv_engine := e |> in
  if negb (Status_ok status) then
    (refusal status (reason_for_fence_code (st_code status)), note_protocol_error sv)
  else
    let '(durable, sv) := service_persist mo label sv in
    if negb (Status_ok durable) then (refusal durable ReasonCode.Internal, note_protocol_error sv)
    else (mkStatusPayload ErrorCode.Ok ReasonCode.Admitted_ (label +:+ " accepted"), sv).

Lemma command_replies {T} (dec : T -> Dec T) initial message (r : T) k op mo label sv channel answer sv' :
  decode_payload dec initial (msg_payload message) (cc_limits (srv_config sv)) = Val r ->
  k r = with_engine op (finish_command mo label) -> local_command mo label op sv = (answer, sv') ->
  replies (with_request dec initial message k) (mkConn sv channel) MessageType.StatusResponse
    (encode_payload encode_StatusPayload answer) sv'.
Proof.
  intros Hd Hk. unfold local_command, replies, with_request. cbn [cn_server]. rewrite Hd, Hk.
  unfold with_engine, finish_command. cbn [cn_server].
  destruct (op (srv_engine sv)) as [status e]. destruct (Status_ok status); cbn [negb].
  - unfold with_durable, with_server. cbn [cn_server].
    destruct (service_persist _ _ _) as [durable sv1]. by destruct (Status_ok durable); intros [= <- <-].
  - by intros [= <- <-].
Qed.

(** An admission: the engine's decision, then the durability point. *)
Definition local_decision (mo : Moment) (label : string)
    (op : Engine -> Result AdmissionDecision * Engine) (sv : Server)
  : (AdmissionDecision + StatusPayload) * Server :=
  let '(decision, e) := op (srv_engine sv) in
  let sv := sv <| srv_engine := e |> in
  match decision with
  | Err status => (inr (refusal status (reason_for_fence_code (st_code status))), note_protocol_error sv)
  | Val decision =>
      let '(durable, sv) := service_persist mo label sv in
      if negb (Status_ok durable) then
        (inr (refusal durable ReasonCode.Internal), note_protocol_error sv)
      else (inl decision, sv)
  end.

Lemma decision_replies {T} (dec : T -> Dec T) initial message (r : T) k op mo label sv channel answer sv' :
  decode_payload dec initial (msg_payload message) (cc_limits (srv_config sv)) = Val r ->
  k r = with_engine op (finish_decision mo label) -> local_decision mo label op sv = (answer, sv') ->
  let h := with_request dec initial message k in
  match answer with
  | inl d => replies h (mkConn sv channel) MessageType.DecisionResponse
               (encode_payload encode_AdmissionDecision d) sv'
  | inr p => replies h (mkConn sv channel) MessageType.StatusResponse
               (encode_payload encode_StatusPayload p) sv'
  end.
Proof.
  intros Hd Hk. cbn zeta. unfold local_decision, replies, with_request. cbn [cn_server]. rewrite Hd, Hk.
  unfold with_engine, finish_decision. cbn [cn_server].
  destruct (op (srv_engine sv)) as [[d|status] e].
  - unfold with_durable, with_server. cbn [cn_server].
    destruct (service_persist _ _ _) as [durable sv1]. by destruct (Status_ok durable); intros [= <- <-].
  - by intros [= <- <-].
Qed.

(** ** The commands *)

(** The calls of the client whose answer is a status. *)
Inductive StatusCommand :=
| ReportSourceComplete (evidence : SourceCompleteEvidence) (fence : CommandFence)
| ReportTransfer (evidence : TransferEvidence) (fence : CommandFence)
| ReportVerification (evidence : VerificationEvidence) (fence : CommandFence)
| ReportAmbiguous (request : AmbiguityRequest)
| CancelSession (session : SessionId) (fence : CommandFence) (reason : ReasonCode) (detail : string)
| PauseSession (session : SessionId) (fence : CommandFence) (reason : string)
| ResumeSession (session : SessionId) (fence : CommandFence)
| RecordDurability (session : SessionId) (assertion : DurabilityAssertion) (fence : CommandFence).

Definition remote_command (x : StatusCommand) : Remote -> Status * Remote :=
  match x with
  | ReportSourceComplete evidence fence => CoordinatorClient.report_source_complete evidence fence
  | ReportTransfer evidence fence => CoordinatorClient.report_transfer evidence fence
  | ReportVerification evidence fence => CoordinatorClient.report_verification evidence fence
  | ReportAmbiguous request => CoordinatorClient.report_ambiguous request
  | CancelSession session fence reason detail =>
      CoordinatorClient.cancel_session session fence reason detail
  | PauseSession session fence reason => CoordinatorClient.pause_session session fence reason
  | ResumeSession session fence => CoordinatorClient.resume_session session fence
  | RecordDurability session assertion fence =>
      CoordinatorClient.record_durability session assertion fence
  end.

(** The same command on the engine; a sink's evidence carries the identity of its
    connection, whatever the sink wrote. *)
Definition engine_command (identity : string) (now : Nanos) (x : StatusCommand)
  : Engine -> Status * Engine :=
  match x with
  | ReportSourceComplete evidence fence => report_source_complete evidence fence now
  | ReportTransfer evidence fence => report_transfer evidence fence now
  | ReportVerification evidence fence =>
      report_verification (evidence <| vev_verifier_identity := identity |>) fence now
  | ReportAmbiguous r => report_ambiguous (ar_session r) (ar_attempt r) (ar_sequence r) (ar_cause r)
                           (ar_fence r) now
  | CancelSession session fence reason detail => cancel_session session fence reason detail now
  | PauseSession session fence reason => pause_session session fence reason now
  | ResumeSession session fence => resume_session session fence now
  | RecordDurability session assertion fence => record_durability_assertion session assertion fence now
  end.
Definition command_label (x : StatusCommand) : string :=
  match x with
  | ReportSourceComplete _ _ => "source-complete"
  | ReportTransfer _ _ => "transfer-evidence"
  | ReportVerification _ _ => "verification-evidence"
  | ReportAmbiguous _ => "ambiguity"
  | CancelSession _ _ _ _ => "cancel"
  | PauseSession _ _ _ => "pause"
  | ResumeSession _ _ => "resume"
  | RecordDurability _ _ _ => "durability-assertion"
  end.

(** The request, within the service's limits and in one frame. *)
Definition command_wire (lim : Limits) (x : StatusCommand) : Prop :=
  match x with
  | ReportSourceComplete evidence fence =>
      let r := mkSourceCompleteRequest evidence fence in
      SourceCompleteRequest_wire lim r /\ payload_fits (encode_payload encode_SourceCompleteRequest r)
  | ReportTransfer evidence fence =>
      let r := mkTransferReport evidence fence in
      TransferReport_wire lim r /\ payload_fits (encode_payload encode_TransferReport r)
  | ReportVerification evidence fence =>
      let r := mkVerificationReport evidence fence in
      VerificationReport_wire lim r /\ payload_fits (encode_payload encode_VerificationReport r)
  | ReportAmbiguous r =>
      AmbiguityRequest_wire lim r /\ payload_fits (encode_payload encode_AmbiguityRequest r)
  | CancelSession session fence reason detail =>
      let r := mkCancelRequest session fence reason detail in
      CancelRequest_wire lim r /\ payload_fits (encode_payload encode_CancelRequest r)
  | PauseSession session fence reason =>
      let r := mkPauseRequest session fence reason in
      PauseRequest_wire lim r /\ payload_fits (encode_payload encode_PauseRequest r)
  | ResumeSession session fence =>
      let r := mkResumeRequest session fence in
      ResumeRequest_wire lim r /\ payload_fits (encode_payload encode_ResumeRequest r)
  | RecordDurability session assertion fence =>
      let r := mkDurabilityRequest session assertion fence in
      DurabilityRequest_wire lim r /\ payload_fits (encode_payload encode_DurabilityRequest r)
  end.

Lemma command_answered kind identity mo moments (cl : Remote) (x : StatusCommand) :
  connected kind identity (mo :: moments) cl -> room 1 (channel_of cl) -> srv_stop (server cl) = false ->
  command_wire (cc_limits (srv_config (server cl))) x ->
  (match x with ReportVerification _ _ => kind = ClientKind.Sink | _ => True end) ->
  let '(answer, sv) := local_command mo (command_label x) (engine_command identity (mo_now mo) x)
                         (note_message (server cl)) in
  string_wire (sp_detail answer) ->
  exists cl', remote_command x cl = (read_status answer, cl') /\
    after_call kind identity moments cl sv cl'.
Proof.
  intros Hcon Hroom Hlive Hw Hk. destruct (local_command _ _ _ _) as [answer sv] eqn:E. intros Ha.
  destruct x; destruct Hw as [Hw Hf];
    (eapply tell_answered; [exact Hcon|exact Hroom|exact Hlive|exact Hf|exact Ha|]);
    intros channel q; cbn [dispatch msg_type];
    (eapply command_replies; [apply coded_payload; eauto with codec| |exact E]); try done.
  cbn beta. by rewrite (bool_decide_eq_true_2 _ Hk).
Qed.

(** C19: a remote command is the engine's operation: over a live connection, a
    command within the service's limits runs the engine's operation exactly once
    at the service's time; the client reports success exactly when the engine
    accepted it and the new state reached the durability point, and otherwise the
    very code and detail the engine or the store gave; the service is left in the
    state the local operation leaves it in, and the connection stays in step.
    Verification evidence needs a sink's connection, and the detail of the answer
    must be a string the protocol carries. *)
Theorem remote_command_refines kind identity mo moments (cl : Remote) (x : StatusCommand) :
  connected kind identity (mo :: moments) cl -> room 1 (channel_of cl) -> srv_stop (server cl) = false ->
  command_wire (cc_limits (srv_config (server cl))) x ->
  (match x with ReportVerification _ _ => kind = ClientKind.Sink | _ => True end) ->
  let '(answer, sv) := local_command mo (command_label x) (engine_command identity (mo_now mo) x)
                         (note_message (server cl)) in
  string_wire (sp_detail answer) ->
  exists cl', remote_command x cl = (read_status answer, cl') /\
    after_call kind identity moments cl sv cl'.
Proof. exact (command_answered kind identity mo moments cl x). Qed.

(** What the client makes of an answer to a submission. *)
Definition read_decision (answer : AdmissionDecision + StatusPayload) : Result AdmissionDecision :=
  match answer with
  | inl d => Val d
  | inr p => Err (Status_error (sp_code p) (sp_detail p))
  end.
(** The answer fits a frame and the client's limits. *)
Definition decision_wire (lim : Limits) (answer : AdmissionDecision + StatusPayload) : Prop :=
  match answer with
  | inl d => AdmissionDecision_wire lim d /\ payload_fits (encode_payload encode_AdmissionDecision d)
  | inr p => string_wire (sp_detail p)
  end.

(** C20: a remote submission is the engine's admission: over a live connection the
    client receives the very decision the engine took on its request, and only
    once the admitted state is durable; when the engine refuses the command or
    the state cannot be made durable it receives that error instead.  The decision
    must be one the protocol carries within the client's limits ([decision_wire]). *)
Theorem remote_submit_refines kind identity mo moments (cl : Remote) request fence :
  let r := mkSubmitRequest request fence in
  connected kind identity (mo :: moments) cl -> room 1 (channel_of cl) -> srv_stop (server cl) = false ->
  SubmitRequest_wire (cc_limits (srv_config (server cl))) r ->
  payload_fits (encode_payload encode_SubmitRequest r) ->
  let '(answer, sv) := local_decision mo "submit-session" (submit_session request fence (mo_now mo))
                         (note_message (server cl)) in
  decision_wire (CoordinatorClient.limits_ cl) answer ->
  exists cl', CoordinatorClient.submit_session request fence cl = (read_decision answer, cl') /\
    after_call kind identity moments cl sv cl'.
Proof.
  cbn zeta. intros Hcon Hroom Hlive Hw Hf.
  destruct (local_decision _ _ _ _) as [answer sv] eqn:E. intros Ha.
  assert (forall channel q, match answer with
    | inl d => replies (dispatch mo kind identity (mkMessage MessageType.SubmitSession q
        (encode_payload encode_SubmitRequest (mkSubmitRequest request fence))))
        (mkConn (note_message (server cl)) channel) MessageType.DecisionResponse
        (encode_payload encode_AdmissionDecision d) sv
    | inr p => replies (dispatch mo kind identity (mkMessage MessageType.SubmitSession q
        (encode_payload encode_SubmitRequest (mkSubmitRequest request fence))))
        (mkConn (note_message (server cl)) channel) MessageType.StatusResponse
        (encode_payload encode_StatusPayload p) sv
    end) as Hr.
  { intros channel q. cbn [dispatch msg_type].
    eapply decision_replies; [apply coded_payload; eauto with codec|done|exact E]. }
  destruct answer as [d|p].
  - destruct Ha as [Hd Hfd].
    eapply ask_answered; [exact Hcon|exact Hroom|exact Hlive|done|exact Hf|exact Hfd| |exact Hr].
    apply coded_payload. eauto with codec.
  - eapply ask_refused; [exact Hcon|exact Hroom|exact Hlive|done|exact Hf|exact Ha|exact Hr].
Qed.

(** ** The handshake *)

(** A connection as the service accepts it, before anything was sent. *)
Definition fresh (sv : Server) (moments : list Moment) : Served :=
  mkServed (mkConn sv (channel_open (mkPipe [] []))) None moments 0 [].

(** Contracts are filed under their workload. *)
Definition contracts_keyed (e : Engine) : Prop :=
  forall w c, contracts_ e !! w = Some c -> wc_workload c = w.

Lemma elem_of_insert_contract x y l : y ∈ insert_contract x l <-> y = x \/ y ∈ l.
Proof.
  induction l as [|z l IH]; cbn [insert_contract]; [set_solver|].
  destruct (id_ltb _ _); rewrite !elem_of_cons, ?IH; tauto || set_solver.
Qed.
Lemma elem_of_engine_contracts e c : c ∈ engine_contracts e <-> exists w, contracts_ e !! w = Some c.
Proof.
  unfold engine_contracts.
  assert (forall l, c ∈ foldr insert_contract [] l <-> c ∈ l) as Hl.
  { induction l as [|x l IH]; cbn [foldr]; [done|]. rewrite elem_of_insert_contract, IH, elem_of_cons. done. }
  rewrite Hl. change (map snd ?l) with (l.*2). rewrite list_elem_of_fmap. split.
  - intros ([w c'] & -> & H). exists w. by apply elem_of_map_to_list.
  - intros [w H]. exists (w, c). split; [done|]. by apply elem_of_map_to_list.
Qed.

(** The generation the hello gives for a workload is the active contract's. *)
Lemma hello_generation e w : contracts_keyed e ->
  match find (fun record => bool_decide (fst record = w))
          (map (fun c => (wc_workload c, wc_generation c)) (engine_contracts e)) with
  | Some record => snd record
  | None => mkGen 0
  end = match contracts_ e !! w with None => mkGen 0 | Some c => wc_generation c end.
Proof.
  intros Hk. destruct (find _ _) as [record|] eqn:F.
  - apply find_some in F as [F E]. apply bool_decide_eq_true in E.
    apply in_map_iff in F as (c & <- & F). apply list_elem_of_In, elem_of_engine_contracts in F as [w' F].
    cbn in *. rewrite <- (Hk _ _ F), E in F. by rewrite F.
  - destruct (contracts_ e !! w) as [c|] eqn:L; [|done].
    assert (c ∈ engine_contracts e) as Hc by (apply elem_of_engine_contracts; eauto).
    eapply find_none in F; [|apply in_map, list_elem_of_In, Hc].
    apply bool_decide_eq_false in F. by destruct F; apply Hk.
Qed.

Definition hello_wire (lim : Limits) (sv : Server) : Prop :=
  HelloResponse_wire lim (hello_response sv) /\
  payload_fits (encode_payload encode_HelloResponse (hello_response sv)).

Lemma handshake_answers sv moments kind identity :
  let request := mkHelloRequest kind identity in
  let sv' := note_message sv in
  HelloRequest_wire (cc_limits (srv_config sv)) request -> identity <> ""%string ->
  payload_fits (encode_payload encode_HelloResponse (hello_response sv')) ->
  step_answers (channel_open (fresh sv moments)) MessageType.HelloRequest
    (encode_payload encode_HelloRequest request) MessageType.HelloResponse
    (encode_payload encode_HelloResponse (hello_response sv')) sv' (Some (kind, identity)) moments.
Proof.
  cbn zeta. intros Hw Hne Hp f h Hd Ht Hn. cbn [ch_socket channel_open fresh sd_conn sd_peer sd_moments].
  set (c := deliver f _). destruct (receive_frame f _ h MessageType.HelloRequest (cn_channel c) [] Hd)
    as (s1 & Hrec & Hi1); [cbn; by rewrite !app_nil_r|by rewrite Ht|by intros ?|].
  pose proof (receive_written (cn_channel c)) as Hwr. rewrite Hrec in Hwr. cbn in Hwr, Hi1.
  set (ch1 := mkChannel s1 _ _ _) in *.
  destruct (send_writes MessageType.HelloResponse
    (encode_payload encode_HelloResponse (hello_response (note_message sv))) ch1)
    as (f' & h' & Hd' & Ht' & Hs' & Hsend); [cbn; lia..|done|].
  exists (mkPipe (pipe_chunks s1) (pipe_written s1 ++ f')), f', h'.
  split_and!; [done..| |exact Hi1|cbn; by rewrite Hwr|].
  - by rewrite Hs'.
  - cbn [service_step]. unfold handshake. rewrite Hrec. cbn [msg_type msg_payload cn_server].
    rewrite (bool_decide_eq_true_2 (MessageType.HelloRequest = MessageType.HelloRequest) eq_refl).
    cbn [negb]. rewrite coded_payload with (v := mkHelloRequest kind identity) by (eauto with codec).
    unfold send_payload, with_server. cbn [cn_server cn_channel].
    change (cn_server c) with sv. rewrite Hsend. cbn.
    destruct (String.eqb_spec identity ""); done.
Qed.

Lemma connect_reaches config sv moments :
  let e := srv_engine sv in
  let identity := clc_identity config in
  identity <> ""%string ->
  Z.of_nat (String.length identity) <= lim_max_string_bytes (clc_limits config) ->
  string_wire identity -> hello_wire (clc_limits config) (note_message sv) ->
  0 < gen_value (ep_incarnation (epoch_ e)) -> 0 < gen_value (ep_term (epoch_ e)) ->
  contracts_keyed e ->
  exists cl, CoordinatorClient.connect config (Val (fresh sv moments)) = Val cl /\
    connected (clc_kind config) identity moments cl /\ server cl = note_message sv /\
    (forall n, n < 2 ^ 64 - 1 -> room n (channel_of cl)) /\
    CoordinatorClient.limits_ cl = limits_ e /\
    forall w checkpoint attempt,
      CoordinatorClient.current_fence w checkpoint attempt cl = current_fence e w checkpoint attempt.
Proof.
  cbn zeta. intros Hne Hlen Hw [Hh Hf] Hi Ht Hk.
  assert (in_step (channel_open (fresh sv moments))) as Hidle by (repeat split; try done; cbn; lia).
  assert (room 1 (channel_open (fresh sv moments))) as Hroom by (split; cbn; lia).
  destruct (exchange _ _ _ _ _ _ _ _ Hidle Hroom (hello_request_fits (mkHelloRequest _ _) Hw)
    (handshake_answers sv moments (clc_kind config) (clc_identity config) Hw Hne Hf))
    as (ch1 & ch2 & Hs & Hrec & Hst & Hsv & Hpe & Hmo & Hro).
  unfold CoordinatorClient.connect. rewrite (proj2 (String.eqb_neq _ _) Hne), Z.gtb_ltb.
  rewrite (proj2 (Z.ltb_ge _ _) Hlen). cbn [orb]. rewrite Hs.
  change (Status_ok Status_success) with true. cbn [negb]. rewrite Hrec. cbn [msg_type msg_payload].
  rewrite bool_decide_eq_false_2 by done.
  rewrite (bool_decide_eq_true_2 (MessageType.HelloResponse = MessageType.HelloResponse) eq_refl).
  cbn [negb]. rewrite coded_payload with (v := hello_response (note_message sv)) by (eauto with codec).
  assert (forall g : IncarnationId, 0 < gen_value g -> gen_is_zero g = false) as Z1.
  { intros g Hg. unfold gen_is_zero. apply Z.eqb_neq. lia. }
  assert (forall g : EpochTerm, 0 < gen_value g -> gen_is_zero g = false) as Z2.
  { intros g Hg. unfold gen_is_zero. apply Z.eqb_neq. lia. }
  cbn [hello_response hrs_epoch]. change (srv_engine (note_message sv)) with (srv_engine sv).
  rewrite Z1, Z2 by done. cbn [orb]. eexists. split; [reflexivity|].
  split_and!; [by constructor|done|intros n Hn; apply Hro; split; cbn; lia|done|].
  intros w checkpoint attempt. unfold CoordinatorClient.current_fence, current_fence. cbn.
  by rewrite hello_generation.
Qed.

(** the handshake teaches the client the live authority: connecting to a
    coordinator succeeds, and every fence the client then builds is the fence the
    engine itself would build for that workload, so commands sent before the
    authority changes are not refused as stale. *)
Theorem connect_learns_authority config sv moments :
  let e := srv_engine sv in
  let identity := clc_identity config in
  identity <> ""%string ->
  Z.of_nat (String.length identity) <= lim_max_string_bytes (clc_limits config) ->
  string_wire identity -> hello_wire (clc_limits config) (note_message sv) ->
  0 < gen_value (ep_incarnation (epoch_ e)) -> 0 < gen_value (ep_term (epoch_ e)) ->
  contracts_keyed e ->
  exists cl, CoordinatorClient.connect config (Val (fresh sv moments)) = Val cl /\
    connected (clc_kind config) identity moments cl /\ server cl = note_message sv /\
    (forall n, n < 2 ^ 64 - 1 -> room n (channel_of cl)) /\
    CoordinatorClient.limits_ cl = limits_ e /\
    forall w checkpoint attempt,
      CoordinatorClient.current_fence w checkpoint attempt cl = current_fence e w checkpoint attempt.
Proof. exact (connect_reaches config sv moments). Qed.

(** ** Witnesses *)

(** A sender connected to the coordinator of [ServiceProps]. *)
Definition agent_socket (sv : Server) : Served :=
  mkServed (mkConn sv (channel_open (mkPipe [] []))) (Some (ClientKind.Sender, "agent"%string)) [calm 1] 0 [].
Definition agent_client (sv : Server) : Remote :=
  CoordinatorClient.mk (channel_open (agent_socket sv)) (hello_response sv) "agent" Limits_default.
Lemma agent_connected sv : connected ClientKind.Sender "agent" [calm 1] (agent_client sv).
Proof. constructor; [|done..]. repeat split; try done; cbn; lia. Qed.
Lemma agent_room sv : room 1 (channel_of (agent_client sv)).
Proof. split; cbn; lia. Qed.

Notation submit_request1 := (mkSubmitRequest request1 (fence_now engine1)).
Notation submit_outcome1 :=
  (local_decision (calm 1) "submit-session" (submit_session request1 (fence_now engine1) (mo_now (calm 1)))
     (note_message server1)).
Definition decided (answer : AdmissionDecision + StatusPayload) : option AdmissionDecision :=
  match answer with inl d => Some d | inr _ => None end.
Notation decision1 := (default AdmissionDecision_default (decided submit_outcome1.1)).

Lemma submit_request1_wire : SubmitRequest_wire Limits_default submit_request1.
Proof.
  eapply wire_computed; [apply canon_SubmitRequest with (initial := SubmitRequest_default)|..];
    vm_compute; reflexivity.
Qed.
Lemma submit_request1_fits :
  (Z.of_nat (length (encode_payload encode_SubmitRequest submit_request1)) <=? kMaxPayloadBytes) = true.
Proof. vm_compute. reflexivity. Qed.
Lemma decision1_wire : AdmissionDecision_wire Limits_default decision1.
Proof.
  eapply wire_computed; [apply canon_AdmissionDecision with (initial := AdmissionDecision_default)|..];
    vm_compute; reflexivity.
Qed.
Lemma decision1_fits :
  (Z.of_nat (length (encode_payload encode_AdmissionDecision decision1)) <=? kMaxPayloadBytes) = true.
Proof. vm_compute. reflexivity. Qed.
Lemma decision1_reached : (if decided submit_outcome1.1 then true else false) = true.
Proof. vm_compute. reflexivity. Qed.
Lemma outcome1_wire : decision_wire Limits_default submit_outcome1.1.
Proof.
  pose proof decision1_wire as Hw. pose proof decision1_fits as Hf. pose proof decision1_reached as Hr.
  revert Hw Hf Hr. generalize submit_outcome1.1. intros [d|p]; cbn [decided default from_option id].
  - intros Hw Hf _. split; [exact Hw|apply Z.leb_le, Hf].
  - intros _ _ Hr. discriminate Hr.
Qed.

Lemma remote_submit_refines_witness :
  exists answer cl', CoordinatorClient.submit_session request1 (fence_now engine1) (agent_client server1) =
      (read_decision answer, cl') /\ decision_wire Limits_default answer.
Proof.
  pose proof (remote_submit_refines ClientKind.Sender "agent" (calm 1) [] (agent_client server1)
    request1 (fence_now engine1) (agent_connected server1) (agent_room server1) eq_refl
    submit_request1_wire (proj1 (Z.leb_le _ _) submit_request1_fits)) as H.
  pose proof outcome1_wire as Hw. change (server (agent_client server1)) with server1 in H.
  destruct submit_outcome1 as [answer sv]. destruct (H Hw) as (cl' & E & _).
  exists answer, cl'. split; [exact E|exact Hw].
Defined.

Notation pause1 := (PauseSession S1 (fence_now admitted1) "maintenance").
Definition server2 : Server := server1 <| srv_engine := admitted1 |>.
Notation pause_outcome1 :=
  (local_command (calm 1) (command_label pause1) (engine_command "agent" (mo_now (calm 1)) pause1)
     (note_message server2)).
Lemma pause1_wire : command_wire Limits_default pause1.
Proof.
  split; [|apply Z.leb_le; vm_compute; reflexivity].
  eapply wire_computed; [apply canon_PauseRequest with (initial := PauseRequest_default)|..];
    vm_compute; reflexivity.
Qed.
Lemma pause_answer_wire : string_wire (sp_detail pause_outcome1.1).
Proof.
  split; [|vm_compute; reflexivity]. apply Z.leb_le. vm_compute. reflexivity.
Qed.

Lemma remote_command_refines_witness :
  exists answer cl', remote_command pause1 (agent_client server2) = (read_status answer, cl') /\
    string_wire (sp_detail answer).
Proof.
  pose proof (remote_command_refines ClientKind.Sender "agent" (calm 1) [] (agent_client server2) pause1
    (agent_connected server2) (agent_room server2) eq_refl pause1_wire I) as H.
  pose proof pause_answer_wire as Hw. change (server (agent_client server2)) with server2 in H.
  destruct pause_outcome1 as [answer sv]. destruct (H Hw) as (cl' & E & _).
  exists answer, cl'. split; [exact E|exact Hw].
Defined.

Definition agent_config : ClientConfig :=
  mkClientConfig "127.0.0.1" 4100 ClientKind.Sender "agent" Limits_default.
Lemma server1_hello : hello_wire Limits_default (note_message server1).
Proof.
  split; [|apply Z.leb_le; vm_compute; reflexivity].
  eapply wire_computed; [apply canon_HelloResponse with (initial := HelloResponse_default)|..];
    vm_compute; reflexivity.
Qed.
Lemma engine1_keyed : contracts_keyed engine1.
Proof.
  intros w c H. apply elem_of_map_to_list in H.
  assert (map_to_list (contracts_ engine1) = [(W1, contract1)]) as E by (vm_compute; reflexivity).
  rewrite E in H. apply list_elem_of_singleton in H. by injection H as -> ->.
Qed.
Lemma engine1_epoch : (0 <? gen_value (ep_incarnation (epoch_ engine1))) &&
  (0 <? gen_value (ep_term (epoch_ engine1))) = true.
Proof. vm_compute. reflexivity. Qed.

Lemma connect_learns_authority_witness :
  exists cl, CoordinatorClient.connect agent_config (Val (fresh server1 [])) = Val cl /\
    CoordinatorClient.current_fence W1 None None cl = fence_now engine1.
Proof.
  pose proof engine1_epoch as He. apply andb_true_iff in He as [H1 H2].
  destruct (connect_learns_authority agent_config server1 []) as (cl & Hc & _ & _ & _ & _ & Hf);
    [discriminate|cbn; lia|split; [apply Z.leb_le; vm_compute; reflexivity|vm_compute; reflexivity]
    |exact server1_hello|apply Z.ltb_lt, H1|apply Z.ltb_lt, H2|exact engine1_keyed|].
  exists cl. split; [exact Hc|apply Hf].
Defined.
