(* ===== verification/SenderProps.v ===== *)
(** * SenderProps: the sender finishes, and success means delivered

    Over sockets that deliver bytes, [CheckpointSender::run] makes at most as many
    iterations as its configuration bounds, and it exits with code 0 only after an
    exchange in which every byte of every shard was sent under a grant,
    acknowledged by the sink and accepted as evidence by the coordinator. *)

From stdpp Require Import base gmap list strings.
From Stdlib Require Import ZArith Lia.
From S2P Require Import Prelude Status Ids Bytes Hash Enums Model Fence Shaper.
From S2P Require Import EngineState EngineAuthority EngineAdmission EngineLifecycle EngineEvidence.
From S2P Require Import EngineInspect Wire Codec WireTheory WireCanon CodecProps CodecCanon FrameProps.
From S2P Require Import Protocol ProtocolCodec ChannelProps Client Content Sender.

(** A socket delivers bytes. *)
Class ByteLaws (S : Type) `{ByteStream S} := {
  stream_read_bytes n s chunk s' : stream_read n s = (Val chunk, s') -> Forall byte_ok chunk
}.

Section bytes.
Context {S : Type} `{ByteLaws S}.

Lemma read_exactly_bytes fuel size buffer (s : S) data s' : Forall byte_ok buffer ->
  read_exactly fuel size buffer s = (Val data, s') -> Forall byte_ok data.
Proof.
  revert buffer s. induction fuel as [|fuel IH]; intros buffer s Hb; cbn [read_exactly];
    destruct (Nat.ltb _ _); try done; try (by intros [= <- <-]).
  destruct (stream_read _ s) as [[chunk|status] s1] eqn:E; [|done].
  apply stream_read_bytes in E. destruct chunk as [|b chunk]; [done|].
  apply IH. by apply Forall_app.
Qed.

Lemma receive_bytes (c : MessageChannel S) m c' :
  receive c = (Val m, c') -> Forall byte_ok (msg_payload m).
Proof.
  unfold receive. destruct (read_frame (ch_socket c)) as [[f|status] s] eqn:R; [|done].
  assert (Forall byte_ok f) as Hf.
  { revert R. unfold read_frame.
    destruct (read_exactly _ _ _ (ch_socket c)) as [[header|status] s1] eqn:E1; [|done].
    apply read_exactly_bytes in E1; [|constructor].
    destruct (negb _); [done|]. destruct (_ >? kMaxPayloadBytes); [done|].
    destruct (_ >? 0); [|by intros [= <- <-]].
    destruct (read_exactly _ _ _ s1) as [[body|status] s2] eqn:E2; [|done].
    apply read_exactly_bytes in E2; [|constructor]. intros [= <- <-]. by apply Forall_app. }
  unfold accept_frame. destruct (decode_frame f) as [[payload h]|] eqn:D; [|done].
  destruct (MessageType.of_value _); [|done]. destruct (_ && _); [done|]. intros [= <- <-]. cbn.
  apply decode_frame_checked in D as (_ & _ & _ & -> & _). by apply Forall_drop.
Qed.

Lemma round_trip_bytes type payload expected (c : CoordinatorClient.t S) m c' :
  CoordinatorClient.round_trip type payload expected c = (Val m, c') -> Forall byte_ok (msg_payload m).
Proof.
  unfold CoordinatorClient.round_trip. destruct (send _ _ _) as [sent ch]. destruct (negb _); [done|].
  destruct (receive _) as [[response|status] ch'] eqn:E; [|done]. apply receive_bytes in E.
  destruct (_ && _); [done|]. destruct (negb _); [done|]. by intros [= <- <-].
Qed.

(** What the client decodes obeys the codec's bounds. *)
Lemma ask_wire {A} (W : Limits -> A -> Prop) (enc : A -> Enc) type payload expected dec initial
    (c : CoordinatorClient.t S) v c' :
  (forall lim, canon lim (W lim) enc (dec initial)) ->
  CoordinatorClient.ask type payload expected dec initial c = (Val v, c') ->
  W (CoordinatorClient.limits_ c') v.
Proof.
  intros Hc. unfold CoordinatorClient.ask.
  destruct (CoordinatorClient.round_trip _ _ _ c) as [[m|status] c1] eqn:E; [|done].
  apply round_trip_bytes in E. intros [= D <-]. by eapply canon_payload in D as [? _].
Qed.

Lemma grant_bounds session shard fence (c : CoordinatorClient.t S) outcome c' grant :
  CoordinatorClient.request_wave session shard fence c = (Val outcome, c') ->
  wo_grant outcome = Some grant -> 0 <= wg_max_bytes grant < 2 ^ 64.
Proof.
  intros E G. eapply (ask_wire WaveOutcome_wire encode_WaveOutcome) in E; [|intros; apply canon_WaveOutcome].
  destruct E as (_ & E & _). rewrite G in E. by destruct E as (_ & _ & _ & _ & _ & E & _).
Qed.
End bytes.

(** ** One iteration *)

Section transfer.
Context {S K : Type} `{ByteLaws S} `{ByteStream K}.
Context (config : SenderConfig) (session : SessionId) (fence : CommandFence) (stop_at : nat -> bool).

Notation Tr := (Transfer S K).
Definition bytes_sent (t : Tr) : Z := sr_bytes_sent (tf_result t).
Definition deferred (t : Tr) : Z := sr_deferred_grants (tf_result t).
Definition completed (t : Tr) : Z := sr_shards_completed (tf_result t).
Definition failed (t : Tr) : Prop := sr_exit_code (tf_result t) <> 0.

(** [t'] has sent [n] more bytes than [t]. *)
Definition sent_more (n : Z) (t t' : Tr) : Prop :=
  bytes_sent t' = u64 (bytes_sent t + n) /\ deferred t' = deferred t /\ completed t' = completed t.

Lemma send_chunk_counts shard grant sent data (t : Tr) :
  let '(ok, t') := send_chunk config session fence shard grant sent data t in
  if ok then sent_more (Z.of_nat (length data)) t t' else failed t'.
Proof.
  unfold send_chunk. destruct (send _ _ _) as [status sink]. destruct (negb _); [done|].
  destruct (receive _) as [[m|status'] sink']; [|done]. destruct (negb _); [done|].
  destruct (decode_payload _ _ _ _) as [ack|]; [|done]. destruct (negb _); [done|].
  destruct (CoordinatorClient.report_transfer _ _ _) as [reported client]. by destruct (negb _).
Qed.

Lemma begin_shard_keeps descriptor grant began (t : Tr) :
  tf_result (begin_shard config session descriptor grant began t).2 = tf_result t.
Proof. unfold begin_shard. destruct began; [done|]. by destruct (send _ _ _). Qed.

(** The effect of an iteration on the counters, by how it ends. *)
Definition step_counts (declared sent : Z) (t : Tr) (step : WaveStep) (t' : Tr) : Prop :=
  match step with
  | Again sent' _ =>
      (sent' = sent /\ bytes_sent t' = bytes_sent t /\ completed t' = completed t /\
       deferred t' = u32 (deferred t + 1) /\ deferred t' <= sn_max_credit_wait_iterations config) \/
      (sent < sent' <= declared /\ sent_more (sent' - sent) t t')
  | Leave sent' truncated died =>
      sent <= sent' <= declared /\ sent_more (sent' - sent) t t' /\ (truncated = false -> died = true)
  | Return => failed t'
  | Throw => True
  end.

Lemma sent_more_0 (t t' : Tr) : tf_result t' = tf_result t -> 0 <= bytes_sent t < 2 ^ 64 ->
  sent_more 0 t t'.
Proof.
  intros E Hb. unfold sent_more, bytes_sent, deferred, completed in *.
  by rewrite E, Z.add_0_r, u64_small.
Qed.

Lemma granted_step_counts descriptor drop_after sent began grant (t : Tr) :
  let declared := sd_declared_bytes descriptor in
  0 <= wg_max_bytes grant -> 0 <= sent < declared -> declared < 2 ^ 64 ->
  0 <= bytes_sent t < 2 ^ 64 ->
  let '(step, t') := granted_step config session fence descriptor drop_after sent began grant t in
  step_counts declared sent t step t'.
Proof.
  cbn zeta. intros Hg Hs Hd Hb. unfold granted_step. cbn zeta.
  set (offered := Z.min _ _). set (chunk := if _ && _ then _ else offered).
  assert (0 <= chunk <= sd_declared_bytes descriptor - sent) as Hc.
  { subst chunk. destruct (0 <? drop_after); cbn [andb]; [|lia].
    destruct (Z.ltb_spec drop_after (u64 (sent + offered))) as [L|L]; [|lia].
    rewrite u64_small in L by lia. destruct (Z.ltb_spec sent drop_after); lia. }
  clearbody chunk. destruct (Z.eqb_spec chunk 0) as [E|E].
  { cbn [step_counts]. rewrite Z.sub_diag. split; [lia|]. split; [by apply sent_more_0|done]. }
  set (amount := Z.min chunk kTransferBufferBytes).
  assert (0 < amount <= chunk) as Ha by (unfold amount, kTransferBufferBytes; lia).
  set (data := fill _ _ _).
  assert (Z.of_nat (length data) = amount) as Hlen.
  { unfold data. rewrite fill_content by lia. rewrite content_length. lia. }
  pose proof (begin_shard_keeps descriptor grant began t) as Hk.
  destruct (begin_shard _ _ _ _ _ t) as [begun t1]. cbn in Hk. destruct (negb _); [done|].
  pose proof (send_chunk_counts (sd_index descriptor) grant sent data t1) as Hsc.
  destruct (send_chunk _ _ _ _ _ _ _ t1) as [[|] t2]; [|exact Hsc].
  rewrite Hlen in Hsc. unfold sent_more, bytes_sent, deferred, completed in *. rewrite Hk in Hsc.
  rewrite (u64_small (sent + amount)) by lia.
  destruct (_ && _); cbn; replace (sent + amount - sent) with amount by lia.
  - split; [lia|]. split; [exact Hsc|done].
  - right. split; [lia|exact Hsc].
Qed.

Lemma wave_step_counts descriptor drop_after sent began (t : Tr) :
  let declared := sd_declared_bytes descriptor in
  0 <= sent < declared -> declared < 2 ^ 64 -> 0 <= bytes_sent t < 2 ^ 64 ->
  let '(step, t') := wave_step config session fence stop_at descriptor drop_after sent began t in
  step_counts declared sent t step t'.
Proof.
  cbn zeta. intros Hs Hd Hb. unfold wave_step. destruct (stop_at _); [done|].
  destruct (_ && _).
  { cbn [step_counts]. rewrite Z.sub_diag. split; [lia|]. split; [by apply sent_more_0|done]. }
  destruct (CoordinatorClient.request_wave _ _ _ _) as [[outcome|status] client] eqn:W; [|done].
  destruct (wo_granted outcome); cbn [negb].
  - destruct (wo_grant outcome) as [grant|] eqn:G; [|done].
    pose proof (grant_bounds _ _ _ _ _ _ _ W G).
    apply (granted_step_counts descriptor drop_after sent began grant
             (mkTransfer client (tf_sink t) (tf_result t) (Datatypes.S (tf_polls t))
                (tf_last_attempt t) (tf_last_sequence t)
                (tf_history t ++ [WaveAnswered (sd_index descriptor) outcome]))); [lia|exact Hs|exact Hd|exact Hb].
  - cbn zeta. match goal with |- context [?x <? ?y] => destruct (Z.ltb_spec x y) as [L|L] end; [done|].
    left. cbn in *. done.
Qed.

(** ** What an iteration exchanges *)

Definition history (t : Tr) : list SenderEvent := tf_history t.
Definition shard_content (d : ShardDescriptor) (offset : Z) (n : nat) : list Z :=
  content (content_base (sn_content_seed config) (sd_index d)) offset n.

(** One chunk delivered from offset [sent] on: a grant that covers it, the
    [ShardBegin] if it is the first, the bytes of the shard at that offset, an
    acknowledgement of everything up to their end, and evidence of exactly these
    bytes, accepted. *)
Inductive chunk_delivered (d : ShardDescriptor) (sent : Z) (began : bool) : Z -> list SenderEvent -> Prop :=
| chunk_delivered_intro outcome grant bst size st ack st' :
    let data := shard_content d sent size in
    wo_granted outcome = true -> wo_grant outcome = Some grant ->
    0 < Z.of_nat size <= wg_max_bytes grant -> sent + Z.of_nat size <= sd_declared_bytes d ->
    Status_ok bst = true -> Status_ok st = true -> sap_bytes_received ack = sent + Z.of_nat size ->
    Status_ok st' = true ->
    chunk_delivered d sent began (sent + Z.of_nat size)
      (WaveAnswered (sd_index d) outcome ::
       (if began then [] else [BeginSent (begin_payload config session d grant) bst]) ++
       [ChunkSent (sd_index d) (mkShardDataPayload (wg_attempt grant) (wg_sequence grant) sent data) st;
        ChunkAcked ack;
        TransferReported (mkTransferEvidence session (wg_attempt grant) (wg_sequence grant) (sd_index d)
          (Z.of_nat size) (digest_of data) true 0) st']).
(** The rest of a shard from [sent] on, in chunks, with refusals of credit between
    them. *)
Inductive chunks_delivered (d : ShardDescriptor) : Z -> bool -> list SenderEvent -> Prop :=
| delivered_whole began : chunks_delivered d (sd_declared_bytes d) began []
| delivered_after_wait sent began outcome h :
    wo_granted outcome = false -> chunks_delivered d sent began h ->
    chunks_delivered d sent began (WaveAnswered (sd_index d) outcome :: h)
| delivered_chunk sent began sent' h h' :
    chunk_delivered d sent began sent' h -> chunks_delivered d sent' true h' ->
    chunks_delivered d sent began (h ++ h').
(** The attempt the last evidence names. *)
Definition after_event (last : TransferAttemptId * AttemptSequence) (e : SenderEvent) :=
  match e with TransferReported evidence _ => (tev_attempt evidence, tev_sequence evidence) | _ => last end.
Definition last_reported (h : list SenderEvent) : TransferAttemptId * AttemptSequence :=
  foldl after_event (id_nil, mkGen 0) h.
(** The end of a whole shard: the source's evidence under the last attempt,
    accepted (none when that attempt has the nil identifier), the [ShardEnd] with
    the digest of the shard, and an answer to it. *)
Inductive shard_ended (d : ShardDescriptor) (last : TransferAttemptId * AttemptSequence)
  : list SenderEvent -> Prop :=
| shard_ended_intro st' st message :
    let digest := digest_of (shard_content d 0 (Z.to_nat (sd_declared_bytes d))) in
    Status_ok st' = true -> Status_ok st = true ->
    shard_ended d last
      ((if Uuid128_is_nil (id_value last.1) then []
        else [SourceReported (mkSourceComplete session last.1 last.2 (mkScalar 0) (sd_index d)
                (sd_declared_bytes d) digest 0) st']) ++
       [EndSent (sd_index d) (mkShardEndPayload (sd_declared_bytes d) digest false) st;
                              EndAnswered message]).
Inductive shards_delivered : list ShardDescriptor -> list SenderEvent -> Prop :=
| shards_delivered_nil : shards_delivered [] []
| shards_delivered_cons d shards h1 h2 h3 :
    chunks_delivered d 0 false h1 -> shard_ended d (last_reported h1) h2 -> shards_delivered shards h3 ->
    shards_delivered (d :: shards) (h1 ++ h2 ++ h3).

Definition last_of (t : Tr) : TransferAttemptId * AttemptSequence := (tf_last_attempt t, tf_last_sequence t).

(** The answer of a coordinator that claims to grant and does not. *)
Definition empty_grant (h : list SenderEvent) : Prop :=
  exists shard outcome, WaveAnswered shard outcome ∈ h /\ wo_granted outcome = true /\ wo_grant outcome = None.

Lemma send_chunk_events shard grant sent data (t : Tr) t' :
  send_chunk config session fence shard grant sent data t = (true, t') ->
  exists st ack st', Status_ok st = true /\
    sap_bytes_received ack = u64 (sent + Z.of_nat (length data)) /\ Status_ok st' = true /\
    history t' = history t ++
      [ChunkSent shard (mkShardDataPayload (wg_attempt grant) (wg_sequence grant) sent data) st;
       ChunkAcked ack;
       TransferReported (mkTransferEvidence session (wg_attempt grant) (wg_sequence grant) shard
         (Z.of_nat (length data)) (digest_of data) true 0) st'] /\
    last_of t' = (wg_attempt grant, wg_sequence grant).
Proof.
  unfold send_chunk. destruct (send _ _ _) as [status sink]. destruct (Status_ok status) eqn:Es; [|done]. cbn [negb].
  destruct (receive _) as [[m|status'] sink']; [|done]. destruct (negb _); [done|].
  destruct (decode_payload _ _ _ _) as [ack|]; [|done].
  destruct (Z.eqb_spec (sap_bytes_received ack) (u64 (sent + Z.of_nat (length data)))) as [Ea|]; [|done]. cbn [negb].
  destruct (CoordinatorClient.report_transfer _ _ _) as [reported client].
  destruct (Status_ok reported) eqn:Er; [|done]. intros [= <-]. exists status, ack, reported.
  split_and!; try done. unfold history. cbn. by rewrite <- !app_assoc.
Qed.
Lemma begin_shard_events descriptor grant began (t : Tr) :
  let '(status, t') := begin_shard config session descriptor grant began t in
  exists bst, (Status_ok status = true -> Status_ok bst = true) /\
    history t' = history t ++ if began then [] else [BeginSent (begin_payload config session descriptor grant) bst].
Proof.
  unfold begin_shard. destruct began.
  - exists Status_success. by rewrite app_nil_r.
  - destruct (send _ _ _) as [status sink]. exists status. done.
Qed.

Lemma granted_step_events descriptor drop_after sent began outcome grant (t t0 : Tr) :
  let declared := sd_declared_bytes descriptor in
  wo_granted outcome = true -> wo_grant outcome = Some grant ->
  history t = history t0 ++ [WaveAnswered (sd_index descriptor) outcome] ->
  0 <= wg_max_bytes grant -> 0 <= sent < declared -> declared < 2 ^ 64 ->
  let '(step, t') := granted_step config session fence descriptor drop_after sent began grant t in
  match step with
  | Again sent' began' => began' = true /\
      exists h, history t' = history t0 ++ h /\ chunk_delivered descriptor sent began sent' h /\
        forall last, last_of t' = foldl after_event last h
  | Throw => False
  | Leave _ _ _ | Return => True
  end.
Proof.
  cbn zeta. intros Ho Hw Hh Hg Hs Hd. unfold granted_step. cbn zeta.
  set (offered := Z.min _ _). set (chunk := if _ && _ then _ else offered).
  assert (0 <= chunk <= offered) as Hc.
  { subst chunk. destruct (0 <? drop_after); cbn [andb]; [|lia].
    destruct (Z.ltb_spec drop_after (u64 (sent + offered))) as [L|L]; [|lia].
    rewrite u64_small in L by lia. destruct (Z.ltb_spec sent drop_after); lia. }
  clearbody chunk. destruct (Z.eqb_spec chunk 0) as [E|E]; [done|].
  set (amount := Z.min chunk kTransferBufferBytes).
  assert (0 < amount <= chunk) as Ha by (unfold amount, kTransferBufferBytes; lia).
  rewrite fill_content by lia.
  pose proof (begin_shard_events descriptor grant began t) as Hb.
  destruct (begin_shard _ _ _ _ _ t) as [begun t1]. destruct Hb as (bst & Hbst & Hb).
  destruct (Status_ok begun); [|done]. specialize (Hbst eq_refl). cbn [negb].
  destruct (send_chunk _ _ _ _ _ _ _ t1) as [[|] t2] eqn:Esc; [|done].
  apply send_chunk_events in Esc as (st & ack & st' & S1 & S2 & S3 & S4 & S5). rewrite content_length in *.
  rewrite Z2Nat.id in * by lia. rewrite u64_small in * by lia.
  destruct (_ && _); [done|]. split; [done|].
  eexists. split; [|split; [replace (sent + amount) with (sent + Z.of_nat (Z.to_nat amount)) by lia;
    eapply (chunk_delivered_intro descriptor sent began outcome grant bst (Z.to_nat amount) st ack st'); try done; lia|]].
  - rewrite S4, Hb, Hh. unfold shard_content. rewrite Z2Nat.id by lia. rewrite <- !app_assoc. done.
  - intros last. rewrite S5. cbn. by destruct began.
Qed.

Definition step_events (d : ShardDescriptor) (sent : Z) (began : bool) (t : Tr) (step : WaveStep) (t' : Tr) : Prop :=
  match step with
  | Again sent' began' =>
      exists h, history t' = history t ++ h /\ last_of t' = foldl after_event (last_of t) h /\
        ((sent' = sent /\ began' = began /\ exists outcome, wo_granted outcome = false /\
            h = [WaveAnswered (sd_index d) outcome]) \/
         (began' = true /\ chunk_delivered d sent began sent' h))
  | Throw => empty_grant (history t')
  | Leave _ _ _ | Return => True
  end.

Lemma wave_step_events descriptor drop_after sent began (t : Tr) :
  let declared := sd_declared_bytes descriptor in
  0 <= sent < declared -> declared < 2 ^ 64 ->
  let '(step, t') := wave_step config session fence stop_at descriptor drop_after sent began t in
  step_events descriptor sent began t step t'.
Proof.
  cbn zeta. intros Hs Hd. unfold wave_step. destruct (stop_at _); [done|]. destruct (_ && _); [done|].
  destruct (CoordinatorClient.request_wave _ _ _ _) as [[outcome|status] client] eqn:W; [|done].
  destruct (wo_granted outcome) eqn:Hg; cbn [negb].
  - destruct (wo_grant outcome) as [grant|] eqn:G.
    + pose proof (grant_bounds _ _ _ _ _ _ _ W G).
      match goal with |- context [granted_step _ _ _ _ _ _ _ _ ?t1] =>
        pose proof (granted_step_events descriptor drop_after sent began outcome grant t1 t Hg G eq_refl
          ltac:(lia) Hs Hd) as He; destruct (granted_step _ _ _ _ _ _ _ _ t1) as [step t'] end.
      destruct step; try done. destruct He as (-> & h & Hh & Hc & Hl). exists h. split; [done|]. split; [apply Hl|]. by right.
    + exists (sd_index descriptor), outcome. split_and!; try done. unfold history. cbn.
      apply elem_of_app. right. apply elem_of_cons. by left.
  - cbn zeta. match goal with |- context [?x <? ?y] => destruct (x <? y) end; [done|].
    eexists. split; [reflexivity|]. split; [reflexivity|]. left. split_and!; try done. by exists outcome.
Qed.

(** ** The loops *)

Definition patience : Z := sn_max_credit_wait_iterations config.
Definition counters_ok (t : Tr) : Prop :=
  0 <= bytes_sent t < 2 ^ 64 /\ 0 <= deferred t <= patience.

Definition loop_counts (declared sent : Z) (t : Tr) (step : WaveStep) (t' : Tr) : Prop :=
  match step with
  | Again _ _ => False
  | Leave sent' truncated died =>
      sent <= sent' <= declared /\ counters_ok t' /\
      bytes_sent t' = u64 (bytes_sent t + (sent' - sent)) /\ completed t' = completed t /\
      (truncated = false -> died = false -> sent' = declared)
  | Return => failed t'
  | Throw => True
  end.

Lemma sent_more_trans n m t t1 t' : sent_more n t t1 ->
  bytes_sent t' = u64 (bytes_sent t1 + m) -> bytes_sent t' = u64 (bytes_sent t + (n + m)).
Proof.
  intros [-> _] ->. unfold u64. by rewrite Zplus_mod_idemp_l, Z.add_assoc.
Qed.

Lemma credit_loop_counts fuel descriptor drop_after sent began (t : Tr) step t' :
  let declared := sd_declared_bytes descriptor in
  0 <= sent <= declared -> declared < 2 ^ 64 -> counters_ok t -> patience < 2 ^ 32 - 1 ->
  credit_loop config session fence stop_at fuel descriptor drop_after sent began t = Some (step, t') ->
  loop_counts declared sent t step t'.
Proof.
  cbn zeta. intros Hs Hd Hc Hp. revert sent began t Hs Hc.
  induction fuel as [|fuel IH]; intros sent began t Hs [Hb Hdef]; cbn [credit_loop];
    destruct (Z.ltb_spec sent (sd_declared_bytes descriptor)) as [L|L]; try done.
  1,3: intros [= <- <-]; cbn; rewrite Z.sub_diag, Z.add_0_r, u64_small by done;
    split_and!; try done; lia.
  pose proof (wave_step_counts descriptor drop_after sent began t ltac:(lia) Hd Hb) as Hw.
  destruct (wave_step _ _ _ _ _ _ _ _ t) as [[sent1 began1|sent1 tr1 di1| |] t1]; cbn in Hw.
  - intros E. destruct Hw as [(-> & E1 & E2 & E3 & E4)|(Hs1 & Hm)].
    + rewrite u32_small in E3 by (unfold patience in *; lia).
      apply IH in E; [|lia|unfold counters_ok; rewrite E1; unfold patience in *; lia].
      destruct step; cbn in *; try done. by rewrite <- E1, <- E2.
    + pose proof Hm as (M1 & M2 & M3). assert (counters_ok t1) as Hc1.
      { split; [rewrite M1; apply u64_range|by rewrite M2]. }
      apply IH in E; [|lia|done]. destruct step as [|sent' tr di| |]; cbn in *; try done.
      destruct E as (R & C & B & P & F). rewrite M3 in P. split_and!; try done; try lia; try apply C.
      rewrite (sent_more_trans _ _ _ _ _ Hm B). f_equal. lia.
  - intros [= <- <-]. destruct Hw as (R & (M1 & M2 & M3) & F). cbn.
    split; [lia|]. split; [split; [rewrite M1; apply u64_range|by rewrite M2]|].
    split; [done|]. split; [done|]. intros Ht Hdi. specialize (F Ht). congruence.
  - by intros [= <- <-].
  - by intros [= <- <-].
Qed.

(** Every iteration sends a byte or uses up some patience. *)
Lemma credit_loop_returns fuel descriptor drop_after sent began (t : Tr) :
  let declared := sd_declared_bytes descriptor in
  0 <= sent <= declared -> declared < 2 ^ 64 -> counters_ok t -> patience < 2 ^ 32 - 1 ->
  declared - sent + (patience - deferred t) < Z.of_nat fuel ->
  is_Some (credit_loop config session fence stop_at fuel descriptor drop_after sent began t).
Proof.
  cbn zeta. intros Hs Hd Hc Hp. revert sent began t Hs Hc.
  induction fuel as [|fuel IH]; intros sent began t Hs [Hb Hdef] Hf; cbn [credit_loop]; [lia|].
  destruct (Z.ltb_spec sent (sd_declared_bytes descriptor)) as [L|L]; [|done].
  pose proof (wave_step_counts descriptor drop_after sent began t ltac:(lia) Hd Hb) as Hw.
  destruct (wave_step _ _ _ _ _ _ _ _ t) as [[sent1 began1|sent1 tr1 di1| |] t1]; try done. cbn in Hw.
  destruct Hw as [(-> & E1 & E2 & E3 & E4)|(Hs1 & M1 & M2 & M3)].
  - rewrite u32_small in E3 by (unfold patience in *; lia). apply IH; [lia| |lia].
    unfold counters_ok. rewrite E1. unfold patience in *. lia.
  - apply IH; [lia| |lia]. split; [rewrite M1; apply u64_range|by rewrite M2].
Qed.

Lemma chunks_after_wait d sent began outcome h h' : wo_granted outcome = false ->
  h = [WaveAnswered (sd_index d) outcome] -> chunks_delivered d sent began h' ->
  chunks_delivered d sent began (h ++ h').
Proof. intros Hg -> Hc. by constructor. Qed.

Lemma credit_loop_events fuel descriptor drop_after sent began (t : Tr) step t' :
  let declared := sd_declared_bytes descriptor in
  0 <= sent <= declared -> declared < 2 ^ 64 -> 0 <= bytes_sent t < 2 ^ 64 ->
  credit_loop config session fence stop_at fuel descriptor drop_after sent began t = Some (step, t') ->
  match step with
  | Leave _ false false => exists h, history t' = history t ++ h /\ chunks_delivered descriptor sent began h /\
      last_of t' = foldl after_event (last_of t) h
  | Throw => empty_grant (history t')
  | _ => True
  end.
Proof.
  cbn zeta. intros Hs Hd. revert sent began t Hs.
  induction fuel as [|fuel IH]; intros sent began t Hs Hb; cbn [credit_loop];
    destruct (Z.ltb_spec sent (sd_declared_bytes descriptor)) as [L|L]; try done.
  1,3: intros [= <- <-]; exists []; rewrite app_nil_r; split; [done|]; split; [|done];
    replace sent with (sd_declared_bytes descriptor) by lia; constructor.
  pose proof (wave_step_counts descriptor drop_after sent began t ltac:(lia) Hd Hb) as Hw.
  pose proof (wave_step_events descriptor drop_after sent began t ltac:(lia) Hd) as He.
  destruct (wave_step _ _ _ _ _ _ _ _ t) as [[sent1 began1|sent1 tr1 di1| |] t1]; cbn in Hw, He.
  - intros E. destruct He as (h & Hh & Hl & He).
    assert (0 <= sent1 <= sd_declared_bytes descriptor /\ 0 <= bytes_sent t1 < 2 ^ 64) as [Hs1 Hb1].
    { destruct Hw as [(-> & E1 & _)|(Hs1 & M1 & _)]; [rewrite E1; lia|]. split; [lia|].
      rewrite M1. apply u64_range. }
    apply IH in E; [|done|done]. destruct step as [|sent' [|] [|]| |]; try done.
    destruct E as (h' & Hh' & Hc & Hl'). exists (h ++ h'). split; [by rewrite Hh', Hh, app_assoc|].
    split; [|by rewrite foldl_app, <- Hl].
    destruct He as [(-> & -> & outcome & Hg & ->)|[-> He]]; [by eapply chunks_after_wait|].
    by eapply delivered_chunk.
  - intros [= <- <-]. destruct Hw as (_ & _ & F). destruct tr1, di1; try done. by specialize (F eq_refl).
  - by intros [= <- <-].
  - by intros [= <- <-].
Qed.

Lemma sent_digest_content base n : 0 <= n < 2 ^ 64 ->
  sent_digest base n = digest_of (content base 0 (Z.to_nat n)).
Proof.
  intros Hn. unfold sent_digest. rewrite digest_loop_content; [by rewrite Z.sub_0_r|done|lia|lia|].
  unfold blocks, kTransferBufferBytes. rewrite Z2Nat.id by (apply Z.div_pos; lia).
  pose proof (Z.mod_pos_bound (n + 128 * 1024 - 1) (128 * 1024) ltac:(lia)).
  pose proof (Z.div_mod (n + 128 * 1024 - 1) (128 * 1024) ltac:(lia)). lia.
Qed.

Lemma end_shard_events descriptor sent shard_truncated (t : Tr) t' :
  0 <= sd_declared_bytes descriptor < 2 ^ 64 -> 0 <= sent <= sd_declared_bytes descriptor ->
  end_shard config session fence descriptor sent shard_truncated t = (Some false, t') ->
  sent = sd_declared_bytes descriptor /\
  exists h, history t' = history t ++ h /\ shard_ended descriptor (last_of t) h.
Proof.
  intros Hd Hs. unfold end_shard. cbn zeta.
  set (rep := if Uuid128_is_nil _ then _ else _).
  assert (exists st', (Status_ok rep.1 = true -> Status_ok st' = true) /\ history rep.2 = history t ++
    if Uuid128_is_nil (id_value (last_of t).1) then []
    else [SourceReported (mkSourceComplete session (last_of t).1 (last_of t).2 (mkScalar 0) (sd_index descriptor)
            sent (sent_digest (content_base (sn_content_seed config) (sd_index descriptor)) sent) 0) st'])
    as (st' & Hsource & Hh).
  { subst rep. unfold last_of. cbn [fst snd]. destruct (Uuid128_is_nil _).
    - exists Status_success. by rewrite app_nil_r.
    - destruct (CoordinatorClient.report_source_complete _ _ _) as [status client]. by exists status. }
  destruct rep as [source_status t1]. cbn in Hh, Hsource.
  destruct (Status_ok source_status); [|done]. specialize (Hsource eq_refl). cbn [negb].
  destruct (send _ _ _) as [status sink]. destruct (Status_ok status) eqn:Es; [|done]. cbn [negb].
  destruct (receive _) as [[m|status'] sink']; [|done].
  destruct (shard_truncated || _) eqn:T; [done|]. intros [= <-].
  apply orb_false_iff in T as [_ T]. apply Z.ltb_ge in T.
  assert (sent = sd_declared_bytes descriptor) as -> by lia. split; [done|].
  rewrite sent_digest_content in Hh |- * by lia. eexists. split.
  2: { exact (shard_ended_intro descriptor (last_of t) st' status m Hsource Es). }
  unfold history in *. cbn. by rewrite Hh, <- !app_assoc.
Qed.

Lemma end_shard_counts descriptor sent shard_truncated (t : Tr) :
  let '(r, t') := end_shard config session fence descriptor sent shard_truncated t in
  match r with
  | None => failed t'
  | Some truncated =>
      truncated = shard_truncated || (sent <? sd_declared_bytes descriptor) /\
      bytes_sent t' = bytes_sent t /\ deferred t' = deferred t /\
      completed t' = if truncated then completed t else u32 (completed t + 1)
  end.
Proof.
  unfold end_shard. cbn zeta.
  set (rep := if Uuid128_is_nil _ then _ else _). assert (tf_result rep.2 = tf_result t) as Hr.
  { subst rep. destruct (Uuid128_is_nil _); [done|].
    by destruct (CoordinatorClient.report_source_complete _ _ _). }
  destruct rep as [source t1]. cbn in Hr. destruct (negb _); [done|].
  destruct (send _ _ _) as [status sink]. destruct (negb _); [done|].
  destruct (receive _) as [[m|status'] sink']; [|done].
  unfold bytes_sent, deferred, completed. destruct (shard_truncated || _); cbn; by rewrite Hr.
Qed.

Lemma credit_loop_some fuel descriptor drop_after sent began (t : Tr) :
  credit_loop config session fence stop_at fuel descriptor drop_after sent began t <> None ->
  exists step t', credit_loop config session fence stop_at fuel descriptor drop_after sent began t
                  = Some (step, t').
Proof. destruct (credit_loop _ _ _ _ _ _ _ _ _ _) as [[step t']|]; [eauto|done]. Qed.

(** A truncated shard is not forgotten. *)
Lemma shard_loop_truncated fuel shards (t : Tr) t' :
  shard_loop config session fence stop_at fuel shards true t <> (Finished false, t').
Proof.
  revert t. induction shards as [|d shards IH]; intros t; [done|]. cbn [shard_loop].
  destruct (credit_loop _ _ _ _ fuel d _ 0 false t) as [[step t1]|]; [|done].
  destruct step as [|sent tr died| |]; try done. destruct died; [done|].
  destruct (end_shard _ _ _ d sent tr t1) as [[se|] t2]; [|done]. apply IH.
Qed.

(** The loop over shards of [b] bytes each. *)
Definition transfer_counts (n b : Z) (truncated : bool) (t : Tr) (ended : TransferEnd) (t' : Tr) : Prop :=
  match ended with
  | Finished truncated' =>
      truncated' = false -> truncated = false /\ bytes_sent t' = u64 (bytes_sent t + n * b) /\
        completed t' = u32 (completed t + n)
  | Returned => failed t'
  | Died | Threw | OutOfFuel => True
  end.

Lemma shard_loop_counts fuel b shards truncated (t : Tr) :
  0 < b < 2 ^ 64 -> patience < 2 ^ 32 - 1 -> counters_ok t -> 0 <= completed t < 2 ^ 32 ->
  Forall (fun d => sd_declared_bytes d = b) shards ->
  let '(ended, t') := shard_loop config session fence stop_at fuel shards truncated t in
  transfer_counts (Z.of_nat (length shards)) b truncated t ended t'.
Proof.
  intros Hb Hp. revert truncated t. induction shards as [|d shards IH]; intros truncated t Hc Hk Hall.
  { cbn. intros ->. rewrite !Z.add_0_r, u64_small, u32_small by (apply Hc || done). done. }
  apply Forall_cons in Hall as [Hd Hall]. cbn [shard_loop].
  set (drop_after := if _ && _ then _ else 0).
  destruct (credit_loop _ _ _ _ fuel d drop_after 0 false t) as [[step t1]|] eqn:E; [|done].
  apply credit_loop_counts in E; [|lia|lia|done|done].
  destruct step as [|sent tr died| |]; cbn in E; try done.
  destruct died; [done|]. destruct E as (Hs & Hc1 & B1 & K1 & F1). rewrite Z.sub_0_r in B1.
  pose proof (end_shard_counts d sent tr t1) as He.
  destruct (end_shard _ _ _ d sent tr t1) as [[se|] t2]; [|done]. destruct He as (Ese & B2 & D2 & K2).
  assert (0 <= completed t2 < 2 ^ 32) as Hk2 by (rewrite K2, K1; destruct se; [done|apply u32_range]).
  specialize (IH (truncated || se) t2 ltac:(unfold counters_ok; by rewrite B2, D2) Hk2 Hall).
  destruct (shard_loop _ _ _ _ fuel shards _ t2) as [ended t3]. destruct ended; cbn in *; try done.
  intros Ht. destruct (IH Ht) as (Hor & B3 & K3). apply orb_false_iff in Hor as [-> ->].
  cbn [orb] in *. symmetry in Ese. apply orb_false_iff in Ese as [-> Hlt]. apply Z.ltb_ge in Hlt.
  split; [done|]. rewrite B3, K3, K2, K1, B2, B1. unfold u64, u32. rewrite !Zplus_mod_idemp_l.
  split; f_equal; nia.
Qed.

(** Where bytes are left to send, the last attempt is one of the shard. *)
Lemma chunks_last d sent began h last last' : chunks_delivered d sent began h -> sent < sd_declared_bytes d ->
  foldl after_event last h = foldl after_event last' h.
Proof.
  intros Hc. revert last last'. induction Hc as [|sent began outcome h Hg _ IH|sent began sent' h h' Hd _ IH];
    intros last last' Hs; [lia|by apply IH|]. rewrite !foldl_app.
  assert (foldl after_event last h = foldl after_event last' h) as -> by (destruct Hd; by destruct began). done.
Qed.

Lemma shard_loop_events fuel b shards truncated (t : Tr) :
  0 < b < 2 ^ 64 -> patience < 2 ^ 32 - 1 -> counters_ok t ->
  Forall (fun d => sd_declared_bytes d = b) shards ->
  let '(ended, t') := shard_loop config session fence stop_at fuel shards truncated t in
  match ended with
  | Finished false => exists h, history t' = history t ++ h /\ shards_delivered shards h
  | Threw => empty_grant (history t')
  | _ => True
  end.
Proof.
  intros Hb Hp. revert truncated t. induction shards as [|d shards IH]; intros truncated t Hc Hall.
  { cbn. destruct truncated; [done|]. exists []. rewrite app_nil_r. split; [done|constructor]. }
  apply Forall_cons in Hall as [Hd Hall]. cbn [shard_loop].
  set (drop_after := if _ && _ then _ else 0).
  destruct (credit_loop _ _ _ _ fuel d drop_after 0 false t) as [[step t1]|] eqn:E; [|done].
  pose proof (credit_loop_events fuel d drop_after 0 false t step t1 ltac:(lia) ltac:(lia) ltac:(apply Hc) E) as He.
  apply credit_loop_counts in E; [|lia|lia|done|done].
  destruct step as [|sent tr died| |]; try done.
  destruct died; [done|]. destruct E as (Hs & Hc1 & _ & _ & _).
  pose proof (end_shard_counts d sent tr t1) as Hec. pose proof (end_shard_events d sent tr t1) as Hee.
  destruct (end_shard _ _ _ d sent tr t1) as [[se|] t2]; [|done]. destruct Hec as (Ese & B2 & D2 & _).
  specialize (IH (truncated || se) t2 ltac:(unfold counters_ok; by rewrite B2, D2) Hall).
  destruct (shard_loop _ _ _ _ fuel shards _ t2) as [ended t3] eqn:El. destruct ended as [[|]| | | |]; try done.
  destruct se.
  { exfalso. rewrite orb_true_r in El. by apply shard_loop_truncated in El. }
  symmetry in Ese. apply orb_false_iff in Ese as [-> _].
  destruct (Hee t2 ltac:(lia) ltac:(lia) eq_refl) as (_ & h2 & Hh2 & Hend).
  destruct He as (h1 & Hh1 & Hch & Hl), IH as (h3 & Hh3 & Hsh).
  exists (h1 ++ h2 ++ h3). split; [by rewrite Hh3, Hh2, Hh1, <- !app_assoc|]. constructor; [done| |done].
  unfold last_reported. by rewrite <- (chunks_last d 0 false h1 (last_of t) _ Hch ltac:(lia)), <- Hl.
Qed.

Lemma shard_loop_returns fuel b shards truncated (t : Tr) :
  0 < b < 2 ^ 64 -> patience < 2 ^ 32 - 1 -> counters_ok t -> b + patience < Z.of_nat fuel ->
  Forall (fun d => sd_declared_bytes d = b) shards ->
  (shard_loop config session fence stop_at fuel shards truncated t).1 <> OutOfFuel.
Proof.
  intros Hb Hp Hc Hf. revert truncated t Hc. induction shards as [|d shards IH]; intros truncated t Hc Hall;
    [done|]. apply Forall_cons in Hall as [Hd Hall]. cbn [shard_loop].
  set (drop_after := if _ && _ then _ else 0).
  assert (is_Some (credit_loop config session fence stop_at fuel d drop_after 0 false t)) as [[step t1] E].
  { apply credit_loop_returns; try done; destruct Hc; lia. }
  rewrite E. apply credit_loop_counts in E; [|lia|lia|done|done].
  destruct step as [|sent tr died| |]; try done. destruct died; [done|].
  destruct E as (_ & Hc1 & _ & _ & _). pose proof (end_shard_counts d sent tr t1) as He.
  destruct (end_shard _ _ _ d sent tr t1) as [[se|] t2]; [|done]. destruct He as (_ & B2 & D2 & _).
  apply IH; [|done]. unfold counters_ok. by rewrite B2, D2.
Qed.

(** The transfer leaves the identity of the session alone. *)
Definition session_of (t : Tr) : SessionId := sr_session (tf_result t).
Lemma wave_step_session descriptor drop_after sent began (t : Tr) :
  session_of (wave_step config session fence stop_at descriptor drop_after sent began t).2 = session_of t.
Proof.
  unfold wave_step. destruct (stop_at _); [done|]. destruct (_ && _); [done|].
  destruct (CoordinatorClient.request_wave _ _ _ _) as [[outcome|status] client]; [|done].
  destruct (negb (wo_granted outcome)); [cbn zeta; by destruct (_ <? _)|].
  destruct (wo_grant outcome) as [grant|]; [|done]. unfold granted_step. cbn zeta. destruct (_ =? 0); [done|].
  match goal with |- context [begin_shard _ _ _ _ _ ?t1] =>
    pose proof (begin_shard_keeps descriptor grant began t1) as Hk; destruct (begin_shard _ _ _ _ _ t1) as [begun t2] end.
  cbn in Hk. unfold session_of. destruct (negb _); [cbn; by rewrite Hk|]. unfold send_chunk.
  destruct (send _ _ _) as [st sink]. destruct (negb _); [cbn; by rewrite Hk|].
  destruct (receive _) as [[m|st'] sink']; [|cbn; by rewrite Hk]. destruct (negb _); [cbn; by rewrite Hk|].
  destruct (decode_payload _ _ _ _) as [ack|]; [|cbn; by rewrite Hk]. destruct (negb _); [cbn; by rewrite Hk|].
  destruct (CoordinatorClient.report_transfer _ _ _) as [reported client'].
  destruct (negb (Status_ok reported)); [cbn; by rewrite Hk|]. destruct (_ && _); cbn; by rewrite Hk.
Qed.
Lemma shard_loop_session fuel shards truncated (t : Tr) :
  session_of (shard_loop config session fence stop_at fuel shards truncated t).2 = session_of t.
Proof.
  assert (forall fuel d da sent began t step t',
    credit_loop config session fence stop_at fuel d da sent began t = Some (step, t') ->
    session_of t' = session_of t) as Hloop.
  { clear. intros fuel. induction fuel as [|fuel IH]; intros d da sent began t step t'; cbn [credit_loop];
      (destruct (_ <? _); [|by intros [= _ <-]]); [done|].
    pose proof (wave_step_session d da sent began t) as Hw.
    destruct (wave_step _ _ _ _ d da sent began t) as [[sent1 began1| | |] t1]; cbn in Hw;
      [intros E; by rewrite (IH _ _ _ _ _ _ _ E)|by intros [= _ <-]..]. }
  revert truncated t. induction shards as [|d shards IH]; intros truncated t; [done|]. cbn [shard_loop].
  destruct (credit_loop _ _ _ _ fuel d _ 0 false t) as [[step t1]|] eqn:E; [|done]. apply Hloop in E.
  destruct step as [|sent tr died| |]; try exact E. destruct died; [exact E|].
  assert (session_of (end_shard config session fence d sent tr t1).2 = session_of t1) as He.
  { unfold end_shard. cbn zeta. set (rep := if Uuid128_is_nil _ then _ else _).
    assert (session_of rep.2 = session_of t1) as Hr.
    { subst rep. destruct (Uuid128_is_nil _); [done|].
      by destruct (CoordinatorClient.report_source_complete _ _ _). }
    destruct rep as [source t2]. cbn in Hr. unfold session_of in *. destruct (negb _); [exact Hr|].
    destruct (send _ _ _) as [st sink]. destruct (negb _); [exact Hr|].
    destruct (receive _) as [[m|st'] sink']; [|exact Hr]. destruct (tr || _); exact Hr. }
  destruct (end_shard _ _ _ d sent tr t1) as [[se|] t2]; cbn in He; [rewrite IH|cbn]; congruence.
Qed.
End transfer.

(** ** The run *)

(** The widths of the configuration's fields, and patience short of the greatest
    32-bit number (at that number the counter wraps instead of exceeding it). *)
Record sender_config_ok (config : SenderConfig) : Prop := {
  sco_count : 0 <= sn_shard_count config < 2 ^ 32;
  sco_bytes : 0 <= sn_shard_bytes config < 2 ^ 64;
  sco_wait : 0 <= sn_max_credit_wait_iterations config < 2 ^ 32 - 1;
  sco_limit : 0 <= lim_max_checkpoint_bytes (sn_limits config) < 2 ^ 64
}.

Lemma manifest_shards config generation :
  Forall (fun d => sd_declared_bytes d = sn_shard_bytes config) (mf_shards (sender_manifest config generation)) /\
  length (mf_shards (sender_manifest config generation)) = Z.to_nat (sn_shard_count config).
Proof.
  cbn. split; [|by rewrite length_map, length_seq]. apply Forall_map, Forall_forall. done.
Qed.

Section run.
Context {S K : Type} `{ByteLaws S} `{ByteStream K} (config : SenderConfig).
Context (connect_stop_at : nat -> bool) (dial : nat -> Result S) (sink_dialled : Result K).
Context (stop_at : nat -> bool).

Lemma run_admitted_counts fuel (client : CoordinatorClient.t S) fence shards result r h :
  sender_config_ok config -> 0 < sn_shard_bytes config ->
  Forall (fun d => sd_declared_bytes d = sn_shard_bytes config) shards ->
  sr_bytes_sent result = 0 -> sr_shards_completed result = 0 -> sr_deferred_grants result = 0 ->
  run_admitted config sink_dialled stop_at fuel client (sr_session result) fence shards result =
    (SenderReturns (Val r), h) -> sr_exit_code r = 0 ->
  sr_bytes_sent r = u64 (Z.of_nat (length shards) * sn_shard_bytes config) /\
  sr_shards_completed r = u32 (Z.of_nat (length shards)) /\
  shards_delivered config (sr_session r) shards h.
Proof.
  intros [Hc Hb Hw Hl] Hpos Hall E1 E2 E3. unfold run_admitted.
  destruct sink_dialled as [socket|]; [|by intros [= <- _]]. set (t := mkTransfer _ _ _ _ _ _ _).
  assert (counters_ok config t) as Hok.
  { unfold counters_ok, bytes_sent, deferred, patience, t. cbn. rewrite E1, E3. lia. }
  pose proof (shard_loop_counts config (sr_session result) fence stop_at fuel (sn_shard_bytes config) shards false t
    ltac:(lia) ltac:(unfold patience; lia) Hok ltac:(unfold completed, t; cbn; rewrite E2; lia) Hall) as Ht.
  pose proof (shard_loop_events config (sr_session result) fence stop_at fuel (sn_shard_bytes config) shards false t
    ltac:(lia) ltac:(unfold patience; lia) Hok Hall) as He.
  pose proof (shard_loop_session config (sr_session result) fence stop_at fuel shards false t) as Hses.
  destruct (shard_loop _ _ _ _ _ _ _ t) as [ended t'].
  destruct ended as [[|]| | | |]; cbn [finish_transfer]; try discriminate; intros [= <- <-].
  - intros Hx. discriminate Hx.
  - intros _. destruct (Ht eq_refl) as (_ & B & C). destruct He as (h & Hh & Hd).
    unfold bytes_sent, completed, session_of, history in *. cbn in B, C, Hses, Hh.
    rewrite E1 in B. rewrite E2 in C. cbn. rewrite Hses, Hh. auto.
  - intros Hx. discriminate Hx.
  - intros Hx. destruct (Ht Hx).
Qed.

(** C23: success means delivered.  When the sender exits with code 0 (its widths
    are those of the code and its patience is below 2^32 - 1), the history of the
    run is a complete delivery: for every shard of the checkpoint in order, chunks
    that start at offset 0, follow each other without gap and end at the declared
    length, each sent under a grant of the coordinator that covers it, with the
    bytes of the shard at that offset, acknowledged by the sink with exactly the
    cumulative count, and reported as evidence of these bytes that the coordinator
    accepted; then the source's evidence under the last attempt, accepted (none is
    reported when that attempt has the nil identifier), the end of the shard with
    the digest of all of its bytes, and an answer to it.  The counters agree: every
    shard completed, all bytes sent.  No stop, refusal, truncation or injected
    death exits with code 0. *)
Theorem sender_success_complete fuel r h :
  sender_config_ok config ->
  sender_run config connect_stop_at dial sink_dialled stop_at fuel = (SenderReturns (Val r), h) ->
  sr_exit_code r = 0 ->
  shards_delivered config (sr_session r)
    (map (fun i => shard_descriptor config (Z.of_nat i)) (seq 0 (Z.to_nat (sn_shard_count config)))) h /\
  sr_shards_completed r = sn_shard_count config /\
  sr_bytes_sent r = sn_shard_count config * sn_shard_bytes config.
Proof.
  intros Hok. pose proof Hok as [Hc Hb Hw Hl]. unfold sender_run.
  destruct (Z.eqb_spec (sn_shard_count config) 0); [done|].
  destruct (Z.eqb_spec (sn_shard_bytes config) 0); [done|]. cbn [orb].
  destruct (_ >? lim_max_shards_per_checkpoint _); [done|].
  destruct (Z.gtb_spec (sn_shard_count config)
    (lim_max_checkpoint_bytes (sn_limits config) / sn_shard_bytes config)) as [|Hle]; [done|].
  assert (sn_shard_count config * sn_shard_bytes config < 2 ^ 64) as Hfit.
  { pose proof (Z.mul_div_le (lim_max_checkpoint_bytes (sn_limits config)) (sn_shard_bytes config)). nia. }
  destruct (connect_client _ _ _ _ _ _ _) as [client|]; [|done].
  destruct (CoordinatorClient.submit_session _ _ client) as [[decision|status] client1];
    [|by intros [= <- _]].
  destruct (negb _); [intros [= <- _]; cbn; by destruct (bool_decide _)|].
  destruct (ad_envelope decision); [|by intros [= <- _]].
  intros Hrun Hexit. destruct (manifest_shards config (cf_contract_generation
    (CoordinatorClient.current_fence (sn_workload config) None None client))) as [Hall Hlen].
  match type of Hrun with run_admitted _ _ _ _ ?c _ ?f ?s ?res = _ =>
    destruct (run_admitted_counts fuel c f s res r h Hok ltac:(lia) Hall eq_refl eq_refl eq_refl Hrun Hexit)
      as (-> & -> & Hd) end.
  split; [exact Hd|]. rewrite Hlen, Z2Nat.id, u64_small, u32_small by nia. done.
Qed.

(** C24: the sender's loops are bounded.  For a configuration of the code's widths
    with a patience below 2^32 - 1 (at that number the 32-bit counter of refusals
    wraps instead of exceeding it), however the coordinator, the sink and the stop
    token behave, one iteration per byte of a shard plus one per allowed wait for
    credit is enough for [run] to end: it returns a result or a status, unless a
    coordinator answered a wave with "granted" and no grant, whose exception
    escapes from [run] ([finding_grantless_wave_escapes]).  Each call within an
    iteration is taken to return; how long it blocks, or [sleep_until] sleeps, is
    not bounded here. *)
Theorem sender_terminates fuel :
  sender_config_ok config ->
  sn_shard_bytes config + sn_max_credit_wait_iterations config < Z.of_nat fuel ->
  let '(outcome, h) := sender_run config connect_stop_at dial sink_dialled stop_at fuel in
  (exists r, outcome = SenderReturns r) \/ (outcome = SenderThrows /\ empty_grant h).
Proof.
  intros [Hc Hb Hw Hl] Hf. unfold sender_run.
  destruct (Z.eqb_spec (sn_shard_count config) 0); [by left; eexists|].
  destruct (Z.eqb_spec (sn_shard_bytes config) 0); [by left; eexists|]. cbn [orb].
  destruct (_ >? lim_max_shards_per_checkpoint _); [by left; eexists|]. destruct (_ >? _); [by left; eexists|].
  destruct (connect_client _ _ _ _ _ _ _) as [client|]; [|by left; eexists].
  destruct (CoordinatorClient.submit_session _ _ client) as [[decision|status] client1]; [|by left; eexists].
  destruct (negb _); [by left; eexists|]. destruct (ad_envelope decision) as [envelope|]; [|by left; eexists].
  unfold run_admitted. destruct sink_dialled as [socket|]; [|by left; eexists]. set (t := mkTransfer _ _ _ _ _ _ _).
  set (shards := mf_shards _).
  assert (counters_ok config t) as Hok by (unfold counters_ok, bytes_sent, deferred, patience, t; cbn; lia).
  match goal with |- context [shard_loop config ?s ?f stop_at fuel shards false t] =>
    pose proof (shard_loop_returns config s f stop_at fuel (sn_shard_bytes config) shards false t ltac:(lia)
      ltac:(unfold patience; lia) Hok ltac:(unfold patience; lia)
      (proj1 (manifest_shards config _))) as Hr;
    pose proof (shard_loop_events config s f stop_at fuel (sn_shard_bytes config) shards false t ltac:(lia)
      ltac:(unfold patience; lia) Hok (proj1 (manifest_shards config _))) as He
  end.
  destruct (shard_loop _ _ _ _ _ _ _ t) as [ended t']. cbn in Hr.
  destruct ended as [tr| | | |]; cbn [finish_transfer]; [by left; eexists..| |done].
  right. split; [done|exact He].
Qed.
End run.

(** ** Witnesses *)

(** A socket that delivers the bytes of a script. *)
Record Script := mkScript { script_pipe : Pipe }.
#[global] Instance Script_stream : ByteStream Script := {
  stream_write data s := let '(status, p) := stream_write data (script_pipe s) in (status, mkScript p);
  stream_read n s :=
    let '(r, p) := stream_read n (script_pipe s) in
    (match r with Val chunk => Val (map u8 chunk) | Err status => Err status end, mkScript p)
}.
#[global, program] Instance Script_bytes : ByteLaws Script := {}.
Next Obligation.
  intros n s chunk s'. cbn. destruct (pipe_read _ _) as [read chunks]. intros [= <- _].
  apply Forall_map, Forall_forall. intros b _. unfold u8, byte_ok. pose proof (Z.mod_pos_bound b (2 ^ 8)). lia.
Qed.

(** The peer that sends these messages, whatever it is sent. *)
Definition script (messages : list (MessageType * list Z)) : Script :=
  mkScript (mkPipe [pipe_written (ch_socket (sends messages (channel_open (mkPipe [] []))).2)] []).

Definition small_config : SenderConfig :=
  mkSenderConfig "127.0.0.1" 1 "127.0.0.1" 2 (mkId (mkUuid (replicate 16 1))) (mkId (mkUuid (replicate 16 2)))
    (mkGen 1) IsolationClass.TrainingBulk DestinationClass.SyntheticLab 1 16 0 0 0 false "ctf-sender"
    Limits_default 7 3.
Definition small_session : SessionId := mkId (mkUuid (replicate 16 3)).
Definition small_epoch : CoordinatorEpoch := mkEpoch (mkGen 1) (mkGen 1).
Definition accepted : MessageType * list Z :=
  (MessageType.StatusResponse,
   encode_payload encode_StatusPayload (mkStatusPayload ErrorCode.Ok ReasonCode.Admitted_ "accepted")).
Definition small_coordinator : Script := script
  [(MessageType.HelloResponse, encode_payload encode_HelloResponse
      (mkHelloResponse small_epoch (mkGen 1) (mkGen 1) [(sn_workload small_config, mkGen 1)] Limits_default "lab"));
   (MessageType.DecisionResponse, encode_payload encode_AdmissionDecision
      (mkDecision DecisionKind.Admit ReasonCode.Admitted_ "" small_session (Some TrafficEnvelope_default) []
         None small_epoch 1));
   (MessageType.WaveResponse, encode_payload encode_WaveOutcome
      (mkWaveOutcome false ReasonCode.Admitted_ "" None None 1));
   (MessageType.WaveResponse, encode_payload encode_WaveOutcome
      (mkWaveOutcome true ReasonCode.Admitted_ ""
         (Some (mkWaveGrant small_session (mkId (mkUuid (replicate 16 4))) (mkGen 1) (mkScalar 0) (mkScalar 0)
                  16 1 1 1 2 small_epoch)) None 1));
   accepted; accepted].
Definition small_ack (n : Z) : MessageType * list Z :=
  (MessageType.ShardAck,
   encode_payload encode_ShardAckPayload (mkShardAckPayload n false false Digest_default "")).
Definition small_sink : Script := script [small_ack 16; small_ack 16].
Definition small_run (fuel : nat) : SenderRun * list SenderEvent :=
  sender_run small_config (fun _ => false) (fun _ => Val small_coordinator) (Val small_sink)
    (fun _ => false) fuel.

Lemma small_config_ok : sender_config_ok small_config.
Proof. constructor; cbn; lia. Qed.
Definition run_code (r : SenderRun * list SenderEvent) : Z :=
  match r.1 with SenderReturns (Val r) => sr_exit_code r | _ => -1 end.
Lemma small_run_succeeds : run_code (small_run 30) = 0.
Proof. vm_compute. reflexivity. Qed.

Lemma sender_success_complete_witness :
  exists r h, small_run 30 = (SenderReturns (Val r), h) /\ sr_shards_completed r = 1 /\ sr_bytes_sent r = 1 * 16 /\
    shards_delivered small_config (sr_session r) [shard_descriptor small_config 0] h.
Proof.
  pose proof small_run_succeeds as Hc. destruct (small_run 30) as [[[r|]| |] h] eqn:E; try discriminate Hc.
  exists r, h. split; [reflexivity|].
  destruct (sender_success_complete small_config (fun _ => false) (fun _ => Val small_coordinator)
           (Val small_sink) (fun _ => false) 30 r h small_config_ok E Hc) as (Hd & H1 & H2).
  split; [exact H1|]. split; [exact H2|exact Hd].
Defined.

Lemma sender_terminates_witness :
  let '(outcome, h) := small_run 30 in
  (exists r, outcome = SenderReturns r) \/ (outcome = SenderThrows /\ empty_grant h).
Proof.
  exact (sender_terminates small_config (fun _ => false) (fun _ => Val small_coordinator)
           (Val small_sink) (fun _ => false) 30 small_config_ok ltac:(cbn; lia)).
Defined.
