(* ===== verification/SinkProps.v ===== *)
(** * SinkProps: what the sink calls verified

    Whatever a sender sends, the bytes of a shard the sink calls verified are the
    declared number of bytes with the sender's digest; they are the contents of
    its file as long as the last flush and the close did not fail.  And a shard
    streamed in order, in any chunks, to a disk that does not fail is written,
    acknowledged, verified and reported. *)

From stdpp Require Import base gmap list strings.
From Stdlib Require Import ZArith Lia.
From S2P Require Import Prelude Status Ids Bytes Hash Enums Model Fence Shaper.
From S2P Require Import EngineState EngineAuthority EngineAdmission EngineLifecycle EngineEvidence.
From S2P Require Import EngineInspect Wire Codec WireTheory WireCanon CodecProps FrameProps.
From S2P Require Import Protocol ProtocolCodec ChannelProps Client Content Sender Sink SenderProps.

(** ** The destination file *)

Section file.
Context (can_open : string -> bool) (disk : nat -> Sync).

(** The file and the buffer hold [data], in a directory that is otherwise [base]. *)
Definition stream_holds (f : Ofstream) (d : Directory) (name : string) (base : gmap string (list Z))
    (data : list Z) : Prop :=
  of_file f = Some name /\ of_good f = true /\
  exists on_disk, dir_files d = <[name := on_disk]> base /\ on_disk ++ of_buffer f = data.

Lemma file_open_holds name f d :
  let '(f', d') := file_open can_open name f d in
  of_good f' = true -> can_open name = true -> stream_holds f' d' name (dir_files d) [].
Proof. unfold file_open. destruct (can_open name); [|done]. intros _ _. split; [done|]. split; [done|]. by exists []. Qed.
Lemma file_open_refused name f d : can_open name = false -> of_good (file_open can_open name f d).1 = false.
Proof. unfold file_open. by intros ->. Qed.

Lemma append_file_holds name data d base on_disk : dir_files d = <[name := on_disk]> base ->
  dir_files (append_file name data d) = <[name := on_disk ++ data]> base.
Proof. intros Hd. unfold append_file. cbn. by rewrite Hd, lookup_insert_eq, insert_insert_eq. Qed.

Lemma hand_over_holds name n f d base on_disk : dir_files d = <[name := on_disk]> base ->
  let '(f', d') := hand_over disk name n f d in
  of_file f' = of_file f /\ dir_syncs d' = S (dir_syncs d) /\
  of_good f' = of_good f && synced (disk (dir_syncs d)) /\
  exists after, dir_files d' = <[name := after]> base /\
    (synced (disk (dir_syncs d)) = true ->
     after = on_disk ++ take n (of_buffer f) /\ of_buffer f' = drop n (of_buffer f)).
Proof.
  intros Ed. unfold hand_over. destruct (disk (dir_syncs d)) as [m|written]; cbn -[append_file];
    rewrite ?andb_true_r, ?andb_false_r; (split; [done|split; [done|split; [done|]]]);
    eexists; (split; [by apply append_file_holds|done]).
Qed.

Lemma file_write_holds f d name base data chunk : stream_holds f d name base data ->
  let '(f', d') := file_write disk chunk f d in
  of_good f' = synced (disk (dir_syncs d)) /\ dir_syncs d' = S (dir_syncs d) /\
  (of_good f' = true -> stream_holds f' d' name base (data ++ chunk)).
Proof.
  intros (Ef & Eg & on_disk & Ed & <-). unfold file_write. rewrite Ef, Eg.
  match goal with |- context [hand_over _ _ ?n ?f ?d] =>
    pose proof (hand_over_holds name n f d base on_disk Ed) as Hh; destruct (hand_over _ _ _ _ _) as [f' d'] end.
  destruct Hh as (E1 & E2 & E3 & after & E4 & E5). cbn in E1, E3, E5. rewrite Eg in E3. cbn in E3.
  split; [done|]. split; [done|]. rewrite E3. intros Hs. destruct (E5 Hs) as [-> Eb].
  split; [congruence|]. split; [congruence|]. eexists. split; [exact E4|].
  by rewrite Eb, <- app_assoc, take_drop, <- app_assoc.
Qed.

(** The end of a shard: the file is closed, and holds all of the data when
    neither call failed. *)
Lemma file_end_holds f d name base data : stream_holds f d name base data ->
  let '(f1, d1) := file_flush disk f d in
  let '(f2, d2) := file_close disk f1 d1 in
  of_file f2 = None /\ dir_syncs d2 = S (S (dir_syncs d)) /\
  exists on_disk, dir_files d2 = <[name := on_disk]> base /\
    (synced (disk (dir_syncs d)) = true -> synced (disk (S (dir_syncs d))) = true -> on_disk = data).
Proof.
  intros (Ef & Eg & on_disk & Ed & <-). unfold file_flush. rewrite Ef, Eg.
  pose proof (hand_over_holds name (length (of_buffer f)) f d base on_disk Ed) as Hh.
  destruct (hand_over _ _ _ _ _) as [f1 d1]. destruct Hh as (E1 & E2 & _ & after & E4 & E5).
  unfold file_close. rewrite E1, Ef.
  pose proof (hand_over_holds name (length (of_buffer f1)) f1 d1 base after E4) as Hh.
  destruct (hand_over _ _ _ _ _) as [f2 d2]. destruct Hh as (_ & E7 & _ & after' & E9 & E10).
  rewrite E2 in E7, E10. split; [done|]. split; [done|]. exists after'. split; [done|]. intros S1 S2.
  destruct (E5 S1) as [-> B1]. destruct (E10 S2) as [-> _]. rewrite B1, drop_all, take_ge by done.
  by rewrite app_nil_r.
Qed.
End file.

Section sink.
Context {S K : Type} `{ByteStream S} `{ByteStream K}.
Context (config : SinkConfig).
Context (can_open : string -> bool) (disk : nat -> Sync) (clock : nat -> Nanos).
Notation Cx := (Connection K).
Notation Sk := (Sink S).
Notation handle := (sink_message config can_open disk clock).

(** ** What was received *)

(** The shard the last [ShardBegin] among the messages announced. *)
Definition announced (messages : list Message) : ShardBeginPayload :=
  foldl (fun b m =>
    match msg_type m, decode_payload decode_ShardBeginPayload ShardBeginPayload_default
                        (msg_payload m) (sk_limits config) with
    | MessageType.ShardBegin, Val b' => b'
    | _, _ => b
    end) ShardBeginPayload_default messages.
(** The bytes of the [ShardData] messages after it, in order. *)
Definition received_bytes (messages : list Message) : list Z :=
  foldl (fun data m =>
    match msg_type m with
    | MessageType.ShardBegin => []
    | MessageType.ShardData =>
        match decode_payload decode_ShardDataPayload ShardDataPayload_default
                (msg_payload m) (sk_limits config) with
        | Val message => data ++ sdp_data message
        | Err _ => data
        end
    | _ => data
    end) [] messages.
(** The attempt that delivered the last of them. *)
Definition delivered_by (messages : list Message) : TransferAttemptId * AttemptSequence :=
  foldl (fun last m =>
    match msg_type m with
    | MessageType.ShardBegin =>
        match decode_payload decode_ShardBeginPayload ShardBeginPayload_default
                (msg_payload m) (sk_limits config) with
        | Val b => (sbp_attempt b, sbp_sequence b)
        | Err _ => last
        end
    | MessageType.ShardData =>
        match decode_payload decode_ShardDataPayload ShardDataPayload_default
                (msg_payload m) (sk_limits config) with
        | Val message => (sdp_attempt message, sdp_sequence message)
        | Err _ => last
        end
    | _ => last
    end) (id_nil, mkGen 0) messages.

(** While a shard is being received, its stream holds what was received. *)
Definition receiving (cx : Cx) (sk : Sk) (base : gmap string (list Z)) (data : list Z) : Prop :=
  stream_holds (cx_file cx) (sink_directory sk) (shard_file (cx_begin cx)) base data /\
  cx_received cx = u64 (Z.of_nat (length data)) /\ cx_digest cx = digest_of data.
Definition connection_ok (messages : list Message) (cx : Cx) (sk : Sk) : Prop :=
  cx_active cx = true ->
  cx_begin cx = announced messages /\ (cx_last_attempt cx, cx_last_sequence cx) = delivered_by messages /\
  exists base, receiving cx sk base (received_bytes messages).

Lemma send_ack_keeps ack (cx : Cx) :
  let cx' := (send_ack ack cx).2 in
  cx_active cx' = cx_active cx /\ cx_begin cx' = cx_begin cx /\ cx_digest cx' = cx_digest cx /\
  cx_received cx' = cx_received cx /\ cx_file cx' = cx_file cx /\
  cx_last_attempt cx' = cx_last_attempt cx /\ cx_last_sequence cx' = cx_last_sequence cx /\
  cx_channel cx' = (send MessageType.ShardAck (encode_payload encode_ShardAckPayload ack) (cx_channel cx)).2.
Proof. unfold send_ack. by destruct (send _ _ _). Qed.

Lemma received_count (data chunk : list Z) :
  u64 (u64 (Z.of_nat (length data)) + Z.of_nat (length chunk)) = u64 (Z.of_nat (length (data ++ chunk))).
Proof. rewrite length_app. unfold u64. rewrite Zplus_mod_idemp_l. f_equal. lia. Qed.
Lemma received_digest data chunk : builder_update (digest_of data) chunk = digest_of (data ++ chunk).
Proof. unfold digest_of. by rewrite builder_update_app. Qed.

Lemma handle_ok messages message (cx : Cx) (sk : Sk) :
  connection_ok messages cx sk ->
  let '(step, cx', sk') := handle message cx sk in
  step = Continue -> connection_ok (messages ++ [message]) cx' sk'.
Proof.
  intros Hok. unfold sink_message. destruct (msg_type message) eqn:T; try done.
  - unfold handle_begin. destruct (decode_payload _ _ _ _) as [b|] eqn:D; [|done].
    destruct (file_close _ _ _) as [f1 d1]. pose proof (file_open_holds can_open (shard_file b) f1 d1) as Hh.
    pose proof (file_open_refused can_open (shard_file b) f1 d1) as Hn.
    destruct (file_open _ _ _ _) as [f2 d2]. destruct (of_good f2) eqn:G; [|done]. intros _ _.
    unfold announced, delivered_by, received_bytes, receiving. rewrite !foldl_app. cbn. rewrite T, D.
    destruct (can_open (shard_file b)); [|specialize (Hn eq_refl); cbn in Hn; congruence]. eauto 10.
  - unfold handle_data. destruct (decode_payload _ _ _ _) as [m|] eqn:D; [|done].
    destruct (cx_active cx) eqn:A; [|done]. destruct (negb (_ =? _)); [done|]. cbn [negb].
    destruct (Hok A) as (Hb & _ & base & Hf & Hr & Hg).
    pose proof (file_write_holds disk _ _ _ _ _ (sdp_data m) Hf) as Hw.
    destruct (file_write _ _ _ _) as [f1 d1]. destruct Hw as (_ & _ & Hw). destruct (of_good f1); [|done].
    specialize (Hw eq_refl). cbn [negb]. destruct (_ && _); [done|].
    match goal with |- context [send_ack ?a ?c] => pose proof (send_ack_keeps a c) as Hk;
      destruct (send_ack a c) as [sent cx'] end. cbn in Hk.
    destruct Hk as (_ & E2 & E3 & E4 & E5 & E6 & E7 & _). intros _ _.
    unfold announced, delivered_by, received_bytes, receiving. rewrite !foldl_app. cbn.
    rewrite T, D, E2, E3, E4, E5, E6, E7, Hr, Hg. split; [exact Hb|]. split; [done|].
    exists base. rewrite received_count, received_digest. done.
  - unfold handle_end. destruct (decode_payload _ _ _ _) as [m|]; [|done].
    destruct (negb (cx_active cx)); [done|]. destruct (file_flush _ _ _) as [f1 d1].
    destruct (file_close _ _ _) as [f2 d2]. destruct (send_ack _ _) as [sent cx'].
    destruct (negb _); [done|]. by destruct (CoordinatorClient.report_verification _ _ _).
Qed.

(** The states a connection goes through, with the messages handled so far. *)
Inductive reaches (sk0 : Sk) (socket : K) : list Message -> Cx -> Sk -> Prop :=
| reaches_start : reaches sk0 socket [] (connection_start socket) sk0
| reaches_receive messages cx sk channel :
    reaches sk0 socket messages cx sk ->
    reaches sk0 socket messages (mkConnection channel (cx_active cx) (cx_begin cx) (cx_digest cx)
      (cx_received cx) (cx_file cx) (cx_last_attempt cx) (cx_last_sequence cx)) sk
| reaches_message messages cx sk message cx' sk' :
    reaches sk0 socket messages cx sk -> handle message cx sk = (Continue, cx', sk') ->
    reaches sk0 socket (messages ++ [message]) cx' sk'.

Lemma reaches_ok sk0 socket messages cx sk :
  reaches sk0 socket messages cx sk -> connection_ok messages cx sk.
Proof.
  induction 1 as [|messages cx sk channel _ IH|messages cx sk message cx' sk' _ IH E].
  - done.
  - exact IH.
  - pose proof (handle_ok messages message cx sk IH) as Hh. rewrite E in Hh. by apply Hh.
Qed.

Lemma Digest_eqb_eq a b : Digest_eqb a b = true -> a = b.
Proof.
  unfold Digest_eqb. intros [E1 E2]%andb_true_iff. destruct a, b. cbn in *.
  apply Z.eqb_eq in E1, E2. by subst.
Qed.

(** What the verdict [Verified] says of the counts and the digests. *)
Lemma outcome_verified message (cx : Cx) :
  end_outcome config message cx = VerificationOutcome.Verified ->
  sep_truncated message = false /\ cx_received cx = sbp_declared_bytes (cx_begin cx) /\
  sep_sent_digest message = cx_digest cx /\
  (Digest_is_zero (sbp_declared_digest (cx_begin cx)) = false ->
   sbp_declared_digest (cx_begin cx) = cx_digest cx).
Proof.
  unfold end_outcome. destruct (sep_truncated message || _) eqn:T; [done|].
  apply orb_false_iff in T as [T1 T]. apply negb_false_iff, Z.eqb_eq in T.
  destruct (Digest_eqb (sep_sent_digest message) (cx_digest cx)) eqn:D1; [|done].
  destruct (negb (Digest_is_zero _) && _) eqn:D2; [done|]. apply Digest_eqb_eq in D1.
  intros _. split_and!; try done. intros Hz. rewrite Hz in D2.
  cbn [negb andb] in D2. by apply negb_false_iff, Digest_eqb_eq in D2.
Qed.

(** Only a verdict of [Verified] moves the counter of verified shards. *)
Lemma count_verified outcome r : kr_shards_verified (count_outcome outcome r) <> kr_shards_verified r ->
  outcome = VerificationOutcome.Verified.
Proof. by destruct outcome. Qed.
Lemma handle_verifies message (cx : Cx) (sk : Sk) cx' sk' :
  handle message cx sk = (Continue, cx', sk') ->
  kr_shards_verified (sink_result sk') <> kr_shards_verified (sink_result sk) ->
  msg_type message = MessageType.ShardEnd.
Proof.
  unfold sink_message. destruct (msg_type message); try done.
  - unfold handle_begin. destruct (decode_payload _ _ _ _) as [b|]; [|done].
    destruct (file_close _ _ _) as [f1 d1]. destruct (file_open _ _ _ _) as [f2 d2].
    destruct (negb _); [done|]. by intros [= <- <-].
  - unfold handle_data. destruct (decode_payload _ _ _ _) as [m|]; [|done].
    destruct (negb _); [done|]. destruct (negb _); [done|]. destruct (file_write _ _ _ _) as [f1 d1].
    destruct (negb _); [done|]. destruct (_ && _); [done|]. destruct (send_ack _ _) as [sent cx1].
    by intros [= _ <- <-].
Qed.

(** C21: in every state a connection can reach, whatever the peer sent and
    whatever the disk does: when the sink counts a shard as verified, the message
    it handled is a [ShardEnd] not marked truncated, and the bytes of the shard's
    data messages, received in order since its [ShardBegin], are as many as were
    declared (modulo the 64-bit counter), with the digest the sender computed and,
    unless the declared digest is zero, the declared one; the sender is sent the
    acknowledgement that says so, and the evidence handed to the coordinator names
    the announced session and shard, the attempt that delivered the last bytes,
    that count and that digest.  The destination file holds exactly those bytes if
    neither the flush nor the close at the end of the shard failed, which the sink
    does not check ([finding_verified_not_stored]). *)
Theorem sink_verified_sound sk0 socket messages cx sk message cx' sk' :
  reaches sk0 socket messages cx sk -> handle message cx sk = (Continue, cx', sk') ->
  kr_shards_verified (sink_result sk') <> kr_shards_verified (sink_result sk) ->
  let b := announced messages in
  let data := received_bytes messages in
  let '(attempt, sequence) := delivered_by messages in
  msg_type message = MessageType.ShardEnd /\
  (exists e, decode_payload decode_ShardEndPayload ShardEndPayload_default (msg_payload message)
               (sk_limits config) = Val e /\
     sep_truncated e = false /\ sep_sent_digest e = digest_of data) /\
  u64 (Z.of_nat (length data)) = sbp_declared_bytes b /\
  (Digest_is_zero (sbp_declared_digest b) = false -> sbp_declared_digest b = digest_of data) /\
  cx_channel cx' = (send MessageType.ShardAck (encode_payload encode_ShardAckPayload
    (mkShardAckPayload (sbp_declared_bytes b) true false (digest_of data)
       (VerificationOutcome.to_string VerificationOutcome.Verified))) (cx_channel cx)).2 /\
  sink_client sk' = (CoordinatorClient.report_verification
    (mkVerificationEvidence (sbp_session b) attempt sequence (sbp_shard b) (sbp_declared_bytes b)
       (digest_of data) VerificationOutcome.Verified "" (clock (sink_ticks sk)))
    (CoordinatorClient.current_fence (sbp_workload b) (Some (sbp_checkpoint_generation b)) None
       (sink_client sk)) (sink_client sk)).2 /\
  exists on_disk, dir_files (sink_directory sk') !! shard_file b = Some on_disk /\
    (synced (disk (dir_syncs (sink_directory sk))) = true ->
     synced (disk (Datatypes.S (dir_syncs (sink_directory sk)))) = true -> on_disk = data).
Proof.
  intros Hr Hh Hv. pose proof (handle_verifies _ _ _ _ _ Hh Hv) as T. cbn zeta.
  revert Hh. unfold sink_message. rewrite T. unfold handle_end.
  destruct (decode_payload _ _ _ _) as [e|] eqn:D; [|done]. destruct (cx_active cx) eqn:A; [|done]. cbn [negb].
  destruct (reaches_ok _ _ _ _ _ Hr A) as (Hb & Hl & base & Hf & Hn & Hg).
  pose proof (file_end_holds disk _ _ _ _ _ Hf) as He.
  destruct (file_flush _ _ _) as [f1 d1]. destruct (file_close _ _ _) as [f2 d2].
  destruct He as (_ & _ & on_disk & Ed & Eall).
  match goal with |- context [end_outcome ?c ?m ?x] => set (outcome := end_outcome c m x); set (cx1 := x) in * end.
  match goal with |- context [send_ack ?a ?c] => pose proof (send_ack_keeps a c) as Hk;
    destruct (send_ack a c) as [sent cx2] end.
  destruct (negb (Status_ok sent)); [done|]. cbn in Hk.
  destruct Hk as (_ & E2 & E3 & E4 & _ & E6 & E7 & E8).
  destruct (CoordinatorClient.report_verification _ _ _) as [reported client] eqn:Rep. intros [= <- <-].
  assert (outcome = VerificationOutcome.Verified) as Ho.
  { apply (count_verified outcome (sink_result sk)). intros E. apply Hv. rewrite <- E. cbn.
    by destruct (negb (Status_ok reported)). }
  pose proof (outcome_verified e cx1 Ho) as (V1 & V2 & V3 & V4). unfold cx1 in *. cbn in V2, V3, V4.
  assert (delivered_by messages = (cx_last_attempt cx, cx_last_sequence cx)) as -> by done.
  rewrite <- Hb. rewrite Hn in *. rewrite Hg in *.
  split; [done|]. split; [by exists e|]. split; [done|]. split; [done|]. cbn.
  rewrite Ho in E8. cbn in E8. rewrite V2 in E8. split; [exact E8|]. split.
  - unfold end_evidence in Rep. rewrite E2, E3, E4, E6, E7, Ho in Rep. cbn in Rep.
    rewrite <- V2. by rewrite Rep.
  - exists on_disk. rewrite Ed. by rewrite lookup_insert_eq.
Qed.
End sink.

(** ** An honest transfer *)

Lemma ack_fits ack : string_wire (sap_detail ack) ->
  Z.of_nat (length (encode_payload encode_ShardAckPayload ack)) <= kMaxPayloadBytes.
Proof.
  intros Hs. unfold encode_payload.
  assert (exists b, writes (encode_ShardAckPayload ack)
    (be_bytes 8 (sap_bytes_received ack) ++ [if sap_verified ack then 1 else 0] ++
     [if sap_truncated ack then 1 else 0] ++
     (be_bytes 4 (dg_crc (sap_received_digest ack)) ++ be_bytes 8 (dg_fnv (sap_received_digest ack))) ++
     be_bytes 2 b ++ string_bytes (sap_detail ack))) as [b Hw].
  { eexists. repeat (apply writes_seq; [first [apply writes_u64|apply writes_boolean|apply writes_digest]|]).
    by apply writes_string. }
  rewrite Hw by done. destruct Hs as [Hl _]. cbn [enc_raw Encoder_default app].
  rewrite !length_app. cbn [length app]. rewrite !length_app, !be_bytes_length. cbn [length].
  rewrite ?length_app, ?be_bytes_length. unfold kMaxPayloadBytes, kMaxStringBytes in *. lia.
Qed.

(** A chunk of a shard, and the attempt it is sent under. *)
Record Chunk := mkChunk {
  ck_attempt : TransferAttemptId; ck_sequence : AttemptSequence; ck_bytes : list Z
}.
Definition chunk_data (chunks : list Chunk) : list Z := concat (map ck_bytes chunks).

(** The messages of one shard: its beginning, its chunks at their offsets, its end. *)
Definition chunk_payload (offset : Z) (c : Chunk) : ShardDataPayload :=
  mkShardDataPayload (ck_attempt c) (ck_sequence c) offset (ck_bytes c).
Fixpoint data_messages (offset : Z) (chunks : list Chunk) : list (MessageType * list Z) :=
  match chunks with
  | [] => []
  | c :: chunks =>
      (MessageType.ShardData, encode_payload encode_ShardDataPayload (chunk_payload offset c))
      :: data_messages (offset + Z.of_nat (length (ck_bytes c))) chunks
  end.
Definition end_payload (data : list Z) : ShardEndPayload :=
  mkShardEndPayload (Z.of_nat (length data)) (digest_of data) false.
Definition shard_messages (b : ShardBeginPayload) (chunks : list Chunk) : list (MessageType * list Z) :=
  (MessageType.ShardBegin, encode_payload encode_ShardBeginPayload b) :: data_messages 0 chunks ++
  [(MessageType.ShardEnd, encode_payload encode_ShardEndPayload (end_payload (chunk_data chunks)))].

(** The answers to them: a running count and digest after each chunk, then the
    verdict. *)
Definition ack_message (ack : ShardAckPayload) : MessageType * list Z :=
  (MessageType.ShardAck, encode_payload encode_ShardAckPayload ack).
Fixpoint chunk_acks (data : list Z) (chunks : list Chunk) : list (MessageType * list Z) :=
  match chunks with
  | [] => []
  | c :: chunks =>
      let data := data ++ ck_bytes c in
      ack_message (mkShardAckPayload (Z.of_nat (length data)) false false (digest_of data) "chunk accepted")
      :: chunk_acks data chunks
  end.
Definition shard_acks (chunks : list Chunk) : list (MessageType * list Z) :=
  let data := chunk_data chunks in
  chunk_acks [] chunks ++
  [ack_message (mkShardAckPayload (Z.of_nat (length data)) true false (digest_of data)
     (VerificationOutcome.to_string VerificationOutcome.Verified))].

(** The attempt the last bytes are sent under. *)
Definition last_chunk (b : ShardBeginPayload) (chunks : list Chunk) : TransferAttemptId * AttemptSequence :=
  foldl (fun _ c => (ck_attempt c, ck_sequence c)) (sbp_attempt b, sbp_sequence b) chunks.

Definition fits_frame (m : MessageType * list Z) : Prop := Z.of_nat (length m.2) <= kMaxPayloadBytes.

Section honest.
Context {S K : Type} `{ByteStream S} `{DuplexLaws K}.
Context (config : SinkConfig) (can_open : string -> bool) (disk : nat -> Sync) (clock : nat -> Nanos).
Notation loop := (connection_loop config can_open disk clock).
Context (b : ShardBeginPayload).

Fixpoint chunks_wire (offset : Z) (chunks : list Chunk) : Prop :=
  match chunks with
  | [] => True
  | c :: chunks =>
      ShardDataPayload_wire (sk_limits config) (chunk_payload offset c) /\
      chunks_wire (offset + Z.of_nat (length (ck_bytes c))) chunks
  end.

(** The two directions of a channel, after [q] messages in and [p] out. *)
Definition channel_at (q p : Z) (input output : list Z) (c : MessageChannel K) : Prop :=
  sequenced c (q + 1) /\ ch_send_sequence c = p /\ incoming (ch_socket c) = input /\
  outgoing (ch_socket c) = output.

Lemma loop_receives q p type payload input output (cx : Connection K) (sk : Sink S) :
  0 <= q -> q + 1 < 2 ^ 64 -> Z.of_nat (length payload) <= kMaxPayloadBytes ->
  channel_at q p (frame_of (q + 1) type payload ++ input) output (cx_channel cx) ->
  exists channel, channel_at (q + 1) p input output channel /\
    forall cx' sk', sink_message config can_open disk clock (mkMessage type (q + 1) payload)
            (mkConnection channel (cx_active cx) (cx_begin cx) (cx_digest cx) (cx_received cx) (cx_file cx)
               (cx_last_attempt cx) (cx_last_sequence cx)) sk = (Continue, cx', sk') ->
    forall fuel, loop (Datatypes.S fuel) cx sk = loop fuel cx' sk'.
Proof.
  intros Hq Hq' Hp (Hs & Hps & Hi & Ho).
  destruct (receive_message (q + 1) type payload (cx_channel cx) input ltac:(lia) Hp Hs Hi) as (s' & Hr & Hi' & Ho').
  exists (mkChannel s' (ch_send_sequence (cx_channel cx)) (q + 1) true). split.
  - split; [intros _; cbn; lia|]. cbn. split_and!; congruence.
  - intros cx' sk' E fuel. cbn [connection_loop]. rewrite Hr.
    match goal with |- context [sink_message _ _ _ _ ?m ?x sk] =>
      change (sink_message config can_open disk clock m x sk) with
        (sink_message config can_open disk clock (mkMessage type (q + 1) payload)
          (mkConnection (mkChannel s' (ch_send_sequence (cx_channel cx)) (q + 1) true) (cx_active cx) (cx_begin cx)
             (cx_digest cx) (cx_received cx) (cx_file cx) (cx_last_attempt cx) (cx_last_sequence cx)) sk) end.
    by rewrite E.
Qed.

Lemma ack_sent ack q p input output (cx : Connection K) :
  string_wire (sap_detail ack) -> 0 <= p -> p + 1 < 2 ^ 64 -> channel_at q p input output (cx_channel cx) ->
  let '(status, cx') := send_ack ack cx in
  Status_ok status = true /\
  channel_at q (p + 1) input (output ++ frame_of (p + 1) MessageType.ShardAck
    (encode_payload encode_ShardAckPayload ack)) (cx_channel cx').
Proof.
  intros Hs Hp Hp' (Hseq & <- & Hi & Ho). unfold send_ack.
  destruct (send_message MessageType.ShardAck _ (cx_channel cx) Hp Hp' (ack_fits ack Hs)) as (s' & -> & Hi' & Ho').
  split; [done|]. split; [exact Hseq|]. cbn. split_and!; congruence.
Qed.

(** In the middle of the shard. *)
Definition midway (base : gmap string (list Z)) (data : list Z) (last : TransferAttemptId * AttemptSequence)
    (q p : Z) (input output : list Z) (cx : Connection K) (sk0 sk : Sink S) : Prop :=
  cx_active cx = true /\ cx_begin cx = b /\ receiving cx sk base data /\
  (cx_last_attempt cx, cx_last_sequence cx) = last /\
  channel_at q p input output (cx_channel cx) /\
  sink_client sk = sink_client sk0 /\ sink_ticks sk = sink_ticks sk0 /\
  kr_shards_verified (sink_result sk) = kr_shards_verified (sink_result sk0) /\
  kr_shards_received (sink_result sk) = kr_shards_received (sink_result sk0).

Hypothesis no_death : sk_die_after_bytes config = 0.
Hypothesis no_loss : forall i, synced (disk i) = true.

Lemma data_step base data last q p input output cx sk0 sk c :
  0 <= q -> q + 1 < 2 ^ 64 -> 0 <= p -> p + 1 < 2 ^ 64 ->
  Z.of_nat (length (data ++ ck_bytes c)) < 2 ^ 64 ->
  let payload := encode_payload encode_ShardDataPayload (chunk_payload (Z.of_nat (length data)) c) in
  Z.of_nat (length payload) <= kMaxPayloadBytes ->
  ShardDataPayload_wire (sk_limits config) (chunk_payload (Z.of_nat (length data)) c) ->
  midway base data last q p (frame_of (q + 1) MessageType.ShardData payload ++ input) output cx sk0 sk ->
  exists cx' sk', (forall fuel, loop (Datatypes.S fuel) cx sk = loop fuel cx' sk') /\
    midway base (data ++ ck_bytes c) (ck_attempt c, ck_sequence c) (q + 1) (p + 1) input
      (output ++ frames p (chunk_acks data [c])) cx' sk0 sk'.
Proof.
  intros Hq Hq' Hp Hp' Hl. cbn zeta. intros Hfit Hw (Ha & Eb & Hr & _ & Hch & Hc & Ht & Hv & Hn).
  destruct (loop_receives _ _ _ _ _ _ cx sk Hq Hq' Hfit Hch) as (channel & Hch1 & Hloop).
  match type of Hloop with forall cx' sk', ?m = _ -> _ => enough (exists cx' sk', m = (Continue, cx', sk') /\
    midway base (data ++ ck_bytes c) (ck_attempt c, ck_sequence c) (q + 1) (p + 1) input
      (output ++ frames p (chunk_acks data [c])) cx' sk0 sk') as (cx' & sk' & E & Hm) by eauto end.
  clear Hloop.
  unfold sink_message. cbn [msg_type msg_payload]. unfold handle_data.
  rewrite coded_payload with (v := chunk_payload (Z.of_nat (length data)) c) by (eauto with codec).
  cbn [cx_active cx_received cx_file]. rewrite Ha.
  destruct Hr as (Hf & Er & Eg). rewrite length_app in Hl. cbn [negb chunk_payload sdp_offset sdp_data].
  rewrite Er, (u64_small (Z.of_nat (length data))), Z.eqb_refl by lia. cbn [negb].
  pose proof (file_write_holds disk _ _ _ _ _ (ck_bytes c) Hf) as Hf'.
  destruct (file_write _ _ _ _) as [f1 d1]. destruct Hf' as (Hg & _ & Hf'). rewrite no_loss in Hg.
  rewrite Hg in *. specialize (Hf' eq_refl). cbn [negb]. rewrite no_death. cbn [Z.eqb negb andb].
  match goal with |- context [send_ack ?a ?x] => pose proof (send_ack_keeps a x) as Hk;
    pose proof (ack_sent a (q + 1) p input output x) as Hs; destruct (send_ack a x) as [sent cx'] end.
  cbn in Hk. destruct Hk as (E1 & E2 & E3 & E4 & E5 & E6 & E7 & _).
  destruct Hs as [Hsent Hch2]; [split; [apply Z.leb_le; reflexivity|reflexivity]|lia|lia|exact Hch1|].
  rewrite Hsent. cbn [negb]. eexists _, _. split; [reflexivity|].
  unfold midway, receiving. cbn -[frames]. rewrite E1, E2, E3, E4, E5, E6, E7, Eb, Eg in *.
  split; [done|]. split; [done|]. split.
  { split; [exact Hf'|]. rewrite received_digest. split; [|done]. rewrite length_app. f_equal. lia. }
  split; [done|]. split; [|done].
  cbn [chunk_acks frames ack_message]. rewrite app_nil_r.
  cbn in Hch2. rewrite received_digest in Hch2.
  rewrite u64_small, <- Nat2Z.inj_add, <- length_app in Hch2 by lia. exact Hch2.
Qed.

Lemma data_steps base chunks : forall data last q p input output cx sk0 sk,
  0 <= q -> q + Z.of_nat (length chunks) < 2 ^ 64 -> 0 <= p -> p + Z.of_nat (length chunks) < 2 ^ 64 ->
  Z.of_nat (length (data ++ chunk_data chunks)) < 2 ^ 64 ->
  Forall fits_frame (data_messages (Z.of_nat (length data)) chunks) ->
  chunks_wire (Z.of_nat (length data)) chunks ->
  midway base data last q p (frames q (data_messages (Z.of_nat (length data)) chunks) ++ input) output cx sk0 sk ->
  exists cx' sk', (forall fuel, loop (length chunks + fuel)%nat cx sk = loop fuel cx' sk') /\
    midway base (data ++ chunk_data chunks)
      (foldl (fun _ c => (ck_attempt c, ck_sequence c)) last chunks)
      (q + Z.of_nat (length chunks)) (p + Z.of_nat (length chunks)) input
      (output ++ frames p (chunk_acks data chunks)) cx' sk0 sk'.
Proof.
  unfold chunk_data. induction chunks as [|c chunks IH]; intros data last q p input output cx sk0 sk
    Hq Hq' Hp Hp' Hl Hfit Hw Hm.
  { exists cx, sk. cbn in *. rewrite !app_nil_r, !Z.add_0_r. done. }
  destruct Hw as [Hw1 Hw]. cbn [map concat length data_messages frames foldl] in *.
  apply Forall_cons in Hfit as [Hfit1 Hfit]. rewrite <- app_assoc in Hm. rewrite app_assoc in Hl.
  destruct (data_step base data last q p _ _ cx sk0 sk c Hq ltac:(lia) Hp ltac:(lia)
    ltac:(rewrite length_app in Hl; lia) Hfit1 Hw1 Hm) as (cx1 & sk1 & E1 & Hm1).
  rewrite <- Nat2Z.inj_add, <- length_app in Hfit, Hw, Hm1.
  destruct (IH (data ++ ck_bytes c) (ck_attempt c, ck_sequence c) (q + 1) (p + 1) input _ cx1 sk0 sk1 ltac:(lia)
    ltac:(lia) ltac:(lia) ltac:(lia) Hl Hfit Hw Hm1) as (cx2 & sk2 & E2 & Hm2).
  exists cx2, sk2. split; [intros fuel; cbn [Nat.add]; by rewrite E1|].
  cbn [chunk_acks frames ack_message] in *. rewrite app_nil_r, <- !app_assoc in Hm2.
  replace (q + Z.of_nat (Datatypes.S (length chunks))) with (q + 1 + Z.of_nat (length chunks)) by lia.
  replace (p + Z.of_nat (Datatypes.S (length chunks))) with (p + 1 + Z.of_nat (length chunks)) by lia.
  exact Hm2.
Qed.

Lemma Digest_eqb_refl d : Digest_eqb d d = true.
Proof. unfold Digest_eqb. by rewrite !Z.eqb_refl. Qed.

Hypothesis verifies : sk_verify config = true.

(** The evidence of a shard that was received whole. *)
Definition verified_evidence (data : list Z) (last : TransferAttemptId * AttemptSequence) (now : Nanos)
  : VerificationEvidence :=
  mkVerificationEvidence (sbp_session b) last.1 last.2 (sbp_shard b) (Z.of_nat (length data))
    (digest_of data) VerificationOutcome.Verified "" now.
Definition verified_report (data : list Z) (last : TransferAttemptId * AttemptSequence) (sk : Sink S)
  : Status * CoordinatorClient.t S :=
  CoordinatorClient.report_verification (verified_evidence data last (clock (sink_ticks sk)))
    (CoordinatorClient.current_fence (sbp_workload b) (Some (sbp_checkpoint_generation b)) None
       (sink_client sk)) (sink_client sk).

(** After the end of the shard. *)
Definition ended (base : gmap string (list Z)) (data : list Z) (last : TransferAttemptId * AttemptSequence)
    (q p : Z) (input output : list Z) (cx' : Connection K) (sk0 sk' : Sink S) : Prop :=
  channel_at (q + 1) (p + 1) input (output ++ frame_of (p + 1) MessageType.ShardAck
    (encode_payload encode_ShardAckPayload (mkShardAckPayload (Z.of_nat (length data)) true false
      (digest_of data) (VerificationOutcome.to_string VerificationOutcome.Verified)))) (cx_channel cx') /\
  dir_files (sink_directory sk') = <[shard_file b := data]> base /\
  kr_shards_verified (sink_result sk') = u32 (kr_shards_verified (sink_result sk0) + 1) /\
  kr_shards_received (sink_result sk') = u32 (kr_shards_received (sink_result sk0) + 1) /\
  sink_client sk' = (verified_report data last sk0).2.

Lemma end_step base data last q p input output cx sk0 sk :
  0 <= q -> q + 1 < 2 ^ 64 -> 0 <= p -> p + 1 < 2 ^ 64 -> Z.of_nat (length data) < 2 ^ 64 ->
  ShardBeginPayload_wire (sk_limits config) b ->
  sbp_declared_bytes b = Z.of_nat (length data) -> sbp_declared_digest b = digest_of data ->
  let payload := encode_payload encode_ShardEndPayload (end_payload data) in
  Z.of_nat (length payload) <= kMaxPayloadBytes ->
  midway base data last q p (frame_of (q + 1) MessageType.ShardEnd payload ++ input) output cx sk0 sk ->
  exists cx' sk', (forall fuel, loop (Datatypes.S fuel) cx sk = loop fuel cx' sk') /\
    ended base data last q p input output cx' sk0 sk'.
Proof.
  intros Hq Hq' Hp Hp' Hl Hw Hd Hg. cbn zeta. intros Hfit (Ha & Eb & Hr & Hlast & Hch & Hc & Ht & Hv & Hn).
  destruct (loop_receives _ _ _ _ _ _ cx sk Hq Hq' Hfit Hch) as (channel & Hch1 & Hloop).
  match type of Hloop with forall cx' sk', ?m = _ -> _ => enough (exists cx' sk', m = (Continue, cx', sk') /\
    ended base data last q p input output cx' sk0 sk') as (cx' & sk' & E & Hm) by eauto end.
  clear Hloop. unfold ended.
  unfold sink_message. cbn [msg_type msg_payload]. unfold handle_end.
  assert (ShardEndPayload_wire (sk_limits config) (end_payload data)) as He.
  { split; [cbn; unfold in_u64; lia|]. cbn. rewrite <- Hg. apply Hw. }
  rewrite coded_payload with (v := end_payload data) by (eauto with codec).
  cbn [cx_active cx_file]. rewrite Ha. cbn [negb]. destruct Hr as (Hf & Er & Eg).
  pose proof (file_end_holds disk _ _ _ _ _ Hf) as Hend.
  destruct (file_flush _ _ _) as [f1 d1]. destruct (file_close _ _ _) as [f2 d2].
  destruct Hend as (_ & _ & on_disk & Ed & Eall). rewrite !no_loss in Eall. rewrite Eall in Ed by done.
  match goal with |- context [end_outcome ?c ?m ?x] =>
    assert (end_outcome c m x = VerificationOutcome.Verified) as -> end.
  { unfold end_outcome. cbn. rewrite Eb, Er, Eg, Hd, Hg, u64_small, Z.eqb_refl by lia. cbn.
    rewrite Digest_eqb_refl, verifies. cbn. by rewrite andb_false_r. }
  match goal with |- context [send_ack ?a ?x] => pose proof (send_ack_keeps a x) as Hk;
    pose proof (ack_sent a (q + 1) p input output x) as Hs; destruct (send_ack a x) as [sent cx'] end.
  cbn in Hk. destruct Hk as (E1 & E2 & E3 & E4 & E5 & E6 & E7 & _).
  destruct Hs as [Hsent Hch2]; [split; [apply Z.leb_le; reflexivity|reflexivity]|lia|lia|exact Hch1|].
  rewrite Hsent. cbn [negb].
  match goal with |- context [CoordinatorClient.report_verification ?e ?f ?c] =>
    assert (CoordinatorClient.report_verification e f c = verified_report data last sk0) as -> end.
  { unfold verified_report, verified_evidence, end_evidence.
    cbn -[CoordinatorClient.report_verification CoordinatorClient.current_fence digest_of].
    rewrite E2, E3, E4, E6, E7, Eb, Er, Eg, u64_small by lia. rewrite Hc, Ht, <- Hlast. done. }
  destruct (verified_report data last sk0) as [reported client].
  eexists _, _. split; [reflexivity|]. cbn in Hch2 |- *.
  rewrite Er, Eg, u64_small in Hch2 by lia. split; [exact Hch2|]. rewrite Ed, Eb. split; [done|].
  rewrite <- Hv, <- Hn. by destruct (negb (Status_ok reported)).
Qed.

(** C22: an honest transfer is received, acknowledged, verified and reported.
    Suppose the connection delivers the [ShardBegin] of a shard that declares the
    length and the digest of its bytes, the bytes in order in any chunks (each
    within the receiver's limits and a frame, under whatever attempts), and its
    [ShardEnd]; the destination file can be opened and no write, flush or close
    fails; the sink verifies and injects no death.  Then its loop handles exactly
    these messages and goes on with what follows them; it answers each chunk with
    the running count and digest and the end with the verdict "verified", in this
    order; the directory has changed in the shard's file only, which holds exactly
    the bytes; the shard is counted as received and verified, and the evidence that
    says so, under the attempt of the last chunk, has been handed to the
    coordinator's client, whatever the coordinator answers. *)
Theorem honest_transfer_verified chunks (socket : K) (sk : Sink S) after :
  let data := chunk_data chunks in
  can_open (shard_file b) = true ->
  ShardBeginPayload_wire (sk_limits config) b -> chunks_wire 0 chunks ->
  sbp_declared_bytes b = Z.of_nat (length data) -> sbp_declared_digest b = digest_of data ->
  Forall fits_frame (shard_messages b chunks) -> Z.of_nat (length chunks) + 2 < 2 ^ 64 ->
  incoming socket = frames 0 (shard_messages b chunks) ++ after ->
  exists cx' sk',
    (forall fuel, loop (length chunks + 2 + fuel) (connection_start socket) sk = loop fuel cx' sk') /\
    incoming (ch_socket (cx_channel cx')) = after /\
    outgoing (ch_socket (cx_channel cx')) = outgoing socket ++ frames 0 (shard_acks chunks) /\
    dir_files (sink_directory sk') = <[shard_file b := data]> (dir_files (sink_directory sk)) /\
    kr_shards_verified (sink_result sk') = u32 (kr_shards_verified (sink_result sk) + 1) /\
    kr_shards_received (sink_result sk') = u32 (kr_shards_received (sink_result sk) + 1) /\
    sink_client sk' = (verified_report data (last_chunk b chunks) sk).2.
Proof.
  cbn zeta. intros Ho Hw Hc Hd Hg Hfit Hn Hi. set (data := chunk_data chunks) in *.
  assert (0 <= Z.of_nat (length data) < 2 ^ 64) as Hl.
  { destruct Hw as (_ & _ & _ & _ & _ & _ & _ & Hw & _). unfold in_u64 in Hw. lia. }
  unfold shard_messages in Hi, Hfit. fold data in Hi, Hfit. apply Forall_cons in Hfit as [Hfit0 Hfit].
  apply Forall_app in Hfit as [Hfit1 Hfit2]. apply Forall_cons in Hfit2 as [Hfit2 _].
  cbn [frames] in Hi. rewrite frames_app in Hi. cbn [frames] in Hi. rewrite app_nil_r, <- !app_assoc in Hi.
  assert (channel_at 0 0 (incoming socket) (outgoing socket) (cx_channel (connection_start socket))) as Hch0
    by (split; [done|]; cbn; done).
  rewrite Hi in Hch0.
  assert (exists cx1 sk1, (forall fuel, loop (Datatypes.S fuel) (connection_start socket) sk = loop fuel cx1 sk1) /\
    midway (dir_files (sink_directory sk)) [] (sbp_attempt b, sbp_sequence b) 1 0
      (frames 1 (data_messages 0 chunks) ++ frame_of (1 + Z.of_nat (length (data_messages 0 chunks)) + 1)
         MessageType.ShardEnd (encode_payload encode_ShardEndPayload (end_payload data)) ++ after)
      (outgoing socket) cx1 sk sk1) as (cx1 & sk1 & E1 & Hm1).
  { destruct (loop_receives 0 0 MessageType.ShardBegin (encode_payload encode_ShardBeginPayload b) _ _
      (connection_start socket) sk ltac:(lia) ltac:(lia) Hfit0 Hch0)
      as (channel & Hch1 & Hloop). eexists _, _. split; [apply Hloop|].
    unfold sink_message. cbn [msg_type msg_payload]. unfold handle_begin.
    rewrite coded_payload with (v := b) by (eauto with codec). cbn [cx_file connection_start file_close of_file Ofstream_default].
    unfold file_open. rewrite Ho. cbn [of_good negb]. reflexivity.
    unfold midway, receiving, stream_holds. cbn [cx_active cx_begin cx_file cx_last_attempt cx_last_sequence
      cx_channel cx_received cx_digest of_file of_good of_buffer]. split_and!; try done. by exists []. }
  assert (length (data_messages 0 chunks) = length chunks) as Hlen.
  { generalize 0. clear. induction chunks as [|c chunks IH]; intros z; cbn; [done|]. by rewrite IH. }
  rewrite Hlen in Hm1.
  destruct (data_steps (dir_files (sink_directory sk)) chunks [] _ 1 0 _ _ cx1 sk sk1 ltac:(lia) ltac:(lia) ltac:(lia)
    ltac:(lia) ltac:(cbn [app]; fold data; lia) Hfit1 Hc Hm1) as (cx2 & sk2 & E2 & Hm2).
  cbn [app] in Hm2. fold data in Hm2.
  destruct (end_step (dir_files (sink_directory sk)) data _ (1 + Z.of_nat (length chunks))
    (0 + Z.of_nat (length chunks)) _ _ cx2 sk sk2 ltac:(lia) ltac:(lia) ltac:(lia) ltac:(lia)
    ltac:(lia) Hw Hd Hg Hfit2 Hm2) as (cx3 & sk3 & E3 & Hend). unfold ended in Hend.
  destruct Hend as ((_ & _ & Hin & Hout) & Hfin). exists cx3, sk3. split.
  { intros fuel. replace (length chunks + 2 + fuel)%nat with (Datatypes.S (length chunks + Datatypes.S fuel)) by lia.
    by rewrite E1, E2, E3. }
  split; [exact Hin|]. split; [|exact Hfin]. rewrite Hout. unfold shard_acks.
  assert (forall l, length (chunk_acks l chunks) = length chunks) as Hal.
  { clear. induction chunks as [|c chunks IH]; intros l; cbn; [done|]. by rewrite IH. }
  rewrite frames_app, Hal. cbn [frames ack_message]. rewrite app_nil_r, app_assoc. done.
Qed.
End honest.

(** ** Witnesses *)

Definition lab_sink : SinkConfig :=
  mkSinkConfig "127.0.0.1" 0 "/tmp/lab" "127.0.0.1" 1 1 0 true "ctf-sink" Limits_default.
Definition lab_chunks : list Chunk :=
  [mkChunk (mkId (mkUuid (replicate 16 4))) (mkGen 1) [10; 20];
   mkChunk (mkId (mkUuid (replicate 16 5))) (mkGen 2) [30; 40; 50]].
Definition lab_data : list Z := chunk_data lab_chunks.
Definition lab_begin : ShardBeginPayload :=
  mkShardBeginPayload small_session (mkId (mkUuid (replicate 16 4))) (mkGen 1) (sn_checkpoint small_config)
    (mkGen 1) (sn_workload small_config) (mkScalar 0) 5 (digest_of lab_data).
Definition lab_client : CoordinatorClient.t Pipe :=
  CoordinatorClient.mk (channel_open (mkPipe [] [])) HelloResponse_default "ctf-sink" Limits_default.
Definition lab_start : Sink Pipe := mkSink lab_client (mkDirectory ∅ 0) SinkResult_default 0.
Definition lab_clock (_ : nat) : Nanos := 0.
(** A disk that takes one buffered byte at a time until it is asked to flush. *)
Definition lab_disk (_ : nat) : Sync := Taken 1.
Notation lab_handle := (sink_message lab_sink (fun _ => true) lab_disk lab_clock).
Notation lab_open := (connection_start (mkPipe [] [])).
Notation lab_message n := (nth n (numbered 0 (shard_messages lab_begin lab_chunks))
                             (mkMessage MessageType.ShardEnd 0 [])).

(** The connection after each of the four messages of the shard. *)
Definition handled (r : SinkStep * Connection Pipe * Sink Pipe) : Connection Pipe * Sink Pipe := (r.1.2, r.2).
Notation lab_step m p := (handled (lab_handle m p.1 p.2)).
Notation lab_1 := (lab_step (lab_message 0%nat) (lab_open, lab_start)).
Notation lab_2 := (lab_step (lab_message 1%nat) lab_1).
Notation lab_3 := (lab_step (lab_message 2%nat) lab_2).
Notation lab_4 := (lab_step (lab_message 3%nat) lab_3).
Notation lab_reaches := (reaches lab_sink (fun _ => true) lab_disk lab_clock lab_start (mkPipe [] [])).

Definition continues (r : SinkStep * Connection Pipe * Sink Pipe) : bool :=
  match r.1.1 with Continue => true | _ => false end.
Lemma continues_handled r : continues r = true -> r = (Continue, (handled r).1, (handled r).2).
Proof. by destruct r as [[[| | |] cx] sk]. Qed.
Lemma reaches_handled ms message p : lab_reaches ms p.1 p.2 ->
  continues (lab_handle message p.1 p.2) = true ->
  lab_reaches (ms ++ [message]) (lab_step message p).1 (lab_step message p).2.
Proof. intros Hp E%continues_handled. exact (reaches_message _ _ _ _ _ _ _ _ _ message _ _ Hp E). Qed.
Lemma lab_continues :
  continues (lab_handle (lab_message 0%nat) lab_open lab_start) &&
  continues (lab_handle (lab_message 1%nat) lab_1.1 lab_1.2) &&
  continues (lab_handle (lab_message 2%nat) lab_2.1 lab_2.2) &&
  continues (lab_handle (lab_message 3%nat) lab_3.1 lab_3.2) = true.
Proof. vm_compute. reflexivity. Qed.
Lemma lab_verified : kr_shards_verified (sink_result lab_4.2) =? kr_shards_verified (sink_result lab_3.2) = false.
Proof. vm_compute. reflexivity. Qed.
Lemma lab_received : received_bytes lab_sink [lab_message 0%nat; lab_message 1%nat; lab_message 2%nat] = lab_data.
Proof. vm_compute. reflexivity. Qed.

Lemma sink_verified_sound_witness :
  exists on_disk, dir_files (sink_directory lab_4.2) !! shard_file
      (announced lab_sink [lab_message 0%nat; lab_message 1%nat; lab_message 2%nat]) = Some on_disk /\
    on_disk = lab_data.
Proof.
  pose proof lab_continues as C. rewrite !andb_true_iff in C. destruct C as (((C1 & C2) & C3) & C4).
  pose proof lab_verified as V. apply Z.eqb_neq in V.
  pose proof (reaches_handled [] (lab_message 0%nat) (lab_open, lab_start) (reaches_start _ _ _ _ _ _) C1) as R1.
  pose proof (reaches_handled _ (lab_message 1%nat) lab_1 R1 C2) as R2.
  pose proof (reaches_handled _ (lab_message 2%nat) lab_2 R2 C3) as R3.
  pose proof (sink_verified_sound lab_sink (fun _ => true) lab_disk lab_clock _ _ _ _ _ _ _ _
    R3 (continues_handled _ C4) V) as H. cbn [app] in H.
  destruct (delivered_by _ _) as [attempt sequence].
  destruct H as (_ & _ & _ & _ & _ & _ & on_disk & F & Hall). exists on_disk. split; [exact F|].
  rewrite <- lab_received. exact (Hall eq_refl eq_refl).
Defined.

Lemma lab_begin_wire : ShardBeginPayload_wire Limits_default lab_begin.
Proof.
  eapply wire_computed; [apply canon_ShardBeginPayload with (initial := ShardBeginPayload_default)|..];
    vm_compute; reflexivity.
Qed.
Lemma lab_chunks_wire : chunks_wire lab_sink 0 lab_chunks.
Proof.
  cbn [chunks_wire lab_chunks]. split; [|split; [|exact I]];
    (eapply wire_computed; [apply canon_ShardDataPayload with (initial := ShardDataPayload_default)|..];
     vm_compute; reflexivity).
Qed.
Lemma lab_fits : Forall fits_frame (shard_messages lab_begin lab_chunks).
Proof. repeat constructor; vm_compute; discriminate. Qed.

(** A connection that delivers the shard a byte at a time, then the next message's
    first byte. *)
Definition lab_socket : Pipe :=
  mkPipe (map (fun x => [x]) (frames 0 (shard_messages lab_begin lab_chunks)) ++ [[67]]) [].
Lemma lab_incoming : incoming lab_socket = frames 0 (shard_messages lab_begin lab_chunks) ++ [67].
Proof.
  cbn [incoming Pipe_laws pipe_chunks lab_socket]. rewrite concat_app. cbn [concat]. 
  apply (f_equal (fun l => l ++ [67])).
  generalize (frames 0 (shard_messages lab_begin lab_chunks)). intros l. induction l as [|x l IH]; [done|].
  cbn. by rewrite IH.
Qed.

Lemma honest_transfer_verified_witness :
  exists cx' sk',
    (forall fuel, connection_loop lab_sink (fun _ => true) lab_disk lab_clock (2 + 2 + fuel)
       (connection_start lab_socket) lab_start =
       connection_loop lab_sink (fun _ => true) lab_disk lab_clock fuel cx' sk') /\
    outgoing (ch_socket (cx_channel cx')) = frames 0 (shard_acks lab_chunks) /\
    dir_files (sink_directory sk') = {[ shard_file lab_begin := lab_data ]}.
Proof.
  destruct (honest_transfer_verified (S := Pipe) (K := Pipe) lab_sink (fun _ => true) lab_disk lab_clock
    lab_begin eq_refl (fun _ => eq_refl) eq_refl lab_chunks lab_socket lab_start [67] eq_refl lab_begin_wire
    lab_chunks_wire eq_refl eq_refl lab_fits ltac:(cbn; lia) lab_incoming) as (cx' & sk' & E & _ & O & F & _).
  exists cx', sk'. split; [exact E|]. split; [exact O|]. rewrite F. reflexivity.
Defined.
