(* ===== verification/ReportProps.v ===== *)
(** * ReportProps: the machine form of every report is JSON

    A parser for the JSON grammar, written from the grammar and not from the
    printer, reads back exactly the tree each report prints, whatever strings the
    report carries: nothing a client or an operator writes into a detail can break
    out of its field. *)

From stdpp Require Import base gmap list strings.
From Stdlib Require Import Ascii ZArith Lia.
From S2P Require Import Prelude Status Ids Bytes Hash Enums Model.
From S2P Require Import EngineState EngineAuthority EngineAdmission EngineLifecycle EngineInspect.
From S2P Require Import Wire Protocol Service Report IdsProps.

(** ** A JSON parser *)

(** The rest of a string, after its opening quote. *)
Fixpoint parse_string (text : list ascii) : option (list ascii * list ascii) :=
  let cons_ (c : ascii) (r : option (list ascii * list ascii)) :=
    match r with Some (s, rest) => Some (c :: s, rest) | None => None end in
  match text with
  | [] => None
  | c :: rest =>
      if bool_decide (c = dquote) then Some ([], rest)
      else if bool_decide (c = backslash) then
        match rest with
        | [] => None
        | e :: rest =>
            if bool_decide (e = dquote) then cons_ dquote (parse_string rest)
            else if bool_decide (e = backslash) then cons_ backslash (parse_string rest)
            else if bool_decide (e = "n"%char) then cons_ "010"%char (parse_string rest)
            else if bool_decide (e = "r"%char) then cons_ "013"%char (parse_string rest)
            else if bool_decide (e = "t"%char) then cons_ "009"%char (parse_string rest)
            else if bool_decide (e = "u"%char) then
              match rest with
              | a :: b :: h :: l :: rest =>
                  let high := hex_digit_value h in
                  let low := hex_digit_value l in
                  if bool_decide (a = "0"%char) && bool_decide (b = "0"%char) &&
                     (0 <=? high) && (0 <=? low)
                  then cons_ (char_of (16 * high + low)) (parse_string rest)
                  else None
              | _ => None
              end
            else None
        end
      else if char_code c <? 0x20 then None
      else cons_ c (parse_string rest)
  end.

Definition digitb (c : ascii) : bool := (48 <=? char_code c) && (char_code c <=? 57).
Fixpoint span_digits (text : list ascii) : list ascii * list ascii :=
  match text with
  | c :: rest => if digitb c then let '(d, r) := span_digits rest in (c :: d, r) else ([], text)
  | [] => ([], [])
  end.
(** An unsigned integer: no leading zero. *)
Definition parse_natural (text : list ascii) : option (Z * list ascii) :=
  match span_digits text with
  | ([], _) => None
  | (c :: digits, rest) =>
      if bool_decide (c = "0"%char) && negb (bool_decide (digits = [])) then None
      else Some (dec_value 0 (c :: digits), rest)
  end.

Definition expect (word text : list ascii) : option (list ascii) :=
  if bool_decide (take (length word) text = word) then Some (drop (length word) text) else None.

Fixpoint parse_value (n : nat) (text : list ascii) : option (Json * list ascii) :=
  match n, text with
  | O, _ | _, [] => None
  | S n, c :: rest =>
      if bool_decide (c = dquote) then
        match parse_string rest with Some (s, r) => Some (JString (text_of s), r) | None => None end
      else if bool_decide (c = "["%char) then
        match rest with
        | d :: r => if bool_decide (d = "]"%char) then Some (JArray [], r)
                    else match parse_items n rest with Some (l, r) => Some (JArray l, r) | None => None end
        | [] => None
        end
      else if bool_decide (c = "{"%char) then
        match rest with
        | d :: r => if bool_decide (d = "}"%char) then Some (JObject [], r)
                    else match parse_fields n rest with Some (l, r) => Some (JObject l, r) | None => None end
        | [] => None
        end
      else if bool_decide (c = "t"%char) then
        match expect (chars "rue") rest with Some r => Some (JBool true, r) | None => None end
      else if bool_decide (c = "f"%char) then
        match expect (chars "alse") rest with Some r => Some (JBool false, r) | None => None end
      else if bool_decide (c = "-"%char) then
        match parse_natural rest with Some (v, r) => Some (JNumber (- v), r) | None => None end
      else match parse_natural text with Some (v, r) => Some (JNumber v, r) | None => None end
  end
with parse_items (n : nat) (text : list ascii) : option (list Json * list ascii) :=
  match n with
  | O => None
  | S n =>
      match parse_value n text with
      | Some (v, c :: rest) =>
          if bool_decide (c = ","%char) then
            match parse_items n rest with Some (l, r) => Some (v :: l, r) | None => None end
          else if bool_decide (c = "]"%char) then Some ([v], rest) else None
      | _ => None
      end
  end
with parse_fields (n : nat) (text : list ascii) : option (list (string * Json) * list ascii) :=
  match n, text with
  | S n, q :: text =>
      if negb (bool_decide (q = dquote)) then None
      else match parse_string text with
      | Some (key, colon :: text) =>
          if negb (bool_decide (colon = ":"%char)) then None
          else match parse_value n text with
          | Some (v, c :: rest) =>
              if bool_decide (c = ","%char) then
                match parse_fields n rest with
                | Some (l, r) => Some ((text_of key, v) :: l, r)
                | None => None
                end
              else if bool_decide (c = "}"%char) then Some ([(text_of key, v)], rest) else None
          | _ => None
          end
      | _ => None
      end
  | _, _ => None
  end.
(** Every level of nesting and every element uses at least one character. *)
Definition json_parse (text : list ascii) : option Json :=
  match parse_value (length text) text with Some (j, []) => Some j | _ => None end.

(** ** Strings and numbers *)

Lemma parse_escaped_char c text :
  parse_string (escape_char c ++ text) =
  match parse_string text with Some (s, rest) => Some (c :: s, rest) | None => None end.
Proof. by destruct c as [[] [] [] [] [] [] [] []]. Qed.

Lemma parse_escaped s rest : parse_string (json_escape s ++ dquote :: rest) = Some (s, rest).
Proof.
  induction s as [|c s IH]; [done|]. cbn [json_escape]. rewrite <- app_assoc, parse_escaped_char.
  by rewrite IH.
Qed.

(** What follows a number in a report is not a digit. *)
Definition delimited (rest : list ascii) : Prop :=
  match rest with c :: _ => digitb c = false | [] => True end.

Lemma span_digits_app digits rest : Forall is_digit digits -> delimited rest ->
  span_digits (digits ++ rest) = (digits, rest).
Proof.
  intros Hd Hr. induction Hd as [|c digits Hc _ IH]; cbn [app span_digits].
  - destruct rest as [|c rest]; [done|]. cbn in *. by rewrite Hr.
  - unfold is_digit in Hc. unfold digitb. rewrite (proj2 (Z.leb_le _ _)), (proj2 (Z.leb_le _ _)) by lia.
    cbn [andb]. by rewrite IH.
Qed.

Lemma parse_printed_natural n rest : 0 <= n < 10 ^ 20 -> delimited rest ->
  parse_natural (dec_text n ++ rest) = Some (n, rest).
Proof.
  intros Hn Hr. destruct (dec_digits_spec 20 n) as (F & V & N & _ & Z0); [done|lia|].
  fold (dec_text n) in *. unfold parse_natural. rewrite span_digits_app by done.
  destruct (dec_text n) as [|c digits] eqn:E; [done|].
  assert (bool_decide (c = "0"%char) && negb (bool_decide (digits = [])) = false) as ->.
  { destruct (Z.le_gt_cases 1 n) as [L|L].
    - by rewrite (bool_decide_eq_false_2 (c = _)) by (by eapply Z0).
    - assert (n = 0) as -> by lia. cbn in E. by injection E as <- <-. }
  by rewrite V.
Qed.

(** ** Trees *)

Fixpoint json_size (j : Json) : nat :=
  match j with
  | JArray items => S (list_sum (map (fun i => S (json_size i)) items))
  | JObject fields => S (list_sum (map (fun f => S (json_size (snd f))) fields))
  | _ => 1
  end.

(** The numbers of a tree are values of the machine types. *)
Fixpoint numbers_ok (j : Json) : Prop :=
  match j with
  | JNumber n => - 2 ^ 63 <= n < 2 ^ 64
  | JArray items => foldr and True (map numbers_ok items)
  | JObject fields => foldr and True (map (fun f => numbers_ok (snd f)) fields)
  | _ => True
  end.

(** The text of a number begins with a sign or a digit, so none of the other cases
    of the parser takes it. *)
Lemma digit_not_special c : is_digit c ->
  c <> dquote /\ c <> "["%char /\ c <> "]"%char /\ c <> "{"%char /\ c <> "t"%char /\ c <> "f"%char /\ c <> "-"%char.
Proof. intros Hc. repeat split; intros ->; unfold is_digit in Hc; vm_compute in Hc; intuition congruence. Qed.

Lemma parse_value_digit n c text : is_digit c -> parse_value (S n) (c :: text) =
  match parse_natural (c :: text) with Some (v, r) => Some (JNumber v, r) | None => None end.
Proof.
  intros Hc. apply digit_not_special in Hc as (H1 & H2 & _ & H3 & H4 & H5 & H6).
  cbn [parse_value]. by rewrite !bool_decide_eq_false_2.
Qed.

Lemma dec_text_head n : 0 <= n < 10 ^ 20 -> exists c text, dec_text n = c :: text /\ is_digit c.
Proof.
  intros Hn. destruct (dec_digits_spec 20 n) as (F & _ & N & _ & _); [done|lia|].
  unfold dec_text. destruct (dec_digits 20 n) as [|c text]; [done|].
  apply Forall_cons in F as [F _]. by exists c, text.
Qed.

Lemma parse_printed_number n m rest : - 2 ^ 63 <= m < 2 ^ 64 -> delimited rest ->
  parse_value (S n) (chars (int_to_string m) ++ rest) = Some (JNumber m, rest).
Proof.
  intros Hm Hr. unfold int_to_string. destruct (Z.ltb_spec m 0).
  - change (chars (String "-" (nat_to_string (- m))) ++ rest)
      with ("-"%char :: (chars (nat_to_string (- m)) ++ rest)).
    unfold nat_to_string. rewrite chars_text. cbn [parse_value]. cbv beta iota delta [bool_decide decide_rel].
    cbn -[dec_text parse_natural app]. rewrite parse_printed_natural by (done || lia). by rewrite Z.opp_involutive.
  - unfold nat_to_string. rewrite chars_text.
    destruct (dec_text_head m) as (c & text & E & Hc); [lia|].
    pose proof (parse_printed_natural m rest) as P. rewrite E in P |- *. cbn [app] in P |- *.
    rewrite parse_value_digit by done. rewrite P by (done || lia). done.
Qed.

(** No value begins with the end of an array. *)
Lemma print_head j : numbers_ok j -> exists c text, json_print j = c :: text /\ c <> "]"%char.
Proof.
  destruct j as [s|m|[]|items|fields]; intros Hj; try (by eexists _, _).
  cbn [json_print]. unfold int_to_string, nat_to_string. cbn [numbers_ok] in Hj.
  destruct (Z.ltb_spec m 0); [by eexists _, _|]. rewrite chars_text.
  destruct (dec_text_head m) as (c & text & -> & Hc); [lia|].
  exists c, text. by apply digit_not_special in Hc as (_ & _ & ? & _).
Qed.

Definition parses_value (n : nat) : Prop := forall j rest, numbers_ok j ->
  (json_size j <= n)%nat -> delimited rest -> parse_value n (json_print j ++ rest) = Some (j, rest).
Definition parses_items (n : nat) : Prop := forall i items rest,
  foldr and True (map numbers_ok (i :: items)) ->
  (list_sum (map (fun i => S (json_size i)) (i :: items)) <= n)%nat ->
  parse_items n (commas (map json_print (i :: items)) ++ "]"%char :: rest) = Some (i :: items, rest).
Definition print_field (f : string * Json) : list ascii :=
  (quoted (fst f) ++ [":"%char] ++ json_print (snd f))%list.
Definition parses_fields (n : nat) : Prop := forall f fields rest,
  foldr and True (map (fun f => numbers_ok (snd f)) (f :: fields)) ->
  (list_sum (map (fun f => S (json_size (snd f))) (f :: fields)) <= n)%nat ->
  parse_fields n (commas (map print_field (f :: fields)) ++ "}"%char :: rest) = Some (f :: fields, rest).

Lemma parses_items_step n : parses_value n -> parses_items n -> parses_items (S n).
Proof.
  intros Hv Hi i items rest Hok Hs. cbn [map foldr list_sum] in Hok, Hs. destruct Hok as [Hj Hok].
  destruct items as [|i' items].
  - cbn [map commas parse_items]. rewrite Hv by (done || lia). done.
  - change (commas (map json_print (i :: i' :: items)))
      with (json_print i ++ [","%char] ++ commas (map json_print (i' :: items))).
    rewrite <- !app_assoc. cbn [parse_items]. rewrite Hv by (done || lia).
    cbn [app]. rewrite bool_decide_eq_true_2 by done. rewrite Hi by (done || (cbn in *; lia)). done.
Qed.

Lemma parses_fields_step n : parses_value n -> parses_fields n -> parses_fields (S n).
Proof.
  intros Hv Hi [key v] fields rest Hok Hs. cbn [map foldr list_sum snd] in Hok, Hs. destruct Hok as [Hj Hok].
  destruct fields as [|f' fields].
  - cbn [map commas]. unfold print_field, quoted. cbn [fst snd]. rewrite <- !app_assoc.
    cbn [app parse_fields]. rewrite bool_decide_eq_true_2 by done. cbn [negb].
    rewrite parse_escaped, bool_decide_eq_true_2 by done. cbn [negb].
    rewrite Hv by (done || lia). rewrite text_chars. done.
  - change (commas (map print_field ((key, v) :: f' :: fields)))
      with (print_field (key, v) ++ [","%char] ++ commas (map print_field (f' :: fields))).
    unfold print_field at 1, quoted. cbn [fst snd]. rewrite <- !app_assoc.
    cbn [app parse_fields]. rewrite bool_decide_eq_true_2 by done. cbn [negb].
    rewrite parse_escaped, bool_decide_eq_true_2 by done. cbn [negb].
    rewrite Hv by (done || lia). rewrite bool_decide_eq_true_2 by done.
    rewrite Hi by (done || (cbn in *; lia)). by rewrite text_chars.
Qed.

Lemma parses_value_step n : parses_items n -> parses_fields n -> parses_value (S n).
Proof.
  intros Hi Hf j rest Hj Hs Hr. destruct j as [s|m|[]|items|fields]; [| |done|done| |].
  - cbn [json_print]. unfold quoted. rewrite <- !app_assoc. cbn [app parse_value].
    rewrite bool_decide_eq_true_2 by done. rewrite parse_escaped, text_chars. done.
  - by apply parse_printed_number.
  - cbn [json_print numbers_ok json_size] in *. rewrite <- !app_assoc. cbn [app].
    destruct items as [|i items]; [done|]. destruct (print_head i) as (c & text & E & Hc); [apply Hj|].
    specialize (Hi i items rest Hj ltac:(lia)).
    assert (exists more, commas (map json_print (i :: items)) ++ "]"%char :: rest = c :: more) as [more Em].
    { destruct items; cbn [map commas]; rewrite E; by eexists. }
    rewrite Em in Hi |- *. cbn [parse_value]. rewrite (bool_decide_eq_false_2 (c = _)) by done.
    by rewrite Hi.
  - cbn [json_print numbers_ok json_size] in *. rewrite <- !app_assoc. fold print_field. cbn [app].
    destruct fields as [|f fields]; [done|]. specialize (Hf f fields rest Hj ltac:(lia)).
    change (map (fun f => (quoted (fst f) ++ [":"%char] ++ json_print (snd f))%list) (f :: fields))
      with (map print_field (f :: fields)).
    assert (exists more, commas (map print_field (f :: fields)) ++ "}"%char :: rest = dquote :: more) as [more Em].
    { destruct fields; cbn [map commas]; unfold print_field, quoted; by eexists. }
    rewrite Em in Hf |- *. cbn [parse_value]. by rewrite Hf.
Qed.

Lemma parses_back n : parses_value n /\ parses_items n /\ parses_fields n.
Proof.
  induction n as [|n (Hv & Hi & Hf)].
  - split_and!; [intros [] ? _ Hs|intros ? ? ? _ Hs|intros ? ? ? _ Hs]; cbn in Hs; lia.
  - split_and!; [by apply parses_value_step|by apply parses_items_step|by apply parses_fields_step].
Qed.

(** The parser's fuel, the length of the text, covers every level and element. *)
Lemma length_commas (items : list (list ascii)) : items <> [] ->
  (list_sum (map (fun i => S (length i)) items) = S (length (commas items)))%nat.
Proof.
  induction items as [|i [|i' items] IH]; intros H; [done|cbn; lia|].
  change (commas (i :: i' :: items)) with (i ++ [","%char] ++ commas (i' :: items)).
  rewrite !length_app. specialize (IH ltac:(done)). cbn [map list_sum fold_right length] in *. lia.
Qed.

Lemma list_sum_le {A} (f g : A -> nat) (l : list A) : (forall x, x ∈ l -> (f x <= g x)%nat) ->
  (list_sum (map f l) <= list_sum (map g l))%nat.
Proof.
  intros H. induction l as [|x l IH]; [done|]. cbn [map list_sum fold_right].
  apply Nat.add_le_mono; [apply H; left|apply IH; intros y Hy; apply H; by right].
Qed.

(** Induction on trees, through the items of arrays and the fields of objects. *)
Lemma json_tree_ind (P : Json -> Prop) :
  (forall text, P (JString text)) -> (forall n, P (JNumber n)) -> (forall b, P (JBool b)) ->
  (forall items, Forall P items -> P (JArray items)) ->
  (forall fields, Forall (fun f => P (snd f)) fields -> P (JObject fields)) -> forall j, P j.
Proof.
  intros HS HN HB HA HO. fix IH 1. intros [text|n|b|items|fields]; [done..| |].
  - apply HA. induction items; constructor; [apply IH|assumption].
  - apply HO. induction fields; constructor; [apply IH|assumption].
Qed.

Lemma json_size_le j : (json_size j <= length (json_print j))%nat.
Proof.
  induction j as [s|m|[]|items IH|fields IH] using json_tree_ind; [cbn; lia| |cbn; lia..| |].
  - cbn [json_print json_size]. unfold int_to_string. destruct (m <? 0); [cbn; lia|].
    unfold nat_to_string. rewrite chars_text. unfold dec_text. cbn. rewrite length_app. cbn. lia.
  - cbn [json_print json_size]. rewrite !length_app. destruct items as [|i items]; [cbn; lia|].
    rewrite Forall_forall in IH.
    pose proof (length_commas (map json_print (i :: items)) ltac:(done)) as Hc. rewrite map_map in Hc.
    pose proof (list_sum_le (fun i => S (json_size i)) (fun i => S (length (json_print i))) (i :: items)) as Hs.
    cbn [length]. specialize (Hs ltac:(intros x Hx; specialize (IH x Hx); cbv beta in *; lia)). lia.
  - cbn [json_print json_size]. rewrite !length_app. destruct fields as [|f fields]; [cbn; lia|].
    rewrite Forall_forall in IH. fold print_field.
    pose proof (length_commas (map print_field (f :: fields)) ltac:(done)) as Hc. rewrite map_map in Hc.
    pose proof (list_sum_le (fun f => S (json_size (snd f))) (fun f => S (length (print_field f))) (f :: fields)) as Hs.
    cbn [length].
    specialize (Hs ltac:(intros x Hx; specialize (IH x Hx); cbv beta in *;
      unfold print_field; rewrite !length_app; lia)).
    unfold print_field in *. lia.
Qed.

Lemma json_round_trip j : numbers_ok j -> json_parse (json_print j) = Some j.
Proof.
  intros Hj. destruct (parses_back (length (json_print j))) as [Hv _].
  specialize (Hv j [] Hj (json_size_le j) I). rewrite app_nil_r in Hv.
  unfold json_parse. by rewrite Hv.
Qed.

(** The value of a field of a report, as a reader of the JSON finds it. *)
Definition json_field (name : string) (j : Json) : option Json :=
  match j with
  | JObject fields => snd <$> find (fun f => String.eqb (fst f) name) fields
  | _ => None
  end.

(** C40: The machine form of a session is JSON that a reader written from the
    grammar turns back into exactly the session's fields, whatever text the
    session's details carry (quotes, backslashes and control characters included),
    and the reader always finds the durability claim false: network evidence never
    reads as a durable checkpoint. *)
Theorem session_report_reads_back (v : SessionView) : numbers_ok (view_json v) ->
  json_parse (json_print (view_json v)) = Some (view_json v) /\
  json_field "durable_checkpoint_success" (view_json v) = Some (JBool false) /\
  json_field "last_detail" (view_json v) =
    (match sv_last_reason v with Some _ => Some (JString (sv_last_detail v)) | None => None end).
Proof.
  intros Hv. split; [by apply json_round_trip|]. split; [done|].
  unfold view_json, json_field. destruct (sv_last_reason v); [done|].
  by destruct (sv_deadline_target v).
Qed.

(** A detail that tries to close its field and to claim success. *)
Definition hostile_detail : string :=
  text_of ([dquote; ","%char; dquote] ++ chars "durable_checkpoint_success" ++
           [dquote; ":"%char] ++ chars "true" ++ [backslash; "010"%char; "001"%char]).

Definition hostile_session : SessionView :=
  mkSessionView id_nil id_nil (mkGen 3) id_nil (mkGen 6) IsolationClass.TrainingBulk
    DestinationClass.LocalAttachedStore SessionState.Failed EvidenceLevel.Transferred
    DurabilityStatus.NotEstablished 4096 1024 0 1 0 0 0 (Some ReasonCode.Admitted_) hostile_detail ""
    None None [mkShardProgress (mkScalar 0) ShardState.Pending 4096 1024 0 (mkGen 1) None (mkDigest 0 0) None]
    (-5) (2 ^ 63 - 1) None.

Lemma session_report_reads_back_witness :
  let v := hostile_session in
  numbers_ok (view_json v) /\ json_parse (json_print (view_json v)) = Some (view_json v) /\
  json_field "last_detail" (view_json v) = Some (JString hostile_detail).
Proof.
  assert (numbers_ok (view_json hostile_session)) as H
    by (vm_compute; repeat split; intros ?; discriminate).
  destruct (session_report_reads_back _ H) as (P & _ & D). exact (conj H (conj P D)).
Defined.
