(* ===== verification/NetProps.v ===== *)
(** * NetProps: what the transport promises

    Whatever the operating system answers, a write hands over a prefix of its
    bytes, and all of them when it reports success; a read takes bytes from the
    front; a wait ends once a stop request is visible; and no descriptor is lost.
    On a connection without failures a socket implements [StreamLaws], so what is
    proved of channels holds over it. *)

From stdpp Require Import base gmap list strings.
From Stdlib Require Import ZArith Lia.
From S2P Require Import Prelude Status Ids Enums Wire Protocol ChannelProps Net.

#[local] Open Scope Z_scope.

(** ** Waiting leaves the buffers alone *)

Definition same_buffers (os os' : Os) : Prop := os_in os' = os_in os /\ os_out os' = os_out os.
Definition same_queues (os os' : Os) : Prop := os_recvs os' = os_recvs os /\ os_sends os' = os_sends os.
#[local] Hint Unfold same_buffers same_queues : core.

Lemma stop_requested_same os b os' : stop_requested os = (b, os') ->
  same_buffers os os' /\ same_queues os os' /\ os_selects os' = os_selects os.
Proof. unfold stop_requested. destruct (os_stop os) as [[|n]|]; intros [= <- <-]; auto. Qed.

Lemma wait_loop_same selects os o os' : wait_loop selects os = (o, os') ->
  same_buffers os os' /\ same_queues os os' /\ o <> WaitOutcome.TimedOut.
Proof.
  revert os. induction selects as [|a selects IH]; intros os; cbn [wait_loop];
    destruct (stop_requested os) as [b os1] eqn:E; apply stop_requested_same in E as ([E1 E2] & [E3 E4] & _).
  - destruct b; intros [= <- <-]; cbn; auto 10.
  - destruct b; [intros [= <- <-]; cbn; auto 10|].
    destruct (0 <? an_result a); [intros [= <- <-]; cbn; auto 10|].
    destruct (an_result a =? 0); [|intros [= <- <-]; cbn; auto 10].
    intros H. apply IH in H as ([H1 H2] & [H3 H4] & H5). repeat split; congruence.
Qed.
Lemma wait_for_same os o os' : wait_for os = (o, os') ->
  same_buffers os os' /\ same_queues os os' /\ o <> WaitOutcome.TimedOut.
Proof. apply wait_loop_same. Qed.

(** ** Lengths *)

Lemma call_length_small size : Z.of_nat size < 2 ^ 31 -> call_length size = Z.of_nat size.
Proof.
  intros Hs. unfold call_length, s32. rewrite Z.mod_small by lia. rewrite u64_small; lia.
Qed.

Lemma sys_send_spec data a os n os' : sys_send data a os = (n, os') ->
  same_queues os os' /\ os_in os' = os_in os /\ n <= Z.of_nat (length data) /\
  os_out os' = os_out os ++ take (Z.to_nat n) data /\
  (0 < an_result a -> data <> [] -> Z.of_nat (length data) < 2 ^ 31 -> 0 < n).
Proof.
  unfold sys_send. destruct (Z.ltb_spec 0 (an_result a)).
  - intros [= <- <-]. cbn. rewrite Nat2Z.id. split_and!; [done|done|lia|done|].
    intros _ Hd Hl. rewrite call_length_small by done. destruct data; [done|]. cbn [length] in *. lia.
  - destruct (Z.eqb_spec (an_result a) 0); intros [= <- <-]; cbn; rewrite ?app_nil_r.
    + split_and!; [done|done|lia|done|lia].
    + replace (Z.to_nat (an_result a)) with 0%nat by lia. cbn. rewrite app_nil_r. split_and!; [done|done|lia|done|lia].
Qed.

Lemma sys_recv_spec size a os n data os' : sys_recv size a os = (n, data, os') ->
  same_queues os os' /\ os_out os' = os_out os /\ os_in os = data ++ os_in os' /\
  (Z.of_nat size < 2 ^ 31 -> (length data <= size)%nat) /\
  (n <= 0 -> data = []) /\ (0 < n -> data <> []) /\
  (0 < an_result a -> os_in os <> [] -> (0 < size)%nat -> Z.of_nat size < 2 ^ 31 -> 0 < n) /\
  (an_result a > 0 -> 0 <= n) /\ (an_result a < 0 -> n < 0).
Proof.
  unfold sys_recv. destruct (Z.ltb_spec 0 (an_result a)).
  - intros [= <- <- <-]. cbn. rewrite take_drop. set (n := Z.to_nat _).
    split_and!; [done|done|done| | | | |lia|lia].
    + intros Hs. rewrite length_take. unfold n. rewrite call_length_small by done. lia.
    + intros Hn. by replace n with 0%nat by lia.
    + intros Hn Ht. apply (f_equal length) in Ht. rewrite length_take in Ht. cbn in Ht. lia.
    + intros _ Hi Hz Hs. unfold n. rewrite call_length_small by done. destruct (os_in os); [done|]. cbn [length]. lia.
  - destruct (Z.eqb_spec (an_result a) 0); intros [= <- <- <-]; cbn; split_and!; auto; lia.
Qed.

(** ** Writing *)

Lemma next_send_same os a os' : next_send os = (a, os') ->
  same_buffers os os' /\ os_recvs os' = os_recvs os /\ os_stop os' = os_stop os /\
  os_selects os' = os_selects os /\ a = hd all_of_it (os_sends os) /\ os_sends os' = tl (os_sends os).
Proof. intros [= <- <-]. cbn. auto 10. Qed.
Lemma next_recv_same os a os' : next_recv os = (a, os') ->
  same_buffers os os' /\ os_sends os' = os_sends os /\ os_stop os' = os_stop os /\
  os_selects os' = os_selects os /\ a = hd all_of_it (os_recvs os) /\ os_recvs os' = tl (os_recvs os).
Proof. intros [= <- <-]. cbn. auto 10. Qed.

(** How a write ends: with some prefix handed over, all of it on success; the
    process is killed only by an answer of the operating system. *)
Definition wrote (data : list Z) (os : Os) (e : WriteEnd) (os' : Os) : Prop :=
  os_in os' = os_in os /\
  exists sent, os_out os' = os_out os ++ sent /\ sent `prefix_of` data /\
    match e with
    | Returns st => Status_ok st = true -> sent = data
    | Killed => exists a, a ∈ os_sends os /\ sigpipe a = true
    end.

Lemma wrote_nothing data os st os' :
  same_buffers os os' -> Status_ok st = false -> wrote data os (Returns st) os'.
Proof.
  intros [Hi Ho] Hst. split; [done|]. exists []. rewrite app_nil_r. split_and!; [done|apply prefix_nil|congruence].
Qed.
Lemma wrote_killed data os os' a : same_buffers os os' -> a ∈ os_sends os -> sigpipe a = true ->
  wrote data os Killed os'.
Proof.
  intros [Hi Ho] Ha Hs. split; [done|]. exists []. rewrite app_nil_r. eauto using prefix_nil.
Qed.
Lemma wrote_more data n os os1 e os' :
  os_in os1 = os_in os -> os_out os1 = os_out os ++ take n data ->
  (forall a, a ∈ os_sends os1 -> a ∈ os_sends os) ->
  wrote (drop n data) os1 e os' -> wrote data os e os'.
Proof.
  intros Hi Ho Hq (Hi' & sent & Ho' & Hp & Hs). split; [congruence|].
  exists (take n data ++ sent). rewrite Ho', Ho, app_assoc. split_and!; [done| |].
  - rewrite <- (take_drop n data) at 2. by apply prefix_app.
  - destruct e as [st|]; [intros Hok; rewrite Hs by done; apply take_drop|].
    destruct Hs as (a & Ha & Hk). eauto.
Qed.
Lemma elem_of_tail {A} (x : A) l : x ∈ tl l -> x ∈ l.
Proof. destruct l; [done|]. cbn. intros. apply elem_of_cons. by right. Qed.
Lemma sigpipe_hd l : sigpipe (hd all_of_it l) = true -> hd all_of_it l ∈ l.
Proof. destruct l; [done|]. intros _. cbn. apply elem_of_cons. by left. Qed.

Lemma write_loop_spec fuel data os : Z.of_nat (length data) < 2 ^ 31 ->
  (length data + length (os_sends os) <= fuel)%nat ->
  exists e os', write_loop fuel data os = Some (e, os') /\ wrote data os e os'.
Proof.
  revert data os. induction fuel as [|fuel IH]; intros data os Hl Hf.
  { destruct data; [|cbn in Hf; lia]. exists (Returns Status_success), os. split; [done|]. split; [done|].
    exists []. rewrite app_nil_r. auto using prefix_nil. }
  destruct data as [|b data].
  { exists (Returns Status_success), os. split; [done|]. split; [done|]. exists []. rewrite app_nil_r.
    auto using prefix_nil. }
  set (all := b :: data) in *. cbn [write_loop]. fold all.
  destruct (stop_requested os) as [stopped os1] eqn:E1. apply stop_requested_same in E1 as ([I1 O1] & [_ S1] & _).
  destruct stopped; [eexists _, _; split; [done|apply wrote_nothing; [auto|done]]|].
  destruct (wait_for os1) as [o os2] eqn:E2. apply wait_for_same in E2 as ([I2 O2] & [_ S2] & Hto).
  destruct o; [|done|eexists _, _; split; [done|apply wrote_nothing; [split; congruence|done]]..].
  destruct (next_send os2) as [a os3] eqn:E3.
  apply next_send_same in E3 as ([I3 O3] & _ & _ & _ & -> & S3).
  destruct (sigpipe _) eqn:Ek.
  { eexists _, _. split; [done|]. eapply wrote_killed; [split; congruence| |exact Ek].
    rewrite <- S1, <- S2. by apply sigpipe_hd. }
  destruct (sys_send all _ os3) as [n os4] eqn:E4. apply sys_send_spec in E4 as ([_ S4] & I4 & N4 & O4 & P4).
  assert (length (os_sends os4) = pred (length (os_sends os)))%nat as Hs4.
  { rewrite S4, S3, S2, S1. by destruct (os_sends os). }
  assert (forall a, a ∈ os_sends os4 -> a ∈ os_sends os) as Hq
    by (intros a; rewrite S4, S3, S2, S1; apply elem_of_tail).
  destruct (Z.ltb_spec 0 n) as [Hn|Hn].
  - destruct (IH (drop (Z.to_nat n) all) os4) as (e & os' & -> & W).
    { rewrite length_drop. lia. } { rewrite length_drop. lia. }
    exists e, os'. split; [done|]. eapply wrote_more; [| |exact Hq|exact W]; congruence.
  - destruct (os_sends os2) as [|a rest] eqn:Es.
    { specialize (P4 ltac:(done) ltac:(done) Hl). lia. }
    replace (Z.to_nat n) with 0%nat in O4 by lia. cbn in O4. rewrite app_nil_r in O4.
    destruct (retry (os_errno os4)); [|eexists _, _; split; [done|apply wrote_nothing; [split; congruence|done]]].
    destruct (IH all os4) as (e & os' & -> & W); [done| |].
    { assert (os_sends os = a :: rest) as Eo by congruence. rewrite Hs4, Eo. rewrite Eo in Hf.
      cbn [length pred] in *. lia. }
    exists e, os'. split; [done|]. eapply (wrote_more all 0 os os4); [congruence| |exact Hq|exact W].
    cbn. rewrite app_nil_r. congruence.
Qed.

(** C30: let the operating system answer the calls of one [write_all], of data
    whose size an [int] holds, in any finite number of ways (short writes,
    interruptions, spurious wake-ups, errors, a stop request at any poll) before
    it takes whatever it is offered.  Then the call returns, unless one of the
    answers to [send] is [EPIPE], in which case the process may be killed by
    [SIGPIPE] instead.  Either way what it has handed to the peer is a prefix of
    the data, and it reports success only after handing over all of it. *)
Theorem write_all_prefix data s : Z.of_nat (length data) < 2 ^ 31 ->
  exists e s', write_all data s = Some (e, s') /\ os_in (sock_os s') = os_in (sock_os s) /\
  exists sent, os_out (sock_os s') = os_out (sock_os s) ++ sent /\ sent `prefix_of` data /\
    match e with
    | Returns st => Status_ok st = true -> sent = data
    | Killed => exists a, a ∈ os_sends (sock_os s) /\ sigpipe a = true
    end.
Proof.
  intros Hl. unfold write_all. destruct (valid s); cbn [negb].
  - destruct (write_loop_spec (write_fuel data (sock_os s)) data (sock_os s) Hl) as (e & os' & -> & W).
    { unfold write_fuel. lia. }
    exists e, (with_os s os'). split; [done|]. exact W.
  - eexists (Returns _), s. split; [done|]. split; [done|]. exists []. rewrite app_nil_r.
    split_and!; [done|apply prefix_nil|done].
Qed.

(** A connection that is interrupted, accepts two bytes, fills up, and then takes
    the rest. *)
Definition slow_os : Os :=
  mkOs None [mkAnswer 0 EINTR; mkAnswer 1 EINTR]
    [mkAnswer (-1) EAGAIN; mkAnswer 2 EINTR] [mkAnswer (-1) EINTR; mkAnswer 2 EINTR; mkAnswer (-1) EAGAIN]
    (EOTHER "") [10; 20; 30] [].
Definition slow_socket : TcpSocket := mkSocket 5 slow_os.

Lemma write_all_prefix_witness :
  exists e s', write_all [1; 2; 3; 4] slow_socket = Some (e, s') /\ os_in (sock_os s') = [10; 20; 30] /\
  exists sent, os_out (sock_os s') = [] ++ sent /\ sent `prefix_of` [1; 2; 3; 4] /\
    match e with
    | Returns st => Status_ok st = true -> sent = [1; 2; 3; 4]
    | Killed => exists a, a ∈ os_sends slow_os /\ sigpipe a = true
    end.
Proof. exact (write_all_prefix [1; 2; 3; 4] slow_socket ltac:(cbn; lia)). Defined.

(** ** Reading *)

(** How a read ends: with some of the bytes at the front, or with none taken. *)
Definition read_front (size : nat) (os : Os) (r : Result (list Z)) (os' : Os) : Prop :=
  os_out os' = os_out os /\
  match r with
  | Val chunk => os_in os = chunk ++ os_in os' /\ (length chunk <= size)%nat
  | Err _ => os_in os' = os_in os
  end.

Lemma read_loop_spec fuel size os : (0 < size)%nat -> Z.of_nat size < 2 ^ 31 ->
  (length (os_recvs os) < fuel)%nat ->
  exists r os', read_loop fuel size os = Some (r, os') /\ read_front size os r os'.
Proof.
  intros Hz Hs. revert os. induction fuel as [|fuel IH]; intros os Hf; [lia|]. cbn [read_loop].
  destruct (stop_requested os) as [stopped os1] eqn:E1. apply stop_requested_same in E1 as ([I1 O1] & [R1 _] & _).
  destruct stopped; [eexists _, _; split; [done|]; by split|].
  destruct (wait_for os1) as [o os2] eqn:E2. apply wait_for_same in E2 as ([I2 O2] & [R2 _] & Hto).
  destruct o; [|done|eexists _, _; split; [done|]; split; congruence..].
  destruct (next_recv os2) as [a os3] eqn:E3.
  apply next_recv_same in E3 as ([I3 O3] & _ & _ & _ & -> & R3).
  destruct (sys_recv size _ os3) as [[n data] os4] eqn:E4.
  apply sys_recv_spec in E4 as ([R4 _] & O4 & I4 & L4 & Z4 & _ & _ & P4 & _).
  destruct (Z.ltb_spec 0 n) as [Hn|Hn].
  { eexists _, _. split; [done|]. split; [congruence|]. split; [congruence|by apply L4]. }
  rewrite (Z4 ltac:(lia)) in I4. cbn in I4.
  destruct (Z.eqb_spec n 0) as [Hn0|Hn0].
  { eexists _, _. split; [done|]. split; [congruence|]. split; [cbn; congruence|cbn; lia]. }
  destruct (retry (os_errno os4)).
  - assert (os_recvs os2 <> []) as Hne.
    { intros Hnil. rewrite Hnil in P4. specialize (P4 ltac:(done)). lia. }
    destruct (IH os4) as (r & os' & -> & W).
    { rewrite R4, R3. rewrite R2, R1 in Hne |- *. destruct (os_recvs os); [done|]. cbn [length tl] in *. lia. }
    exists r, os'. split; [done|]. destruct W as [W1 W2]. split; [congruence|]. destruct r; rewrite W2 || destruct W2.
    + split; [congruence|done].
    + congruence.
  - destruct (bool_decide _); eexists _, _; (split; [done|]); split; cbn; try congruence.
    split; [congruence|lia].
Qed.

(** Whatever finite number of answers the operating system gives before it is
    ready, [read_some] into a non-empty buffer
    returns, takes from the connection exactly the bytes it reports, at most as
    many as the buffer holds and from the front, and takes none when it reports an
    error. *)
Theorem read_some_exact size s : (0 < size)%nat -> Z.of_nat size < 2 ^ 31 ->
  exists r s', read_some size s = Some (r, s') /\ read_front size (sock_os s) r (sock_os s').
Proof.
  intros Hz Hs. unfold read_some. destruct (valid s); cbn [negb].
  - destruct (Nat.eqb_spec size 0); [lia|].
    destruct (read_loop_spec (read_fuel (sock_os s)) size (sock_os s) Hz Hs) as (r & os' & -> & W).
    { unfold read_fuel. lia. }
    by exists r, (with_os s os').
  - eexists _, s. split; [done|]. by split.
Qed.

Lemma read_some_exact_witness :
  exists r s', read_some 7 slow_socket = Some (r, s') /\ read_front 7 (sock_os slow_socket) r (sock_os s').
Proof. exact (read_some_exact 7 slow_socket ltac:(lia) ltac:(cbn; lia)). Defined.

(** Neither loop touches the bytes of the other direction. *)
Lemma read_loop_out fuel size os r os' : read_loop fuel size os = Some (r, os') -> os_out os' = os_out os.
Proof.
  revert os. induction fuel as [|fuel IH]; intros os; [done|]. cbn [read_loop].
  destruct (stop_requested os) as [stopped os1] eqn:E1. apply stop_requested_same in E1 as ([_ O1] & _ & _).
  destruct stopped; [by intros [= _ <-]|].
  destruct (wait_for os1) as [o os2] eqn:E2. apply wait_for_same in E2 as ([_ O2] & _ & _).
  destruct (next_recv os2) as [a os3] eqn:E3. apply next_recv_same in E3 as ([_ O3] & _).
  destruct (sys_recv size a os3) as [[n data] os4] eqn:E4. apply sys_recv_spec in E4 as (_ & O4 & _).
  destruct o; try (intros [= _ <-]; congruence);
    (destruct (0 <? n); [intros [= _ <-]; congruence|]); (destruct (n =? 0); [intros [= _ <-]; congruence|]);
    (destruct (retry _); [intros H%IH; congruence|]); destruct (bool_decide _); intros [= _ <-]; congruence.
Qed.
Lemma write_loop_in fuel data os e os' : write_loop fuel data os = Some (e, os') -> os_in os' = os_in os.
Proof.
  revert data os. induction fuel as [|fuel IH]; intros data os; (destruct data as [|b data];
    [by intros [= _ <-]|]); [done|]. set (all := b :: data). cbn [write_loop]. fold all.
  destruct (stop_requested os) as [stopped os1] eqn:E1. apply stop_requested_same in E1 as ([I1 _] & _ & _).
  destruct stopped; [by intros [= _ <-]|].
  destruct (wait_for os1) as [o os2] eqn:E2. apply wait_for_same in E2 as ([I2 _] & _ & _).
  destruct (next_send os2) as [a os3] eqn:E3. apply next_send_same in E3 as ([I3 _] & _).
  destruct (sys_send all a os3) as [n os4] eqn:E4. apply sys_send_spec in E4 as (_ & I4 & _).
  destruct o; try (intros [= _ <-]; congruence);
    (destruct (sigpipe a); [intros [= _ <-]; congruence|]); (destruct (0 <? n); [intros H%IH; congruence|]);
    (destruct (retry _); [intros H%IH; congruence|]); intros [= _ <-]; congruence.
Qed.

(** ** A connection without failures *)

(** No stop request, and no answer but success and a request to try again. *)
Definition retried (a : Answer) : Prop := an_result a < 0 /\ retry (an_errno a) = true.
Definition calm (os : Os) : Prop :=
  os_stop os = None /\ Forall (fun a => 0 <= an_result a) (os_selects os) /\
  Forall (fun a => 0 < an_result a \/ retried a) (os_recvs os) /\
  Forall (fun a => 0 < an_result a \/ retried a) (os_sends os).

Ltac calm := unfold calm; cbn; split_and!; try done; try (by constructor).

Lemma calm_wait os : calm os -> exists os', wait_for os = (WaitOutcome.Ready, os') /\ calm os'.
Proof.
  intros (Hs & Hw & Hr & Hd). unfold wait_for. revert Hw. generalize (os_selects os) as selects.
  intros selects. induction selects as [|a selects IH]; intros Hw; cbn [wait_loop];
    unfold stop_requested; rewrite Hs.
  - eexists. split; [done|]. by calm.
  - apply Forall_cons in Hw as [Ha Hw]. destruct (Z.ltb_spec 0 (an_result a)).
    + eexists. split; [done|]. by calm.
    + destruct (Z.eqb_spec (an_result a) 0); [by apply IH|lia].
Qed.

Lemma hd_answer l : Forall (fun a => 0 < an_result a \/ retried a) l ->
  0 < an_result (hd all_of_it l) \/ retried (hd all_of_it l).
Proof. intros [|a l' H]; [by left|done]. Qed.
Lemma tl_answers l : Forall (fun a => 0 < an_result a \/ retried a) l ->
  Forall (fun a => 0 < an_result a \/ retried a) (tl l).
Proof. intros [|a l' H]; [constructor|done]. Qed.

(** One call on a calm connection: it moves bytes, or it asks to try again. *)
Lemma calm_send data os n os' : calm os ->
  sys_send data (hd all_of_it (os_sends os)) (os <| os_sends := tl (os_sends os) |>) = (n, os') ->
  calm os' /\ (data <> [] -> Z.of_nat (length data) < 2 ^ 31 -> n <= 0 -> retry (os_errno os') = true).
Proof.
  intros (H1 & H2 & H3 & H4) E. pose proof (hd_answer _ H4) as [Ha|[Ha He]]; apply tl_answers in H4.
  - apply sys_send_spec in E as Hs. destruct Hs as (_ & _ & _ & _ & P). revert E. unfold sys_send.
    rewrite (proj2 (Z.ltb_lt _ _)) by done. intros [= <- <-]. split; [by calm|].
    intros Hd Hl. specialize (P Ha Hd Hl). lia.
  - revert E. unfold sys_send. rewrite (proj2 (Z.ltb_ge _ _)), (proj2 (Z.eqb_neq _ _)) by lia.
    intros [= <- <-]. split; [by calm|done].
Qed.
Lemma calm_recv size os n data os' : calm os ->
  sys_recv size (hd all_of_it (os_recvs os)) (os <| os_recvs := tl (os_recvs os) |>) = (n, data, os') ->
  calm os' /\ (n < 0 -> retry (os_errno os') = true).
Proof.
  intros (H1 & H2 & H3 & H4). pose proof (hd_answer _ H3) as [Ha|[Ha He]]; apply tl_answers in H3;
    unfold sys_recv.
  - rewrite (proj2 (Z.ltb_lt _ _)) by done. intros [= <- <- <-]. split; [by calm|lia].
  - rewrite (proj2 (Z.ltb_ge _ _)), (proj2 (Z.eqb_neq _ _)) by lia. intros [= <- <- <-]. split; [by calm|done].
Qed.

Lemma calm_poll os : calm os -> stop_requested os = (false, os).
Proof. intros [Hs _]. unfold stop_requested. by rewrite Hs. Qed.

Lemma calm_no_sigpipe os : calm os -> sigpipe (hd all_of_it (os_sends os)) = false.
Proof.
  intros (_ & _ & _ & H). unfold sigpipe. destruct (hd_answer _ H) as [Ha|[_ He]].
  - by rewrite (proj2 (Z.ltb_ge _ _)) by lia.
  - rewrite andb_false_iff. right. apply bool_decide_eq_false. intros E. by rewrite E in He.
Qed.
Lemma calm_write_loop fuel data os e os' : calm os -> write_loop fuel data os = Some (e, os') ->
  calm os' /\ (Z.of_nat (length data) < 2 ^ 31 -> e = Returns Status_success).
Proof.
  revert data os. induction fuel as [|fuel IH]; intros data os Hc; (destruct data as [|b data];
    [intros [= <- <-]; done|]); [done|].
  set (all := b :: data). cbn [write_loop]. fold all. rewrite (calm_poll os Hc).
  destruct (calm_wait os Hc) as (os2 & -> & Hc2). unfold next_send. rewrite (calm_no_sigpipe os2 Hc2).
  destruct (sys_send all _ _) as [n os4] eqn:E4. destruct (calm_send _ _ _ _ Hc2 E4) as [Hc4 He].
  destruct (Z.ltb_spec 0 n) as [Hp|Hp].
  - intros H. apply IH in H as [H1 H2]; [|done]. split; [done|]. intros Hl. apply H2. rewrite length_drop. lia.
  - specialize (He ltac:(done)). destruct (retry (os_errno os4)).
    + intros H. by apply IH in H.
    + intros [= <- <-]. split; [done|]. intros Hl. by specialize (He Hl ltac:(lia)).
Qed.

Lemma calm_read_loop fuel size os r os' : calm os -> read_loop fuel size os = Some (r, os') ->
  calm os' /\ exists chunk, r = Val chunk /\
    ((0 < size)%nat -> Z.of_nat size < 2 ^ 31 -> os_in os <> [] -> chunk <> []).
Proof.
  revert os. induction fuel as [|fuel IH]; intros os Hc; [done|]. cbn [read_loop].
  rewrite (calm_poll os Hc). destruct (wait_for os) as [o os2] eqn:E2.
  destruct (wait_for_same _ _ _ E2) as ([I2 _] & _ & _).
  destruct (calm_wait os Hc) as (os2' & Hw & Hc2). rewrite E2 in Hw. injection Hw as -> <-.
  unfold next_recv. destruct (sys_recv size _ _) as [[n data] os4] eqn:E4.
  destruct (calm_recv _ _ _ _ _ Hc2 E4) as [Hc4 He].
  apply sys_recv_spec in E4 as (_ & _ & I4 & _ & Z4 & D4 & P4 & _ & Q4). cbn in I4.
  destruct (Z.ltb_spec 0 n) as [Hp|Hp].
  { intros [= <- <-]. split; [done|]. exists data. split; [done|]. by auto. }
  destruct (Z.eqb_spec n 0) as [Hn|Hn].
  - intros [= <- <-]. split; [done|]. exists []. split; [done|]. intros Hz Hs Hi.
    destruct Hc2 as (_ & _ & Hr & _). destruct (hd_answer _ Hr) as [Ha|[Ha _]].
    + rewrite <- I2 in Hi. specialize (P4 Ha Hi Hz Hs). lia.
    + specialize (Q4 Ha). lia.
  - rewrite He by lia. intros H. apply IH in H as [H1 (chunk & -> & H2)]; [|done].
    split; [done|]. exists chunk. split; [done|]. intros Hz Hs Hi. apply H2; [done..|].
    rewrite (Z4 ltac:(lia)) in I4. cbn in I4. congruence.
Qed.

(** Open sockets on calm connections. *)
Definition serviceable (s : TcpSocket) : Prop := valid s = true /\ calm (sock_os s).
Definition CalmSocket : Type := { s : TcpSocket | serviceable s }.

Lemma write_keeps data s : serviceable s -> serviceable (stream_write data s).2.
Proof.
  intros [Hv Hc]. cbn. unfold write_all. rewrite Hv. cbn [negb].
  destruct (write_loop _ data (sock_os s)) as [[e os']|] eqn:E; [|done].
  apply calm_write_loop in E as [Hc' _]; [|done]. by destruct e; split.
Qed.
Lemma read_keeps n s : serviceable s -> serviceable (stream_read n s).2.
Proof.
  intros [Hv Hc]. cbn. unfold read_some. rewrite Hv. cbn [negb]. destruct (Nat.eqb n 0); [done|].
  destruct (read_loop _ n (sock_os s)) as [[r os']|] eqn:E; [|done].
  apply calm_read_loop in E as [Hc' _]; [|done]. by split.
Qed.

#[global] Instance CalmSocket_stream : ByteStream CalmSocket := {
  stream_write data s :=
    ((stream_write data (proj1_sig s)).1, exist _ (stream_write data (proj1_sig s)).2 (write_keeps data _ (proj2_sig s)));
  stream_read n s :=
    ((stream_read n (proj1_sig s)).1, exist _ (stream_read n (proj1_sig s)).2 (read_keeps n _ (proj2_sig s)))
}.

Lemma calm_reads n s : serviceable s -> (0 < n)%nat -> Z.of_nat n < 2 ^ 31 -> os_in (sock_os s) <> [] ->
  exists chunk s', stream_read n s = (Val chunk, s') /\ chunk <> [] /\ (length chunk <= n)%nat /\
    os_in (sock_os s) = chunk ++ os_in (sock_os s').
Proof.
  intros [Hv Hc] Hz Hn Hi. cbn. unfold read_some. rewrite Hv. cbn [negb].
  destruct (Nat.eqb_spec n 0); [lia|].
  destruct (read_loop_spec (read_fuel (sock_os s)) n (sock_os s) Hz Hn) as (r & os' & E & W); [unfold read_fuel; lia|].
  rewrite E. apply calm_read_loop in E as [_ (chunk & -> & Hne)]; [|done].
  destruct W as (_ & W1 & W2). exists chunk, (with_os s os'). auto.
Qed.
Lemma calm_writes data s : serviceable s -> Z.of_nat (length data) < 2 ^ 31 ->
  exists s', stream_write data s = (Status_success, s') /\ os_out (sock_os s') = os_out (sock_os s) ++ data.
Proof.
  intros [Hv Hc] Hl. cbn. unfold write_all. rewrite Hv. cbn [negb].
  destruct (write_loop_spec (write_fuel data (sock_os s)) data (sock_os s) Hl) as (e & os' & E & W);
    [unfold write_fuel; lia|].
  rewrite E. apply calm_write_loop in E as [_ Hst]; [|done]. rewrite (Hst Hl) in *.
  destruct W as (_ & sent & Ho & _ & Hs). exists (with_os s os'). split; [done|]. cbn. by rewrite Ho, Hs.
Qed.

#[global, program] Instance CalmSocket_laws : StreamLaws CalmSocket := {
  incoming s := os_in (sock_os (proj1_sig s));
  outgoing s := os_out (sock_os (proj1_sig s))
}.
Next Obligation.
  intros n [s Hs] Hz Hn Hi. destruct (calm_reads n s Hs Hz Hn Hi) as (chunk & s' & E & Hne & Hl & Hin).
  exists chunk, (exist _ (stream_read n s).2 (read_keeps n s Hs)).
  split; [apply (f_equal2 pair); [exact (f_equal fst E)|done]|].
  split; [done|]. split; [done|]. cbn [proj1_sig]. by rewrite E.
Qed.
Next Obligation.
  intros data [s Hs] Hl. destruct (calm_writes data s Hs Hl) as (s' & E & Ho).
  exists (exist _ (stream_write data s).2 (write_keeps data s Hs)).
  split; [apply (f_equal2 pair); [exact (f_equal fst E)|done]|]. cbn [proj1_sig]. by rewrite E.
Qed.

#[global] Instance CalmSocket_duplex : DuplexLaws CalmSocket.
Proof.
  split.
  - intros n [s [Hv Hc]]. cbn. unfold read_some. rewrite Hv. cbn [negb]. destruct (Nat.eqb n 0); [done|].
    destruct (read_loop _ n (sock_os s)) as [[r os']|] eqn:E; [|done]. cbn.
    by apply read_loop_out in E.
  - intros data [s [Hv Hc]]. cbn. unfold write_all. rewrite Hv. cbn [negb].
    destruct (write_loop _ data (sock_os s)) as [[e os']|] eqn:E; [|done].
    apply write_loop_in in E. by destruct e.
Qed.

(** C29: a socket on a connection without failures, however it fragments the bytes
    and however often it asks to try again, is the stream a channel relies on:
    every read returns some of the bytes at the front and keeps the rest for
    later, every write succeeds and hands over all of its bytes, and the socket
    stays usable. *)
Theorem tcp_socket_refines_stream (s : TcpSocket) : serviceable s ->
  (forall n, (0 < n)%nat -> Z.of_nat n < 2 ^ 31 -> os_in (sock_os s) <> [] ->
    exists chunk s', stream_read n s = (Val chunk, s') /\ serviceable s' /\ chunk <> [] /\
      (length chunk <= n)%nat /\ os_in (sock_os s) = chunk ++ os_in (sock_os s')) /\
  (forall data, Z.of_nat (length data) < 2 ^ 31 ->
    exists s', stream_write data s = (Status_success, s') /\ serviceable s' /\
      os_out (sock_os s') = os_out (sock_os s) ++ data).
Proof.
  intros Hs. split.
  - intros n Hz Hn Hi. destruct (calm_reads n s Hs Hz Hn Hi) as (chunk & s' & E & H).
    exists chunk, s'. pose proof (read_keeps n s Hs) as Hk. rewrite E in Hk. auto.
  - intros data Hl. destruct (calm_writes data s Hs Hl) as (s' & E & H).
    exists s'. pose proof (write_keeps data s Hs) as Hk. rewrite E in Hk. auto.
Qed.

Lemma slow_serviceable : serviceable slow_socket.
Proof.
  split; [done|]. unfold calm, retried. cbn.
  split_and!; [done|repeat constructor; cbn; lia|repeat constructor; cbn; lia|repeat constructor; cbn; lia].
Qed.

Lemma tcp_socket_refines_stream_witness :
  exists s', stream_write [1; 2; 3] slow_socket = (Status_success, s') /\ serviceable s' /\
    os_out (sock_os s') = os_out (sock_os slow_socket) ++ [1; 2; 3].
Proof. exact (proj2 (tcp_socket_refines_stream slow_socket slow_serviceable) [1; 2; 3] ltac:(cbn; lia)). Defined.

(** ** Stopping *)

(** A slice of [select] that elapses. *)
Definition elapsed : Answer := mkAnswer 0 (EOTHER "").

Lemma blocked_wait n k rest os : os_stop os = Some n -> (n <= k)%nat ->
  exists os', wait_loop (replicate k elapsed ++ rest) os = (WaitOutcome.Stopped, os') /\ same_buffers os os'.
Proof.
  revert k os. induction n as [|n IH]; intros k os Hs Hk.
  - exists (os <| os_selects := replicate k elapsed ++ rest |>).
    assert (stop_requested os = (true, os)) as E by (unfold stop_requested; by rewrite Hs).
    split; [|done]. destruct k as [|k]; cbn [replicate app]; [destruct rest|]; cbn [wait_loop]; by rewrite E.
  - destruct k as [|k]; [lia|]. cbn [replicate app wait_loop]. unfold stop_requested. rewrite Hs. cbn.
    destruct (IH k (os <| os_stop := Some n |>)) as (os' & E & H); [done|lia|].
    exists os'. split; [exact E|exact H].
Qed.

(** C31: a stop request reaches an operation that waits for its connection.  When
    [select] finds nothing ready for as long as the request takes to become
    visible, a read, a write and an accept return [ShuttingDown] at the first poll
    that sees it, and neither takes nor hands over a byte. *)
Theorem blocked_operation_stops n k rest os :
  os_stop os = Some n -> (n <= k)%nat -> os_selects os = replicate k elapsed ++ rest ->
  (forall handle size, handle <> kInvalidHandle -> (0 < size)%nat ->
    exists s', read_some size (mkSocket handle os) = Some (Err (cancelled "read"), s') /\
      same_buffers os (sock_os s')) /\
  (forall handle data, handle <> kInvalidHandle -> data <> [] ->
    exists s', write_all data (mkSocket handle os) = Some (Returns (cancelled "write"), s') /\
      same_buffers os (sock_os s')) /\
  (forall listener accepts open, lst_handle listener <> kInvalidHandle ->
    exists os', tcp_accept listener accepts os open = Some (Err (cancelled "accept"), os', open) /\
      same_buffers os os').
Proof.
  intros Hs Hk Hw. destruct (blocked_wait n k rest os Hs Hk) as (os' & E & B).
  assert (exists b os1, stop_requested os = (b, os1) /\ same_buffers os os1 /\
    (b = false -> exists os2, wait_for os1 = (WaitOutcome.Stopped, os2) /\ same_buffers os os2))
    as (b & os1 & Ep & B1 & Hwait).
  { unfold stop_requested. rewrite Hs. destruct n as [|n]; [by eexists true, _|].
    eexists false, _. split; [done|]. split; [done|]. intros _.
    destruct (blocked_wait n k rest (os <| os_stop := Some n |>)) as (os2 & E2 & B2); [done|lia|].
    exists os2. unfold wait_for. change (os_selects (os <| os_stop := Some n |>)) with (os_selects os).
    rewrite Hw. split; [exact E2|exact B2]. }
  split_and!.
  - intros handle size Hv Hz. unfold read_some, valid. cbn [handle_ sock_os].
    rewrite (proj2 (Z.eqb_neq _ _)) by done. destruct (Nat.eqb_spec size 0); [lia|]. cbn [negb].
    unfold read_fuel. cbn [read_loop]. rewrite Ep. destruct b; [by eexists|].
    destruct (Hwait eq_refl) as (os2 & -> & B2). by eexists.
  - intros handle data Hv Hd. unfold write_all, valid. cbn [handle_ sock_os].
    rewrite (proj2 (Z.eqb_neq _ _)) by done. cbn [negb]. unfold write_fuel. destruct data as [|x data]; [done|].
    cbn [write_loop]. rewrite Ep. destruct b; [by eexists|].
    destruct (Hwait eq_refl) as (os2 & -> & B2). by eexists.
  - intros listener accepts open Hv. unfold tcp_accept. rewrite (proj2 (Z.eqb_neq _ _)) by done.
    exists os'. split; [|done]. unfold wait_for in *. destruct accepts; cbn [accept_from]; unfold wait_for; by rewrite Hw, E.
Qed.

Definition stopping_os : Os :=
  mkOs (Some 2%nat) [elapsed; elapsed; elapsed] [] [] (EOTHER "") [] [7].
Lemma blocked_operation_stops_witness :
  exists s', read_some 4 (mkSocket 5 stopping_os) = Some (Err (cancelled "read"), s') /\
    same_buffers stopping_os (sock_os s').
Proof.
  exact (proj1 (blocked_operation_stops 2 3 [] stopping_os eq_refl ltac:(lia) eq_refl) 5 4%nat ltac:(done) ltac:(lia)).
Defined.

(** ** Descriptors *)

(** Descriptors the operating system hands out are not in use. *)
Definition fresh (d : Z + Errno) (open : gset Z) : Prop :=
  match d with inl socket => socket ∉ open | inr _ => True end.
Definition owned (r : Result Z) (open open' : gset Z) : Prop :=
  match r with Val socket => socket ∉ open /\ open' = {[ socket ]} ∪ open | Err _ => open' = open end.

Lemma close_fresh socket (open : gset Z) : socket ∉ open -> close_native socket ({[ socket ]} ∪ open) = open.
Proof. intros H. unfold close_native. set_solver. Qed.

Lemma try_candidates_owned candidates last os open r os' open' :
  Forall (fun c => fresh (ca_socket c) open) candidates ->
  try_candidates candidates last os open = (r, os', open') -> owned r open open'.
Proof.
  intros Hf. revert last os. induction Hf as [|c candidates Hc Hf IH]; intros last os; cbn [try_candidates].
  { by intros [= <- <- <-]. }
  destruct (stop_requested os) as [[] os1]; [by intros [= <- <- <-]|].
  destruct (ca_socket c) as [socket|e]; [|apply IH]. cbn in Hc.
  destruct (establish c last os1) as [[[] last'] os2]; cbn [negb].
  - intros [= <- <- <-]. done.
  - rewrite close_fresh by done. apply IH.
Qed.
Lemma try_bindings_owned bindings port last open r open' :
  Forall (fun b => fresh (bi_socket b) open) bindings ->
  try_bindings bindings port last open = (r, open') ->
  owned (match r with Val l => Val (lst_handle l) | Err st => Err st end) open open'.
Proof.
  intros Hf. revert last. induction Hf as [|b bindings Hb Hf IH]; intros last; cbn [try_bindings].
  { by intros [= <- <-]. }
  destruct (bi_socket b) as [socket|e]; [|apply IH]. cbn in Hb. rewrite close_fresh by done.
  destruct (an_result (bi_bind b) =? 0); cbn [negb]; [|apply IH].
  destruct (an_result (bi_listen b) =? 0); cbn [negb]; [|apply IH]. by intros [= <- <-].
Qed.
Lemma accept_from_owned accepts os open r os' open' :
  Forall (fun a => fresh a open) accepts ->
  accept_from accepts os open = Some (r, os', open') -> owned r open open'.
Proof.
  intros Hf. revert os. induction Hf as [|a accepts Ha Hf IH]; intros os; cbn [accept_from];
    destruct (wait_for os) as [[] os1]; try (by intros [= <- <- <-]); try done;
    destruct a as [socket|e]; try (by intros [= <- <- <-]); destruct (retry e); try apply IH; by intros [= <- <- <-].
Qed.

(** C32: no descriptor leaks: whichever addresses fail and at whichever call,
    connecting, binding and accepting leave open exactly what was open before, and
    besides it, on success, the one descriptor they return. *)
Theorem no_descriptor_leak (open : gset Z) :
  (forall host lookup os r os' open',
    Forall (fun c => fresh (ca_socket c) open) (default [] lookup) ->
    tcp_connect host lookup os open = (r, os', open') -> owned r open open') /\
  (forall host port lookup r open',
    Forall (fun b => fresh (bi_socket b) open) (default [] lookup) ->
    tcp_bind host port lookup open = (r, open') ->
    owned (match r with Val l => Val (lst_handle l) | Err st => Err st end) open open') /\
  (forall listener accepts os r os' open',
    Forall (fun a => fresh a open) accepts ->
    tcp_accept listener accepts os open = Some (r, os', open') -> owned r open open').
Proof.
  split_and!.
  - intros host [[|c candidates]|] os r os' open' Hf; unfold tcp_connect;
      [by intros [= <- <- <-]| |by intros [= <- <- <-]].
    intros H. by eapply (try_candidates_owned (c :: candidates)).
  - intros host port [[|b bindings]|] r open' Hf; unfold tcp_bind;
      [by intros [= <- <-]| |by intros [= <- <-]].
    intros H. by eapply (try_bindings_owned (b :: bindings)).
  - intros listener accepts os r os' open' Hf. unfold tcp_accept.
    destruct (_ =? _); [by intros [= <- <- <-]|]. intros H. by eapply accept_from_owned.
Qed.

(** A first address that refuses and a second that accepts. *)
Definition two_addresses : list Candidate :=
  [mkCandidate (inl 7) (mkAnswer (-1) EINPROGRESS) (Some 111);
   mkCandidate (inl 7) (mkAnswer 0 EINTR) None].
Lemma no_descriptor_leak_witness :
  owned (Val 7) {[ 3; 4 ]} ({[ 7 ]} ∪ {[ 3; 4 ]}).
Proof.
  apply (proj1 (no_descriptor_leak {[ 3; 4 ]}) "sink" (Some two_addresses) slow_os (Val 7)
    (slow_os <| os_selects := [] |>)).
  - repeat constructor; cbn; set_solver.
  - cbn. f_equal.
Defined.
