(* ===== verification/CliProps.v ===== *)
(** * CliProps: what the tools do to the coordinator

    The operator's tool end to end: from the command line, through the handshake,
    the query for the session's owner and the command itself, to the engine's
    operation and the exit code.  And what the agent's command line guarantees of
    the configuration it starts a sender with. *)

From stdpp Require Import base gmap list strings.
From Stdlib Require Import Ascii ZArith Lia.
From S2P Require Import Prelude Status Ids Bytes Hash Enums Model Fence Shaper.
From S2P Require Import EngineState EngineAuthority EngineAdmission EngineLifecycle EngineEvidence.
From S2P Require Import EngineInspect Wire Codec WireTheory WireCanon FrameProps Protocol CodecProps.
From S2P Require Import ProtocolCodec ChannelProps Snapshot Store Service Scenario CodecCanon.
From S2P Require Import Config Report IdsProps ConfigProps ServiceProps Client Served ClientProps Cli Sender Sink Programs.

#[local] Open Scope Z_scope.

(** ** [ctfctl] *)

(** A session within the service's limits and in one frame. *)
Definition view_wire (lim : Limits) (view : SessionView) : Prop :=
  SessionView_wire lim view /\ payload_fits (encode_payload encode_SessionView view).
Definition query_wire (lim : Limits) (session : SessionId) : Prop :=
  SessionQuery_wire lim (mkSessionQuery session) /\
  payload_fits (encode_payload encode_SessionQuery (mkSessionQuery session)).

Lemma view_answered kind identity mo moments (cl : Remote) session view :
  connected kind identity (mo :: moments) cl -> room 1 (channel_of cl) -> srv_stop (server cl) = false ->
  query_wire (cc_limits (srv_config (server cl))) session ->
  view_session session (srv_engine (server cl)) = Val view ->
  view_wire (CoordinatorClient.limits_ cl) view ->
  exists cl', CoordinatorClient.view_session session cl = (Val view, cl') /\
    after_call kind identity moments cl (note_message (server cl)) cl'.
Proof.
  intros Hcon Hroom Hlive [Hq Hqf] Hv [Hw Hf].
  eapply (ask_answered kind identity mo moments cl Hcon Hroom Hlive _ _ _ encode_SessionView);
    [done|exact Hqf|exact Hf|apply coded_payload; eauto with codec|].
  intros channel q. cbn [dispatch msg_type]. unfold handle_query_session, with_request, replies.
  cbn [cn_server msg_payload]. rewrite coded_payload with (v := mkSessionQuery session) by (eauto with codec).
  cbn [sq_session cn_server]. change (srv_engine (note_message (server cl))) with (srv_engine (server cl)).
  by rewrite Hv.
Qed.

(** The command each of the tool's changing commands sends. *)
Definition ctl_command (command detail : string) (session : SessionId) (fence : CommandFence)
  : option StatusCommand :=
  if String.eqb command "cancel" then Some (CancelSession session fence ReasonCode.CancelledByOperator detail)
  else if String.eqb command "pause" then Some (PauseSession session fence detail)
  else if String.eqb command "resume" then Some (ResumeSession session fence)
  else None.

Lemma mutate_answered kind identity mo1 mo2 (cl : Remote) command detail session view x :
  connected kind identity [mo1; mo2] cl -> room 2 (channel_of cl) -> srv_stop (server cl) = false ->
  query_wire (cc_limits (srv_config (server cl))) session ->
  view_session session (srv_engine (server cl)) = Val view ->
  view_wire (CoordinatorClient.limits_ cl) view ->
  ctl_command command detail session
    (CoordinatorClient.current_fence (sv_workload view) (Some (sv_checkpoint_generation view)) None cl) = Some x ->
  command_wire (cc_limits (srv_config (server cl))) x ->
  let '(answer, sv) := local_command mo2 (command_label x) (engine_command identity (mo_now mo2) x)
                         (note_message (note_message (server cl))) in
  string_wire (sp_detail answer) ->
  exists cl', Ctfctl.mutate command detail session cl =
      (Ctfctl.show_status (command +:+ " accepted for " +:+ uuid_text session) (read_status answer), cl') /\
    server cl' = sv.
Proof.
  intros Hcon Hroom Hlive Hq Hv Hvw Hx Hcw.
  destruct (local_command _ _ _ _) as [answer sv] eqn:E. intros Ha.
  destruct (view_answered kind identity mo1 [mo2] cl session view Hcon) as (cl1 & E1 & H1); [|done..|].
  { destruct Hroom. split; lia. }
  destruct H1 as (Hcon1 & Hsv1 & Hh1 & Hl1 & Hr1).
  assert (forall w g a, CoordinatorClient.current_fence w g a cl1 = CoordinatorClient.current_fence w g a cl) as Hf.
  { intros. unfold CoordinatorClient.current_fence. by rewrite Hh1. }
  pose proof (command_answered kind identity mo2 [] cl1 x Hcon1 (Hr1 1 Hroom)) as Hc.
  rewrite Hsv1, E in Hc.
  destruct Hc as (cl2 & E2 & _ & Hsv2 & _); [done|exact Hcw| |done|].
  { revert Hx. unfold ctl_command. by repeat case_match; intros [= <-]. }
  exists cl2. split; [|done]. unfold Ctfctl.mutate. rewrite E1, Hf. revert Hx E2. unfold ctl_command.
  repeat (case_match; [intros [= <-] E2; cbn [remote_command] in E2; by rewrite E2|]). done.
Qed.

(** A coordinator the tool can talk to: it serves, its epoch is set, its contracts
    are filed under their workloads, and its hello fits the client's limits. *)
Record answering (identity : string) (sv : Server) : Prop := {
  ans_identity : identity <> ""%string;
  ans_bounded : Z.of_nat (String.length identity) <= lim_max_string_bytes Limits_default;
  ans_text : string_wire identity;
  ans_hello : hello_wire Limits_default (note_message sv);
  ans_incarnation : 0 < gen_value (ep_incarnation (epoch_ (srv_engine sv)));
  ans_term : 0 < gen_value (ep_term (epoch_ (srv_engine sv)));
  ans_contracts : contracts_keyed (srv_engine sv);
  ans_serving : srv_stop sv = false
}.

(** C18: an operator's command is the engine's operation, end to end.  Run against
    a serving coordinator, [ctfctl cancel], [pause] or [resume] of a session makes
    the engine perform that operation once, under the fence the engine itself
    holds for the session's workload; the tool exits with 0 exactly when the
    engine accepted it and the state became durable, and otherwise with 2 and the
    code and the detail of the refusal; the coordinator is left as the local
    operation leaves it. *)
Theorem ctfctl_command_refines read dial argv command endpoint session sv mo1 mo2 view x :
  let args := Arguments.of_argv argv in
  let identity := flag_or "--identity" "ctfctl" args in
  let e := srv_engine sv in
  Arguments.has "--help" args = false -> Arguments.command args = Some command ->
  require_endpoint args = Val endpoint -> require_session args = Val session ->
  dial endpoint = Val (fresh sv [mo1; mo2]) -> answering identity sv ->
  view_session session e = Val view ->
  ctl_command command (flag_or "--detail" "ctfctl" args) session
    (current_fence e (sv_workload view) (Some (sv_checkpoint_generation view)) None) = Some x ->
  query_wire (cc_limits (srv_config sv)) session -> view_wire (limits_ e) view ->
  command_wire (cc_limits (srv_config sv)) x ->
  let '(answer, sv') := local_command mo2 (command_label x) (engine_command identity (mo_now mo2) x)
                          (note_message (note_message (note_message sv))) in
  string_wire (sp_detail answer) ->
  exists outcome cl, Ctfctl.main read dial argv = (outcome, Some cl) /\ server cl = sv' /\
    outcome = Ctfctl.show_status (command +:+ " accepted for " +:+ uuid_text session) (read_status answer) /\
    oc_code outcome = (if bool_decide (sp_code answer = ErrorCode.Ok) then kExitOk else kExitRefused).
Proof.
  cbn zeta. intros Hhelp Hcmd Hend Hses Hdial [] Hview Hx Hq Hvw Hcw.
  destruct (local_command _ _ _ _) as [answer sv'] eqn:E. intros Ha.
  set (args := Arguments.of_argv argv) in *. set (identity := flag_or "--identity" _ args) in *.
  destruct (connect_reaches (client_config endpoint ClientKind.Operator identity) sv [mo1; mo2])
    as (cl & Hcl & Hcon & Hsv & Hroom & Hlim & Hf); [assumption..|].
  pose proof (mutate_answered ClientKind.Operator identity mo1 mo2 cl command
    (flag_or "--detail" "ctfctl" args) session view x Hcon (Hroom 2 ltac:(lia))) as Hm.
  rewrite Hsv, Hlim, Hf, E in Hm. destruct (Hm ans_serving0 Hq Hview Hvw Hx Hcw Ha) as (cl' & Em & Hsv').
  eexists _, cl'. split; [|split; [exact Hsv'|split; [reflexivity|]]].
  - unfold Ctfctl.main. fold args. rewrite bool_decide_eq_false_2, Hhelp, Hcmd.
    2: { intros Hnil. by rewrite Hnil in Hcmd. }
    assert (String.eqb command "config" = false /\ String.eqb command "ping" = false /\
            String.eqb command "accounting" = false /\ String.eqb command "invariants" = false /\
            String.eqb command "list" = false /\ String.eqb command "shutdown" = false /\
            String.eqb command "status" = false /\ String.eqb command "explain" = false)
      as (N1 & N2 & N3 & N4 & N5 & N6 & N7 & N8).
    { revert Hx. unfold ctl_command.
      repeat (match goal with |- context [String.eqb command ?t] =>
        destruct (String.eqb_spec command t) as [->|]; [by intros [= <-]|] end). done. }
    unfold Ctfctl.run_command. rewrite N1, Hend, Hdial. fold identity. rewrite Hcl.
    unfold Ctfctl.connected_command. rewrite N2, N3, N4, N5, N6, Hses, N7, N8. by rewrite Em.
  - unfold Ctfctl.show_status, read_status. destruct (bool_decide (sp_code answer = ErrorCode.Ok)) eqn:B; [done|].
    apply bool_decide_eq_false in B. unfold Status_ok, Status_error. cbn.
    by rewrite bool_decide_eq_false_2.
Qed.

(** An operator pauses the session of the scenario. *)
Definition pause_argv : list string :=
  ["ctfctl"; "pause"; "--endpoint"; "127.0.0.1:4100"; "--session"; uuid_text S1]%string.
Definition serving2 : Endpoint -> Result Served := fun _ => Val (fresh server2 [calm 1; calm 2]).
Notation engine2 := (srv_engine server2).
Notation limits2 := (cc_limits (srv_config server2)).
Notation view1 :=
  (match sessions_ engine2 !! S1 with Some s => session_view s | None => SessionView_default end).
Notation operator_pause :=
  (PauseSession S1 (current_fence engine2 (sv_workload view1) (Some (sv_checkpoint_generation view1)) None)
     "ctfctl").
Notation pause_outcome2 :=
  (local_command (calm 2) (command_label operator_pause)
     (engine_command "ctfctl" (mo_now (calm 2)) operator_pause)
     (note_message (note_message (note_message server2)))).

Lemma view1_found : view_session S1 engine2 = Val view1.
Proof. vm_compute. reflexivity. Qed.
Lemma view1_wire : view_wire (limits_ engine2) view1.
Proof.
  split; [|apply Z.leb_le; vm_compute; reflexivity].
  eapply wire_computed; [apply canon_SessionView with (initial := SessionView_default)|..];
    vm_compute; reflexivity.
Qed.
Lemma query1_wire : query_wire limits2 S1.
Proof.
  split; [|apply Z.leb_le; vm_compute; reflexivity].
  eapply wire_computed; [apply canon_SessionQuery with (initial := SessionQuery_default)|..];
    vm_compute; reflexivity.
Qed.
Lemma operator_pause_wire : command_wire limits2 operator_pause.
Proof.
  split; [|apply Z.leb_le; vm_compute; reflexivity].
  eapply wire_computed; [apply canon_PauseRequest with (initial := PauseRequest_default)|..];
    vm_compute; reflexivity.
Qed.
Lemma operator_answer_wire : string_wire (sp_detail pause_outcome2.1).
Proof. split; [apply Z.leb_le|]; vm_compute; reflexivity. Qed.
Lemma operator_pause_accepted : sp_code pause_outcome2.1 = ErrorCode.Ok.
Proof. vm_compute. reflexivity. Qed.
Lemma server2_hello : hello_wire Limits_default (note_message server2).
Proof.
  split; [|apply Z.leb_le; vm_compute; reflexivity].
  eapply wire_computed; [apply canon_HelloResponse with (initial := HelloResponse_default)|..];
    vm_compute; reflexivity.
Qed.
Lemma server2_keyed : contracts_keyed engine2.
Proof.
  intros w c H. apply elem_of_map_to_list in H.
  assert (map_to_list (contracts_ engine2) = [(W1, contract1)]) as E by (vm_compute; reflexivity).
  rewrite E in H. apply list_elem_of_singleton in H. by injection H as -> ->.
Qed.
Lemma server2_epoch : (0 <? gen_value (ep_incarnation (epoch_ engine2))) &&
  (0 <? gen_value (ep_term (epoch_ engine2))) = true.
Proof. vm_compute. reflexivity. Qed.
Lemma operator_identity : string_wire "ctfctl".
Proof. split; [apply Z.leb_le|]; vm_compute; reflexivity. Qed.
Lemma server2_answering : answering "ctfctl" server2.
Proof.
  pose proof server2_epoch as He. apply andb_true_iff in He as [H1 H2]. apply Z.ltb_lt in H1, H2.
  constructor; [discriminate|apply Z.leb_le; reflexivity|exact operator_identity|exact server2_hello|exact H1|exact H2|
    exact server2_keyed|reflexivity].
Qed.
Lemma pause_argv_parsed :
  Arguments.has "--help" (Arguments.of_argv pause_argv) = false /\
  Arguments.command (Arguments.of_argv pause_argv) = Some "pause"%string /\
  require_endpoint (Arguments.of_argv pause_argv) = Val (mkEndpoint "127.0.0.1" 4100) /\
  require_session (Arguments.of_argv pause_argv) = Val S1.
Proof. vm_compute. auto. Qed.

Lemma ctfctl_command_refines_witness :
  exists outcome cl, Ctfctl.main (fun _ => None) serving2 pause_argv = (outcome, Some cl) /\
    oc_code outcome = kExitOk.
Proof.
  destruct pause_argv_parsed as (P1 & P2 & P3 & P4).
  pose proof (ctfctl_command_refines (fun _ => None) serving2 pause_argv "pause" (mkEndpoint "127.0.0.1" 4100) S1
    server2 (calm 1) (calm 2) view1 operator_pause) as H. cbv zeta in H.
  specialize (H P1 P2 P3 P4 eq_refl server2_answering view1_found eq_refl query1_wire view1_wire operator_pause_wire).
  pose proof operator_answer_wire as Hw. pose proof operator_pause_accepted as Ho.
  change (flag_or "--identity" "ctfctl" (Arguments.of_argv pause_argv)) with "ctfctl"%string in H.
  destruct pause_outcome2 as [answer sv]. destruct (H Hw) as (outcome & cl & E & _ & _ & Hcode).
  exists outcome, cl. split; [exact E|]. cbn in Ho. rewrite Hcode, Ho. reflexivity.
Defined.

(** ** Endpoints *)

Lemma cut_spec c text before after : cut c text = Some (before, after) <-> text = before ++ c :: after /\ ~ In c before.
Proof.
  revert before. induction text as [|d text IH]; intros before; cbn [cut].
  { split; [done|]. intros [H _]. by destruct before. }
  case_bool_decide as E.
  - subst d. split; [intros [= <- <-]; by split; [|intros []]|].
    intros [H Hn]. destruct before as [|b before]; [by injection H as ->|].
    injection H as -> _. by destruct Hn; left.
  - split.
    + destruct (cut c text) as [[b a]|] eqn:C; [|done]. intros [= <- <-].
      destruct (proj1 (IH b) eq_refl) as [-> Hn]. split; [done|]. by intros [->|].
    + intros [H Hn]. destruct before as [|b before]; [by injection H as -> _|].
      injection H as -> H. rewrite (proj2 (IH before)); [done|]. split; [done|]. intros Hb. by apply Hn; right.
Qed.
Lemma cut_last_spec c text before after :
  cut_last c text = Some (before, after) <-> text = before ++ c :: after /\ ~ In c after.
Proof.
  unfold cut_last. split.
  - destruct (cut c (rev text)) as [[a b]|] eqn:C; [|done]. intros [= <- <-].
    apply cut_spec in C as [E Hn]. split; [|by rewrite <- in_rev].
    rewrite <- (rev_involutive text), E, rev_app_distr. cbn. by rewrite <- app_assoc.
  - intros [-> Hn]. rewrite rev_app_distr. cbn. rewrite <- app_assoc. cbn.
    rewrite (proj2 (cut_spec c (rev after ++ c :: rev before) (rev after) (rev before))).
    + by rewrite !rev_involutive.
    + split; [done|]. by rewrite <- in_rev.
Qed.

Lemma dec_text_no_colon v : 0 <= v < 2 ^ 64 -> ~ In ":"%char (dec_text v) /\ dec_text v <> [].
Proof.
  intros Hv. destruct (dec_digits_spec 20 v) as (F & _ & N & _); [lia|lia|]. split; [|exact N].
  intros H. rewrite Forall_forall in F. apply list_elem_of_In in H. specialize (F _ H).
  unfold is_digit in F. vm_compute in F. intuition congruence.
Qed.

Lemma endpoint_parsed text host port : parse_endpoint text = Val (mkEndpoint host port) ->
  host <> ""%string /\ 1 <= port <= 65535 /\ join_endpoint host port = text.
Proof.
  unfold parse_endpoint, join_endpoint.
  destruct (cut_last ":"%char (chars text)) as [[h p]|] eqn:C; [|done].
  apply cut_last_spec in C as [E _].
  destruct h as [|a h]; [done|]. destruct p as [|b p]; [done|].
  destruct (scalar_parse UINT32_MAX (b :: p)) as [v|] eqn:P; [|done].
  apply scalar_text in P as [Hv Hp]; [|unfold UINT32_MAX; lia].
  destruct (Z.eqb_spec v 0); [done|]. destruct (Z.ltb_spec 65535 v); [done|]. cbn [orb].
  intros [= <- <-]. unfold u16. rewrite Z.mod_small by lia. split; [done|]. split; [lia|].
  apply chars_inj. rewrite !chars_app. unfold nat_to_string. rewrite E.
  change (String a (text_of h)) with (text_of (a :: h)). rewrite !chars_text, Hp. done.
Qed.

(** an endpoint has one spelling: [parse_endpoint] accepts a text as a host
    and a port precisely when the host is not empty, the port is in 1..65535, and
    [join_endpoint] writes them as that text, so a host that itself contains
    colons is read back whole. *)
Theorem endpoint_text_canonical text host port :
  parse_endpoint text = Val (mkEndpoint host port) <->
  host <> ""%string /\ 1 <= port <= 65535 /\ join_endpoint host port = text.
Proof.
  split; [apply endpoint_parsed|]. unfold parse_endpoint, join_endpoint.
  intros (Hh & Hp & <-). rewrite !chars_app. unfold nat_to_string. rewrite chars_text.
  change (chars ":") with [":"%char]. destruct (dec_text_no_colon port) as [Hc Hne]; [lia|].
  assert (chars host <> []) as Hch.
  { intros H. apply Hh. by rewrite <- (text_chars host), H. }
  rewrite (proj2 (cut_last_spec ":"%char _ (chars host) (dec_text port))) by done.
  assert (scalar_parse UINT32_MAX (dec_text port) = Some port) as Hs.
  { apply scalar_text; [unfold UINT32_MAX; lia|]. split; [unfold UINT32_MAX; lia|done]. }
  rewrite <- (text_chars host) at 2.
  destruct (chars host) as [|a h] eqn:Eh; [done|]. destruct (dec_text port) as [|b p] eqn:Ep; [done|].
  rewrite Hs. destruct (Z.eqb_spec port 0); [lia|]. destruct (Z.ltb_spec 65535 port); [lia|]. cbn [orb].
  unfold u16. rewrite Z.mod_small by lia. done.
Qed.

(** ** The sender's command line *)

Lemma when_flag_keeps {A} (P : A -> Prop) args name f (a b : A) :
  P a -> (forall v, P a -> f v a = inr b -> P b) -> when_flag args name f a = inr b -> P b.
Proof. unfold when_flag. intros Ha Hf. destruct (Arguments.flag name args); [by apply Hf|]. by intros [= <-]. Qed.

Lemma u32_flag_range args name v : parse_u32_flag args name = Val v -> 0 <= v < 2 ^ 32.
Proof.
  unfold parse_u32_flag. destruct (Arguments.flag name args); [|done].
  destruct (scalar_parse _ _) eqn:E; [|done]. intros [= <-].
  apply scalar_text in E; unfold UINT32_MAX in *; lia.
Qed.
Lemma u64_flag_range args name v : parse_u64_flag args name = Val v -> in_u64 v.
Proof.
  unfold parse_u64_flag. destruct (Arguments.flag name args); [|done].
  destruct (scalar_parse _ _) eqn:E; [|done]. intros [= <-].
  apply scalar_text in E; unfold UINT64_MAX, in_u64 in *; lia.
Qed.

(** What every step of [sender_config] keeps: the ranges of the fields. *)
Record sender_ranges (c : SenderConfig) : Prop := {
  rg_coordinator : 1 <= sn_coordinator_port c <= 65535;
  rg_sink : 1 <= sn_sink_port c <= 65535;
  rg_generation : in_u64 (gen_value (sn_checkpoint_generation c));
  rg_shards : 1 <= sn_shard_count c < 2 ^ 32;
  rg_bytes : 1 <= sn_shard_bytes c < 2 ^ 64;
  rg_rate : in_u64 (sn_requested_rate_bps c);
  rg_deadline : in_s64 (sn_deadline_horizon_ns c);
  rg_die : in_u64 (sn_die_after_bytes c)
}.

Lemma number_flag_keeps {A} (P : A -> Prop) args name parse f (c d : A) :
  P c -> (forall v, parse args name = Val v -> P (f v c)) ->
  number_flag args name parse f c = inr d -> P d.
Proof.
  intros Hc Hf. apply when_flag_keeps; [done|]. intros _ _. destruct (parse args name) eqn:E; [|done].
  intros [= <-]. by apply Hf.
Qed.
Lemma checked_flag_keeps {A} (P : A -> Prop) args name parse ok text f (c d : A) :
  P c -> (forall v, parse args name = Val v -> ok v = true -> P (f v c)) ->
  checked_flag args name parse ok text f c = inr d -> P d.
Proof.
  intros Hc Hf. apply when_flag_keeps; [done|]. intros _ _. destruct (parse args name) as [v|] eqn:E; [|done].
  destruct (ok v) eqn:O; [|done]. intros [= <-]. by apply Hf.
Qed.

(** The text of the flags that name things, as the configuration prints them. *)
Definition sender_names (args : Arguments.t) (c : SenderConfig) : Prop :=
  Arguments.flag "--coordinator" args = Some (join_endpoint (sn_coordinator_host c) (sn_coordinator_port c)) /\
  Arguments.flag "--sink" args = Some (join_endpoint (sn_sink_host c) (sn_sink_port c)) /\
  Arguments.flag "--workload" args = Some (uuid_text (sn_workload c)) /\
  Arguments.flag "--checkpoint" args = Some (uuid_text (sn_checkpoint c)).
Definition sender_ok (args : Arguments.t) (c : SenderConfig) : Prop := sender_ranges c /\ sender_names args c.

Lemma identities_ok args c d : sender_ranges c ->
  Arguments.flag "--coordinator" args = Some (join_endpoint (sn_coordinator_host c) (sn_coordinator_port c)) ->
  Arguments.flag "--sink" args = Some (join_endpoint (sn_sink_host c) (sn_sink_port c)) ->
  sender_identities args c = inr d -> sender_ok args d.
Proof.
  unfold sender_identities, id_parse. intros H H1 H2.
  destruct (Arguments.flag "--workload" args) as [w|] eqn:Fw; [|done].
  destruct (Uuid128_parse w) as [u|] eqn:Ew; [|done]. cbn.
  destruct (Arguments.flag "--checkpoint" args) as [k|] eqn:Fk; [|done].
  destruct (Uuid128_parse k) as [v|] eqn:Ek; [|done]. cbn. intros [= <-].
  apply uuid_parsed_prints in Ew as [_ <-], Ek as [_ <-]. split; [by destruct H|by split_and!].
Qed.

(** Leaves the step [r] of the chain with its new configuration. *)
Ltac next_step c E :=
  match goal with |- and_then ?r _ = _ -> _ => destruct r as [|c] eqn:E; cbn [and_then]; [done|] end.
(** A step that keeps [sender_ok]: the ranges of the field it sets are left. *)
Ltac kept N := split; [constructor; cbn; try done|exact N].

(** a sender is only ever started with a usable configuration: whatever the
    command line, either the agent stops with a usage error before it connects
    anywhere, or the configuration has ports in 1..65535, at least one shard of at
    least one byte, every number within the width of its field, and the endpoints
    and identities are exactly the ones written, in their canonical text. *)
Theorem sender_config_sound args c : sender_config args = inr c -> sender_ranges c /\ sender_names args c.
Proof.
  unfold sender_config.
  destruct (Arguments.flag "--coordinator" args) as [tc|] eqn:Fc; [|done].
  destruct (Arguments.flag "--sink" args) as [ts|] eqn:Fs; [|done].
  destruct (parse_endpoint tc) as [[hc pc]|] eqn:Pc; [|done].
  destruct (parse_endpoint ts) as [[hs ps]|] eqn:Ps; [|done].
  apply endpoint_parsed in Pc as (_ & Rc & <-), Ps as (_ & Rs & <-). cbn [ep_host ep_port].
  next_step c1 E. apply (number_flag_keeps (fun c => sender_ranges c /\
    sn_coordinator_host c = hc /\ sn_coordinator_port c = pc /\ sn_sink_host c = hs /\ sn_sink_port c = ps)) in E;
    [|split; [constructor; cbn; unfold in_u64, in_s64; lia|done]
     |intros v Hv%u64_flag_range; split; [constructor; cbn; unfold in_u64, in_s64 in *; lia|done]].
  destruct E as (R1 & <- & <- & <- & <-).
  next_step c2 E. apply identities_ok in E; [|done..].
  next_step c3 E3. apply (checked_flag_keeps (sender_ok args)) in E3; [|done|].
  2: { intros v Hv%u32_flag_range Hn%negb_true_iff%Z.eqb_neq. destruct E as [[] N]. kept N; lia. }
  next_step c4 E4. apply (checked_flag_keeps (sender_ok args)) in E4; [|done|].
  2: { intros v Hv%u64_flag_range Hn%negb_true_iff%Z.eqb_neq. destruct E3 as [[] N]. unfold in_u64 in *. kept N; lia. }
  next_step c5 E5. apply (when_flag_keeps (sender_ok args)) in E5; [|done|].
  2: { intros v _. destruct (isolation_class_from_string v); [|done]. intros [= <-]. destruct E4 as [[] N]. kept N. }
  next_step c6 E6. apply (when_flag_keeps (sender_ok args)) in E6; [|done|].
  2: { intros v _. destruct (destination_class_from_string v); [|done]. intros [= <-]. destruct E5 as [[] N]. kept N. }
  next_step c7 E7. apply (number_flag_keeps (sender_ok args)) in E7; [|done|].
  2: { intros v Hv%u64_flag_range. destruct E6 as [[] N]. kept N. }
  next_step c8 E8. apply (number_flag_keeps (sender_ok args)) in E8; [|done|].
  2: { intros v Hv%u64_flag_range. destruct E7 as [[] N]. kept N. apply s64_range. }
  next_step c9 E9. apply (number_flag_keeps (sender_ok args)) in E9; [|done|].
  2: { intros v Hv%u64_flag_range. destruct E8 as [[] N]. kept N. }
  apply (when_flag_keeps (sender_ok args)).
  - destruct E9 as [[] N]. kept N.
  - intros v H [= <-]. destruct H as [[] N]. kept N.
Qed.

Definition sender_args : Arguments.t :=
  ["sender"; "--coordinator"; "127.0.0.1:4100"; "--sink"; "[::1]:4200";
   "--workload"; "11111111-2222-4333-8444-555555555555"; "--checkpoint"; "aaaaaaaa-bbbb-4ccc-8ddd-eeeeeeeeeeee";
   "--shards"; "3"; "--shard-bytes"; "1048576"; "--deadline-ms"; "2500"]%string.
Definition sender_parsed : SenderConfig :=
  match sender_config sender_args with inr c => c | inl _ => SenderConfig_default end.
Lemma sender_args_accepted : sender_config sender_args = inr sender_parsed.
Proof. vm_compute. reflexivity. Qed.
Lemma sender_config_sound_witness :
  sender_config sender_args = inr sender_parsed /\ sender_ranges sender_parsed /\ sender_names sender_args sender_parsed.
Proof. exact (conj sender_args_accepted (sender_config_sound sender_args sender_parsed sender_args_accepted)). Defined.
