(* ===== verification/EngineInv.v ===== *)
(** * EngineInv: byte conservation, the engine's central invariant

    The accounting invariant of the engine and its preservation by the
    lock-held helpers.  [books e] relates the aggregate accounting, the pruned
    totals and the session table; it is stated on exact integers, so it also
    says that no 64-bit counter has wrapped. *)

From stdpp Require Import base gmap list strings.
From S2P Require Import Prelude Status Ids Hash Enums Model Fence Shaper EngineState.

(** ** The invariant *)

(** The byte buckets of one session. *)
Record ses_bytes_ok (s : SessionRecord) : Prop := {
  sb_admitted : 0 <= ses_admitted_bytes s;
  sb_transferred : 0 <= ses_transferred_bytes s;
  sb_cancelled : 0 <= ses_cancelled_bytes s;
  sb_wasted : 0 <= ses_wasted_bytes s;
  sb_unproven : 0 <= ses_unproven_bytes s;
  sb_outstanding : 0 <= ses_outstanding_bytes s;
  sb_verified : 0 <= ses_verified_bytes s;
  sb_sum : ses_transferred_bytes s + ses_wasted_bytes s + ses_cancelled_bytes s +
           ses_unproven_bytes s + ses_outstanding_bytes s <= ses_admitted_bytes s
}.

(** The aggregate counters, exactly: nothing negative, the conservation
    identity without wrap-around, and the 64-bit bound. *)
Record acct_ok (a : AccountingSnapshot) : Prop := {
  ao_transferred : 0 <= acc_bytes_transferred a;
  ao_cancelled : 0 <= acc_bytes_cancelled a;
  ao_wasted : 0 <= acc_bytes_wasted a;
  ao_unproven : 0 <= acc_bytes_unproven a;
  ao_outstanding : 0 <= acc_granted_outstanding_bytes a;
  ao_exact : acc_bytes_admitted a =
             acc_bytes_transferred a + acc_bytes_wasted a + acc_bytes_cancelled a +
             acc_bytes_unproven a + acc_granted_outstanding_bytes a;
  ao_bound : acc_bytes_admitted a < 2 ^ 64
}.

(** The pruned totals plus the table make up the aggregate, bucket by bucket. *)
Record agg_ok (m : gmap SessionId SessionRecord) (a : AccountingSnapshot) (p : PrunedTotals)
  : Prop := {
  ag_admitted : acc_bytes_admitted a = pr_admitted p + map_sum ses_admitted_bytes m;
  ag_transferred : acc_bytes_transferred a = pr_transferred p + map_sum ses_transferred_bytes m;
  ag_cancelled : acc_bytes_cancelled a = pr_cancelled p + map_sum ses_cancelled_bytes m;
  ag_wasted : acc_bytes_wasted a = pr_wasted p + map_sum ses_wasted_bytes m;
  ag_unproven : acc_bytes_unproven a = pr_unproven p + map_sum ses_unproven_bytes m;
  ag_outstanding : map_sum ses_outstanding_bytes m <= acc_granted_outstanding_bytes a;
  ag_pruned : 0 <= pr_admitted p /\ 0 <= pr_transferred p /\ 0 <= pr_cancelled p /\
              0 <= pr_wasted p /\ 0 <= pr_unproven p
}.

Definition table_ok (m : gmap SessionId SessionRecord) : Prop :=
  forall id s, m !! id = Some s -> ses_bytes_ok s /\ ses_id s = id.

Definition books_p (m : gmap SessionId SessionRecord) (a : AccountingSnapshot) (p : PrunedTotals)
  : Prop := table_ok m /\ acct_ok a /\ agg_ok m a p.
Definition books (e : Engine) : Prop := books_p (sessions_ e) (accounting_ e) (pruned_ e).

(** The exact identity implies the code's own wrap-around test. *)
Lemma acct_ok_conserves a : acct_ok a -> conserves a = true.
Proof.
  intros []. unfold conserves. apply Z.eqb_eq. wrap_small. lia.
Qed.

(** ** Single sessions against the aggregate *)

Section single.
Context (m : gmap SessionId SessionRecord) (a : AccountingSnapshot) (p : PrunedTotals).
Context (Hb : books_p m a p) (id : SessionId) (s : SessionRecord) (Hs : m !! id = Some s).

Lemma books_session : ses_bytes_ok s /\ ses_id s = id.
Proof. apply Hb. done. Qed.

Let tbl f (Hf : forall s, ses_bytes_ok s -> 0 <= f s) : f s <= map_sum f m.
Proof.
  apply (map_sum_lookup_le f m id s); [|done].
  intros k v Hk. apply Hf. by apply (proj1 Hb k v).
Qed.

(** Each bucket of a session is below the aggregate bucket. *)
Lemma books_le :
  ses_outstanding_bytes s <= acc_granted_outstanding_bytes a /\
  ses_transferred_bytes s <= acc_bytes_transferred a /\
  ses_wasted_bytes s <= acc_bytes_wasted a /\
  ses_cancelled_bytes s <= acc_bytes_cancelled a /\
  ses_unproven_bytes s <= acc_bytes_unproven a /\
  ses_admitted_bytes s <= acc_bytes_admitted a.
Proof.
  destruct Hb as (_ & _ & []).
  pose proof (tbl ses_outstanding_bytes sb_outstanding).
  pose proof (tbl ses_transferred_bytes sb_transferred).
  pose proof (tbl ses_wasted_bytes sb_wasted).
  pose proof (tbl ses_cancelled_bytes sb_cancelled).
  pose proof (tbl ses_unproven_bytes sb_unproven).
  pose proof (tbl ses_admitted_bytes sb_admitted). lia.
Qed.
End single.

(** How a session and the aggregate move together: the same change in every
    bucket, outstanding authority released at least in the session. *)
Record moves (s s' : SessionRecord) (a a' : AccountingSnapshot) : Prop := {
  mv_admitted : acc_bytes_admitted a' - acc_bytes_admitted a =
                ses_admitted_bytes s' - ses_admitted_bytes s;
  mv_transferred : acc_bytes_transferred a' - acc_bytes_transferred a =
                   ses_transferred_bytes s' - ses_transferred_bytes s;
  mv_cancelled : acc_bytes_cancelled a' - acc_bytes_cancelled a =
                 ses_cancelled_bytes s' - ses_cancelled_bytes s;
  mv_wasted : acc_bytes_wasted a' - acc_bytes_wasted a =
              ses_wasted_bytes s' - ses_wasted_bytes s;
  mv_unproven : acc_bytes_unproven a' - acc_bytes_unproven a =
                ses_unproven_bytes s' - ses_unproven_bytes s;
  mv_outstanding : ses_outstanding_bytes s' - ses_outstanding_bytes s <=
                   acc_granted_outstanding_bytes a' - acc_granted_outstanding_bytes a;
  mv_id : ses_id s' = ses_id s
}.

Lemma books_move m a p id s s' a' :
  books_p m a p -> m !! id = Some s -> moves s s' a a' ->
  ses_bytes_ok s' -> acct_ok a' -> books_p (<[id:=s']> m) a' p.
Proof.
  intros (Ht & Ha & Hg) Hs [] Hs' Ha'. split; [|split; [done|]].
  - intros k v Hk. apply lookup_insert_Some in Hk as [[<- <-]|[_ Hk]]; [|by apply Ht].
    split; [done|]. destruct (Ht _ _ Hs). congruence.
  - destruct Hg. constructor; rewrite ?(map_sum_insert _ _ _ _ _ Hs); lia.
Qed.

(** A session update that leaves the buckets alone. *)
Definition same_bytes (s s' : SessionRecord) : Prop :=
  ses_id s' = ses_id s /\
  ses_admitted_bytes s' = ses_admitted_bytes s /\
  ses_transferred_bytes s' = ses_transferred_bytes s /\
  ses_cancelled_bytes s' = ses_cancelled_bytes s /\
  ses_wasted_bytes s' = ses_wasted_bytes s /\
  ses_unproven_bytes s' = ses_unproven_bytes s /\
  ses_outstanding_bytes s' = ses_outstanding_bytes s /\
  ses_verified_bytes s' = ses_verified_bytes s.
(** An accounting update that leaves the byte counters alone. *)
Definition same_acct (a a' : AccountingSnapshot) : Prop :=
  acc_bytes_admitted a' = acc_bytes_admitted a /\
  acc_bytes_transferred a' = acc_bytes_transferred a /\
  acc_bytes_cancelled a' = acc_bytes_cancelled a /\
  acc_bytes_wasted a' = acc_bytes_wasted a /\
  acc_bytes_unproven a' = acc_bytes_unproven a /\
  acc_granted_outstanding_bytes a' = acc_granted_outstanding_bytes a.

Lemma same_bytes_ok s s' : same_bytes s s' -> ses_bytes_ok s -> ses_bytes_ok s'.
Proof. intros (?&?&?&?&?&?&?&?) []. constructor; lia. Qed.
Lemma same_acct_ok a a' : same_acct a a' -> acct_ok a -> acct_ok a'.
Proof. intros (?&?&?&?&?&?) []. constructor; lia. Qed.
Lemma same_bytes_refl s : same_bytes s s.
Proof. done. Qed.
Lemma same_acct_refl a : same_acct a a.
Proof. done. Qed.
Lemma same_acct_agg m a a' p : same_acct a a' -> agg_ok m a p -> agg_ok m a' p.
Proof. intros (?&?&?&?&?&?) []. constructor; lia. Qed.
#[export] Hint Resolve same_bytes_refl same_acct_refl : ctf.

(** Field updates that do not name a bucket keep it by computation. *)
Ltac same_by_compute := repeat split; reflexivity.

(** ** Preservation by the reference helpers *)

Lemma books_upd_both id f e :
  books e ->
  (forall s, sessions_ e !! id = Some s ->
     moves s (f s (accounting_ e)).1 (accounting_ e) (f s (accounting_ e)).2 /\
     ses_bytes_ok (f s (accounting_ e)).1 /\ acct_ok (f s (accounting_ e)).2) ->
  books (upd_both id f e).
Proof.
  intros Hb Hf. unfold upd_both. destruct (sessions_ e !! id) as [s|] eqn:Hs; [|exact Hb].
  destruct (Hf s eq_refl) as (Hm & Hs' & Ha').
  destruct (f s (accounting_ e)) as [s' a'] eqn:Ef; cbn in *.
  exact (books_move _ _ _ _ _ _ _ Hb Hs Hm Hs' Ha').
Qed.

Lemma books_same m a p id s s' a' :
  books_p m a p -> m !! id = Some s -> same_bytes s s' -> same_acct a a' ->
  books_p (<[id:=s']> m) a' p.
Proof.
  intros Hb Hs Hss Haa. eapply books_move; [done..| | |].
  - destruct Hss as (?&?&?&?&?&?&?&?), Haa as (?&?&?&?&?&?). constructor; lia || congruence.
  - eapply same_bytes_ok; [done|]. by apply Hb in Hs as [].
  - eapply same_acct_ok; [done|]. apply Hb.
Qed.

Lemma books_with_session id f e :
  books e -> (forall s, same_bytes s (f s)) -> books (with_session id f e).
Proof.
  intros Hb Hf. unfold with_session. destruct (sessions_ e !! id) as [s|] eqn:Hs; [|exact Hb].
  apply (books_same _ _ _ _ _ _ _ Hb Hs (Hf s)). apply same_acct_refl.
Qed.

Lemma books_upd_accounting f e :
  books e -> (forall a, same_acct a (f a)) -> books (upd_accounting f e).
Proof.
  intros (Ht & Ha & Hg) Hf. split; [exact Ht|]. split.
  - exact (same_acct_ok _ _ (Hf _) Ha).
  - exact (same_acct_agg _ _ _ _ (Hf _) Hg).
Qed.

Lemma books_note_timeline id at_ text e : books e -> books (note_timeline id at_ text e).
Proof. intros Hb. apply books_with_session; [done|]. intros s. same_by_compute. Qed.
Lemma books_push_event ev e : books e -> books (push_event ev e).
Proof. unfold push_event. by destruct (events_ e). Qed.
Lemma books_touch e : books e -> books (touch_dangling e).
Proof. done. Qed.
#[export] Hint Resolve books_note_timeline books_push_event books_touch : ctf.

Lemma books_same_both id f e :
  books e ->
  (forall s a, same_bytes s (f s a).1 /\ same_acct a (f s a).2) -> books (upd_both id f e).
Proof.
  intros Hb Hf. unfold upd_both. destruct (sessions_ e !! id) as [s|] eqn:Hs; [|exact Hb].
  destruct (Hf s (accounting_ e)) as [H1 H2].
  destruct (f s (accounting_ e)) as [s' a']; cbn in *.
  exact (books_same _ _ _ _ _ _ _ Hb Hs H1 H2).
Qed.

(** ** Preservation by the bucket moves *)

(** Open the invariant for the session a bucket move touches. *)
Ltac open_books Hb Hs :=
  let H1 := fresh "Hle" in let H2 := fresh "Hsb" in
  pose proof (books_le _ _ _ Hb _ _ Hs) as H1;
  pose proof (books_session _ _ _ Hb _ _ Hs) as [H2 _];
  destruct H2; destruct Hb as (? & [] & ?); destruct_and?.
Ltac solve_move := repeat split; cbn; wrap_small; try lia.

Lemma books_mark_unproven_rec e id (bytes : SessionRecord -> Z) :
  books e -> (forall s, 0 <= bytes s \/ bytes s = ses_outstanding_bytes s) ->
  books (upd_both id (fun s => mark_unproven_rec (bytes s) s) e).
Proof.
  intros Hb Hn. apply books_upd_both; [done|]. intros s Hs. specialize (Hn s).
  open_books Hb Hs. unfold mark_unproven_rec. solve_move.
Qed.
Lemma books_mark_all_unproven id e : books e -> books (mark_all_unproven id e).
Proof. intros Hb. apply (books_mark_unproven_rec e id ses_outstanding_bytes); auto. Qed.
Lemma books_mark_unproven id bytes e : 0 <= bytes -> books e -> books (mark_unproven id bytes e).
Proof. intros ? Hb. apply (books_mark_unproven_rec e id (fun _ => bytes)); auto. Qed.

Lemma books_settle_cancelled id e : books e -> books (settle_outstanding_as_cancelled id e).
Proof.
  intros Hb. apply books_upd_both; [done|]. intros s Hs.
  open_books Hb Hs. unfold settle_cancelled_rec. solve_move.
Qed.

Lemma books_waste id e : books e -> books (upd_both id waste_unverified_rec e).
Proof.
  intros Hb. apply books_upd_both; [done|]. intros s Hs.
  open_books Hb Hs. unfold waste_unverified_rec.
  destruct (_ >? _) eqn:E; [rewrite Z.gtb_lt in E|rewrite Z.gtb_ltb, Z.ltb_ge in E];
    solve_move.
Qed.

Lemma books_release_active id o e : books e -> books (release_active_attempts id o e).
Proof. intros Hb. apply books_same_both; [done|]. intros s a. split; same_by_compute. Qed.

Lemma books_release_path id e : books e -> books (release_path_reservation id e).
Proof.
  intros Hb. unfold release_path_reservation. destruct (sessions_ e !! id) as [s|] eqn:Hs; [|done].
  destruct (ses_reserved_path s); [|done].
  eapply books_same; [exact Hb|exact Hs|same_by_compute|apply same_acct_refl].
Qed.

Lemma books_adjust_down s e : books e -> books (adjust_active_down s e).
Proof.
  intros Hb. unfold adjust_active_down.
  match goal with |- books (match workload_active_ ?x !! _ with _ => _ end) =>
    assert (books x) as Hx end.
  { destruct (nth _ _ _ >? 0), (acc_active_sessions _ >? 0);
      first [exact Hb | refine (books_upd_accounting _ _ Hb _); intros; same_by_compute]. }
  destruct (workload_active_ _ !! _) as [n|]; [|exact Hx].
  by destruct (_ =? 0).
Qed.
Lemma books_adjust_up s e : books e -> books (adjust_active_up s e).
Proof. intros Hb. refine (books_upd_accounting _ _ Hb _). intros; same_by_compute. Qed.

Lemma books_note_terminal id e : books e -> books (note_terminal id e).
Proof.
  intros Hb. unfold note_terminal. destruct (sessions_ e !! id) as [s|]; [|done].
  exact (books_adjust_down s e Hb).
Qed.
#[export] Hint Resolve books_mark_all_unproven books_settle_cancelled books_waste
  books_release_active books_release_path books_adjust_down books_adjust_up
  books_note_terminal : ctf.

(** ** Preservation by eviction *)

Lemma books_evict id s e :
  books e -> sessions_ e !! id = Some s -> books (evict id s e).
Proof.
  intros Hb Hs. pose proof (books_session _ _ _ Hb _ _ Hs) as [[] _].
  destruct Hb as (Ht & Ha & Hg). split; [|split; [exact Ha|]].
  - intros k v Hk. cbn in Hk. apply lookup_delete_Some in Hk as [_ Hk]. by apply Ht.
  - destruct Hg, Ha. cbn.
    assert (forall f, (forall s, ses_bytes_ok s -> 0 <= f s) ->
              0 <= map_sum f (delete id (sessions_ e))) as Hnn.
    { intros f Hf. apply map_sum_nonneg. intros k v Hk. apply lookup_delete_Some in Hk as [_ Hk].
      apply Hf. by apply (Ht k v). }
    pose proof (Hnn _ sb_admitted). pose proof (Hnn _ sb_transferred).
    pose proof (Hnn _ sb_cancelled). pose proof (Hnn _ sb_wasted).
    pose proof (Hnn _ sb_unproven). pose proof (Hnn _ sb_outstanding).
    rewrite !(map_sum_delete _ _ _ _ Hs) in *.
    constructor; cbn; wrap_small; try lia.
Qed.

Lemma books_prune_loop order target flag e :
  books e -> books (prune_loop order target flag e).2.
Proof.
  revert flag e; induction order as [|id rest IH]; intros flag e Hb; cbn; [exact Hb|].
  destruct (session_count e >? target); [|exact Hb].
  destruct (sessions_ e !! id) as [s|] eqn:Hs; [|by apply IH].
  destruct (negb _); [by apply IH|]. apply IH. by apply books_evict.
Qed.

Lemma rebuild_books_fields l e :
  sessions_ (foldl index_session e l) = sessions_ e /\
  accounting_ (foldl index_session e l) = accounting_ e /\
  pruned_ (foldl index_session e l) = pruned_ e.
Proof. revert e; induction l as [|x l IH]; intros e; [done|]. cbn. apply (IH (index_session e x)). Qed.

Lemma books_rebuild e : books e -> books (rebuild_indexes e).
Proof.
  unfold books, rebuild_indexes. intros Hb.
  destruct (rebuild_books_fields (map_to_list (sessions_ e))
              (e <| by_workload_ := ∅ |> <| by_checkpoint_ := ∅ |>)) as (-> & -> & ->). exact Hb.
Qed.

Lemma books_prune e : books e -> books (prune_history e).
Proof.
  intros Hb. unfold prune_history. destruct (_ <=? _); [done|].
  pose proof (books_prune_loop (terminal_order_ e) (retention_bound_ e * 3 / 4) false e Hb).
  destruct (prune_loop _ _ _ _) as [flag e']; cbn in *. destruct flag; [by apply books_rebuild|done].
Qed.
#[export] Hint Resolve books_prune : ctf.

(** ** Settling, progress and deadlines *)

Lemma books_settle_terminal id st reason detail at_ e :
  books e -> books (settle_terminal id st reason detail at_ e).
Proof.
  intros Hb. unfold settle_terminal. apply books_prune, books_release_path, books_with_session.
  2: { intros s. same_by_compute. }
  apply (books_release_active id (if st =e SessionState.Superseded then AttemptOutcome.Superseded
                                  else AttemptOutcome.Released)) in Hb.
  set (e1 := release_active_attempts _ _ _) in *.
  assert (books (if wastes st then upd_both id waste_unverified_rec e1 else e1)) as H2
    by (destruct (wastes st); auto with ctf).
  set (e2 := if wastes st then _ else _) in *.
  destruct (sessions_ e2 !! id); [|done]. destruct (negb _); auto with ctf.
Qed.

Lemma books_with_session_drop id f e :
  books e ->
  (forall s, same_bytes (s <| ses_outstanding_bytes := 0 |>) (f s)) -> books (with_session id f e).
Proof.
  intros Hb Hf. unfold with_session. destruct (sessions_ e !! id) as [s|] eqn:Hs; [|exact Hb].
  pose proof (books_session _ _ _ Hb _ _ Hs) as [[] _].
  destruct (Hf s) as (?&?&?&?&?&?&?&?); cbn in *.
  apply (books_move _ _ _ _ _ _ (accounting_ e) Hb Hs); [| |apply Hb]; constructor;
    solve [congruence | lia].
Qed.

Lemma progress_same s : same_bytes s (progress_rec s).
Proof. unfold progress_rec. destruct (negb _ && _ && _ && _); same_by_compute. Qed.

Lemma books_recompute id at_ e : books e -> books (recompute_progress id at_ e).
Proof.
  intros Hb. unfold recompute_progress.
  apply (books_with_session id progress_rec) in Hb; [|apply progress_same].
  set (e1 := with_session id progress_rec e) in *.
  destruct (sessions_ e1 !! id) as [s|]; [|done]. destruct (_ && _); [|done].
  apply books_prune, books_note_terminal, books_with_session_drop; [|intros; same_by_compute].
  apply books_upd_accounting; [|intros; same_by_compute].
  apply books_release_path, books_with_session; [done|]. intros; same_by_compute.
Qed.
#[export] Hint Resolve books_settle_terminal books_recompute : ctf.

Lemma books_enforce_one deadline at_ e id : books e -> books (enforce_one deadline at_ e id).
Proof.
  intros Hb. unfold enforce_one. destruct (sessions_ e !! id) as [s|]; [|done].
  destruct (_ || _); [done|].
  apply books_push_event, books_note_timeline, books_upd_accounting; [|intros; same_by_compute].
  auto with ctf.
Qed.

Lemma books_enforce_loop dl at_ e : books e -> books (enforce_loop dl at_ e).
Proof.
  revert e; induction dl as [|[d due] rest IH]; intros e Hb; cbn; [exact Hb|].
  destruct (d >? at_); [exact Hb|]. apply IH. apply foldl_inv; [exact Hb|].
  intros; by apply books_enforce_one.
Qed.
Lemma books_enforce_deadlines at_ e : books e -> books (enforce_deadlines at_ e).
Proof. apply books_enforce_loop. Qed.
#[export] Hint Resolve books_enforce_deadlines : ctf.
