(* ===== verification/SessionSteps.v ===== *)
(** * SessionSteps: the session lifecycle as a step relation

    [session_step] is the abstract life of one session: what a command may do
    to a session record, one constructor per kind of change, with the guards
    the handlers of [src/engine.cpp] put in front of it.  The engine refines it
    (file [Commands]): whatever a command does to the table, each surviving
    session moved along [session_step]*.  Facts about sessions are then rule
    inductions over this relation. *)

From stdpp Require Import base gmap list strings relations.
From S2P Require Import Prelude Status Ids Hash Enums Model Fence Shaper EngineState.
From S2P Require Import EngineTable EngineAuthority EngineAdmission EngineLifecycle.
From S2P Require Import EngineEvidence EngineInv.

Definition open (s : SessionRecord) : Prop := is_terminal (ses_state s) = false.
(** The states in which a session waits for [revalidate_session]. *)
Definition held (s : SessionRecord) : Prop :=
  ses_state s = SessionState.RevalidationRequired \/ ses_state s = SessionState.Deferred.
(** The states [settle_terminal] moves an unfinished session to. *)
Definition unfinished (st : SessionState) : Prop := wastes st = true.

Definition fence_rec (stale : string) (at_ : Nanos) (s : SessionRecord) : SessionRecord :=
  s <| ses_state := SessionState.RevalidationRequired |>
    <| ses_stale_reason := stale |> <| ses_updated_at := at_ |>.
Definition restart_rec (stale : string) (at_ : Nanos) (s : SessionRecord) : SessionRecord :=
  (release_attempts s) <| ses_shards := map reopen_shard (ses_shards s) |>
    <| ses_state := SessionState.RevalidationRequired |>
    <| ses_paused := false |> <| ses_stale_reason := stale |> <| ses_updated_at := at_ |>.
Definition pause_rec (reason : string) (at_ : Nanos) (s : SessionRecord) : SessionRecord :=
  settle_reason ReasonCode.Admitted_ reason
    (s <| ses_paused := true |> <| ses_paused_from := ses_state s |>
       <| ses_state := SessionState.Paused |> <| ses_updated_at := at_ |>).
Definition resume_rec (at_ : Nanos) (s : SessionRecord) : SessionRecord :=
  s <| ses_paused := false |> <| ses_state := ses_paused_from s |> <| ses_updated_at := at_ |>.
Definition deferred_rec (stale : string) (at_ : Nanos) (s : SessionRecord) : SessionRecord :=
  s <| ses_state := SessionState.Deferred |> <| ses_stale_reason := stale |>
    <| ses_updated_at := at_ |>.
Definition revalidated_rec (path_id : PathClassId) (rate_bps sequence : Z)
    (envelope : TrafficEnvelope) (at_ : Nanos) (s : SessionRecord) : SessionRecord :=
  s <| ses_reserved_path := Some path_id |> <| ses_reserved_rate_bps := rate_bps |>
    <| ses_envelope_sequence := sequence |> <| ses_envelope := envelope |>
    <| ses_state := SessionState.Admitted_ |> <| ses_paused := false |>
    <| ses_stale_reason := "" |> <| ses_updated_at := at_ |>
    <| ses_last_reason := ReasonCode.Admitted_ |> <| ses_last_detail := "revalidated" |>.

(** The guards under which a grant of [chunk] bytes may reach a shard. *)
Record grantable (s : SessionRecord) (sh : ShardRecord) (chunk : Z) : Prop := {
  gr_open : open s;
  gr_running : ses_paused s = false /\ ~ held s /\ ses_state s <> SessionState.Paused;
  gr_shard : shr_state sh <> ShardState.Verified /\ shr_state sh <> ShardState.Transferred /\
             shr_state sh <> ShardState.Ambiguous;
  gr_settled : unsettled_attempt s sh = false;
  gr_chunk : 0 < chunk /\ chunk <= shr_declared_bytes sh - shr_transferred_bytes sh /\
             chunk <= kMaxGrantChunk
}.

Inductive session_step : SessionRecord -> SessionRecord -> Prop :=
| st_note s bound at_ text : session_step s (append_timeline bound at_ text s)
| st_unproven s n a :
    open s -> 0 <= n \/ n = ses_outstanding_bytes s ->
    session_step s (mark_unproven_rec n s a).1
| st_cancelled s a : open s -> session_step s (settle_cancelled_rec s a).1
| st_settle s st reason detail at_ :
    open s -> unfinished st -> session_step s (settled st reason detail at_ s)
| st_superseded_by s by_ : session_step s (s <| ses_superseded_by := Some by_ |>)
| st_fence s stale at_ :
    is_active (ses_state s) = true -> session_step s (fence_rec stale at_ s)
| st_ambiguate s at_ :
    open s -> session_step s (s <| ses_attempts := map (ambiguate_attempt at_) (ses_attempts s) |>)
| st_restart s stale at_ : open s -> session_step s (restart_rec stale at_ s)
| st_pause s reason at_ :
    open s -> ~ (ses_state s = SessionState.RevalidationRequired) -> ses_paused s = false ->
    session_step s (pause_rec reason at_ s)
| st_resume s at_ : ses_paused s = true -> session_step s (resume_rec at_ s)
| st_grant s bound pos sh grant chunk at_ :
    ses_shards s !! pos = Some sh -> grantable s sh chunk ->
    session_step s (grant_rec bound pos sh grant chunk at_ s)
| st_source s pos sh bytes at_ :
    open s -> ses_shards s !! pos = Some sh -> bytes <= shr_declared_bytes sh ->
    session_step s (source_complete_rec pos sh bytes at_ s)
| st_attempt s apos att :
    open s -> session_step s (set_attempt apos att s)
| st_acknowledge s ev newly pos sh apos att a :
    open s -> ses_shards s !! pos = Some sh ->
    0 <= newly <= ses_outstanding_bytes s ->
    session_step s (acknowledge_rec ev newly pos sh apos att s a).1
| st_verified s ev pos apos sh att a :
    open s -> ses_shards s !! pos = Some sh -> vev_verified_bytes ev = shr_declared_bytes sh ->
    session_step s (verified_rec ev pos apos sh att s a).1
| st_truncated s pos apos sh att at_ a :
    open s -> ses_shards s !! pos = Some sh ->
    ses_admitted_bytes s + shr_transferred_bytes sh < 2 ^ 64 ->
    session_step s (truncated_rec pos apos sh att at_ s a).1
| st_ambiguous s pos apos sh att at_ a :
    open s -> ses_shards s !! pos = Some sh ->
    session_step s (ambiguous_rec pos apos sh att at_ s a).1
| st_report_ambiguous s apos att cause at_ a :
    open s -> session_step s (report_ambiguous_rec apos att cause at_ s a).1
| st_shard_failed s pos apos sh att :
    open s -> ses_shards s !! pos = Some sh ->
    session_step s (set_attempt apos (att <| atr_outcome := AttemptOutcome.Failed |>)
                      (set_shard pos (sh <| shr_state := ShardState.Failed |>) s))
| st_progress s p at_ : session_step s (progressed p at_ s)
| st_unreserve s : session_step s (unreserved s)
| st_deferred s stale at_ : held s -> session_step s (deferred_rec stale at_ s)
| st_revalidated s path_id rate_bps sequence envelope at_ :
    held s -> session_step s (revalidated_rec path_id rate_bps sequence envelope at_ s)
| st_revalidation_lost s reason detail at_ :
    held s -> session_step s (settled SessionState.Failed reason detail at_ (set_failed s))
| st_revalidation_failed s a reason detail at_ :
    held s ->
    session_step s (settled SessionState.Failed reason detail at_
                      (mark_unproven_rec (ses_outstanding_bytes s) (set_failed s) a).1)
| st_durability s assertion at_ :
    session_step s (s <| ses_durability := assertion |> <| ses_updated_at := at_ |>).

Definition session_steps : SessionRecord -> SessionRecord -> Prop := rtc session_step.
#[export] Instance session_steps_preorder : PreOrder session_steps.
Proof. apply _. Qed.
#[export] Hint Constructors session_step : ctf.

Lemma step_once s s' : session_step s s' -> session_steps s s'.
Proof. apply rtc_once. Qed.

(** An invariant of the steps is an invariant of the closure. *)
Lemma steps_keep (P : SessionRecord -> Prop) s s' :
  (forall s s', session_step s s' -> P s -> P s') -> session_steps s s' -> P s -> P s'.
Proof. intros HP. induction 1; eauto. Qed.

(** ** Projections of the composite records *)

Lemma unreserved_proj {A} (f : SessionRecord -> A) s :
  (forall s p r, f (s <| ses_reserved_path := p |> <| ses_reserved_rate_bps := r |>) = f s) ->
  f (unreserved s) = f s.
Proof. intros H. unfold unreserved. destruct (ses_reserved_path s); [apply H|done]. Qed.

Lemma drop_active_cases s a :
  drop_active_attempt s a = (s, a) \/
  drop_active_attempt s a =
    (s <| ses_active_attempts := ses_active_attempts s - 1 |>,
     a <| acc_active_attempts := u32 (acc_active_attempts a - 1) |>).
Proof. unfold drop_active_attempt. destruct (_ >? _); auto. Qed.

(** Unfold a session-level record function, splitting the branches it has. *)
Ltac open_rec :=
  repeat match goal with
  | |- context [drop_active_attempt ?s ?a] =>
      destruct (drop_active_cases s a) as [-> | ->]
  | |- context [if atr_outstanding ?x then _ else _] => destruct (atr_outstanding x)
  end.

(** ** Terminal sessions stay where they are *)

Definition final (st : SessionState) (s : SessionRecord) : Prop :=
  ses_state s = st /\ ses_paused s = false.

Lemma held_open s : held s -> open s.
Proof. unfold open. by intros [->| ->]. Qed.
Lemma active_open s : is_active (ses_state s) = true -> open s.
Proof. unfold open. by destruct (ses_state s). Qed.
#[export] Hint Resolve held_open active_open gr_open : ctf.

Lemma mark_ambiguous_shard_proj {A} (f : SessionRecord -> A) att s :
  (forall s l, f (s <| ses_shards := l |>) = f s) -> f (mark_ambiguous_shard att s) = f s.
Proof.
  intros H. unfold mark_ambiguous_shard, set_shard.
  destruct (locate_shard _ _) as [[pos sh]|]; [|done]. destruct (_ && _); [apply H|done].
Qed.

Lemma progressed_final p at_ s :
  is_terminal (ses_state s) = true ->
  ses_state (progressed p at_ s) = ses_state s /\ ses_paused (progressed p at_ s) = ses_paused s.
Proof.
  intros H. unfold progressed.
  assert (ses_state (progress_rec s) = ses_state s /\ ses_paused (progress_rec s) = ses_paused s)
    as [E1 E2] by (unfold progress_rec; cbn; by rewrite H).
  by rewrite E1, H, andb_false_r.
Qed.

Lemma session_step_final st s s' :
  session_step s s' -> is_terminal st = true -> final st s -> final st s'.
Proof.
  intros Hstep Ht [Hst Hp].
  assert (~ open s) as Hno by (unfold open; rewrite Hst; congruence).
  assert (is_terminal (ses_state s) = true) as Hts by congruence.
  destruct Hstep; try (exfalso; eauto with ctf; fail); try (split; done); try congruence.
  - destruct (progressed_final p at_ s Hts). split; congruence.
  - split; rewrite unreserved_proj; done.
Qed.

Lemma session_steps_final st s s' :
  session_steps s s' -> is_terminal st = true -> final st s -> final st s'.
Proof.
  intros H Ht. apply (steps_keep (final st)); [|done]. intros; eapply session_step_final; eauto.
Qed.

(** ** What never changes in a session *)

Definition shard_static (sh : ShardRecord) : ShardIndex * Z * Digest * PathClassId :=
  (shr_index sh, shr_declared_bytes sh, shr_declared_digest sh, shr_path_class sh).
(** Identity, request and the declared part of the shard table. *)
Definition static (s : SessionRecord)
  : SessionId * SessionRequest * Nanos * list (ShardIndex * Z * Digest * PathClassId) :=
  (ses_id s, ses_request s, ses_created_at s, shard_static <$> ses_shards s).

Lemma static_shards s l :
  shard_static <$> l = shard_static <$> ses_shards s -> static (s <| ses_shards := l |>) = static s.
Proof. intros H. unfold static. cbn. by rewrite H. Qed.
Lemma static_insert (l : list ShardRecord) pos sh sh' :
  l !! pos = Some sh -> shard_static sh' = shard_static sh ->
  shard_static <$> <[pos := sh']> l = shard_static <$> l.
Proof.
  intros Hl Hs. rewrite list_fmap_insert, Hs. apply list_insert_id. by rewrite list_lookup_fmap, Hl.
Qed.
Lemma static_map (f : ShardRecord -> ShardRecord) (l : list ShardRecord) :
  (forall sh, shard_static (f sh) = shard_static sh) ->
  shard_static <$> map f l = shard_static <$> l.
Proof. intros H. induction l as [|x l IH]; [done|]. cbn. by rewrite H, IH. Qed.

Lemma locate_shard_lookup s index pos sh :
  locate_shard s index = Some (pos, sh) -> ses_shards s !! pos = Some sh.
Proof.
  unfold locate_shard. destruct (shard_position _ _) as [p|]; [|done].
  destruct (ses_shards s !! p) eqn:E; [|done]. by intros [= <- <-].
Qed.

Lemma mark_ambiguous_shard_static att s :
  shard_static <$> ses_shards (mark_ambiguous_shard att s) = shard_static <$> ses_shards s.
Proof.
  unfold mark_ambiguous_shard. destruct (locate_shard _ _) as [[pos sh]|] eqn:E; [|done].
  destruct (_ && _); [|done]. by apply (static_insert _ _ sh); [eapply locate_shard_lookup|].
Qed.

Lemma progressed_static p at_ s : static (progressed p at_ s) = static s.
Proof.
  unfold progressed.
  assert (static (progress_rec s) = static s) as <-
    by (unfold progress_rec; by destruct (_ && _)).
  destruct (_ && _); [|done]. generalize (progress_rec s). intros r.
  assert (forall r, static (r <| ses_outstanding_bytes := 0 |>) = static r) as -> by done.
  by rewrite unreserved_proj.
Qed.

Lemma settled_static st reason detail at_ s : static (settled st reason detail at_ s) = static s.
Proof. unfold settled. rewrite unreserved_proj by done. by destruct (wastes st). Qed.

Lemma acknowledge_shard_static ev newly sh :
  shard_static
    (let sh := sh <| shr_transferred_bytes := u64 (shr_transferred_bytes sh + newly) |>
                  <| shr_observed_digest := tev_arrived_digest ev |>
                  <| shr_has_observed_digest := true |> in
     if (shr_transferred_bytes sh >=? shr_declared_bytes sh) &&
        negb (shr_state sh =e ShardState.Verified)
     then sh <| shr_state := ShardState.Transferred |> else sh) = shard_static sh.
Proof. cbn zeta. by destruct (_ && _). Qed.

(** The goal [static x = static s] when [x] changed only the shard table. *)
Ltac only_shards :=
  lazymatch goal with
  | |- static ?x = static ?s =>
      transitivity (static (s <| ses_shards := ses_shards x |>)); [reflexivity|];
      apply static_shards; cbn
  end.

Lemma session_step_static s s' : session_step s s' -> static s' = static s.
Proof.
  destruct 1; try reflexivity.
  - apply settled_static.
  - only_shards; apply static_map. intros sh. unfold reopen_shard. by destruct (_ || _).
  - unfold grant_rec. destruct (_ || _);
      only_shards; apply (static_insert _ _ sh); done.
  - only_shards; apply (static_insert _ _ sh); [done|]. cbn.
    by destruct (_ || _).
  - unfold acknowledge_rec. open_rec;
      only_shards; apply (static_insert _ _ sh); try done; apply acknowledge_shard_static.
  - only_shards; apply (static_insert _ _ sh); done.
  - unfold truncated_rec. open_rec; only_shards; apply (static_insert _ _ sh); done.
  - unfold ambiguous_rec. open_rec; only_shards; apply (static_insert _ _ sh); done.
  - unfold report_ambiguous_rec.
    assert (forall s, static (mark_ambiguous_shard att s) = static s) as Hm.
    { intros s0. unfold static. rewrite mark_ambiguous_shard_static.
      by rewrite !mark_ambiguous_shard_proj. }
    open_rec; lazymatch goal with |- context [mark_ambiguous_shard att ?x] =>
      transitivity (static (mark_ambiguous_shard att x)); [reflexivity|by rewrite Hm] end.
  - only_shards; apply (static_insert _ _ sh); done.
  - apply progressed_static.
  - by apply unreserved_proj.
  - rewrite settled_static. reflexivity.
  - rewrite settled_static. reflexivity.
Qed.
Lemma session_steps_static s s' : session_steps s s' -> static s' = static s.
Proof. induction 1; [done|]. etrans; [done|]. by apply session_step_static. Qed.

(** ** The byte invariant of one session *)

Definition shards_transferred (l : list ShardRecord) : Z := zsum shr_transferred_bytes l.

Record session_inv (s : SessionRecord) : Prop := {
  si_bytes : ses_bytes_ok s;
  si_bound : ses_admitted_bytes s < 2 ^ 64;
  (** No shard has a negative count, *)
  si_shards : forall sh, sh ∈ ses_shards s -> 0 <= shr_transferred_bytes sh;
  (** until its traffic is written off, a session has transferred what its
      shards have, *)
  si_sum : wastes (ses_state s) = false \/ ses_paused s = true ->
           shards_transferred (ses_shards s) = ses_transferred_bytes s;
  (** and a pause never hides a written-off state. *)
  si_from : ses_paused s = true -> wastes (ses_paused_from s) = false
}.

Lemma open_keeps s : open s -> wastes (ses_state s) = false.
Proof. unfold open. by destruct (ses_state s). Qed.
Lemma inv_open_sum s :
  session_inv s -> open s -> shards_transferred (ses_shards s) = ses_transferred_bytes s.
Proof. intros [] Ho. auto using open_keeps. Qed.
Lemma inv_shard_le s pos sh :
  session_inv s -> open s -> ses_shards s !! pos = Some sh ->
  0 <= shr_transferred_bytes sh <= ses_transferred_bytes s.
Proof.
  intros Hi Ho Hl. rewrite <-(inv_open_sum _ Hi Ho). apply list_elem_of_lookup_2 in Hl.
  split; [by apply Hi|]. apply zsum_elem_le; [apply Hi|done].
Qed.

(** Updating one shard of an open session. *)
Lemma inv_set_shard s s' pos sh sh' :
  session_inv s -> open s -> ses_shards s !! pos = Some sh ->
  ses_shards s' = <[pos := sh']> (ses_shards s) ->
  0 <= shr_transferred_bytes sh' ->
  ses_transferred_bytes s' = ses_transferred_bytes s - shr_transferred_bytes sh +
                             shr_transferred_bytes sh' ->
  ses_bytes_ok s' -> ses_admitted_bytes s' < 2 ^ 64 ->
  (ses_paused s' = true -> ses_paused s = true) -> ses_paused_from s' = ses_paused_from s ->
  session_inv s'.
Proof.
  intros Hi Ho Hl Hs' Hnn Ht Hb Hb' Hp Hf. pose proof (inv_open_sum _ Hi Ho) as Hsum.
  constructor; [done|done| | |].
  - intros x Hx. rewrite Hs' in Hx. apply list_elem_of_lookup in Hx as [i Hx].
    apply list_lookup_insert_Some in Hx as [(_ & <- & _)|[_ Hx]]; [done|].
    apply Hi. by eapply list_elem_of_lookup_2.
  - intros _. unfold shards_transferred. rewrite Hs', (zsum_insert _ _ _ sh) by done.
    unfold shards_transferred in Hsum. lia.
  - rewrite Hf. intros H. by apply Hi, Hp.
Qed.

(** Changes outside the byte buckets and the shards' counts. *)
Lemma inv_same s s' :
  session_inv s -> same_bytes s s' ->
  shr_transferred_bytes <$> ses_shards s' = shr_transferred_bytes <$> ses_shards s ->
  (wastes (ses_state s') = false \/ ses_paused s' = true ->
     wastes (ses_state s) = false \/ ses_paused s = true) ->
  (ses_paused s' = true -> wastes (ses_paused_from s') = false) ->
  session_inv s'.
Proof.
  intros Hi Hsb Hsh Hst Hp. pose proof Hsb as (?&?&?&?&?&?&?&?).
  assert (forall l, shards_transferred l = foldr Z.add 0 (shr_transferred_bytes <$> l)) as Hz
    by (induction l as [|x l IH]; [done|cbn; by rewrite <-IH]).
  constructor.
  - eapply same_bytes_ok; [done|]. apply Hi.
  - destruct Hi. lia.
  - intros x Hx. assert (shr_transferred_bytes x ∈ shr_transferred_bytes <$> ses_shards s) as Hy.
    { rewrite <-Hsh. by apply list_elem_of_fmap_2. }
    apply list_elem_of_fmap in Hy as (y & -> & Hy). by apply Hi.
  - intros Hw. rewrite Hz, Hsh, <-Hz. destruct Hi as [_ _ _ Hsum _]. rewrite Hsum; auto.
  - done.
Qed.

(** Moves between the buckets other than the transferred one. *)
Lemma inv_buckets s s' :
  session_inv s -> ses_bytes_ok s' -> ses_admitted_bytes s' < 2 ^ 64 ->
  ses_transferred_bytes s' = ses_transferred_bytes s -> ses_shards s' = ses_shards s ->
  ses_state s' = ses_state s -> ses_paused s' = ses_paused s ->
  ses_paused_from s' = ses_paused_from s -> session_inv s'.
Proof.
  intros [] Hb ? Ht Hs Hst Hp Hf. constructor; [done|done|..].
  - by rewrite Hs.
  - by rewrite Ht, Hs, Hst, Hp.
  - by rewrite Hp, Hf.
Qed.
(** Writing a session off. *)
Lemma inv_written_off s s' :
  session_inv s -> ses_bytes_ok s' -> ses_admitted_bytes s' = ses_admitted_bytes s ->
  ses_shards s' = ses_shards s -> wastes (ses_state s') = true -> ses_paused s' = false ->
  session_inv s'.
Proof.
  intros [] Hb Ha Hs Hst Hp. constructor; [done|lia|by rewrite Hs| |].
  - rewrite Hst, Hp. by intros [].
  - by rewrite Hp.
Qed.

Ltac bytes_ok := constructor; cbn; wrap_small; lia.

Lemma inv_unproven n s a :
  session_inv s -> 0 <= n \/ n = ses_outstanding_bytes s ->
  session_inv (mark_unproven_rec n s a).1.
Proof.
  intros Hi Hn. pose proof Hi as [[] ? ? ? ?].
  apply (inv_buckets s); try done. unfold mark_unproven_rec. bytes_ok.
Qed.

Lemma unreserved_same s : same_bytes s (unreserved s).
Proof. unfold unreserved. by destruct (ses_reserved_path s). Qed.

Lemma inv_settled st reason detail at_ s :
  session_inv s -> unfinished st -> session_inv (settled st reason detail at_ s).
Proof.
  intros Hi Hst. unfold settled. rewrite Hst. pose proof Hi as [[] ? ? ? ?].
  apply (inv_written_off s); [done| |by rewrite unreserved_proj..].
  eapply same_bytes_ok; [apply unreserved_same|].
  unfold waste_unverified_rec.
  destruct (_ >? _) eqn:E; cbn in E; [rewrite Z.gtb_lt in E|rewrite Z.gtb_ltb, Z.ltb_ge in E];
    bytes_ok.
Qed.

Lemma inv_progress_rec s : session_inv s -> session_inv (progress_rec s).
Proof.
  intros Hi. unfold progress_rec. destruct (negb (is_terminal _) && _ && _ && _) eqn:E.
  - apply (inv_same s); try done; [|apply Hi]. intros _. left. bool_facts. by apply open_keeps.
  - apply (inv_same s); try done. apply Hi.
Qed.

Lemma inv_complete_rec p at_ s : session_inv s -> open s -> session_inv (complete_rec p at_ s).
Proof.
  intros Hi Ho. apply (inv_same s); try done; [|apply Hi].
  intros _. left. by apply open_keeps.
Qed.

Lemma inv_unreserved s : session_inv s -> session_inv (unreserved s).
Proof.
  intros Hi. unfold unreserved. destruct (ses_reserved_path s); [|done].
  by apply (inv_same s); try apply Hi.
Qed.

Lemma inv_drop_outstanding s : session_inv s -> session_inv (s <| ses_outstanding_bytes := 0 |>).
Proof.
  intros Hi. pose proof Hi as [[] ? ? ? ?]. apply (inv_buckets s); try done. bytes_ok.
Qed.

Lemma inv_progressed p at_ s : session_inv s -> session_inv (progressed p at_ s).
Proof.
  intros Hi. unfold progressed. destruct (_ && _) eqn:E; [|by apply inv_progress_rec].
  apply andb_true_iff in E as [_ E%negb_true_iff].
  by apply inv_drop_outstanding, inv_unreserved, inv_complete_rec; [apply inv_progress_rec|].
Qed.

(** Field updates that keep the buckets, the shards' counts and the pause. *)
Ltac inv_by_frame s Hi := apply (inv_same s); [exact Hi|same_by_compute|try done|..]; try done.

(** A shard update that keeps its transferred count. *)
Lemma inv_touch_shard s s' pos sh sh' :
  session_inv s -> open s -> ses_shards s !! pos = Some sh ->
  ses_shards s' = <[pos := sh']> (ses_shards s) ->
  shr_transferred_bytes sh' = shr_transferred_bytes sh ->
  ses_transferred_bytes s' = ses_transferred_bytes s ->
  ses_bytes_ok s' -> ses_admitted_bytes s' < 2 ^ 64 ->
  ses_paused s' = ses_paused s -> ses_paused_from s' = ses_paused_from s ->
  session_inv s'.
Proof.
  intros Hi Ho Hl Hs' Hsh Ht Hb Ha Hp Hf. pose proof (inv_shard_le _ _ _ Hi Ho Hl).
  apply (inv_set_shard s s' pos sh sh'); try done; [lia..|congruence].
Qed.

Lemma inv_acknowledge s ev newly pos sh apos att a :
  session_inv s -> open s -> ses_shards s !! pos = Some sh ->
  0 <= newly <= ses_outstanding_bytes s ->
  session_inv (acknowledge_rec ev newly pos sh apos att s a).1.
Proof.
  intros Hi Ho Hl Hn. pose proof (inv_shard_le _ _ _ Hi Ho Hl). pose proof Hi as [[] ? ? ? ?].
  assert (shr_transferred_bytes sh + newly < 2 ^ 64) by lia.
  unfold acknowledge_rec.
  set (sh' := if _ && _ then _ else _).
  assert (shr_transferred_bytes sh' = shr_transferred_bytes sh + newly) as Hsh'.
  { subst sh'. destruct (_ && _); cbn; wrap_small; lia. }
  destruct (newly >? _) eqn:E; [rewrite Z.gtb_lt in E; cbn in E; lia|].
  open_rec; (apply (inv_set_shard s _ pos sh sh'); try done;
    [lia|cbn; rewrite Hsh'; wrap_small; lia|bytes_ok]).
Qed.

Lemma inv_truncated s pos apos sh att at_ a :
  session_inv s -> open s -> ses_shards s !! pos = Some sh ->
  ses_admitted_bytes s + shr_transferred_bytes sh < 2 ^ 64 ->
  session_inv (truncated_rec pos apos sh att at_ s a).1.
Proof.
  intros Hi Ho Hl Hn. pose proof (inv_shard_le _ _ _ Hi Ho Hl). pose proof Hi as [[] ? ? ? ?].
  unfold truncated_rec. open_rec;
    (cbn [fst]; match goal with |- context [if ?x >? ?y then _ else 0] =>
       replace (if x >? y then x - y else 0) with (ses_transferred_bytes s - shr_transferred_bytes sh)
         by (cbn; destruct (Z.gtb_spec (ses_transferred_bytes s) (shr_transferred_bytes sh)); lia) end;
     eapply (inv_set_shard s _ pos sh); try done; [cbn; lia|bytes_ok|cbn; wrap_small; lia]).
Qed.

Lemma attempt_shortfall_nonneg a : 0 <= attempt_shortfall a.
Proof. unfold attempt_shortfall. destruct (Z.gtb_spec (atr_granted_bytes a) (atr_delivered_bytes a)); lia. Qed.

Lemma inv_mark_ambiguous_shard att s :
  session_inv s -> open s -> session_inv (mark_ambiguous_shard att s).
Proof.
  intros Hi Ho. unfold mark_ambiguous_shard.
  destruct (locate_shard _ _) as [[pos sh]|] eqn:E; [|done]. destruct (_ && _); [|done].
  apply locate_shard_lookup in E. pose proof Hi as [[] ? ? ? ?].
  eapply (inv_touch_shard s _ pos sh); try done.
Qed.

Lemma inv_ambiguous s pos apos sh att at_ a :
  session_inv s -> open s -> ses_shards s !! pos = Some sh ->
  session_inv (ambiguous_rec pos apos sh att at_ s a).1.
Proof.
  intros Hi Ho Hl. pose proof Hi as [[] ? ? ? ?]. unfold ambiguous_rec.
  assert (session_inv (set_shard pos (sh <| shr_state := ShardState.Ambiguous |>) s)) as Hi'
    by (eapply (inv_touch_shard s _ pos sh); done).
  pose proof (attempt_shortfall_nonneg att).
  set (s1 := set_shard _ _ _) in *. open_rec; cbn [mark_unproven_rec];
    (eapply (inv_same (mark_unproven_rec (attempt_shortfall att) s1 a).1); try done;
     apply inv_unproven; auto).
Qed.

Lemma mark_ambiguous_shard_active att s n :
  mark_ambiguous_shard att (s <| ses_active_attempts := n |>) =
  (mark_ambiguous_shard att s) <| ses_active_attempts := n |>.
Proof.
  unfold mark_ambiguous_shard. cbn.
  change (locate_shard (s <| ses_active_attempts := n |>) (atr_shard att)) with
    (locate_shard s (atr_shard att)).
  destruct (locate_shard _ _) as [[pos sh]|]; [|done]. by destruct (_ && _).
Qed.

Lemma inv_report_ambiguous s apos att cause at_ a :
  session_inv s -> open s -> session_inv (report_ambiguous_rec apos att cause at_ s a).1.
Proof.
  intros Hi Ho. pose proof (si_from _ Hi) as Hfrom. pose proof (attempt_shortfall_nonneg att).
  pose proof (inv_mark_ambiguous_shard att s Hi Ho) as Hi'.
  unfold report_ambiguous_rec. set (s1 := mark_ambiguous_shard att s) in *.
  open_rec; rewrite ?mark_ambiguous_shard_active; fold s1; cbn [mark_unproven_rec];
    (eapply (inv_same (mark_unproven_rec (attempt_shortfall att) s1 a).1); try done;
     [apply inv_unproven; auto|apply Hi']).
Qed.

Lemma session_step_inv s s' : session_step s s' -> session_inv s -> session_inv s'.
Proof.
  intros Hstep Hi. pose proof (si_from _ Hi) as Hfrom.
  destruct Hstep; try (inv_by_frame s Hi; fail).
  - by apply inv_unproven.
  - pose proof Hi as [[] ? ? ? ?]. apply (inv_buckets s); try done. bytes_ok.
  - by apply inv_settled.
  - inv_by_frame s Hi. intros _. left. by apply open_keeps, active_open.
  - inv_by_frame s Hi.
    + cbn. induction (ses_shards s) as [|x l IH]; [done|]. cbn. rewrite IH. f_equal.
      unfold reopen_shard. by destruct (_ || _).
    + intros _. left. by apply open_keeps.
  - inv_by_frame s Hi.
    + intros _. left. by apply open_keeps.
    + intros _. by apply open_keeps.
  - inv_by_frame s Hi. by right.
  - destruct H0 as [Ho _ _ _ _]. pose proof Hi as [[] ? ? ? ?].
    unfold grant_rec. destruct (_ || _); eapply (inv_touch_shard s _ pos sh); try done;
      by constructor.
  - pose proof Hi as [[] ? ? ? ?]. unfold source_complete_rec.
    eapply (inv_touch_shard s _ pos sh); try done.
    cbn. by destruct (_ || _).
  - by apply inv_acknowledge.
  - pose proof Hi as [[] ? ? ? ?]. pose proof (u64_range (ses_verified_bytes s +
      (if vev_verified_bytes ev >? shr_verified_bytes sh
       then vev_verified_bytes ev - shr_verified_bytes sh else 0))).
    eapply (inv_touch_shard s _ pos sh); try done. constructor; cbn; lia.
  - by apply inv_truncated.
  - by eapply inv_ambiguous.
  - by apply inv_report_ambiguous.
  - pose proof Hi as [[] ? ? ? ?]. eapply (inv_touch_shard s _ pos sh); done.
  - by apply inv_progressed.
  - by apply inv_unreserved.
  - inv_by_frame s Hi. intros _. left. by apply open_keeps, held_open.
  - inv_by_frame s Hi. intros _. left. by apply open_keeps, held_open.
  - apply inv_settled; [|done]. inv_by_frame s Hi. intros _. left. by apply open_keeps, held_open.
  - apply inv_settled; [|done]. apply inv_unproven; [|by right].
    inv_by_frame s Hi. intros _. left. by apply open_keeps, held_open.
Qed.

Lemma session_steps_inv s s' : session_steps s s' -> session_inv s -> session_inv s'.
Proof. apply steps_keep, session_step_inv. Qed.
