(* ===== verification/Commands.v ===== *)
(** * Commands: every command refines the session lifecycle

    The commands of the engine as one type, their execution, and the two facts
    every theorem about runs rests on: what a command does to the session table
    is a sequence of [session_step]s per session (plus evictions, plus the one
    session an admission creates), and the accounting invariant survives it. *)

From stdpp Require Import base gmap list strings relations.
From S2P Require Import Prelude Status Ids Hash Enums Model Fence Shaper EngineState.
From S2P Require Import EngineTable EngineAuthority EngineAdmission EngineLifecycle.
From S2P Require Import EngineEvidence EngineInspect EngineInv SessionSteps.

Notation sessions_step := (evolves session_steps).

(** ** Frames of the shared pieces *)

Ltac one_step := apply step_once; constructor; eauto with ctf.

Lemma steps_note id at_ text e x : sessions_step e x -> sessions_step e (note_timeline id at_ text x).
Proof. intros H. apply chain_with_session; [apply _|done|]. intros. one_step. Qed.

(** Peel the pieces of a handler that leave the sessions alone. *)
Ltac peel :=
  repeat lazymatch goal with
  | |- evolves _ _ (push_event _ _) => apply chain_push
  | |- evolves _ _ (upd_accounting _ _) => apply chain_accounting
  | |- evolves _ _ (touch_dangling _) => apply chain_touch
  | |- evolves _ _ (remember_command _ _ _) => apply chain_remember
  | |- evolves _ _ (index_deadline _ _) => apply chain_index
  | |- evolves _ _ (note_timeline _ _ _ _) => apply steps_note
  | |- evolves _ ?x ?x => apply evolves_refl; apply _
  | |- evolves _ _ _ => assumption
  end.

Lemma steps_mark_all_unproven id e :
  (forall s, sessions_ e !! id = Some s -> open s) -> sessions_step e (mark_all_unproven id e).
Proof.
  intros Ho. unfold mark_all_unproven. apply chain_upd_both; [apply _|peel|]. intros s a Hs. one_step.
Qed.

(** Settling an open session after moving its outstanding bytes. *)
Lemma steps_settle id f st reason detail at_ e s :
  sessions_ e !! id = Some s -> session_step s (f s (accounting_ e)).1 ->
  open (f s (accounting_ e)).1 -> unfinished st ->
  sessions_step e (settle_terminal id st reason detail at_ (upd_both id f e)).
Proof.
  intros Hs Hf Ho Hst. apply chain_settle; [apply _| |].
  - apply evolves_upd_both; [apply _|]. intros s' Hs'. rewrite Hs in Hs'. injection Hs' as <-.
    by apply step_once.
  - intros s'. rewrite (upd_both_lookup _ _ _ _ Hs). intros [= <-]. one_step.
Qed.

Lemma steps_enforce_one deadline at_ e id : sessions_step e (enforce_one deadline at_ e id).
Proof.
  unfold enforce_one. destruct (sessions_ e !! id) as [s|] eqn:Hs; [|peel].
  destruct (_ || _) eqn:E; [peel|]. bool_facts. peel.
  eapply steps_settle; [done|constructor; auto|done|done].
Qed.
Lemma steps_begin at_ e : sessions_step e (begin_command at_ e).
Proof.
  eapply evolves_trans; [apply _| |apply enforce_deadlines_evolves; [apply _|]].
  - by apply evolves_eq; [apply _|].
  - intros. apply steps_enforce_one.
Qed.

Lemma steps_recompute id at_ e x : sessions_step e x -> sessions_step e (recompute_progress id at_ x).
Proof. intros H. apply chain_recompute; [apply _|done|]. intros. one_step. Qed.
Lemma steps_settle_progress id at_ e x :
  sessions_step e x -> sessions_step e (settle_progress id at_ x).
Proof.
  intros H. unfold settle_progress. apply (steps_recompute id at_) in H.
  destruct (sessions_ _ !! id) as [s|]; [|peel]. destruct (_ =e _); peel.
Qed.

(** A handler starts from the state [begin_command] leaves. *)
Lemma steps_from_begin at_ e x : sessions_step (begin_command at_ e) x -> sessions_step e x.
Proof. intros H. eapply evolves_trans; [apply _|apply steps_begin|done]. Qed.

(** Split the guards of a handler; refusals leave the sessions alone. *)
Ltac guards := repeat (step_guard; try (cbn [snd]; peel; fail)).

(** ** Lifecycle handlers *)

Lemma steps_pause id fence reason at_ e : sessions_step e (pause_session id fence reason at_ e).2.
Proof.
  unfold pause_session. apply (steps_from_begin at_). set (e1 := begin_command at_ e).
  destruct (sessions_ e1 !! id) as [s|] eqn:Hs; [|cbn; peel]. guards. cbn [snd]. peel.
  apply chain_with_session; [apply _|peel|]. intros s' Hs'. rewrite Hs in Hs'. injection Hs' as <-.
  bool_facts. apply step_once, (st_pause s reason at_); done.
Qed.

Lemma steps_resume id fence at_ e : sessions_step e (resume_session id fence at_ e).2.
Proof.
  unfold resume_session. apply (steps_from_begin at_). set (e1 := begin_command at_ e).
  destruct (sessions_ e1 !! id) as [s|] eqn:Hs; [|cbn; peel]. guards. cbn [snd]. peel.
  apply chain_with_session; [apply _|peel|]. intros s' Hs'. rewrite Hs in Hs'. injection Hs' as <-.
  bool_facts. apply step_once, (st_resume s at_); done.
Qed.

Lemma steps_cancel id fence reason detail at_ e :
  sessions_step e (cancel_session id fence reason detail at_ e).2.
Proof.
  unfold cancel_session. apply (steps_from_begin at_). set (e1 := begin_command at_ e).
  destruct (sessions_ e1 !! id) as [s|] eqn:Hs; [|cbn; peel]. guards. cbn [snd]. peel.
  eapply steps_settle; [done|by constructor|done|done].
Qed.

Lemma seq_status_both a b : Status_ok (seq_status a b) = true -> Status_ok a = true /\ Status_ok b = true.
Proof. unfold seq_status. destruct (Status_ok a) eqn:E; [done|]. by rewrite E. Qed.

Lemma wave_session_guard_ok s fence at_ e :
  Status_ok (wave_session_guard s fence at_ e) = true ->
  open s /\ ses_paused s = false /\ ~ held s /\ ses_state s <> SessionState.Paused /\
  at_ < te_deadline_target (ses_envelope s).
Proof.
  unfold wave_session_guard. intros H.
  apply seq_status_both in H as [_ H]. apply seq_status_both in H as [_ H].
  apply seq_status_both in H as [_ H]. unfold open, held.
  destruct (_ || (ses_state s =e SessionState.Deferred)) eqn:E1; [done|].
  destruct (ses_paused s || _) eqn:E2; [done|].
  destruct (is_terminal _) eqn:E3; [by destruct (ses_superseded_by s)|].
  destruct (at_ >=? _) eqn:E4; [done|]. bool_facts.
  rewrite Z.geb_leb, Z.leb_gt in E4. repeat split; try done. intros [?|?]; done.
Qed.

Lemma wave_shard_guard_ok s sh fence :
  Status_ok (wave_shard_guard s sh fence) = true ->
  (shr_state sh <> ShardState.Verified /\ shr_state sh <> ShardState.Transferred /\
   shr_state sh <> ShardState.Ambiguous) /\ unsettled_attempt s sh = false.
Proof.
  unfold wave_shard_guard. destruct (_ || _) eqn:E1; [done|].
  destruct (shr_state sh =e ShardState.Ambiguous) eqn:E2; [done|].
  destruct (match cf_attempt_sequence fence with Some _ => _ | None => _ end); [done|].
  destruct (unsettled_attempt s sh) eqn:E3; [done|]. intros _. bool_facts. done.
Qed.

(** The sessions are untouched until [issue_grant] appends the attempt. *)
Lemma steps_issue_grant id s index pos sh chunk at_ e :
  sessions_ e !! id = Some s -> ses_shards s !! pos = Some sh -> grantable s sh chunk ->
  sessions_step e (issue_grant id s index pos sh chunk at_ e).2.
Proof.
  intros Hs Hsh Hg. unfold issue_grant. destruct (IdFactory_next _) as [uuid factory]. cbn [snd].
  peel. eapply evolves_at; [apply _|exact Hs| |].
  - eapply step_once, st_grant; done.
  - rewrite (with_session_table _ _ _ s); done.
Qed.

Lemma steps_wave_credit id s index pos sh at_ e :
  sessions_ e !! id = Some s -> ses_shards s !! pos = Some sh ->
  (forall chunk, 0 < chunk -> chunk <= shard_remaining sh -> chunk <= kMaxGrantChunk ->
     grantable s sh chunk) ->
  sessions_step e (wave_credit id s index pos sh at_ e).2.
Proof.
  intros Hs Hsh Hg. unfold wave_credit. destruct (shard_remaining sh =? 0) eqn:E0; [cbn; peel|].
  destruct (class_tokens_at _ _ _) as [available shaper].
  set (e1 := e <| shaper_ := shaper |>).
  assert (sessions_step e e1) as H1 by (apply evolves_eq; [apply _|done]).
  destruct (available <? _) eqn:E1.
  { destruct (class_time_until_at _ _ _ _) as [wait shaper2]. cbn [snd]. peel. }
  destruct (shaper_try_consume _ _ _ _ _) as [verdict shaper2].
  destruct (negb _); [cbn [snd]; peel|].
  eapply evolves_trans; [apply _| |apply steps_issue_grant; [exact Hs|done|]].
  - by apply evolves_eq; [apply _|].
  - unfold shard_remaining in *. bool_facts.
    apply Hg; unfold kMinGrantChunk, kMaxGrantChunk in *;
      destruct (Z.gtb_spec (shr_declared_bytes sh) (shr_transferred_bytes sh)); lia.
Qed.

Lemma steps_wave id index fence at_ e : sessions_step e (request_wave id index fence at_ e).2.
Proof.
  unfold request_wave. apply (steps_from_begin at_). set (e1 := begin_command at_ e).
  destruct (sessions_ e1 !! id) as [s|] eqn:Hs; [|cbn; peel].
  destruct (negb (Status_ok (wave_session_guard _ _ _ _))) eqn:G; [cbn; peel|].
  destruct (_ >=? _); [cbn; peel|].
  destruct (shard_position _ _) as [pos|]; [|cbn; peel].
  destruct (ses_shards s !! pos) as [sh|] eqn:Hsh; [|cbn; peel].
  destruct (negb (Status_ok (wave_shard_guard _ _ _))) eqn:G2; [cbn; peel|].
  apply negb_false_iff, wave_session_guard_ok in G as (?&?&?&?&?).
  apply negb_false_iff, wave_shard_guard_ok in G2 as [? ?].
  apply steps_wave_credit; [done|done|]. intros chunk ? Hc ?. constructor; try done.
  split; [done|]. split; [|done]. unfold shard_remaining in Hc.
  destruct (Z.gtb_spec (shr_declared_bytes sh) (shr_transferred_bytes sh)); lia.
Qed.

(** ** Evidence handlers *)

Lemma evidence_guard_ok s fence stale e :
  Status_ok (evidence_guard s fence stale e) = true -> open s.
Proof.
  unfold evidence_guard, open. intros H. apply seq_status_both in H as [_ H].
  apply seq_status_both in H as [_ H]. by destruct (is_terminal _).
Qed.

Lemma steps_source ev fence at_ e : sessions_step e (report_source_complete ev fence at_ e).2.
Proof.
  unfold report_source_complete. apply (steps_from_begin at_). set (e1 := begin_command at_ e).
  destruct (sessions_ e1 !! _) as [s|] eqn:Hs; [|cbn; peel].
  destruct (negb _) eqn:G; [cbn; peel|]. apply negb_false_iff, evidence_guard_ok in G.
  destruct (locate_shard _ _) as [[pos sh]|] eqn:L; [|cbn; peel]. apply locate_shard_lookup in L.
  destruct (_ >? _) eqn:E1; [cbn; peel|]. destruct (_ && _); [cbn; peel|]. cbn [snd]. peel.
  apply steps_settle_progress, chain_with_session; [apply _|peel|].
  intros s' Hs'. rewrite Hs in Hs'. injection Hs' as <-. rewrite Z.gtb_ltb in E1. bool_facts.
  one_step.
Qed.

Lemma steps_transfer_apply ev s pos sh apos att at_ e :
  sessions_ e !! tev_session ev = Some s -> open s -> ses_shards s !! pos = Some sh ->
  atr_delivered_bytes att <= tev_arrived_bytes ev ->
  sessions_step e (transfer_apply ev s pos sh apos att at_ e).2.
Proof.
  intros Hs Ho Hsh Hd. unfold transfer_apply.
  set (att' := observe_attempt ev at_ att). set (e1 := with_session _ _ e).
  assert (sessions_step e e1) as H1.
  { apply chain_with_session; [apply _|peel|]. intros s' Hs'. rewrite Hs in Hs'.
    injection Hs' as <-. one_step. }
  assert (sessions_ e1 !! tev_session ev = Some (set_attempt apos att' s)) as Hs1
    by (by apply with_session_lookup).
  destruct (tev_sink_acknowledged ev) eqn:A; [destruct (_ >? _) eqn:E; [cbn; peel|]|];
    cbn [andb snd]; peel; apply steps_settle_progress.
  - apply chain_upd_both; [apply _|done|]. intros s' a Hs'. rewrite Hs1 in Hs'.
    injection Hs' as <-. rewrite Z.gtb_ltb in E. bool_facts.
    apply step_once, st_acknowledge; [done|done|cbn; lia].
  - apply chain_with_session; [apply _|done|]. intros s' Hs'. rewrite Hs1 in Hs'.
    injection Hs' as <-. one_step.
Qed.

Lemma steps_transfer ev fence at_ e : sessions_step e (report_transfer ev fence at_ e).2.
Proof.
  unfold report_transfer. apply (steps_from_begin at_). set (e1 := begin_command at_ e).
  destruct (sessions_ e1 !! _) as [s|] eqn:Hs; [|cbn; peel].
  destruct (negb _) eqn:G; [cbn; peel|]. apply negb_false_iff, evidence_guard_ok in G.
  destruct (locate_shard _ _) as [[pos sh]|] eqn:L; [|cbn; peel]. apply locate_shard_lookup in L.
  destruct (negb _); [cbn; peel|]. destruct (find_attempt _ _) as [[apos att]|]; [|cbn; peel].
  destruct (negb _); [cbn; peel|]. destruct (negb _); [cbn; peel|].
  destruct (_ >? _); [cbn; peel|]. destruct (_ >? _) eqn:E; [cbn; peel|].
  rewrite Z.gtb_ltb in E. bool_facts. by apply steps_transfer_apply.
Qed.

Lemma steps_verification_failed id pos apos sh att detail at_ e s :
  sessions_ e !! id = Some s -> open s -> ses_shards s !! pos = Some sh ->
  sessions_step e (verification_failed id pos apos sh att detail at_ e).
Proof.
  intros Hs Ho Hsh. unfold verification_failed. peel. apply chain_settle; [apply _| |].
  - apply chain_with_session; [apply _|peel|]. intros s' Hs'. rewrite Hs in Hs'.
    injection Hs' as <-. one_step.
  - intros s'. rewrite (with_session_lookup _ _ _ _ Hs). intros [= <-].
    by apply step_once, st_settle.
Qed.
Lemma steps_read_through id e x : sessions_step e x -> sessions_step e (read_through id x).
Proof. intros H. unfold read_through. destruct (events_ x), (sessions_ x !! id); peel. Qed.

Lemma steps_verification_apply ev s pos sh apos att at_ e :
  sessions_ e !! vev_session ev = Some s -> open s -> ses_shards s !! pos = Some sh ->
  (vev_outcome ev = VerificationOutcome.Truncated ->
     ses_admitted_bytes s + shr_transferred_bytes sh < 2 ^ 64) ->
  sessions_step e (verification_apply ev s pos sh apos att at_ e).2.
Proof.
  intros Hs Ho Hsh Htr. unfold verification_apply.
  assert (forall detail, sessions_step e (verification_failed (vev_session ev) pos apos sh att
            detail at_ e)) as Hf by (intros; by eapply steps_verification_failed).
  assert (forall f, (forall a, session_step s (f s a).1) ->
            sessions_step e (upd_both (vev_session ev) f e)) as Hu.
  { intros f Hstep. apply chain_upd_both; [apply _|peel|]. intros s' a Hs'. rewrite Hs in Hs'.
    injection Hs' as <-. by apply step_once. }
  destruct (vev_outcome ev); cbn [snd].
  - unfold verify_success. destruct (negb _) eqn:E; [apply Hf|].
    destruct (_ && _); cbn [snd]; peel; [apply steps_read_through, Hf|].
    apply steps_settle_progress, Hu. intros a. bool_facts. by constructor.
  - peel. apply steps_read_through, Hf.
  - unfold verify_truncated. peel. apply steps_read_through, steps_recompute. peel.
    apply Hu. intros a. constructor; auto.
  - unfold verify_ambiguous. peel. apply steps_read_through, steps_recompute. peel.
    apply Hu. intros a. constructor; auto.
  - unfold verify_ambiguous. peel. apply steps_read_through, steps_recompute. peel.
    apply Hu. intros a. constructor; auto.
Qed.

(** Re-admitting a truncated shard must not wrap the admitted counter. *)
Definition truncation_fits (ev : VerificationEvidence) (e : Engine) : Prop :=
  vev_outcome ev = VerificationOutcome.Truncated ->
  forall s sh, sessions_ e !! vev_session ev = Some s -> open s -> sh ∈ ses_shards s ->
    ses_admitted_bytes s + shr_transferred_bytes sh < 2 ^ 64.

Lemma steps_verification ev fence at_ e :
  truncation_fits ev (begin_command at_ e) ->
  sessions_step e (report_verification ev fence at_ e).2.
Proof.
  intros Htr. unfold report_verification. apply (steps_from_begin at_).
  set (e1 := begin_command at_ e) in *.
  destruct (sessions_ e1 !! _) as [s|] eqn:Hs; [|cbn; peel].
  destruct (negb _) eqn:G; [cbn; peel|]. apply negb_false_iff, evidence_guard_ok in G.
  destruct (locate_shard _ _) as [[pos sh]|] eqn:L; [|cbn; peel]. apply locate_shard_lookup in L.
  destruct (negb _); [cbn; peel|]. destruct (find_attempt _ _) as [[apos att]|]; [|cbn; peel].
  destruct (negb _); [cbn; peel|]. destruct (_ && _); [cbn; peel|].
  apply steps_verification_apply; [done..|]. intros Ht.
  apply (Htr Ht s); [done..|]. by eapply list_elem_of_lookup_2.
Qed.

Lemma steps_ambiguous id att seq cause fence at_ e :
  sessions_step e (report_ambiguous id att seq cause fence at_ e).2.
Proof.
  unfold report_ambiguous. apply (steps_from_begin at_). set (e1 := begin_command at_ e).
  destruct (sessions_ e1 !! _) as [s|] eqn:Hs; [|cbn; peel].
  destruct (negb _); [cbn; peel|]. destruct (is_terminal _) eqn:Ho; [cbn; peel|].
  destruct (find_attempt _ _) as [[apos a]|]; [|cbn; peel].
  destruct (negb _); [cbn; peel|]. cbn [snd]. peel.
  apply steps_recompute. peel. apply chain_upd_both; [apply _|peel|]. intros s' a' Hs'.
  rewrite Hs in Hs'. injection Hs' as <-. one_step.
Qed.

Lemma steps_durability id assertion fence at_ e :
  sessions_step e (record_durability_assertion id assertion fence at_ e).2.
Proof.
  unfold record_durability_assertion.
  set (e1 := e <| commands_processed_ := _ |>).
  assert (sessions_step e e1) as H1 by (apply evolves_eq; [apply _|done]).
  destruct (sessions_ e1 !! _) as [s|] eqn:Hs; [|cbn; peel]. guards. cbn [snd]. peel.
  apply chain_with_session; [apply _|done|]. intros. one_step.
Qed.

(** ** Revalidation *)

Lemma steps_revalidate_failed id reason detail at_ e x y s s1 :
  sessions_ e !! id = Some s -> held s -> sessions_ x = <[id := s1]> (sessions_ e) ->
  session_step s (settled SessionState.Failed reason detail at_ s1) ->
  revalidate_failed id reason detail at_ x = y -> sessions_step e y.2.
Proof.
  intros Hs Hh Hx Hstep <-. unfold revalidate_failed. cbn [snd]. peel.
  eapply evolves_at; [apply _|exact Hs|by apply step_once|].
  etrans; [apply settle_terminal_table; rewrite Hx; apply lookup_insert_eq|].
  by rewrite Hx, insert_insert_eq.
Qed.

Lemma steps_revalidate_admit id s contract path_id rate at_ e :
  sessions_ e !! id = Some s -> held s ->
  sessions_step e (revalidate_admit id s contract path_id rate at_ e).2.
Proof.
  intros Hs Hh. unfold revalidate_admit.
  set (e1 := release_path_reservation id e).
  assert (sessions_ e1 = <[id := unreserved s]> (sessions_ e)) as H1 by (by apply release_path_table).
  assert (sessions_step e e1) as Hst.
  { eapply evolves_at; [apply _|exact Hs|apply step_once, st_unreserve|by rewrite H1]. }
  destruct (reserve_path_rate _ _ _) as [reserved shaper].
  destruct (negb _); [cbn; peel|]. cbn [snd]. peel.
  eapply evolves_trans; [apply _|exact Hst|].
  eapply evolves_at; [apply _| | |erewrite with_session_table; [reflexivity|]].
  - rewrite H1. apply lookup_insert_eq.
  - eapply step_once, (st_revalidated (unreserved s)). unfold held. by rewrite unreserved_proj.
  - cbn. rewrite H1. apply lookup_insert_eq.
Qed.

Lemma steps_revalidate id fence at_ e : sessions_step e (revalidate_session id fence at_ e).2.
Proof.
  unfold revalidate_session. apply (steps_from_begin at_). set (e1 := begin_command at_ e).
  destruct (sessions_ e1 !! _) as [s|] eqn:Hs; [|cbn; peel].
  destruct (negb _); [cbn; peel|]. destruct (negb _); [cbn; peel|].
  destruct (negb _ && negb _) eqn:G; [cbn; peel|]. destruct (shutting_down_ _); [cbn; peel|].
  assert (held s) as Hh.
  { unfold held. apply andb_false_iff in G as [G|G]; bool_facts; auto. }
  unfold revalidate_decide.
  assert (sessions_ (with_session id set_failed e1) = <[id := set_failed s]> (sessions_ e1)) as Hf
    by (by apply with_session_table).
  destruct (contracts_ e1 !! _) as [contract|].
  2: { eapply steps_revalidate_failed; [exact Hs|done|exact Hf|by constructor|reflexivity]. }
  destruct (find_envelope _ _) as [env|]; [|cbn; peel].
  destruct (find_path_class _ _) as [path|]; [|cbn; peel].
  destruct (negb (rp_ok _)); [|by apply steps_revalidate_admit].
  destruct (_ || _).
  - eapply steps_revalidate_failed; [exact Hs|done| | |reflexivity].
    + unfold mark_all_unproven. erewrite upd_both_table by (rewrite Hf; apply lookup_insert_eq).
      by rewrite Hf, insert_insert_eq.
    + exact (st_revalidation_failed s _ _ _ at_ Hh).
  - cbn [snd]. apply chain_with_session; [apply _|peel|]. intros s' Hs'. rewrite Hs in Hs'.
    injection Hs' as <-. by apply step_once, st_deferred.
Qed.

(** ** Authority changes *)

Lemma steps_require_revalidation stale text reason at_ e id :
  sessions_step e (require_revalidation_one stale text reason at_ e id).
Proof.
  unfold require_revalidation_one. destruct (sessions_ e !! id) as [s|] eqn:Hs; [|peel].
  destruct (_ || _) eqn:E; [peel|]. bool_facts. peel.
  apply chain_with_session; [apply _|peel|]. intros s' Hs'. rewrite Hs in Hs'.
  injection Hs' as <-. by apply step_once, (st_fence s stale at_).
Qed.

Lemma steps_policy p at_ e : sessions_step e (apply_policy p at_ e).2.
Proof.
  unfold apply_policy. destruct (negb _); [cbn; peel|]. destruct (negb _); [cbn; peel|]. cbn [snd].
  eapply evolves_trans; [apply _| |apply evolves_foldl; [apply _|intros; apply steps_require_revalidation]].
  by apply evolves_eq; [apply _|].
Qed.
Lemma steps_topology t at_ e : sessions_step e (apply_topology t at_ e).2.
Proof.
  unfold apply_topology. destruct (negb _); [cbn; peel|]. destruct (negb _); [cbn; peel|]. cbn [snd].
  eapply evolves_trans; [apply _| |apply evolves_foldl; [apply _|intros; apply steps_require_revalidation]].
  by apply evolves_eq; [apply _|].
Qed.
Lemma steps_contract c at_ e : sessions_step e (upsert_contract c at_ e).2.
Proof.
  unfold upsert_contract. destruct (match contracts_ e !! _ with Some _ => _ | None => _ end);
    [cbn; peel|].
  destruct (negb _); [cbn; peel|]. destruct (_ && _); [cbn; peel|]. cbn [snd].
  set (e1 := push_event _ _).
  assert (sessions_step e e1) as H1.
  { subst e1. peel. by apply evolves_eq; [apply _|]. }
  destruct (by_workload_ e1 !! _); [|done].
  eapply evolves_trans; [apply _|exact H1|].
  apply evolves_foldl; [apply _|intros; apply steps_require_revalidation].
Qed.

Lemma at_risk_nonneg s : 0 <= at_risk_bytes s.
Proof.
  unfold at_risk_bytes. apply (foldl_inv (fun x => 0 <= x)); [lia|]. intros a b _ Ha.
  destruct (atr_outstanding b); [apply u64_range|done].
Qed.

Lemma steps_advance_one at_ e id : sessions_step e (advance_epoch_one at_ e id).
Proof.
  unfold advance_epoch_one. destruct (sessions_ e !! id) as [s|] eqn:Hs; [|peel].
  destruct (is_terminal _) eqn:Ho; [peel|]. peel.
  pose proof (at_risk_nonneg s). unfold mark_unproven.
  set (e1 := upd_both id (mark_unproven_rec _) e).
  assert (sessions_ e1 !! id = Some (mark_unproven_rec (at_risk_bytes s) s (accounting_ e)).1) as H1
    by (by apply upd_both_lookup).
  set (s1 := (mark_unproven_rec _ _ _).1) in H1. assert (open s1) as Ho1 by exact Ho.
  set (e2 := with_session id _ e1). pose proof (with_session_lookup id (fun s =>
    s <| ses_attempts := map (ambiguate_attempt at_) (ses_attempts s) |>) e1 s1 H1) as H2.
  fold e2 in H2.
  apply chain_with_session; [apply _|apply chain_upd_both; [apply _|apply chain_with_session;
    [apply _|apply chain_upd_both; [apply _|peel|]|]|]|].
  - intros s' a Hs'. rewrite Hs in Hs'. injection Hs' as <-. apply step_once, st_unproven; auto.
  - intros s' Hs'. fold e1 in Hs'. rewrite H1 in Hs'. injection Hs' as <-. by apply step_once, st_ambiguate.
  - done.
  - intros s' Hs'. erewrite upd_both_lookup in Hs' by exact H2. injection Hs' as <-.
    lazymatch goal with |- session_steps ?x _ =>
      exact (step_once _ _ (st_restart x restart_text at_ Ho1)) end.
Qed.
Lemma steps_epoch ep at_ e : sessions_step e (advance_epoch ep at_ e).2.
Proof.
  unfold advance_epoch. destruct (negb _); [cbn; peel|]. cbn [snd].
  eapply evolves_trans; [apply _| |apply evolves_foldl; [apply _|intros; apply steps_advance_one]].
  by apply evolves_eq; [apply _|].
Qed.

Lemma steps_poll at_ e : sessions_step e (poll_deadlines at_ e).2.
Proof. apply enforce_deadlines_evolves; [apply _|]. intros. apply steps_enforce_one. Qed.
Lemma steps_shutdown at_ e : sessions_step e (begin_shutdown at_ e).2.
Proof.
  unfold begin_shutdown. destruct (shutting_down_ e); cbn [snd]; peel.
  by apply evolves_eq; [apply _|].
Qed.

(** ** Admission *)

(** What the scan of the checkpoint's sessions collects: a sublist of the index
    entry, all of them active and of an older generation. *)
Definition older_active (request : SessionRequest) (m : gmap SessionId SessionRecord)
    (id : SessionId) : Prop :=
  exists s, m !! id = Some s /\ is_active (ses_state s) = true /\
    gen_ltb (req_checkpoint_generation (ses_request s)) (req_checkpoint_generation request) = true.

Lemma scan_existing_targets request ids m acc targets :
  scan_existing request ids m acc = ScanTargets targets ->
  exists l, targets = acc ++ l /\ l `sublist_of` ids /\
    Forall (older_active request m) l /\
    (forall id s, id ∈ ids -> m !! id = Some s -> is_active (ses_state s) = true -> id ∈ l) /\
    (forall id s, id ∈ ids -> m !! id = Some s ->
       gen_ltb (req_checkpoint_generation request) (req_checkpoint_generation (ses_request s)) = false).
Proof.
  revert acc; induction ids as [|id ids IH]; intros acc H; cbn in H.
  { injection H as <-. exists []. rewrite app_nil_r.
    split_and!; [done|constructor|constructor|set_solver..]. }
  assert (forall acc, scan_existing request ids m acc = ScanTargets targets ->
    (forall s, m !! id = Some s -> is_active (ses_state s) = false /\
       gen_ltb (req_checkpoint_generation request) (req_checkpoint_generation (ses_request s)) = false) ->
    exists l, targets = acc ++ l /\ l `sublist_of` id :: ids /\ Forall (older_active request m) l /\
      (forall id0 s, id0 ∈ id :: ids -> m !! id0 = Some s -> is_active (ses_state s) = true ->
         id0 ∈ l) /\
      (forall id0 s, id0 ∈ id :: ids -> m !! id0 = Some s ->
         gen_ltb (req_checkpoint_generation request) (req_checkpoint_generation (ses_request s)) = false))
    as Hskip.
  { intros acc0 H0 Hna. destruct (IH acc0 H0) as (l & -> & Hsub & Hall & Hin & Hgen). exists l.
    split_and!; [done|by apply sublist_cons|done| |];
      intros i s [->|Hi]%elem_of_cons Hm; [|eauto| |eauto]; destruct (Hna s Hm); [congruence|done]. }
  destruct (m !! id) as [s|] eqn:Hm; [|apply (Hskip acc H); congruence].
  destruct (gen_ltb _ _) eqn:E1; [done|].
  destruct (negb _) eqn:E2.
  { apply (Hskip acc H). intros ? [= <-]. split; [by apply negb_true_iff|done]. }
  destruct (gen_eqb _ _) eqn:E3; [by destruct (manifests_equivalent _ _)|].
  destruct (IH _ H) as (l & -> & Hsub & Hall & Hin & Hgen). exists (id :: l).
  split_and!; [by rewrite <-app_assoc|by apply sublist_skip| | |].
  - constructor; [|done]. exists s. split; [done|]. split; [by apply negb_false_iff|].
    unfold gen_ltb, gen_eqb in *. bool_facts. apply Z.ltb_lt. lia.
  - intros i s' [->|Hi]%elem_of_cons Hm' Ha; [set_solver|]. apply elem_of_cons. right. eauto.
  - intros i s' [->|Hi]%elem_of_cons Hm'; [congruence|eauto].
Qed.

Lemma steps_supersession t by_ at_ e :
  (forall s, sessions_ e !! t = Some s -> open s) -> sessions_step e (apply_supersession t by_ at_ e).
Proof.
  intros Ho. unfold apply_supersession. peel. apply chain_with_session; [apply _| |intros; one_step].
  destruct (sessions_ e !! t) as [s|] eqn:Hs.
  - eapply steps_settle; [done|constructor; auto|exact (Ho s eq_refl)|done].
  - apply chain_settle; [apply _|apply steps_mark_all_unproven; congruence|].
    unfold mark_all_unproven, upd_both. rewrite Hs. cbn. congruence.
Qed.

Lemma steps_supersessions targets by_ at_ e :
  NoDup targets -> (forall t s, t ∈ targets -> sessions_ e !! t = Some s -> open s) ->
  sessions_step e (foldl (fun e t => apply_supersession t by_ at_ e) e targets).
Proof.
  revert e; induction targets as [|t targets IH]; intros e Hnd Ho; cbn; [peel|].
  apply NoDup_cons in Hnd as [Hni Hnd].
  eapply evolves_trans; [apply _|apply steps_supersession; intros s; apply Ho, elem_of_cons; by left|].
  apply IH; [done|]. intros t' s Ht' Hs. apply (Ho t'); [apply elem_of_cons; by right|].
  eapply others_supersession; [|exact Hs]. by intros ->.
Qed.

(** The record of a newly admitted session. *)
Definition newborn (s : SessionRecord) : Prop :=
  exists request contract isolation path_id rate_bps id at_ e,
    s = new_session request contract isolation path_id rate_bps id at_ e /\
    Status_ok (validate_manifest (req_manifest request) (limits_ e)) = true.

(** Sessions step, and at most new ones appear. *)
Definition grows (e e' : Engine) : Prop :=
  forall id s', sessions_ e' !! id = Some s' ->
    (exists s, sessions_ e !! id = Some s /\ session_steps s s') \/
    (sessions_ e !! id = None /\ newborn s').

Lemma grows_step e e' : sessions_step e e' -> grows e e'.
Proof. intros H id s' Hs'. left. by apply H. Qed.
Lemma step_grows e e1 e2 : sessions_step e e1 -> grows e1 e2 -> 
  (forall id, sessions_ e !! id = None \/ is_Some (sessions_ e1 !! id) \/ sessions_ e2 !! id = None) ->
  grows e e2.
Proof.
  intros H1 H2 Hev id s' Hs'. destruct (H2 id s' Hs') as [(s & Hs & Hst)|[Hn Hnew]].
  - left. destruct (H1 id s Hs) as (s0 & Hs0 & Hst0). exists s0. split; [done|]. by trans s.
  - right. split; [|done]. destruct (Hev id) as [?|[[? ?]|?]]; [done|congruence..].
Qed.

Lemma steps_deny request reason detail at_ e :
  sessions_step e (submit_deny request reason detail at_ e).2.
Proof. unfold submit_deny. cbn [snd]. peel. Qed.
Lemma steps_defer request reason detail retry bytes at_ e :
  sessions_step e (submit_defer request reason detail retry bytes at_ e).2.
Proof. unfold submit_defer. cbn [snd]. peel. Qed.
#[export] Hint Resolve steps_deny steps_defer : ctf.
