(* ===== verification/AdmissionCases.v ===== *)
(** * AdmissionCases: the outcomes of [submit_session]

    [submit_session] either leaves the sessions, the byte counters and the path
    reservations alone, or it passes every guard of [admission] and installs
    exactly one session.  The theorems about admission read their conclusions
    off this case analysis. *)

From stdpp Require Import base gmap list strings relations.
From S2P Require Import Prelude Status Ids Hash Enums Model Fence Shaper EngineState.
From S2P Require Import EngineTable EngineAuthority EngineAdmission EngineInv SessionSteps.
From S2P Require Import Commands.

(** Nothing was admitted: the tables, byte counters and shaper are unchanged. *)
Record unadmitted (e e' : Engine) : Prop := {
  un_sessions : sessions_ e' = sessions_ e;
  un_workload : by_workload_ e' = by_workload_ e;
  un_checkpoint : by_checkpoint_ e' = by_checkpoint_ e;
  un_pruned : pruned_ e' = pruned_ e;
  un_shaper : shaper_ e' = shaper_ e;
  un_context : forall g, fabric_context e' g = fabric_context e g;
  un_acct : same_acct (accounting_ e) (accounting_ e')
}.

(** The guards of an admission, evaluated in the engine [e] the command finds
    after it has observed time. *)
Record admission (request : SessionRequest) (at_ : Nanos) (e : Engine)
    (contract : WorkloadContract) (isolation : IsolationClass) (env : IsolationEnvelopeConfig)
    (path : PathClass) (path_id : PathClassId) (targets : list SessionId) (rate : Z) : Prop := {
  adm_running : shutting_down_ e = false;
  adm_contract : contracts_ e !! req_workload request = Some contract;
  adm_contract_generation : req_contract_generation request = wc_generation contract;
  adm_manifest : Status_ok (validate_manifest (req_manifest request) (limits_ e)) = true;
  adm_matches : manifest_matches request = true;
  adm_isolation : isolation = resolve_isolation (req_requested_isolation request)
                                (wc_isolation contract);
  adm_env : find_envelope (policy_ e) isolation = Some env;
  adm_path_id : default_path_class_for (topology_ e) (req_destination request) = Some path_id;
  adm_shards : forall d, d ∈ mf_shards (req_manifest request) ->
                 shard_path_permitted (topology_ e) (req_destination request) d = true;
  adm_path : find_path_class (topology_ e) path_id = Some path;
  adm_targets : scan_existing request (default [] (by_checkpoint_ e !! req_checkpoint request))
                  (sessions_ e) [] = ScanTargets targets;
  adm_supersession : targets = [] \/ wc_allow_supersession contract = true;
  adm_chain : Z.of_nat (length targets) <= lim_max_supersession_chain (limits_ e);
  adm_size : mf_total_bytes (req_manifest request) <= pol_max_session_bytes (policy_ e);
  adm_slots : acc_active_sessions (accounting_ e) < pol_max_sessions (policy_ e);
  adm_workload_slots : workload_active e (req_workload request) < wc_max_in_flight_sessions contract;
  adm_class_slots : class_active e isolation < iec_max_in_flight_sessions env;
  adm_rate : rp_ok (plan_rate request contract env path at_ e) = true /\
             rp_rate_bps (plan_rate request contract env path at_ e) = rate
}.

Lemma unadmitted_refl e : unadmitted e e.
Proof. by constructor. Qed.
Lemma unadmitted_push ev e x : unadmitted e x -> unadmitted e (push_event ev x).
Proof. intros []. unfold push_event. destruct (events_ x); by constructor. Qed.
Lemma unadmitted_remember c r e x : unadmitted e x -> unadmitted e (remember_command c r x).
Proof.
  intros []. unfold remember_command. destruct (command_index_ _ !! c); [by constructor|].
  destruct (trim_commands _ _ _); by constructor.
Qed.
Lemma unadmitted_deny request reason detail at_ e :
  unadmitted e (submit_deny request reason detail at_ e).2.
Proof. apply unadmitted_push, unadmitted_remember. constructor; try done; same_by_compute. Qed.
Lemma unadmitted_defer request reason detail retry bytes at_ e :
  unadmitted e (submit_defer request reason detail retry bytes at_ e).2.
Proof. apply unadmitted_push, unadmitted_remember. constructor; try done; same_by_compute. Qed.
#[export] Hint Resolve unadmitted_refl unadmitted_push unadmitted_remember unadmitted_deny
  unadmitted_defer : ctf.
Lemma unadmitted_steps e x : unadmitted e x -> sessions_step e x.
Proof. intros []. by apply evolves_eq; [apply _|]. Qed.

Ltac refuse := apply or_introl; cbn [snd]; auto with ctf.

Lemma submit_decide_cases request at_ e :
  unadmitted e (submit_decide request at_ e).2 \/
  exists contract isolation env path path_id targets rate,
    admission request at_ e contract isolation env path path_id targets rate /\
    submit_decide request at_ e =
      admit_session request contract isolation path_id rate targets at_ e.
Proof.
  unfold submit_decide. destruct (shutting_down_ e) eqn:H1; [refuse|].
  destruct (contracts_ e !! _) as [contract|] eqn:H2; [|refuse].
  destruct (negb (gen_eqb _ _)) eqn:H3; [refuse|].
  destruct (negb (Status_ok _)) eqn:H4; [refuse|].
  destruct (negb (manifest_matches _)) eqn:H5; [refuse|].
  destruct (find_envelope _ _) as [env|] eqn:H6; [|refuse].
  destruct (default_path_class_for _ _) as [path_id|] eqn:H7; [|refuse].
  destruct (negb (forallb _ _)) eqn:H8; [refuse|].
  destruct (find_path_class _ _) as [path|] eqn:H9; [|refuse].
  unfold submit_existing. destruct (scan_existing _ _ _ _) as [| |targets] eqn:H10; [refuse..|].
  destruct (negb _ && negb _) eqn:H11; [refuse|].
  destruct (Z.of_nat (length targets) >? _) eqn:H12; [refuse|].
  destruct (mf_total_bytes _ >? _) eqn:H13; [refuse|]. unfold submit_capacity.
  destruct (_ =? 0) eqn:H14; [refuse|]. destruct (workload_active _ _ >=? _) eqn:H15; [refuse|].
  destruct (class_active _ _ >=? _) eqn:H16; [refuse|].
  destruct (negb (rp_ok _)) eqn:H17; [destruct (_ || _); refuse|].
  right. do 7 eexists. split; [|reflexivity].
  rewrite Z.gtb_ltb in H12, H13. rewrite Z.geb_leb in H15, H16. bool_facts.
  constructor; try done; try lia.
  - by apply gen_eqb_eq.
  - intros d Hd. rewrite forallb_forall in H8. apply H8.
    by apply list_elem_of_In.
  - apply andb_false_iff in H11 as [H11|H11]; bool_facts; [|auto].
    left. destruct targets; [done|]. cbn in H11. done.
  - destruct (Z.ltb_spec (acc_active_sessions (accounting_ e)) (pol_max_sessions (policy_ e))); [done|].
    lia.
Qed.

(** ** Installation *)

(** The id the engine draws for the next session. *)
Definition next_id (e : Engine) : SessionId := mkId (IdFactory_next (id_factory_ e)).1.

(** The targets are distinct when the checkpoint index is. *)
Lemma admission_targets request at_ e contract isolation env path path_id targets rate :
  idx_ok e -> admission request at_ e contract isolation env path path_id targets rate ->
  NoDup targets /\ Forall (older_active request (sessions_ e)) targets.
Proof.
  intros [_ Hc] Ha. destruct (scan_existing_targets _ _ _ _ _ (adm_targets _ _ _ _ _ _ _ _ _ _ Ha))
    as (l & -> & Hsub & Hall & _ & _). cbn. split; [|done].
  eapply sublist_NoDup; [|exact Hsub]. apply Hc.
Qed.

Section install.
Context (request : SessionRequest) (s : SessionRecord) (targets : list SessionId) (at_ : Nanos).
Context (e : Engine).
Let total := mf_total_bytes (req_manifest request).
(** The engine once the older generations are superseded. *)
Definition superseded : Engine :=
  foldl (fun e target => apply_supersession target (ses_id s) at_ e) e targets.

Lemma superseded_steps :
  NoDup targets -> Forall (older_active request (sessions_ e)) targets ->
  sessions_step e superseded.
Proof.
  intros Hnd Hall. apply steps_supersessions; [done|]. intros t x Ht Hx.
  rewrite Forall_forall in Hall. destruct (Hall t Ht) as (y & Hy & Hact & _).
  apply active_open. congruence.
Qed.

Lemma install_sessions :
  sessions_ superseded !! ses_id s = None ->
  sessions_ (install_session request s targets at_ e) = <[ses_id s := s]> (sessions_ superseded).
Proof.
  intros Hn. unfold install_session, emplace_session. fold superseded.
  rewrite index_deadline_table. cbn. rewrite Hn. cbn. by rewrite index_deadline_table.
Qed.
Lemma install_present x :
  sessions_ superseded !! ses_id s = Some x ->
  sessions_ (install_session request s targets at_ e) = sessions_ superseded.
Proof.
  intros Hn. unfold install_session, emplace_session. fold superseded.
  rewrite index_deadline_table. cbn. rewrite Hn. by rewrite index_deadline_table.
Qed.
Lemma index_deadline_fields s0 x :
  accounting_ (index_deadline s0 x) = accounting_ x /\ pruned_ (index_deadline s0 x) = pruned_ x /\
  by_workload_ (index_deadline s0 x) = by_workload_ x /\
  by_checkpoint_ (index_deadline s0 x) = by_checkpoint_ x /\
  shaper_ (index_deadline s0 x) = shaper_ x.
Proof. unfold index_deadline. by destruct (_ >? _). Qed.
Lemma install_fields :
  let e' := install_session request s targets at_ e in
  pruned_ e' = pruned_ superseded /\
  by_workload_ e' = index_push (req_workload request) (ses_id s) (by_workload_ superseded) /\
  by_checkpoint_ e' = index_push (req_checkpoint request) (ses_id s) (by_checkpoint_ superseded) /\
  shaper_ e' = shaper_ superseded /\
  exists a, same_acct a (accounting_ e') /\
    a = (accounting_ superseded)
      <| acc_bytes_admitted := u64 (acc_bytes_admitted (accounting_ superseded) + total) |>
      <| acc_granted_outstanding_bytes :=
           u64 (acc_granted_outstanding_bytes (accounting_ superseded) + total) |>.
Proof.
  cbn zeta. unfold install_session, emplace_session. fold superseded.
  match goal with |- context [index_deadline s ?x] =>
    destruct (index_deadline_fields s x) as (H1 & H2 & H3 & H4 & H5);
    set (y := index_deadline s x) in * end.
  destruct (sessions_ y !! ses_id s); cbn; rewrite H1, H2, H3, H4, H5;
    (split_and!; [done..|]); eexists; (split; [|reflexivity]); same_by_compute.
Qed.
End install.

(** The bytes of a new session are all outstanding. *)
Record unspent (s : SessionRecord) (total : Z) : Prop := {
  us_admitted : ses_admitted_bytes s = total;
  us_outstanding : ses_outstanding_bytes s = total;
  us_transferred : ses_transferred_bytes s = 0;
  us_cancelled : ses_cancelled_bytes s = 0;
  us_wasted : ses_wasted_bytes s = 0;
  us_unproven : ses_unproven_bytes s = 0;
  us_verified : ses_verified_bytes s = 0
}.
Lemma new_session_unspent request contract isolation path_id rate id at_ e :
  unspent (new_session request contract isolation path_id rate id at_ e)
    (mf_total_bytes (req_manifest request)).
Proof. by constructor. Qed.

Lemma books_install m a p a' id s total :
  books_p m a p -> m !! id = None -> ses_id s = id -> unspent s total -> 0 <= total ->
  acc_bytes_admitted a + total < 2 ^ 64 ->
  same_acct (a <| acc_bytes_admitted := u64 (acc_bytes_admitted a + total) |>
               <| acc_granted_outstanding_bytes :=
                    u64 (acc_granted_outstanding_bytes a + total) |>) a' ->
  books_p (<[id := s]> m) a' p.
Proof.
  intros (Ht & Ha & Hg) Hn Hid [] Htot Hfit (E1&E2&E3&E4&E5&E6). cbn in *.
  destruct Ha. rewrite u64_small in E1, E6 by lia. split; [|split].
  - intros k v Hk. apply lookup_insert_Some in Hk as [[<- <-]|[_ Hk]]; [|by apply Ht].
    split; [|done]. constructor; lia.
  - constructor; lia.
  - destruct Hg. constructor; rewrite ?map_sum_insert_None by done; lia.
Qed.

(** ** Admission as a whole *)

Lemma admit_session_cases request contract isolation path_id rate targets at_ e :
  let id := next_id e in
  let e1 := e <| id_factory_ := (IdFactory_next (id_factory_ e)).2 |> in
  let s := new_session request contract isolation path_id rate id at_ e1 in
  let res := admit_session request contract isolation path_id rate targets at_ e in
  ((reserve_path_rate (shaper_ e) path_id rate).1 = false /\ unadmitted e res.2) \/
  ((reserve_path_rate (shaper_ e) path_id rate).1 = true /\
   exists e2 decision,
     e2 = install_session request s targets at_
            (e1 <| shaper_ := (reserve_path_rate (shaper_ e) path_id rate).2 |>) /\
     res = (Val decision, push_event (mkEvent EventKind.SessionAdmitted id ReasonCode.Admitted_
                            "admitted" at_)
              (remember_command (req_command request)
                 (mkCommand id DecisionKind.Admit ReasonCode.Admitted_
                    (fingerprint_request request) true) e2)) /\
     ad_kind decision = DecisionKind.Admit /\ ad_session decision = id /\
     ad_superseded decision = targets /\ ad_envelope decision = ses_envelope <$> sessions_ e2 !! id).
Proof.
  cbn zeta. unfold admit_session, next_id. destruct (IdFactory_next _) as [uuid factory]. cbn [fst snd].
  change (shaper_ (e <| id_factory_ := factory |>)) with (shaper_ e).
  destruct (reserve_path_rate _ _ _) as [reserved shaper]. cbn [fst snd].
  destruct reserved; cbn [negb]; [right|left]; (split; [done|]).
  - do 2 eexists. split; [reflexivity|]. split; [reflexivity|].
    split_and!; [done..|].
    match goal with |- context [remember_command ?c ?r ?x] =>
      exact (f_equal (fun m => ses_envelope <$> m !! mkId uuid) (remember_command_table c r x)) end.
  - destruct (unadmitted_deny request ReasonCode.ResourceLimit "path class reservation overflow" at_
                (e <| id_factory_ := factory |>)). by constructor.
Qed.
