(* ===== verification/Ledger.v ===== *)
(** * Ledger: byte conservation over every run

    [ledger] is the engine's accounting and index invariant.  Every command
    preserves it, so it holds in every reachable state; the theorems about
    whole runs are proved from it. *)

From stdpp Require Import base gmap list strings relations.
From S2P Require Import Prelude Status Ids Hash Enums Model Fence Shaper EngineState.
From S2P Require Import EngineTable EngineAuthority EngineAdmission EngineLifecycle.
From S2P Require Import EngineEvidence EngineInspect EngineInv SessionSteps Commands.
From S2P Require Import AdmissionCases.

Definition ledger (e : Engine) : Prop := books e /\ idx_ok e.

(** ** Preservation by the shared pieces *)

Lemma led_fields e e' :
  sessions_ e' = sessions_ e -> accounting_ e' = accounting_ e -> pruned_ e' = pruned_ e ->
  by_workload_ e' = by_workload_ e -> by_checkpoint_ e' = by_checkpoint_ e -> ledger e -> ledger e'.
Proof.
  intros H1 H2 H3 H4 H5 [Hb Hi]. split.
  - unfold books. by rewrite H1, H2, H3.
  - eapply idx_keys; [|exact Hi]. unfold keys, requests. by rewrite H1, H4, H5.
Qed.
Lemma led_with_session id f e :
  ledger e -> (forall s, same_bytes s (f s)) -> (forall s, ses_request (f s) = ses_request s) ->
  ledger (with_session id f e).
Proof.
  intros [Hb Hi] Hf Hr. split; [by apply books_with_session|].
  eapply idx_keys; [by apply keys_with_session|done].
Qed.
Lemma led_upd_both id f e :
  ledger e -> (forall s a, ses_request (f s a).1 = ses_request s) ->
  (forall s, sessions_ e !! id = Some s ->
     moves s (f s (accounting_ e)).1 (accounting_ e) (f s (accounting_ e)).2 /\
     ses_bytes_ok (f s (accounting_ e)).1 /\ acct_ok (f s (accounting_ e)).2) ->
  ledger (upd_both id f e).
Proof.
  intros [Hb Hi] Hr Hf. split; [by apply books_upd_both|].
  eapply idx_keys; [by apply keys_upd_both|done].
Qed.
Lemma led_accounting f e :
  ledger e -> (forall a, same_acct a (f a)) -> ledger (upd_accounting f e).
Proof. intros [Hb Hi] Hf. split; [by apply books_upd_accounting|exact Hi]. Qed.
Lemma led_note id at_ text e : ledger e -> ledger (note_timeline id at_ text e).
Proof. intros H. by apply led_with_session. Qed.
Lemma led_push ev e : ledger e -> ledger (push_event ev e).
Proof. intros H. unfold push_event. by destruct (events_ e). Qed.
Lemma led_touch e : ledger e -> ledger (touch_dangling e).
Proof. done. Qed.
Lemma led_remember c r e : ledger e -> ledger (remember_command c r e).
Proof.
  intros H. unfold remember_command. destruct (command_index_ _ !! c); [done|].
  by destruct (trim_commands _ _ _).
Qed.
Lemma led_index_deadline s e : ledger e -> ledger (index_deadline s e).
Proof. intros H. unfold index_deadline. by destruct (_ >? _). Qed.
Lemma led_settle_terminal id st reason detail at_ e :
  ledger e -> ledger (settle_terminal id st reason detail at_ e).
Proof. intros [Hb Hi]. split; [by apply books_settle_terminal|by apply idx_settle_terminal]. Qed.
Lemma led_recompute id at_ e : ledger e -> ledger (recompute_progress id at_ e).
Proof. intros [Hb Hi]. split; [by apply books_recompute|by apply idx_recompute]. Qed.
Lemma led_release_path id e : ledger e -> ledger (release_path_reservation id e).
Proof.
  intros [Hb Hi]. split; [by apply books_release_path|].
  eapply idx_keys; [apply keys_release_path|done].
Qed.
Lemma led_mark_all id e : ledger e -> ledger (mark_all_unproven id e).
Proof.
  intros [Hb Hi]. split; [by apply books_mark_all_unproven|].
  eapply idx_keys; [by apply keys_upd_both|done].
Qed.
Lemma led_cancelled id e : ledger e -> ledger (settle_outstanding_as_cancelled id e).
Proof.
  intros [Hb Hi]. split; [by apply books_settle_cancelled|].
  eapply idx_keys; [by apply keys_upd_both|done].
Qed.
Lemma led_begin at_ e : ledger e -> ledger (begin_command at_ e).
Proof.
  intros [Hb Hi]. split; [by apply books_enforce_deadlines|by apply idx_enforce_deadlines].
Qed.
#[export] Hint Resolve led_note led_push led_touch led_remember led_index_deadline
  led_settle_terminal led_recompute led_release_path led_mark_all led_cancelled led_begin : ctf.
Lemma led_settle_progress id at_ e : ledger e -> ledger (settle_progress id at_ e).
Proof.
  intros H. unfold settle_progress. destruct (sessions_ _ !! id); [|auto with ctf].
  destruct (_ =e _); auto with ctf.
Qed.
Lemma led_read_through id e : ledger e -> ledger (read_through id e).
Proof. intros H. unfold read_through. by destruct (events_ e), (sessions_ e !! id). Qed.
#[export] Hint Resolve led_settle_progress led_read_through : ctf.

(** Peel the outer calls of a handler down to the update that moves bytes. *)
Ltac led :=
  repeat first [assumption | lazymatch goal with
  | |- ledger (push_event _ _) => apply led_push
  | |- ledger (upd_accounting _ _) => apply led_accounting; [|intros; same_by_compute]
  | |- ledger (touch_dangling _) => apply led_touch
  | |- ledger (note_timeline _ _ _ _) => apply led_note
  | |- ledger (with_session _ _ _) =>
      apply led_with_session; [|intros; same_by_compute|intros; reflexivity]
  | |- ledger (settle_progress _ _ _) => apply led_settle_progress
  | |- ledger (recompute_progress _ _ _) => apply led_recompute
  | |- ledger (read_through _ _) => apply led_read_through
  | |- ledger (settle_terminal _ _ _ _ _ _) => apply led_settle_terminal
  | |- ledger (remember_command _ _ _) => apply led_remember
  | |- ledger (index_deadline _ _) => apply led_index_deadline
  | |- ledger (mark_all_unproven _ _) => apply led_mark_all
  | |- ledger (settle_outstanding_as_cancelled _ _) => apply led_cancelled
  | |- ledger (begin_command _ _) => apply led_begin
  | |- ledger _ => apply (led_fields _ _ eq_refl eq_refl eq_refl eq_refl eq_refl); assumption
  end].
(** ** Lifecycle handlers *)

Lemma led_pause id fence reason at_ e : ledger e -> ledger (pause_session id fence reason at_ e).2.
Proof.
  intros H. apply (led_begin at_) in H. unfold pause_session.
  destruct (sessions_ _ !! id); [|done]. repeat (destruct (negb _); [done|]).
  destruct (is_terminal _); [done|]. destruct (_ =e _); [done|].
  destruct (ses_paused _); [done|]. cbn [snd]; led.
Qed.
Lemma led_resume id fence at_ e : ledger e -> ledger (resume_session id fence at_ e).2.
Proof.
  intros H. apply (led_begin at_) in H. unfold resume_session.
  destruct (sessions_ _ !! id); [|done]. repeat (destruct (negb _); [done|]). cbn [snd]; led.
Qed.
Lemma led_cancel id fence reason detail at_ e :
  ledger e -> ledger (cancel_session id fence reason detail at_ e).2.
Proof.
  intros H. apply (led_begin at_) in H. unfold cancel_session.
  destruct (sessions_ _ !! id); [|done]. repeat (destruct (negb _); [done|]).
  destruct (is_terminal _); [done|]. cbn [snd]; led.
Qed.
Lemma led_wave id index fence at_ e : ledger e -> ledger (request_wave id index fence at_ e).2.
Proof.
  intros H. apply (led_begin at_) in H. unfold request_wave.
  destruct (sessions_ _ !! id) as [s|]; [|done]. destruct (negb _); [done|].
  destruct (_ >=? _); [done|]. destruct (shard_position _ _) as [pos|]; [|done].
  destruct (_ !! pos) as [sh|]; [|done]. destruct (negb _); [done|].
  unfold wave_credit. destruct (shard_remaining sh =? 0); [done|].
  destruct (class_tokens_at _ _ _) as [available shaper]. destruct (available <? _).
  { destruct (class_time_until_at _ _ _ _). cbn [snd]. led. }
  destruct (shaper_try_consume _ _ _ _ _) as [verdict shaper2]. destruct (negb _).
  { cbn [snd]. led. }
  unfold issue_grant. destruct (IdFactory_next _) as [uuid factory]. cbn [snd].
  apply led_push, led_note, led_accounting; [|intros; same_by_compute].
  apply led_with_session; [led|..]; intros s0; unfold grant_rec; destruct (_ || _);
    same_by_compute || reflexivity.
Qed.

(** ** Evidence handlers *)

Lemma led_source ev fence at_ e : ledger e -> ledger (report_source_complete ev fence at_ e).2.
Proof.
  intros H. apply (led_begin at_) in H. unfold report_source_complete.
  destruct (sessions_ _ !! _) as [s|]; [|done]. destruct (negb _); [done|].
  destruct (locate_shard _ _) as [[pos sh]|]; [|done]. destruct (_ >? _); [done|].
  destruct (_ && _); [done|]. cbn [snd]. led.
Qed.

(** Acknowledged bytes move from outstanding to transferred. *)
Lemma led_acknowledge ev newly pos sh apos att id e s :
  ledger e -> sessions_ e !! id = Some s -> 0 <= newly <= ses_outstanding_bytes s ->
  ledger (upd_both id (acknowledge_rec ev newly pos sh apos att) e).
Proof.
  intros [Hb Hi] Hs Hn. apply led_upd_both; [done| |].
  { intros s0 a. unfold acknowledge_rec. by open_rec. }
  intros s' Hs'. rewrite Hs in Hs'. injection Hs' as <-. open_books Hb Hs.
  unfold acknowledge_rec. destruct (newly >? _) eqn:E; [rewrite Z.gtb_lt in E; cbn in E; lia|].
  open_rec; solve_move.
Qed.

Lemma led_transfer ev fence at_ e : ledger e -> ledger (report_transfer ev fence at_ e).2.
Proof.
  intros H. apply (led_begin at_) in H. unfold report_transfer. set (e1 := begin_command _ _) in *.
  destruct (sessions_ e1 !! _) as [s|] eqn:Hs; [|done]. destruct (negb _); [done|].
  destruct (locate_shard _ _) as [[pos sh]|]; [|done]. destruct (negb _); [done|].
  destruct (find_attempt _ _) as [[apos att]|]; [|done]. destruct (negb _); [done|].
  destruct (negb _); [done|]. destruct (_ >? _); [done|]. destruct (_ >? _) eqn:E; [done|].
  rewrite Z.gtb_ltb in E. bool_facts. unfold transfer_apply.
  destruct (tev_sink_acknowledged ev); [destruct (_ >? _) eqn:E1|]; cbn [andb snd]; led.
  eapply led_acknowledge; [led|by apply with_session_lookup|].
  rewrite Z.gtb_ltb in E1. bool_facts. cbn. lia.
Qed.

Lemma led_verification_failed id pos apos sh att detail at_ e :
  ledger e -> ledger (verification_failed id pos apos sh att detail at_ e).
Proof. intros H. unfold verification_failed. led. Qed.

Lemma led_verified ev pos apos sh att id e :
  ledger e -> ledger (upd_both id (verified_rec ev pos apos sh att) e).
Proof.
  intros [Hb Hi]. apply led_upd_both; [done|done|]. intros s Hs. open_books Hb Hs.
  pose proof (u64_range (ses_verified_bytes s +
    (if vev_verified_bytes ev >? shr_verified_bytes sh
     then vev_verified_bytes ev - shr_verified_bytes sh else 0))).
  unfold verified_rec. repeat split; cbn; lia.
Qed.

(** A truncated shard's bytes are wasted and admitted again. *)
Lemma led_truncated pos apos sh att at_ id e s :
  ledger e -> sessions_ e !! id = Some s ->
  0 <= shr_transferred_bytes sh <= ses_transferred_bytes s ->
  acc_bytes_admitted (accounting_ e) + shr_transferred_bytes sh < 2 ^ 64 ->
  ledger (upd_both id (truncated_rec pos apos sh att at_) e).
Proof.
  intros [Hb Hi] Hs Hn Hfit. apply led_upd_both; [done| |].
  { intros s0 a. unfold truncated_rec. by open_rec. }
  intros s' Hs'. rewrite Hs in Hs'. injection Hs' as <-. open_books Hb Hs.
  unfold truncated_rec. open_rec; cbn [fst snd];
    (match goal with |- context [if ?x >? ?y then _ else 0] =>
       replace (if x >? y then x - y else 0) with (ses_transferred_bytes s - shr_transferred_bytes sh)
         by (cbn; destruct (Z.gtb_spec (ses_transferred_bytes s) (shr_transferred_bytes sh)); lia) end);
    solve_move.
Qed.

Lemma led_ambiguous_rec pos apos sh att at_ id e :
  ledger e -> ledger (upd_both id (ambiguous_rec pos apos sh att at_) e).
Proof.
  intros [Hb Hi]. pose proof (attempt_shortfall_nonneg att). apply led_upd_both; [done| |].
  { intros s0 a. unfold ambiguous_rec. by open_rec. }
  intros s Hs. open_books Hb Hs. unfold ambiguous_rec, mark_unproven_rec. open_rec; solve_move.
Qed.
Lemma mark_ambiguous_shard_request att s : ses_request (mark_ambiguous_shard att s) = ses_request s.
Proof. by apply mark_ambiguous_shard_proj. Qed.
Lemma mark_ambiguous_shard_same att s : same_bytes s (mark_ambiguous_shard att s).
Proof.
  unfold mark_ambiguous_shard. destruct (locate_shard _ _) as [[pos sh]|]; [|done].
  by destruct (_ && _).
Qed.
Lemma led_report_ambiguous_rec apos att cause at_ id e :
  ledger e -> ledger (upd_both id (report_ambiguous_rec apos att cause at_) e).
Proof.
  intros [Hb Hi]. pose proof (attempt_shortfall_nonneg att). apply led_upd_both; [done| |].
  { intros s0 a. unfold report_ambiguous_rec. open_rec; exact (mark_ambiguous_shard_request _ _). }
  intros s Hs. open_books Hb Hs. unfold report_ambiguous_rec, mark_unproven_rec.
  open_rec; (lazymatch goal with |- context [mark_ambiguous_shard att ?x] =>
    destruct (mark_ambiguous_shard_same att x) as (?&?&?&?&?&?&?&?);
    set (y := mark_ambiguous_shard att x) in * end);
    cbn in *; repeat split; cbn; wrap_small; try lia; done.
Qed.

(** Every session satisfies the byte invariant of [SessionSteps]. *)
Definition sound_sessions : Engine -> Prop := all_sessions session_inv.

Lemma sound_step e e' : sessions_step e e' -> sound_sessions e -> sound_sessions e'.
Proof. apply evolves_all, session_steps_inv. Qed.

Lemma authority_begin at_ e : authority (begin_command at_ e) = authority e.
Proof. unfold begin_command. by rewrite authority_enforce_deadlines. Qed.
Lemma admitted_begin at_ e :
  acc_bytes_admitted (accounting_ (begin_command at_ e)) = acc_bytes_admitted (accounting_ e).
Proof. exact (f_equal snd (authority_begin at_ e)). Qed.

(** Room in the admitted counter for re-admitting a truncated shard. *)
Definition readmits (ev : VerificationEvidence) (e : Engine) : Prop :=
  vev_outcome ev = VerificationOutcome.Truncated ->
  2 * acc_bytes_admitted (accounting_ e) < 2 ^ 64.

(** A shard of an open session holds at most what the aggregate has admitted. *)
Lemma shard_le_admitted e id s sh :
  ledger e -> sound_sessions e -> sessions_ e !! id = Some s -> open s -> sh ∈ ses_shards s ->
  0 <= shr_transferred_bytes sh <= ses_transferred_bytes s /\
  ses_transferred_bytes s <= ses_admitted_bytes s /\
  ses_admitted_bytes s <= acc_bytes_admitted (accounting_ e).
Proof.
  intros [Hb _] Hsi Hs Ho Hel. apply list_elem_of_lookup in Hel as [pos Hsh].
  pose proof (inv_shard_le _ _ _ (Hsi _ _ Hs) Ho Hsh). open_books Hb Hs. lia.
Qed.

Lemma readmits_fits ev at_ e :
  ledger e -> sound_sessions e -> readmits ev e -> truncation_fits ev (begin_command at_ e).
Proof.
  intros Hl Hsi Hr Ht s sh Hs Ho Hel. specialize (Hr Ht).
  apply (led_begin at_) in Hl. apply (sound_step _ (begin_command at_ e)) in Hsi; [|apply steps_begin].
  destruct (shard_le_admitted _ _ _ _ Hl Hsi Hs Ho Hel) as (?&?&H3).
  rewrite admitted_begin in H3. lia.
Qed.

Lemma led_verification ev fence at_ e :
  ledger e -> sound_sessions e -> readmits ev e -> ledger (report_verification ev fence at_ e).2.
Proof.
  intros H Hsi Hr. assert (2 * acc_bytes_admitted (accounting_ (begin_command at_ e)) < 2 ^ 64 \/
    vev_outcome ev <> VerificationOutcome.Truncated) as Hr'.
  { rewrite admitted_begin. destruct (decide (vev_outcome ev = VerificationOutcome.Truncated)); auto. }
  apply (led_begin at_) in H. apply (sound_step _ (begin_command at_ e)) in Hsi; [|apply steps_begin].
  unfold report_verification. set (e1 := begin_command _ _) in *.
  destruct (sessions_ e1 !! _) as [s|] eqn:Hs; [|done]. destruct (negb _) eqn:G; [done|].
  apply negb_false_iff, evidence_guard_ok in G.
  destruct (locate_shard _ _) as [[pos sh]|] eqn:L; [|done]. apply locate_shard_lookup in L.
  destruct (negb _); [done|]. destruct (find_attempt _ _) as [[apos att]|]; [|done].
  destruct (negb _); [done|]. destruct (_ && _); [done|].
  apply list_elem_of_lookup_2 in L.
  destruct (shard_le_admitted _ _ _ _ H Hsi Hs G L) as (?&?&?).
  unfold verification_apply.
  destruct (vev_outcome ev) eqn:O; cbn [snd];
    unfold verify_success, verify_truncated, verify_ambiguous.
  - destruct (negb _); [by apply led_verification_failed|].
    destruct (_ && _); cbn [snd]; led; [by apply led_verification_failed|by apply led_verified].
  - led. by apply led_verification_failed.
  - led. eapply led_truncated; [done|exact Hs|lia|]. destruct Hr' as [Hr'|]; [lia|done].
  - led. by apply led_ambiguous_rec.
  - led. by apply led_ambiguous_rec.
Qed.

Lemma led_report_ambiguous id att seq cause fence at_ e :
  ledger e -> ledger (report_ambiguous id att seq cause fence at_ e).2.
Proof.
  intros H. apply (led_begin at_) in H. unfold report_ambiguous.
  destruct (sessions_ _ !! _) as [s|]; [|done]. destruct (negb _); [done|].
  destruct (is_terminal _); [done|]. destruct (find_attempt _ _) as [[apos a]|]; [|done].
  destruct (negb _); [done|]. cbn [snd]. led. by apply led_report_ambiguous_rec.
Qed.
Lemma led_durability id assertion fence at_ e :
  ledger e -> ledger (record_durability_assertion id assertion fence at_ e).2.
Proof.
  intros H. unfold record_durability_assertion.
  destruct (sessions_ _ !! _) as [s|]; [|done]. destruct (negb _); [done|].
  destruct (_ && _); [done|]. destruct (_ && _); [done|]. cbn [snd]. led.
Qed.

(** ** Revalidation and authority changes *)

Lemma led_revalidate_failed id reason detail at_ e :
  ledger e -> ledger (revalidate_failed id reason detail at_ e).2.
Proof. intros H. cbn [revalidate_failed snd]. led. Qed.

Lemma led_revalidate id fence at_ e : ledger e -> ledger (revalidate_session id fence at_ e).2.
Proof.
  intros H. apply (led_begin at_) in H. unfold revalidate_session. set (e1 := begin_command _ _) in *.
  destruct (sessions_ e1 !! _) as [s|]; [|done]. destruct (negb _); [cbn [snd]; led|].
  destruct (negb _); [done|]. destruct (_ && _); [done|]. destruct (shutting_down_ _); [done|].
  unfold revalidate_decide. destruct (contracts_ e1 !! _) as [contract|].
  2: { apply led_revalidate_failed. led. }
  destruct (find_envelope _ _) as [env|]; [|done]. destruct (find_path_class _ _) as [path|]; [|done].
  destruct (negb _).
  { destruct (_ || _); [apply led_revalidate_failed; led|cbn [snd]; led]. }
  unfold revalidate_admit. destruct (reserve_path_rate _ _ _) as [reserved shaper].
  apply (led_release_path id) in H. destruct (negb _); [done|]. cbn [snd]. led.
Qed.

Lemma led_require stale text reason at_ e id :
  ledger e -> ledger (require_revalidation_one stale text reason at_ e id).
Proof.
  intros H. unfold require_revalidation_one. destruct (sessions_ e !! id); [|done].
  destruct (_ || _); [done|]. led.
Qed.
Lemma led_foldl {B} (f : Engine -> B -> Engine) l e :
  ledger e -> (forall e b, ledger e -> ledger (f e b)) -> ledger (foldl f e l).
Proof. intros H Hf. apply foldl_inv; auto. Qed.

Lemma led_policy p at_ e : ledger e -> ledger (apply_policy p at_ e).2.
Proof.
  intros H. unfold apply_policy. destruct (negb _); [done|]. destruct (negb _); [done|]. cbn [snd].
  apply led_foldl; [led|]. intros; by apply led_require.
Qed.
Lemma led_topology t at_ e : ledger e -> ledger (apply_topology t at_ e).2.
Proof.
  intros H. unfold apply_topology. destruct (negb _); [done|]. destruct (negb _); [done|]. cbn [snd].
  apply led_foldl; [led|]. intros; by apply led_require.
Qed.
Lemma led_contract c at_ e : ledger e -> ledger (upsert_contract c at_ e).2.
Proof.
  intros H. unfold upsert_contract.
  destruct (match contracts_ e !! _ with Some _ => _ | None => _ end); [done|].
  destruct (negb _); [done|]. destruct (_ && _); [done|]. cbn [snd].
  set (e1 := push_event _ _). assert (ledger e1) as H1 by (subst e1; led).
  destruct (by_workload_ e1 !! _); [|done]. apply led_foldl; [done|]. intros; by apply led_require.
Qed.

Lemma led_mark_unproven id n e : 0 <= n -> ledger e -> ledger (mark_unproven id n e).
Proof.
  intros Hn [Hb Hi]. split; [by apply books_mark_unproven|].
  eapply idx_keys; [by apply keys_upd_both|done].
Qed.
Lemma led_epoch ep at_ e : ledger e -> ledger (advance_epoch ep at_ e).2.
Proof.
  intros H. unfold advance_epoch. destruct (negb _); [done|]. cbn [snd]. apply led_foldl; [led|].
  intros x id Hx. unfold advance_epoch_one. destruct (sessions_ x !! id) as [s|]; [|done].
  destruct (is_terminal _); [done|]. led.
  apply (led_mark_unproven id _ _ (at_risk_nonneg s)) in Hx.
  match goal with |- ledger (upd_both id ?f ?y) => assert (ledger y) as [Hb Hi] by led end.
  split; [apply books_same_both; [done|]; intros; split; same_by_compute|].
  eapply idx_keys; [by apply keys_upd_both|done].
Qed.
Lemma led_poll at_ e : ledger e -> ledger (poll_deadlines at_ e).2.
Proof.
  intros [Hb Hi]. split; [by apply books_enforce_deadlines|by apply idx_enforce_deadlines].
Qed.
Lemma led_shutdown at_ e : ledger e -> ledger (begin_shutdown at_ e).2.
Proof. intros H. unfold begin_shutdown. destruct (shutting_down_ e); cbn [snd]; led. Qed.

(** ** Admission *)

Lemma led_unadmitted e x : unadmitted e x -> ledger e -> ledger x.
Proof.
  intros [H1 H2 H3 H4 _ _ H6] [(Ht & Ha & Hg) Hi]. split.
  - unfold books. rewrite H1, H4. split; [done|]. split; [by eapply same_acct_ok|].
    by eapply same_acct_agg.
  - eapply idx_keys; [|exact Hi]. unfold keys, requests. by rewrite H1, H2, H3.
Qed.

Lemma led_supersession t by_ at_ e : ledger e -> ledger (apply_supersession t by_ at_ e).
Proof. intros H. unfold apply_supersession. led. Qed.

Lemma authority_supersession t by_ at_ e : authority (apply_supersession t by_ at_ e) = authority e.
Proof.
  unfold apply_supersession. autorewrite with authority.
  rewrite authority_upd_accounting by done. by autorewrite with authority.
Qed.
Lemma authority_superseded s targets at_ e : authority (superseded s targets at_ e) = authority e.
Proof.
  unfold superseded. apply (foldl_inv (fun x => authority x = authority e)); [done|].
  intros a b _ Ha. by rewrite authority_supersession.
Qed.

Lemma led_install request s targets at_ e :
  ledger e -> NoDup targets -> Forall (older_active request (sessions_ e)) targets ->
  sessions_ e !! ses_id s = None -> ses_request s = request ->
  unspent s (mf_total_bytes (req_manifest request)) -> 0 <= mf_total_bytes (req_manifest request) ->
  acc_bytes_admitted (accounting_ e) + mf_total_bytes (req_manifest request) < 2 ^ 64 ->
  ledger (install_session request s targets at_ e).
Proof.
  intros Hl Hnd Hall Hn Hr Hu Htot Hfit.
  pose proof (superseded_steps request s targets at_ e Hnd Hall) as Hst.
  assert (sessions_ (superseded s targets at_ e) !! ses_id s = None) as Hn'.
  { destruct (sessions_ (superseded s targets at_ e) !! ses_id s) as [x|] eqn:Hx; [|done].
    destruct (Hst _ _ Hx) as (y & Hy & _). congruence. }
  assert (ledger (superseded s targets at_ e)) as [Hb [Hw Hc]].
  { apply led_foldl; [done|]. intros. by apply led_supersession. }
  assert (acc_bytes_admitted (accounting_ (superseded s targets at_ e)) =
          acc_bytes_admitted (accounting_ e)) as Hadm
    by exact (f_equal snd (authority_superseded s targets at_ e)).
  rewrite <-Hadm in Hfit.
  destruct (install_fields request s targets at_ e) as (E1 & E2 & E3 & _ & a & Ea & ->).
  pose proof (install_sessions request s targets at_ e Hn') as E4. split.
  - unfold books. rewrite E1, E4. eapply books_install; [exact Hb|done|done|exact Hu|done|done|exact Ea].
  - unfold idx_ok, keys, requests. rewrite E2, E3, E4, fmap_insert, Hr.
    split; cbn [fst snd]; apply index_push_ok; try done; by rewrite lookup_fmap, Hn'.
Qed.

Lemma next_id_begin at_ e : next_id (begin_command at_ e) = next_id e.
Proof.
  unfold next_id. pose proof (authority_begin at_ e) as H. unfold authority in H. congruence.
Qed.
Lemma begin_none at_ e id : sessions_ e !! id = None -> sessions_ (begin_command at_ e) !! id = None.
Proof.
  intros H. destruct (sessions_ (begin_command at_ e) !! id) as [x|] eqn:Hx; [|done].
  destruct (steps_begin at_ e _ _ Hx) as (y & Hy & _). congruence.
Qed.

(** The caller obligations of an admission: the drawn identity is unused and
    the admitted counter has room. *)
Record submittable (request : SessionRequest) (e : Engine) : Prop := {
  su_fresh : sessions_ e !! next_id e = None;
  su_total : 0 <= mf_total_bytes (req_manifest request);
  su_fits : acc_bytes_admitted (accounting_ e) + mf_total_bytes (req_manifest request) < 2 ^ 64
}.

(** Everything [submit_session] can do, from the state that time left. *)
Lemma submit_session_cases request fence at_ e :
  let e1 := begin_command at_ e in
  let res := submit_session request fence at_ e in
  unadmitted e1 res.2 \/
  exists contract isolation env path path_id targets rate s e2 decision,
    admission request at_ e1 contract isolation env path path_id targets rate /\
    (reserve_path_rate (shaper_ e1) path_id rate).1 = true /\
    s = new_session request contract isolation path_id rate (next_id e) at_
          (e1 <| id_factory_ := (IdFactory_next (id_factory_ e1)).2 |>) /\
    e2 = install_session request s targets at_
           (e1 <| id_factory_ := (IdFactory_next (id_factory_ e1)).2 |>
               <| shaper_ := (reserve_path_rate (shaper_ e1) path_id rate).2 |>) /\
    res = (Val decision, push_event (mkEvent EventKind.SessionAdmitted (next_id e)
                           ReasonCode.Admitted_ "admitted" at_)
             (remember_command (req_command request)
                (mkCommand (next_id e) DecisionKind.Admit ReasonCode.Admitted_
                   (fingerprint_request request) true) e2)) /\
    ad_kind decision = DecisionKind.Admit /\ ad_session decision = next_id e /\
    ad_superseded decision = targets /\ ad_envelope decision = ses_envelope <$> sessions_ e2 !! next_id e.
Proof.
  cbn zeta. unfold submit_session. set (e1 := begin_command at_ e).
  destruct (negb (fv_ok _)); [left; cbn [snd]; auto with ctf|].
  destruct (negb (Status_ok _)); [left; cbn [snd]; auto with ctf|].
  destruct (command_index_ e1 !! _); [left; cbn [snd]; auto with ctf|].
  destruct (submit_decide_cases request at_ e1)
    as [Hu|(contract & iso & env & path & path_id & targets & rate & Ha & ->)]; [by left|].
  destruct (admit_session_cases request contract iso path_id rate targets at_ e1)
    as [[_ Hu]|(Hr & e2 & decision & He2 & Hres & Hd)]; [by left|].
  right. exists contract, iso, env, path, path_id, targets, rate. do 3 eexists.
  rewrite <-(next_id_begin at_ e). fold e1. split; [exact Ha|]. split; [exact Hr|].
  split; [reflexivity|]. split; [exact He2|]. split; [exact Hres|exact Hd].
Qed.

Section submit.
Context (request : SessionRequest) (fence : CommandFence) (at_ : Nanos) (e : Engine).
Context (Hl : ledger e) (Hsub : submittable request e).
Let e1 := begin_command at_ e.

Lemma submit_fits :
  ledger e1 /\ sessions_ e1 !! next_id e = None /\
  acc_bytes_admitted (accounting_ e1) + mf_total_bytes (req_manifest request) < 2 ^ 64.
Proof.
  destruct Hsub. split_and!; [by apply led_begin|by apply begin_none|].
  unfold e1. by rewrite admitted_begin.
Qed.

Lemma led_submit : ledger (submit_session request fence at_ e).2.
Proof.
  destruct submit_fits as (H1 & Hfresh & Hfit).
  destruct (submit_session_cases request fence at_ e)
    as [Hu|(contract & iso & env & path & path_id & targets & rate & s & e2 & decision &
            Ha & Hr & -> & -> & -> & _)]; [by eapply led_unadmitted|].
  destruct (admission_targets _ _ _ _ _ _ _ _ _ _ (proj2 H1) Ha) as [Hnd Hall].
  cbn [snd]. apply led_push, led_remember, led_install; try done. apply Hsub.
Qed.

Lemma submit_grows : grows e (submit_session request fence at_ e).2.
Proof.
  destruct submit_fits as (H1 & Hfresh & Hfit).
  destruct (submit_session_cases request fence at_ e)
    as [Hu|(contract & iso & env & path & path_id & targets & rate & s & e2 & decision &
            Ha & Hr & Es & -> & -> & _)].
  { apply grows_step, (steps_from_begin at_). by apply unadmitted_steps. }
  destruct (admission_targets _ _ _ _ _ _ _ _ _ _ (proj2 H1) Ha) as [Hnd Hall].
  match goal with |- context [install_session request s targets at_ ?x] => set (e3 := x) end.
  assert (sessions_step e3 (superseded s targets at_ e3)) as Hst
    by (by eapply superseded_steps).
  assert (sessions_ (superseded s targets at_ e3) !! ses_id s = None) as Hn.
  { destruct (sessions_ (superseded s targets at_ e3) !! ses_id s) as [x|] eqn:Hx; [|done].
    destruct (Hst _ _ Hx) as (y & Hy & _). subst s. change (sessions_ e1 !! next_id e = Some y) in Hy.
    congruence. }
  intros id s'. cbn [snd].
  rewrite push_event_table, remember_command_table, install_sessions by done.
  intros [[<- <-]|[_ Hs']]%lookup_insert_Some.
  - right. split; [rewrite Es; apply Hsub|]. do 8 eexists. split; [exact Es|]. apply Ha.
  - left. destruct (Hst _ _ Hs') as (y & Hy & Hys).
    destruct (steps_begin at_ e _ _ Hy) as (z & Hz & Hzy). exists z. split; [done|]. by trans y.
Qed.
End submit.

(** A newborn session satisfies the byte invariant. *)
Lemma newborn_inv s : newborn s -> 0 <= ses_admitted_bytes s < 2 ^ 64 -> session_inv s.
Proof.
  intros (request & contract & iso & path_id & rate & id & at_ & e & -> & _) Hb.
  assert (forall l, shards_transferred (map (initial_shard path_id) l) = 0 /\
            forall sh, sh ∈ map (initial_shard path_id) l -> shr_transferred_bytes sh = 0) as Hz.
  { induction l as [|d l [IH1 IH2]]; [split; [done|set_solver]|]. cbn. split.
    - exact IH1.
    - intros sh [->|Hsh]%elem_of_cons; [done|by apply IH2]. }
  destruct (Hz (mf_shards (req_manifest request))) as [Hz1 Hz2].
  constructor; [|apply Hb|..].
  - destruct Hb. constructor; cbn in *; lia.
  - intros sh Hsh. rewrite (Hz2 sh Hsh). done.
  - intros _. exact Hz1.
  - done.
Qed.

(** ** Commands *)

Inductive Command :=
| SubmitSession (request : SessionRequest) (fence : CommandFence)
| RevalidateSession (id : SessionId) (fence : CommandFence)
| PauseSession (id : SessionId) (fence : CommandFence) (reason : string)
| ResumeSession (id : SessionId) (fence : CommandFence)
| CancelSession (id : SessionId) (fence : CommandFence) (reason : ReasonCode) (detail : string)
| RequestWave (id : SessionId) (shard : ShardIndex) (fence : CommandFence)
| ReportSource (ev : SourceCompleteEvidence) (fence : CommandFence)
| ReportTransfer (ev : TransferEvidence) (fence : CommandFence)
| ReportVerification (ev : VerificationEvidence) (fence : CommandFence)
| ReportAmbiguous (id : SessionId) (attempt : TransferAttemptId) (sequence : AttemptSequence)
    (cause : string) (fence : CommandFence)
| RecordDurability (id : SessionId) (assertion : DurabilityAssertion) (fence : CommandFence)
| ApplyPolicy (policy : PolicySnapshot)
| ApplyTopology (topology : TopologySnapshot)
| UpsertContract (contract : WorkloadContract)
| AdvanceEpoch (epoch : CoordinatorEpoch)
| PollDeadlines
| BeginShutdown.

Definition exec (c : Command) (at_ : Nanos) (e : Engine) : Engine :=
  match c with
  | SubmitSession request fence => (submit_session request fence at_ e).2
  | RevalidateSession id fence => (revalidate_session id fence at_ e).2
  | PauseSession id fence reason => (pause_session id fence reason at_ e).2
  | ResumeSession id fence => (resume_session id fence at_ e).2
  | CancelSession id fence reason detail => (cancel_session id fence reason detail at_ e).2
  | RequestWave id shard fence => (request_wave id shard fence at_ e).2
  | ReportSource ev fence => (report_source_complete ev fence at_ e).2
  | ReportTransfer ev fence => (report_transfer ev fence at_ e).2
  | ReportVerification ev fence => (report_verification ev fence at_ e).2
  | ReportAmbiguous id attempt sequence cause fence =>
      (report_ambiguous id attempt sequence cause fence at_ e).2
  | RecordDurability id assertion fence =>
      (record_durability_assertion id assertion fence at_ e).2
  | ApplyPolicy policy => (apply_policy policy at_ e).2
  | ApplyTopology topology => (apply_topology topology at_ e).2
  | UpsertContract contract => (upsert_contract contract at_ e).2
  | AdvanceEpoch epoch => (advance_epoch epoch at_ e).2
  | PollDeadlines => (poll_deadlines at_ e).2
  | BeginShutdown => (begin_shutdown at_ e).2
  end.

(** The conditions under which a command's arithmetic cannot wrap and its fresh
    identity is fresh. *)
Definition admissible (c : Command) (e : Engine) : Prop :=
  match c with
  | SubmitSession request _ => submittable request e
  | ReportVerification ev _ => readmits ev e
  | _ => True
  end.

Record sound (e : Engine) : Prop := {
  so_ledger : ledger e;
  so_sessions : sound_sessions e
}.

Lemma exec_ledger c at_ e : sound e -> admissible c e -> ledger (exec c at_ e).
Proof.
  intros [Hl Hs] Ha. destruct c; cbn [exec].
  - by apply led_submit.
  - by apply led_revalidate.
  - by apply led_pause.
  - by apply led_resume.
  - by apply led_cancel.
  - by apply led_wave.
  - by apply led_source.
  - by apply led_transfer.
  - by apply led_verification.
  - by apply led_report_ambiguous.
  - by apply led_durability.
  - by apply led_policy.
  - by apply led_topology.
  - by apply led_contract.
  - by apply led_epoch.
  - by apply led_poll.
  - by apply led_shutdown.
Qed.

Lemma exec_grows c at_ e : sound e -> admissible c e -> grows e (exec c at_ e).
Proof.
  intros [Hl Hs] Ha. destruct c; cbn [exec]; [by apply submit_grows|apply grows_step..].
  - apply steps_revalidate.
  - apply steps_pause.
  - apply steps_resume.
  - apply steps_cancel.
  - apply steps_wave.
  - apply steps_source.
  - apply steps_transfer.
  - by apply steps_verification, readmits_fits.
  - apply steps_ambiguous.
  - apply steps_durability.
  - apply steps_policy.
  - apply steps_topology.
  - apply steps_contract.
  - apply steps_epoch.
  - apply steps_poll.
  - apply steps_shutdown.
Qed.

Lemma exec_sound c at_ e : sound e -> admissible c e -> sound (exec c at_ e).
Proof.
  intros He Ha. pose proof (exec_ledger c at_ e He Ha) as Hl'. constructor; [done|].
  intros id s' Hs'. destruct (exec_grows c at_ e He Ha id s' Hs') as [(s & Hs & Hst)|[_ Hn]].
  - eapply session_steps_inv; [done|]. by eapply (so_sessions e He).
  - apply newborn_inv; [done|]. destruct Hl' as [Hb _]. open_books Hb Hs'. lia.
Qed.

(** ** Reachable engines

    From a new engine, by commands alone: [restore] is not one of them.  What holds
    of an engine after a restart is in [RestartProps]; what does not, in
    [Findings]. *)

Inductive reachable (config : EngineConfig) : Engine -> Prop :=
| reach_init at_ : reachable config (engine_init config at_)
| reach_sink e l : reachable config e -> reachable config (e <| events_ := l |>)
| reach_exec e c at_ :
    reachable config e -> admissible c e -> reachable config (exec c at_ e).

Lemma engine_init_empty config at_ :
  let e := engine_init config at_ in
  sessions_ e = ∅ /\ by_workload_ e = ∅ /\ by_checkpoint_ e = ∅ /\
  accounting_ e = AccountingSnapshot_default /\ pruned_ e = PrunedTotals_default.
Proof. cbn zeta. unfold engine_init. by destruct (negb _). Qed.

Lemma engine_init_sound config at_ : sound (engine_init config at_).
Proof.
  destruct (engine_init_empty config at_) as (H1 & H2 & H3 & H4 & H5).
  constructor; [split|].
  - unfold books. rewrite H1, H4, H5. split; [intros k v; by rewrite lookup_empty|].
    split; constructor; rewrite ?map_sum_empty; cbn; lia.
  - unfold idx_ok, keys, requests. rewrite H1, H2, H3, fmap_empty.
    split; apply index_ok_empty.
  - intros k v. by rewrite H1, lookup_empty.
Qed.

Lemma reachable_sound config e : reachable config e -> sound e.
Proof.
  induction 1 as [at_|e l _ [Hl Hs]|e c at_ _ IH Ha].
  - apply engine_init_sound.
  - by constructor.
  - by apply exec_sound.
Qed.
