(* ===== verification/RunProps.v ===== *)
(** * RunProps: what holds in every run of the engine

    Theorems over [reachable] engines and over single commands, read off the
    ledger and the session lifecycle. *)

From stdpp Require Import base gmap list strings relations.
From S2P Require Import Prelude Status Ids Hash Enums Model Fence Shaper EngineState.
From S2P Require Import EngineTable EngineAuthority EngineAdmission EngineLifecycle.
From S2P Require Import EngineEvidence EngineInspect Scenario EngineInv SessionSteps Commands.
From S2P Require Import AdmissionCases Ledger.

(** ** A concrete run, for the witnesses *)

Definition submit_cmd : Command := SubmitSession request1 (fence_now engine1).
Lemma engine1_reach : reachable config1 engine1.
Proof. apply reach_init. Qed.
Lemma submit_admissible : admissible submit_cmd engine1.
Proof. constructor; vm_compute; [reflexivity|discriminate|reflexivity]. Qed.
Notation run1 := (exec submit_cmd 1 engine1).
Lemma admitted1_reach : reachable config1 run1.
Proof. apply reach_exec; [apply engine1_reach|apply submit_admissible]. Qed.

(** The cancellation of that session. *)
Definition cancel_cmd : Command :=
  CancelSession S1 (fence_now admitted1) ReasonCode.CancelledByOperator "operator".
Notation cancelled1 := (exec cancel_cmd 2 run1).
Lemma cancelled1_reach : reachable config1 cancelled1.
Proof. apply reach_exec; [apply admitted1_reach|exact I]. Qed.

(** The session of that run, before and after the cancellation. *)
Lemma run1_S1 : exists s, sessions_ run1 !! S1 = Some s /\ is_terminal (ses_state s) = false.
Proof.
  destruct (holds_at_some (sessions_ run1 !! S1) (fun s => negb (is_terminal (ses_state s))))
    as (s & Hs & Ho%negb_true_iff); [vm_compute; reflexivity|]. eauto.
Qed.
Lemma cancelled1_S1 :
  exists s, sessions_ cancelled1 !! S1 = Some s /\ is_terminal (ses_state s) = true /\
            ses_paused s = false.
Proof.
  destruct (holds_at_some (sessions_ cancelled1 !! S1)
              (fun s => is_terminal (ses_state s) && negb (ses_paused s))) as (s & Hs & Hb);
    [vm_compute; reflexivity|]. apply andb_true_iff in Hb as [Ht Hp%negb_true_iff]. eauto.
Qed.

(** ** Conservation *)

(** C1: In every reachable engine the accounting conserves bytes: the exact
    integer identity admitted = transferred + wasted + cancelled + unproven +
    outstanding holds, no bucket is negative, the total fits 64 bits, and hence
    the engine's own wrap-around test [conserves] succeeds.  Reachable means: by
    commands from a new engine, with no [restore], each with a session identity
    that is not in the table and with byte totals that do not wrap ([admissible]). *)
Theorem reachable_conserves config e :
  reachable config e ->
  let a := accounting_ e in
  conserves a = true /\
  acc_bytes_admitted a = acc_bytes_transferred a + acc_bytes_wasted a + acc_bytes_cancelled a +
                         acc_bytes_unproven a + acc_granted_outstanding_bytes a /\
  0 <= acc_bytes_transferred a /\ 0 <= acc_bytes_wasted a /\ 0 <= acc_bytes_cancelled a /\
  0 <= acc_bytes_unproven a /\ 0 <= acc_granted_outstanding_bytes a /\
  acc_bytes_admitted a < 2 ^ 64.
Proof.
  intros [[(_ & Ha & _) _] _]%reachable_sound. split; [by apply acct_ok_conserves|].
  by destruct Ha.
Qed.
Lemma reachable_conserves_witness : conserves (accounting_ cancelled1) = true.
Proof. exact (proj1 (reachable_conserves config1 cancelled1 cancelled1_reach)). Defined.

(** C2: In every reachable engine each aggregate byte counter is the exact sum
    of the pruned total and of the sessions still in the table, the sessions'
    outstanding authority never exceeds the aggregate's, and no session's
    buckets exceed what it was admitted for.  It is about engines reached from a
    new one without [restore], which forgets the pruned totals
    ([finding_restart_forgets_pruned]). *)
Theorem reachable_aggregates config e :
  reachable config e ->
  let a := accounting_ e in let p := pruned_ e in let m := sessions_ e in
  acc_bytes_admitted a = pr_admitted p + map_sum ses_admitted_bytes m /\
  acc_bytes_transferred a = pr_transferred p + map_sum ses_transferred_bytes m /\
  acc_bytes_cancelled a = pr_cancelled p + map_sum ses_cancelled_bytes m /\
  acc_bytes_wasted a = pr_wasted p + map_sum ses_wasted_bytes m /\
  acc_bytes_unproven a = pr_unproven p + map_sum ses_unproven_bytes m /\
  map_sum ses_outstanding_bytes m <= acc_granted_outstanding_bytes a /\
  forall id s, m !! id = Some s ->
    ses_id s = id /\ ses_bytes_ok s.
Proof.
  intros [[(Ht & _ & Hg) _] _]%reachable_sound. destruct Hg. split_and!; try done.
  intros id s Hs. by destruct (Ht id s Hs).
Qed.
Lemma reachable_aggregates_witness :
  acc_bytes_cancelled (accounting_ cancelled1) =
  pr_cancelled (pruned_ cancelled1) + map_sum ses_cancelled_bytes (sessions_ cancelled1).
Proof. exact (proj1 (proj2 (proj2 (reachable_aggregates config1 cancelled1 cancelled1_reach)))). Defined.

(** C3: Every command refines the session lifecycle: each session in the table
    after it either was there before and moved along [session_step]s, or is the
    newborn record of an admission under an id that was free. *)
Theorem exec_refines_lifecycle config e c at_ :
  reachable config e -> admissible c e ->
  forall id s', sessions_ (exec c at_ e) !! id = Some s' ->
    (exists s, sessions_ e !! id = Some s /\ rtc session_step s s') \/
    (sessions_ e !! id = None /\ newborn s').
Proof. intros He%reachable_sound Ha. exact (exec_grows c at_ e He Ha). Qed.
Lemma exec_refines_lifecycle_witness :
  exists s, sessions_ cancelled1 !! S1 = Some s /\
    exists s0, sessions_ run1 !! S1 = Some s0 /\ rtc session_step s0 s.
Proof.
  destruct cancelled1_S1 as (s & Hs & _), run1_S1 as (s0 & Hs0 & _).
  exists s. split; [exact Hs|].
  destruct (exec_refines_lifecycle config1 run1 cancel_cmd 2 admitted1_reach I S1 s Hs)
    as [Hl|[Hn _]]; [exact Hl|]. rewrite Hn in Hs0. destruct (None_ne_Some _ Hs0).
Defined.

(** C4: A terminal session that is not paused never leaves its state: after any
    command it is in the same state and still not paused, unless history
    pruning evicted it. *)
Theorem terminal_absorbing config e c at_ id s :
  reachable config e -> admissible c e -> sessions_ e !! id = Some s ->
  is_terminal (ses_state s) = true -> ses_paused s = false ->
  sessions_ (exec c at_ e) !! id = None \/
  exists s', sessions_ (exec c at_ e) !! id = Some s' /\
             ses_state s' = ses_state s /\ ses_paused s' = false.
Proof.
  intros He%reachable_sound Ha Hs Ht Hp.
  destruct (sessions_ (exec c at_ e) !! id) as [s'|] eqn:Hs'; [right|by left].
  destruct (exec_grows c at_ e He Ha id s' Hs') as [(s0 & Hs0 & Hst)|[Hn _]]; [|congruence].
  rewrite Hs in Hs0. injection Hs0 as <-.
  destruct (session_steps_final _ _ _ Hst Ht (conj eq_refl Hp)). eauto.
Qed.
Lemma terminal_absorbing_witness :
  exists s, sessions_ cancelled1 !! S1 = Some s /\
    (sessions_ (exec (ResumeSession S1 (fence_now cancelled1)) 3 cancelled1) !! S1 = None \/
     exists s', sessions_ (exec (ResumeSession S1 (fence_now cancelled1)) 3 cancelled1) !! S1 = Some s' /\
       ses_state s' = ses_state s /\ ses_paused s' = false).
Proof.
  destruct cancelled1_S1 as (s & Hs & Ht & Hp).
  exists s. split; [exact Hs|].
  exact (terminal_absorbing config1 cancelled1 (ResumeSession S1 (fence_now cancelled1)) 3 S1 s
           cancelled1_reach I Hs Ht Hp).
Defined.

(** C25: No command changes a session's identity, its request, its creation time
    or the declared part of its shard table (index, size, digest, path). *)
Theorem session_static config e c at_ id s s' :
  reachable config e -> admissible c e ->
  sessions_ e !! id = Some s -> sessions_ (exec c at_ e) !! id = Some s' -> static s' = static s.
Proof.
  intros He%reachable_sound Ha Hs Hs'.
  destruct (exec_grows c at_ e He Ha id s' Hs') as [(s0 & Hs0 & Hst)|[Hn _]]; [|congruence].
  rewrite Hs in Hs0. injection Hs0 as <-. by apply session_steps_static.
Qed.
Lemma session_static_witness :
  exists s s', sessions_ run1 !! S1 = Some s /\
    sessions_ cancelled1 !! S1 = Some s' /\ static s' = static s.
Proof.
  destruct cancelled1_S1 as (s' & Hs' & _), run1_S1 as (s & Hs & _).
  exists s, s'. split; [exact Hs|]. split; [exact Hs'|].
  exact (session_static config1 run1 cancel_cmd 2 S1 s s' admitted1_reach I Hs Hs').
Defined.

(** In every reachable engine the workload and checkpoint indexes list,
    without repetition, exactly the live sessions with that key. *)
Theorem reachable_indexes config e :
  reachable config e ->
  (forall w, NoDup (default [] (by_workload_ e !! w)) /\
     forall id, id ∈ default [] (by_workload_ e !! w) <->
       exists s, sessions_ e !! id = Some s /\ req_workload (ses_request s) = w) /\
  (forall k, NoDup (default [] (by_checkpoint_ e !! k)) /\
     forall id, id ∈ default [] (by_checkpoint_ e !! k) <->
       exists s, sessions_ e !! id = Some s /\ req_checkpoint (ses_request s) = k).
Proof.
  intros [[_ [Hw Hc]] _]%reachable_sound.
  assert (forall K (key : SessionRequest -> K) id k,
    (exists r, requests e !! id = Some r /\ key r = k) <->
    (exists s, sessions_ e !! id = Some s /\ key (ses_request s) = k)) as Hr.
  { intros K key id k. unfold requests. rewrite lookup_fmap.
    destruct (sessions_ e !! id); cbn; naive_solver. }
  split; intros k; [destruct (Hw k) as [H1 H2]|destruct (Hc k) as [H1 H2]];
    (split; [exact H1|]); intros id; rewrite <-Hr; apply H2.
Qed.
Lemma reachable_indexes_witness :
  NoDup (default [] (by_checkpoint_ cancelled1 !! K1)).
Proof. exact (proj1 (proj2 (reachable_indexes config1 cancelled1 cancelled1_reach) K1)). Defined.

(** In every reachable engine an unfinished session has transferred exactly
    the bytes its shards have, so no shard's count exceeds the session's and the
    session's never exceeds what was admitted. *)
Theorem open_session_shards config e id s :
  reachable config e -> sessions_ e !! id = Some s -> is_terminal (ses_state s) = false ->
  zsum shr_transferred_bytes (ses_shards s) = ses_transferred_bytes s /\
  forall sh, sh ∈ ses_shards s -> 0 <= shr_transferred_bytes sh <= ses_admitted_bytes s.
Proof.
  intros [Hl Hs]%reachable_sound Hid Ho. split; [by apply inv_open_sum; [eapply Hs|]|].
  intros sh Hsh. pose proof (shard_le_admitted e id s sh Hl Hs Hid Ho Hsh). lia.
Qed.
Lemma open_session_shards_witness :
  exists s, sessions_ run1 !! S1 = Some s /\
    zsum shr_transferred_bytes (ses_shards s) = ses_transferred_bytes s.
Proof.
  destruct run1_S1 as (s & Hs & Ho).
  exists s. split; [exact Hs|].
  exact (proj1 (open_session_shards config1 _ S1 s admitted1_reach Hs Ho)).
Defined.
