(* ===== verification/ShaperProps.v ===== *)
(** * ShaperProps: the token buckets shape traffic

    Exactness of the integer refill arithmetic, the token bound, the long-run
    rate bound of a bucket over any sequence of calls, the meaning of
    [time_until], the atomicity of the two-bucket consumption, and the path
    reservations. *)

From stdpp Require Import base gmap list strings.
From S2P Require Import Prelude Status Ids Enums Model Shaper.

(** ** Arithmetic *)

(** The clock constant as a numeral, where [lia] needs its value. *)
Ltac nanos := change kNanosPerSecond with 1000000000 in *.


(** Splitting the rate at 10^9 loses nothing: the sum of the two quotients is
    the quotient of the product. *)
Lemma split_div rate t d : 0 < d -> rate / d * t + (rate mod d * t) / d = rate * t / d.
Proof.
  intros Hd. rewrite (Z.div_mod rate d) at 3 by lia.
  replace ((d * (rate / d) + rate mod d) * t) with (rate mod d * t + rate / d * t * d) by ring.
  rewrite Z.div_add by lia. lia.
Qed.

Lemma split_range rate t :
  0 <= rate < 2 ^ 64 -> 0 <= t <= kNanosPerSecond ->
  0 <= rate / kNanosPerSecond * t < 2 ^ 64 /\
  0 <= rate mod kNanosPerSecond * t < 2 ^ 64 /\
  0 <= rate * t / kNanosPerSecond < 2 ^ 64.
Proof.
  nanos. intros Hr Ht.
  pose proof (Z.div_mod rate 1000000000 ltac:(lia)).
  pose proof (Z.mod_pos_bound rate 1000000000 ltac:(lia)).
  assert (rate * t / 1000000000 <= rate).
  { etrans; [apply (Z.div_le_mono _ (rate * 1000000000)); [lia|]|rewrite Z.div_mul; lia].
    apply Z.mul_le_mono_nonneg_l; lia. }
  assert (0 <= rate * t / 1000000000) by (apply Z.div_pos; [apply Z.mul_nonneg_nonneg|]; lia).
  pose proof (Z.div_pos rate 1000000000 ltac:(lia) ltac:(lia)).
  split_and!; nia.
Qed.

(** For every 64-bit rate the refill of an interval is exactly the floor of
    rate times the interval, clamped to one second, over 10^9: the split
    computation neither wraps nor loses a byte. *)
Theorem refill_bytes_exact rate elapsed :
  in_u64 rate ->
  refill_bytes rate elapsed =
  if elapsed <=? 0 then 0 else rate * Z.min elapsed kNanosPerSecond / kNanosPerSecond.
Proof.
  unfold in_u64, refill_bytes. intros Hr.
  destruct (elapsed <=? 0) eqn:E; [by rewrite orb_true_r|]. bool_facts. rewrite orb_false_r.
  destruct (rate =? 0) eqn:E0; [bool_facts; by subst|].
  set (t := Z.min elapsed kNanosPerSecond).
  assert (0 <= t <= kNanosPerSecond) as Ht by (unfold t; nanos; lia).
  destruct (split_range rate t Hr Ht) as (H1 & H2 & H3).
  rewrite (u64_small t) by (nanos; lia).
  rewrite (u64_small (_ * t)) by done. rewrite (u64_small (rate mod _ * t)) by done.
  rewrite split_div by (nanos; lia). by apply u64_small.
Qed.
Lemma refill_bytes_exact_witness : refill_bytes (2 ^ 63 + 7) 999999999 = (2 ^ 63 + 7) * 999999999 / 1000000000.
Proof. exact (refill_bytes_exact (2 ^ 63 + 7) 999999999 ltac:(unfold in_u64; lia)). Defined.

(** The part of the refill facts the bucket lemmas use. *)
Lemma refill_le rate elapsed :
  in_u64 rate -> 0 <= refill_bytes rate elapsed <= rate * Z.max 0 elapsed / kNanosPerSecond /\
  refill_bytes rate elapsed < 2 ^ 64.
Proof.
  unfold in_u64, refill_bytes. intros Hr.
  assert (0 < kNanosPerSecond) as Hk by (nanos; lia).
  destruct (_ || _) eqn:E.
  { split; [split; [done|apply Z.div_pos; nia]|lia]. }
  bool_facts. set (t := Z.min elapsed kNanosPerSecond).
  assert (0 <= t <= kNanosPerSecond) as Ht by (unfold t; nanos; lia).
  destruct (split_range rate t Hr Ht) as (H1 & H2 & H3).
  rewrite (u64_small t) by (nanos; lia).
  rewrite (u64_small (_ * t)) by done. rewrite (u64_small (rate mod _ * t)) by done.
  rewrite split_div by done. rewrite u64_small by done. split; [|lia]. split; [lia|].
  apply Z.div_le_mono; nia.
Qed.

(** ** The token bound *)

Record bucket_ok (b : TokenBucket) : Prop := {
  bo_rate : in_u64 (tb_rate_bps b);
  bo_capacity : in_u64 (tb_capacity_bytes b);
  bo_tokens : 0 <= tb_tokens b <= tb_capacity_bytes b
}.

Lemma bucket_refill_ok b now : bucket_ok b -> bucket_ok (bucket_refill b now).
Proof.
  intros Hb. pose proof Hb as [Hr Hc Ht]. unfold bucket_refill. destruct (_ || _); [done|].
  pose proof (refill_le (tb_rate_bps b) (s64 (now - tb_last_ns b)) Hr) as [[Hp _] _].
  destruct (_ =? 0); [by constructor|]. destruct (_ || _) eqn:E; [constructor; cbn; unfold in_u64 in *; lia|].
  bool_facts. rewrite Z.geb_leb in *. cbn in *. unfold in_u64 in *. bool_facts.
  rewrite u64_small in * by lia. constructor; cbn; unfold in_u64; rewrite ?u64_small by lia; lia.
Qed.

Lemma burst_capacity_range rate window : in_u64 rate -> in_u64 (burst_capacity rate window).
Proof.
  unfold in_u64, burst_capacity. intros Hr. destruct (_ || _); [lia|].
  destruct (_ <? _); [|apply u64_range]. split; [apply Z.div_pos; lia|].
  apply Z.div_lt_upper_bound; lia.
Qed.
Lemma bucket_configure_ok rate window now : in_u64 rate -> bucket_ok (bucket_configure rate window now).
Proof.
  intros Hr. pose proof (burst_capacity_range rate (s64 window) Hr).
  constructor; cbn; [done|done|]. unfold in_u64 in *. lia.
Qed.
Lemma bucket_try_consume_ok b now bytes :
  bucket_ok b -> 0 <= bytes -> bucket_ok (bucket_try_consume b now bytes).2.
Proof.
  intros Hb Hn. apply (bucket_refill_ok b now) in Hb. unfold bucket_try_consume.
  set (b' := bucket_refill b now) in *. destruct (bytes >? _) eqn:E; [done|]. cbn [snd].
  destruct Hb. rewrite Z.gtb_ltb in E. unfold in_u64 in *. bool_facts.
  constructor; cbn; unfold in_u64; rewrite ?u64_small by lia; lia.
Qed.
Lemma bucket_release_ok b bytes : bucket_ok b -> 0 <= bytes -> bucket_ok (bucket_release b bytes).
Proof.
  intros [Hr Hc Ht] Hn. unfold bucket_release, in_u64 in *.
  destruct (_ || _) eqn:E; [constructor; cbn; unfold in_u64; lia|].
  bool_facts. rewrite Z.geb_leb in *. bool_facts. rewrite u64_small in * by lia.
  constructor; cbn; unfold in_u64; rewrite ?u64_small by lia; lia.
Qed.

(** The calls a bucket sees. *)
Inductive BucketOp :=
| Refill (now : Z)
| TryConsume (now bytes : Z)
| Release (bytes : Z)
| Reconfigure (rate_bps burst_window_ns now : Z).

Definition bucket_op (b : TokenBucket) (op : BucketOp) : TokenBucket :=
  match op with
  | Refill now => bucket_refill b now
  | TryConsume now bytes => (bucket_try_consume b now bytes).2
  | Release bytes => bucket_release b bytes
  | Reconfigure rate window now => bucket_configure rate window now
  end.
(** Arguments in the range of their C++ types. *)
Definition op_wf (op : BucketOp) : Prop :=
  match op with
  | Refill _ => True
  | TryConsume _ bytes | Release bytes => in_u64 bytes
  | Reconfigure rate _ _ => in_u64 rate
  end.

(** Whatever calls a bucket sees after its configuration, its credit stays
    between 0 and its capacity. *)
Theorem bucket_tokens_bounded rate window now ops :
  in_u64 rate -> Forall op_wf ops ->
  let b := foldl bucket_op (bucket_configure rate window now) ops in
  0 <= tb_tokens b <= tb_capacity_bytes b /\ in_u64 (tb_capacity_bytes b).
Proof.
  intros Hr Hops. cbn zeta. enough (bucket_ok (foldl bucket_op (bucket_configure rate window now) ops))
    as [] by done.
  rewrite Forall_forall in Hops. apply foldl_inv; [by apply bucket_configure_ok|].
  intros b op Hop Hb. specialize (Hops op Hop). destruct op; cbn in *.
  - by apply bucket_refill_ok.
  - apply bucket_try_consume_ok; [done|apply Hops].
  - apply bucket_release_ok; [done|apply Hops].
  - by apply bucket_configure_ok.
Qed.
Lemma bucket_tokens_bounded_witness :
  0 <= tb_tokens (foldl bucket_op (bucket_configure 1000 1000000000 0)
         [TryConsume 5 900; Refill 700000000; Release 10000]) <= 1000.
Proof.
  exact (proj1 (bucket_tokens_bounded 1000 1000000000 0
    [TryConsume 5 900; Refill 700000000; Release 10000]
    ltac:(unfold in_u64; lia) ltac:(repeat constructor; cbn; unfold in_u64; lia))).
Defined.

(** ** The long-run rate *)

(** Credit a refill adds, against the time it advances the bucket by. *)
Lemma bucket_refill_credit b now :
  bucket_ok b ->
  tb_tokens (bucket_refill b now) <=
    tb_tokens b + tb_rate_bps b * (tb_last_ns (bucket_refill b now) - tb_last_ns b) / kNanosPerSecond /\
  tb_last_ns b <= tb_last_ns (bucket_refill b now) /\
  tb_rate_bps (bucket_refill b now) = tb_rate_bps b /\
  tb_capacity_bytes (bucket_refill b now) = tb_capacity_bytes b.
Proof.
  intros [Hr Hc Ht]. unfold bucket_refill. destruct (_ || _) eqn:E0.
  { rewrite Z.sub_diag, Z.mul_0_r, Z.div_0_l by (nanos; lia). lia. }
  bool_facts. pose proof (refill_le (tb_rate_bps b) (s64 (now - tb_last_ns b)) Hr) as [[Hp Hle0] _].
  unfold in_u64 in *.
  assert (refill_bytes (tb_rate_bps b) (s64 (now - tb_last_ns b)) <=
          tb_rate_bps b * (now - tb_last_ns b) / kNanosPerSecond) as Hle.
  { etrans; [exact Hle0|]. apply Z.div_le_mono; [nanos; lia|]. apply Z.mul_le_mono_nonneg_l; [lia|].
    pose proof (s64_le (now - tb_last_ns b)). lia. }
  set (acc := refill_bytes _ _) in *.
  set (gain := tb_rate_bps b * (now - tb_last_ns b) / kNanosPerSecond) in *.
  assert (forall b', tb_last_ns b' = now -> tb_rate_bps b' = tb_rate_bps b ->
    tb_capacity_bytes b' = tb_capacity_bytes b -> tb_tokens b' <= tb_tokens b + acc ->
    tb_tokens b' <= tb_tokens b + tb_rate_bps b * (tb_last_ns b' - tb_last_ns b) / kNanosPerSecond /\
    tb_last_ns b <= tb_last_ns b' /\ tb_rate_bps b' = tb_rate_bps b /\
    tb_capacity_bytes b' = tb_capacity_bytes b) as Hfin.
  { intros b' -> -> -> Htok. fold gain. lia. }
  destruct (acc =? 0); [apply Hfin; cbn; lia|].
  destruct (_ || _) eqn:E2; apply Hfin; try done; cbn.
  - apply orb_true_iff in E2. rewrite !Z.geb_le in E2. cbn in E2. rewrite u64_small in E2 by lia. lia.
  - apply u64_le. lia.
Qed.

(** A run of consumption requests: the bytes granted and the final bucket. *)
Fixpoint bucket_run (b : TokenBucket) (requests : list (Z * Z)) : Z * TokenBucket :=
  match requests with
  | [] => (0, b)
  | (now, bytes) :: rest =>
      let '(ok, b) := bucket_try_consume b now bytes in
      let '(granted, b) := bucket_run b rest in
      ((if ok then bytes else 0) + granted, b)
  end.

Lemma div_superadd x y d : 0 < d -> 0 <= x -> 0 <= y -> x / d + y / d <= (x + y) / d.
Proof.
  intros Hd Hx Hy. pose proof (Z.mul_div_le x d Hd). pose proof (Z.mul_div_le y d Hd).
  apply Z.div_le_lower_bound; lia.
Qed.

(** C36: The long-run rate bound: over any sequence of requests, at whatever
    times and sizes, the bytes a bucket grants are at most the credit it started
    with (never more than its capacity) plus its rate times the time it has
    advanced by. *)
Theorem bucket_run_rate b requests :
  bucket_ok b -> Forall (fun r => 0 <= r.2) requests ->
  let '(granted, b') := bucket_run b requests in
  tb_last_ns b <= tb_last_ns b' /\
  granted <= tb_tokens b +
             tb_rate_bps b * (tb_last_ns b' - tb_last_ns b) / kNanosPerSecond /\
  granted <= tb_capacity_bytes b +
             tb_rate_bps b * (tb_last_ns b' - tb_last_ns b) / kNanosPerSecond.
Proof.
  intros Hb Hreq.
  enough (let '(granted, b') := bucket_run b requests in
    tb_last_ns b <= tb_last_ns b' /\ 0 <= tb_tokens b' /\
    granted + tb_tokens b' <= tb_tokens b +
             tb_rate_bps b * (tb_last_ns b' - tb_last_ns b) / kNanosPerSecond) as H.
  { destruct (bucket_run b requests) as [granted b']. destruct Hb, H as (?&?&?). lia. }
  revert b Hb; induction requests as [|[now bytes] rest IH]; intros b Hb; cbn [bucket_run].
  { destruct Hb. rewrite Z.sub_diag, Z.mul_0_r, Z.div_0_l by (nanos; lia). lia. }
  apply Forall_cons in Hreq as [Hn Hreq]. cbn in Hn.
  pose proof (bucket_try_consume_ok b now bytes Hb Hn) as Hb1.
  destruct (bucket_refill_credit b now Hb) as (Hcr & Hlast & Hrate & _).
  pose proof (bucket_refill_ok b now Hb) as [Hr1 _ Ht1].
  unfold bucket_try_consume in *. set (b1 := bucket_refill b now) in *.
  assert (exists ok b2, (if bytes >? tb_tokens b1 then (false, b1)
            else (true, b1 <| tb_tokens := u64 (tb_tokens b1 - bytes) |>)) = (ok, b2) /\
            bucket_ok b2 /\ tb_last_ns b2 = tb_last_ns b1 /\ tb_rate_bps b2 = tb_rate_bps b1 /\
            (if ok : bool then bytes else 0) + tb_tokens b2 <= tb_tokens b1)
    as (ok & b2 & -> & Hb2 & Hl2 & Hr2 & Hc2).
  { destruct (Z.gtb_spec bytes (tb_tokens b1)); do 2 eexists; (split; [reflexivity|]);
      (split; [exact Hb1|]); cbn; split_and!; try done; try lia.
    rewrite u64_small; [lia|]. destruct Hb1, (bucket_refill_ok b now Hb).
    unfold in_u64 in *. fold b1 in bo_tokens1. cbn in *. lia. }
  specialize (IH Hreq b2 Hb2). destruct (bucket_run b2 rest) as [granted b'].
  destruct IH as (IH1 & IH2 & IH3). rewrite Hl2, Hr2, Hrate in *.
  assert (0 < kNanosPerSecond) as Hk by (nanos; lia). unfold in_u64 in Hr1.
  pose proof (div_superadd (tb_rate_bps b * (tb_last_ns b1 - tb_last_ns b))
    (tb_rate_bps b * (tb_last_ns b' - tb_last_ns b1)) kNanosPerSecond Hk ltac:(nia) ltac:(nia)) as Hs.
  replace (tb_rate_bps b * (tb_last_ns b1 - tb_last_ns b) +
    tb_rate_bps b * (tb_last_ns b' - tb_last_ns b1)) with
    (tb_rate_bps b * (tb_last_ns b' - tb_last_ns b)) in Hs by ring.
  lia.
Qed.
Lemma bucket_run_rate_witness :
  let '(granted, b') := bucket_run (bucket_configure 1000 1000000000 0)
                          [(0, 900); (0, 200); (500000000, 600)] in
  granted <= 1000 + 1000 * tb_last_ns b' / 1000000000.
Proof.
  generalize (bucket_run_rate (bucket_configure 1000 1000000000 0)
    [(0, 900); (0, 200); (500000000, 600)]
    ltac:(apply bucket_configure_ok; unfold in_u64; lia) ltac:(repeat constructor; cbn; lia)).
  destruct (bucket_run _ _) as [granted b']. cbn. rewrite Z.sub_0_r. intros (_ & _ & H). exact H.
Defined.

(** ** Waiting *)

Lemma bucket_refill_later b now acc :
  bucket_ok b -> tb_configured b = true -> tb_last_ns b < now ->
  0 <= acc <= refill_bytes (tb_rate_bps b) (s64 (now - tb_last_ns b)) ->
  Z.min (tb_capacity_bytes b) (tb_tokens b + acc) <= tb_tokens (bucket_refill b now).
Proof.
  intros [Hr Hc Ht] Hcf Hnow Hacc. unfold bucket_refill, in_u64 in *. rewrite Hcf.
  destruct (Z.leb_spec now (tb_last_ns b)); [lia|]. cbn [negb orb].
  set (r := refill_bytes _ _) in *. destruct (r =? 0) eqn:E; bool_facts; [cbn; lia|].
  destruct (_ || _) eqn:E2; cbn; [lia|].
  bool_facts. rewrite Z.geb_leb in *. cbn in *. bool_facts.
  rewrite (u64_small (tb_capacity_bytes b - tb_tokens b)) in * by lia.
  rewrite u64_small by lia. lia.
Qed.

(** C37: [time_until] is long enough, on a configured bucket of non-zero rate
    whose credit is at most its capacity: when the request is more than the
    credit and fits the capacity, the bytes it lacks times 10^9 stay below 2^63
    (at most 9223372036 bytes are lacking, so that the 64-bit product does not
    wrap), and the wait named is at most one second, a request of that size made
    that much later is granted.  The bound on the product is needed
    ([finding_wait_wraps]). *)
Theorem time_until_sufficient b bytes :
  bucket_ok b -> tb_configured b = true -> 0 < tb_rate_bps b ->
  tb_tokens b < bytes <= tb_capacity_bytes b ->
  (bytes - tb_tokens b) * kNanosPerSecond < 2 ^ 63 ->
  bucket_time_until b bytes <= kNanosPerSecond ->
  (bucket_try_consume b (tb_last_ns b + bucket_time_until b bytes) bytes).1 = true.
Proof.
  intros Hb Hcf Hr Hbytes Hfit Hwait. pose proof Hb as [Hru Hcu Htu].
  assert (bucket_time_until b bytes =
          (bytes - tb_tokens b) * kNanosPerSecond / tb_rate_bps b + 1) as Hw.
  { unfold bucket_time_until. rewrite Hcf. destruct (Z.eqb_spec (tb_rate_bps b) 0); [lia|].
    cbn [negb orb]. destruct (Z.gtb_spec bytes (tb_tokens b)); [|lia].
    destruct (Z.eqb_spec (bytes - tb_tokens b) 0); [lia|].
    assert (0 <= (bytes - tb_tokens b) * kNanosPerSecond) by (nanos; lia).
    rewrite (u64_small (_ * _)) by lia.
    pose proof (Z.div_pos ((bytes - tb_tokens b) * kNanosPerSecond) (tb_rate_bps b) ltac:(lia) Hr).
    assert ((bytes - tb_tokens b) * kNanosPerSecond / tb_rate_bps b < 2 ^ 63 - 1 \/
            tb_rate_bps b = 1) as [Hlt|Hone].
    { destruct (Z.eq_dec (tb_rate_bps b) 1); [by right|left].
      apply Z.div_lt_upper_bound; [lia|]. nia. }
    - rewrite (s64_small (_ / _)) by (unfold in_s64; lia). apply s64_small. unfold in_s64. lia.
    - rewrite Hone, Z.div_1_r in *. assert ((bytes - tb_tokens b) * kNanosPerSecond < 2 ^ 63 - 1)
        by (nanos; lia).
      rewrite (s64_small (_ * _)) by (unfold in_s64; lia). apply s64_small. unfold in_s64. lia. }
  set (w := bucket_time_until b bytes) in *. unfold bucket_try_consume.
  assert (0 < w) as Hpos.
  { rewrite Hw. pose proof (Z.div_pos ((bytes - tb_tokens b) * kNanosPerSecond) (tb_rate_bps b)).
    nanos. lia. }
  assert (bytes - tb_tokens b <= refill_bytes (tb_rate_bps b) (s64 (tb_last_ns b + w - tb_last_ns b))) as Href.
  { replace (tb_last_ns b + w - tb_last_ns b) with w by lia.
    rewrite (s64_small w) by (unfold in_s64; nanos; lia).
    assert (refill_bytes (tb_rate_bps b) w = tb_rate_bps b * w / kNanosPerSecond) as ->.
    { unfold refill_bytes. destruct (Z.eqb_spec (tb_rate_bps b) 0); [lia|].
      destruct (Z.leb_spec w 0); [lia|]. cbn [orb]. rewrite Z.min_l by done.
      destruct (split_range (tb_rate_bps b) w Hru ltac:(lia)) as (H1 & H2 & H3).
      rewrite (u64_small w) by (nanos; lia). rewrite (u64_small (_ * w)) by done.
      rewrite (u64_small (_ mod _ * w)) by done. rewrite split_div by (nanos; lia).
      by apply u64_small. }
    apply Z.div_le_lower_bound; [nanos; lia|]. rewrite Hw.
    pose proof (Z.mul_succ_div_gt ((bytes - tb_tokens b) * kNanosPerSecond) (tb_rate_bps b) Hr). lia. }
  pose proof (bucket_refill_later b (tb_last_ns b + w) (bytes - tb_tokens b) Hb Hcf ltac:(lia)
                ltac:(lia)) as Htok.
  destruct (Z.gtb_spec bytes (tb_tokens (bucket_refill b (tb_last_ns b + w)))); [lia|done].
Qed.
Lemma time_until_sufficient_witness :
  (bucket_try_consume (mkBucket 3000 1000 100 7 true)
     (7 + bucket_time_until (mkBucket 3000 1000 100 7 true) 800) 800).1 = true.
Proof.
  apply (time_until_sufficient (mkBucket 3000 1000 100 7 true) 800);
    [repeat split; cbn; lia|reflexivity|reflexivity|cbn; lia|vm_compute; reflexivity|vm_compute; discriminate].
Defined.

(** ** Atomicity across the two buckets *)

Lemma bucket_refill_idem b now : bucket_refill (bucket_refill b now) now = bucket_refill b now.
Proof.
  assert (forall b, negb (tb_configured b) || (now <=? tb_last_ns b) = true -> bucket_refill b now = b)
    as Hid by (intros b' Hb'; unfold bucket_refill; by rewrite Hb').
  destruct (negb (tb_configured b) || (now <=? tb_last_ns b)) eqn:E; [by rewrite (Hid b E), (Hid b E)|].
  apply Hid. apply orb_true_iff. right. unfold bucket_refill. rewrite E.
  destruct (refill_bytes _ _ =? 0); [|destruct ((_ >=? _) || (_ >=? _))]; apply Z.leb_refl.
Qed.

(** Consumption is atomic across the class and the workload bucket: it is
    admitted exactly when both buckets are configured and, refilled to the
    present, both hold the bytes; then both are debited by exactly the bytes,
    and otherwise neither is debited.  The reason [CreditUnavailable] is never
    given, and no other bucket or reservation changes. *)
Theorem shaper_consume_atomic s isolation workload bytes now cb wb :
  sp_classes s !! class_key isolation = Some cb -> sp_workloads s !! workload = Some wb ->
  bucket_ok cb -> bucket_ok wb -> 0 <= bytes ->
  tb_configured cb = true -> tb_configured wb = true ->
  let cb' := bucket_refill cb now in let wb' := bucket_refill wb now in
  let res := shaper_try_consume s isolation workload bytes now in
  sv_admitted res.1 = (bytes <=? tb_tokens cb') && (bytes <=? tb_tokens wb') /\
  sv_reason res.1 <> ReasonCode.CreditUnavailable /\
  res.2 = s <| sp_classes := <[class_key isolation :=
                 if sv_admitted res.1 then cb' <| tb_tokens := tb_tokens cb' - bytes |> else cb']>
                 (sp_classes s) |>
            <| sp_workloads := <[workload :=
                 if sv_admitted res.1 then wb' <| tb_tokens := tb_tokens wb' - bytes |> else wb']>
                 (sp_workloads s) |>.
Proof.
  intros Hc Hw Hcb Hwb Hn Ecb Ewb. cbn zeta. unfold shaper_try_consume. rewrite Hc, Ecb, Hw, Ewb.
  apply (bucket_refill_ok cb now) in Hcb as [_ Hcc Hct].
  apply (bucket_refill_ok wb now) in Hwb as [_ Hwc Hwt].
  unfold bucket_try_consume. rewrite !bucket_refill_idem.
  set (cb' := bucket_refill cb now) in *. set (wb' := bucket_refill wb now) in *.
  unfold in_u64 in *.
  destruct (Z.ltb_spec (tb_tokens cb') bytes).
  { destruct (Z.leb_spec bytes (tb_tokens cb')); [lia|]. cbn. done. }
  destruct (Z.leb_spec bytes (tb_tokens cb')); [|lia].
  destruct (Z.ltb_spec (tb_tokens wb') bytes).
  { destruct (Z.leb_spec bytes (tb_tokens wb')); [lia|]. cbn. done. }
  destruct (Z.leb_spec bytes (tb_tokens wb')); [|lia].
  destruct (Z.gtb_spec bytes (tb_tokens cb')); [lia|].
  destruct (Z.gtb_spec bytes (tb_tokens wb')); [lia|]. cbn [negb orb andb fst snd sv_admitted sv_reason].
  rewrite !u64_small by lia. done.
Qed.
Lemma shaper_consume_atomic_witness :
  let b := mkBucket 1000 1000 600 0 true in
  let w : WorkloadId := id_nil in
  let s := mkShaper {[class_key IsolationClass.TrainingBulk := b]} {[w := b]} ∅ in
  sv_admitted (shaper_try_consume s IsolationClass.TrainingBulk w 700 100000000).1 = true.
Proof.
  cbn zeta. refine (eq_trans (proj1 (shaper_consume_atomic _ _ _ 700 100000000
    (mkBucket 1000 1000 600 0 true) (mkBucket 1000 1000 600 0 true) _ _ _ _ _ _ _)) _);
    [reflexivity|reflexivity|repeat split; cbn; lia|repeat split; cbn; lia|lia|reflexivity|
     reflexivity|vm_compute; reflexivity].
Defined.

(** ** Path reservations *)

Lemma reserve_path_rate_spec s path rate :
  0 <= rate -> 0 <= reserved_path_rate s path ->
  (reserve_path_rate s path rate).1 = true -> reserved_path_rate s path + rate < 2 ^ 64 ->
  reserved_path_rate (reserve_path_rate s path rate).2 path = reserved_path_rate s path + rate.
Proof.
  unfold reserve_path_rate, reserved_path_rate. intros Hr Hc.
  destruct (sp_path_reservations s !! sc_value path) as [current|] eqn:E.
  - destruct (rate >? _); [done|]. intros _ Hfit. cbn. rewrite lookup_insert_eq.
    apply u64_small. lia.
  - intros _ _. cbn. by rewrite lookup_insert_eq.
Qed.

(** A path reservation never wraps: it is refused exactly when the sum
    would exceed 64 bits, it adds exactly the rate to that path and nothing to
    any other, and releasing the same rate restores the path. *)
Theorem reserve_release_path s path rate :
  in_u64 rate -> in_u64 (reserved_path_rate s path) ->
  (forall r, sp_path_reservations s !! sc_value path = None ->
     reserve_path_rate s path r =
       (true, s <| sp_path_reservations := <[sc_value path := r]> (sp_path_reservations s) |>)) /\
  (is_Some (sp_path_reservations s !! sc_value path) ->
     (reserve_path_rate s path rate).1 = (reserved_path_rate s path + rate <? 2 ^ 64)) /\
  ((reserve_path_rate s path rate).1 = true ->
     let s' := (reserve_path_rate s path rate).2 in
     reserved_path_rate s' path = reserved_path_rate s path + rate /\
     reserved_path_rate (release_path_rate s' path rate) path = reserved_path_rate s path /\
     forall other, sc_value other <> sc_value path ->
       reserved_path_rate s' other = reserved_path_rate s other).
Proof.
  unfold in_u64. intros Hr Hc. split; [|split].
  - intros r Hn. unfold reserve_path_rate. by rewrite Hn.
  - intros [current E]. unfold reserve_path_rate, reserved_path_rate, UINT64_MAX in *. rewrite E in *.
    destruct (Z.gtb_spec rate (2 ^ 64 - 1 - current)), (Z.ltb_spec (current + rate) (2 ^ 64)); cbn; lia.
  - intros Hok. cbn zeta.
    assert (reserved_path_rate s path + rate < 2 ^ 64) as Hfit.
    { unfold reserve_path_rate, reserved_path_rate, UINT64_MAX in *.
      destruct (sp_path_reservations s !! sc_value path); [|lia].
      destruct (Z.gtb_spec rate (2 ^ 64 - 1 - z)); cbn in *; [done|lia]. }
    pose proof (reserve_path_rate_spec s path rate ltac:(lia) ltac:(lia) Hok Hfit) as Hsum.
    split; [done|]. set (s' := (reserve_path_rate s path rate).2) in *. split.
    + unfold release_path_rate. unfold reserved_path_rate in Hsum at 1.
      destruct (sp_path_reservations s' !! sc_value path) as [v|] eqn:E.
      * unfold reserved_path_rate at 1. cbn. rewrite lookup_insert_eq. subst v.
        destruct (Z.geb_spec rate (reserved_path_rate s path + rate)); lia.
      * exfalso. revert Hok E. unfold s', reserve_path_rate.
        destruct (sp_path_reservations s !! sc_value path); [destruct (rate >? _)|]; cbn;
          rewrite ?lookup_insert_eq; done.
    + intros other Hne. unfold s', reserve_path_rate.
      destruct (sp_path_reservations s !! sc_value path); [destruct (rate >? _)|]; cbn; try done;
        unfold reserved_path_rate; cbn; by rewrite lookup_insert_ne.
Qed.
Definition one_path : RateShaper := mkShaper ∅ ∅ (<[1 := 500]> ∅).
Lemma reserve_release_path_witness :
  (reserve_path_rate one_path (mkScalar 1) 700).1 =
  (reserved_path_rate one_path (mkScalar 1) + 700 <? 2 ^ 64).
Proof.
  assert (in_u64 700) as H1 by (unfold in_u64; lia).
  assert (in_u64 (reserved_path_rate one_path (mkScalar 1))) as H2
    by (split; [vm_compute; discriminate|vm_compute; reflexivity]).
  assert (is_Some (sp_path_reservations one_path !! 1)) as H3 by (exists 500; reflexivity).
  exact (proj1 (proj2 (reserve_release_path one_path (mkScalar 1) 700 H1 H2)) H3).
Defined.
