(* ===== verification/ModelProps.v ===== *)
(** * ModelProps: validation, lookup and planning

    What the validators of [src/model.cpp] guarantee, and the correctness of
    the pure routines of the engine: the binary search for a shard, the wave
    plan, and the rate a deadline needs. *)

From stdpp Require Import base gmap list strings sorting.
From S2P Require Import Prelude Status Ids Hash Enums Model Shaper EngineState Scenario.

(** ** Manifests *)

Definition shard_bytes : list ShardDescriptor -> Z := zsum sd_declared_bytes.

(** The loop succeeds only on positive, strictly increasing shards; it returns
    the exact sum of their sizes, which never passes the total. *)
Lemma validate_shards_sound total shards sum previous out :
  0 <= sum -> total < 2 ^ 64 -> Forall (fun d => 0 <= sd_declared_bytes d) shards ->
  validate_shards total shards sum previous = Val out ->
  out = sum + shard_bytes shards /\ (shards <> [] -> out <= total) /\
  Forall (fun d => 0 < sd_declared_bytes d) shards /\
  StronglySorted (fun a b => sc_value (sd_index a) < sc_value (sd_index b)) shards /\
  (forall p, previous = Some p -> Forall (fun d => sc_value p < sc_value (sd_index d)) shards).
Proof.
  revert sum previous; induction shards as [|d shards IH]; intros sum previous Hs Ht Hnn H; cbn in H.
  { injection H as <-. unfold shard_bytes. cbn. split_and!; [lia|done|constructor..|constructor]. }
  apply Forall_cons in Hnn as [Hd Hnn].
  destruct (_ =? 0) eqn:E1; [done|]. destruct (match previous with Some p => _ | None => _ end) eqn:E2; [done|].
  destruct ((sum >? total) || _) eqn:E3; [done|]. rewrite !Z.gtb_ltb in E3. bool_facts.
  rewrite (u64_small (total - sum)) in * by lia. rewrite (u64_small (sum + _)) in H by lia.
  destruct (IH (sum + sd_declared_bytes d) (Some (sd_index d)) ltac:(lia) Ht Hnn H) as (-> & Hle & Hpos & Hsort & Hprev).
  specialize (Hprev _ eq_refl). unfold shard_bytes in *. rewrite zsum_cons.
  split_and!.
  - lia.
  - intros _. destruct shards; [cbn; lia|]. specialize (Hle ltac:(done)). lia.
  - constructor; [lia|done].
  - constructor; done.
  - intros p ->. unfold sc_ltb in E2. bool_facts. constructor; [done|].
    eapply Forall_impl; [exact Hprev|]. cbn. lia.
Qed.

Lemma validate_shards_err total shards sum previous s :
  validate_shards total shards sum previous = Err s -> Status_ok s = false.
Proof.
  revert sum previous; induction shards as [|d shards IH]; intros sum previous; cbn; [done|].
  destruct (_ =? 0); [by intros [= <-]|].
  destruct (match previous with Some p => _ | None => _ end); [by intros [= <-]|].
  destruct ((sum >? total) || _); [by intros [= <-]|]. apply IH.
Qed.

(** C38: An accepted manifest is internally consistent: it has between 1 and the
    configured number of shards, every shard is non-empty, indices are strictly
    increasing, the sizes add up exactly to the declared total without wrapping,
    the total is positive and within the limit, identities and generations are
    set, and the recorded digest is the digest of the shard table. *)
Theorem validate_manifest_sound m limits :
  in_u64 (mf_total_bytes m) -> Forall (fun d => 0 <= sd_declared_bytes d) (mf_shards m) ->
  Status_ok (validate_manifest m limits) = true ->
  (1 <= Z.of_nat (length (mf_shards m)) <= lim_max_shards_per_checkpoint limits) /\
  Forall (fun d => 0 < sd_declared_bytes d) (mf_shards m) /\
  StronglySorted (fun a b => sc_value (sd_index a) < sc_value (sd_index b)) (mf_shards m) /\
  zsum sd_declared_bytes (mf_shards m) = mf_total_bytes m /\
  0 < mf_total_bytes m <= lim_max_checkpoint_bytes limits /\
  id_is_nil (mf_checkpoint m) = false /\ id_is_nil (mf_workload m) = false /\
  gen_value (mf_generation m) <> 0 /\ gen_value (mf_contract_generation m) <> 0 /\
  mf_manifest_digest m = compute_manifest_digest m.
Proof.
  unfold in_u64, validate_manifest, gen_is_zero. intros Ht Hnn.
  destruct (id_is_nil (mf_checkpoint m)) eqn:E1; [done|].
  destruct (id_is_nil (mf_workload m)) eqn:E2; [done|].
  destruct (gen_value (mf_generation m) =? 0) eqn:E3; [done|].
  destruct (gen_value (mf_contract_generation m) =? 0) eqn:E4; [done|].
  destruct (Nat.eqb_spec (length (mf_shards m)) 0) as [|E5]; [done|].
  destruct (Z.gtb_spec (Z.of_nat (length (mf_shards m))) (lim_max_shards_per_checkpoint limits)); [done|].
  destruct (mf_total_bytes m =? 0) eqn:E7; [done|].
  destruct (Z.gtb_spec (mf_total_bytes m) (lim_max_checkpoint_bytes limits)); [done|].
  destruct (validate_shards _ _ _ _) as [sum|s] eqn:E9;
    [|apply validate_shards_err in E9; by rewrite E9].
  destruct (negb (sum =? _)) eqn:E10; [done|].
  destruct (negb (Digest_eqb _ _)) eqn:E11; [done|]. intros _. bool_facts. subst sum.
  destruct (validate_shards_sound (mf_total_bytes m) (mf_shards m) 0 None _
    ltac:(lia) ltac:(lia) Hnn E9) as (Hsum & _ & Hpos & Hsort & _).
  unfold shard_bytes in Hsum. split_and!; try done; try lia.
  unfold Digest_eqb in E11. bool_facts. destruct (mf_manifest_digest m), (compute_manifest_digest m).
  cbn in *. congruence.
Qed.
Lemma validate_manifest_sound_witness :
  zsum sd_declared_bytes (mf_shards (req_manifest request1)) = mf_total_bytes (req_manifest request1).
Proof.
  apply (validate_manifest_sound (req_manifest request1) Limits_default).
  - split; [vm_compute; discriminate|vm_compute; reflexivity].
  - repeat constructor; vm_compute; discriminate.
  - vm_compute; reflexivity.
Defined.

(** ** Policies and topologies *)

Definition envelope_positive (env : IsolationEnvelopeConfig) : Prop :=
  iec_ceiling_bps env <> 0 /\ 0 < iec_burst_window_ns env /\ iec_max_in_flight_sessions env <> 0.

Lemma validate_envelopes_seen envelopes seen out :
  length seen = 4%nat -> validate_envelopes envelopes seen = Val out ->
  length out = 4%nat /\ Forall envelope_positive envelopes /\
  forall i, nth i out false = true ->
    nth i seen false = true \/
    exists env, env ∈ envelopes /\ Z.to_nat (IsolationClass.value (iec_isolation env)) = i.
Proof.
  revert seen; induction envelopes as [|env envelopes IH]; intros seen Hl H; cbn in H.
  { injection H as <-. split_and!; [done|constructor|auto]. }
  destruct (_ <=? _)%nat; [done|]. destruct (nth _ _ _) eqn:E0; [done|].
  destruct (iec_ceiling_bps env =? 0) eqn:E1; [done|].
  destruct (iec_burst_window_ns env <=? 0) eqn:E2; [done|].
  destruct (iec_max_in_flight_sessions env =? 0) eqn:E3; [done|].
  destruct (Status_ok _); [|done]. bool_facts.
  apply IH in H as (Hlen & Hpos & Hall); [|by rewrite length_insert].
  split; [done|]. split; [constructor; [split_and!; [done|lia|done]|done]|]. intros i Hi.
  destruct (Hall i Hi) as [Hn|(x & Hx & Hrest)]; [|right; exists x; split; [set_solver|done]].
  destruct (decide (Z.to_nat (IsolationClass.value (iec_isolation env)) = i)) as [<-|Hne].
  - right. exists env. split; [set_solver|done].
  - left. rewrite !nth_lookup, list_lookup_insert_ne in Hn by done. by rewrite nth_lookup.
Qed.

Lemma validate_envelopes_err envelopes seen s :
  validate_envelopes envelopes seen = Err s -> Status_ok s = false.
Proof.
  revert seen; induction envelopes as [|env envelopes IH]; intros seen; cbn; [done|].
  destruct (_ <=? _)%nat; [by intros [= <-]|]. destruct (nth _ _ _); [by intros [= <-]|].
  destruct (iec_ceiling_bps env =? 0); [by intros [= <-]|].
  destruct (iec_burst_window_ns env <=? 0); [by intros [= <-]|].
  destruct (iec_max_in_flight_sessions env =? 0); [by intros [= <-]|].
  destruct (Status_ok (check_limit _ _ _)) eqn:E; [apply IH|]. by intros [= <-].
Qed.

(** Under an accepted policy every isolation class has an envelope, and the
    envelope the engine finds for it is that class's own, with a positive
    ceiling, burst window and session bound; so the admission path never meets a
    class without an envelope. *)
Theorem validated_policy_envelopes p limits isolation :
  Status_ok (validate_policy p limits) = true ->
  exists env, find_envelope p isolation = Some env /\ iec_isolation env = isolation /\
    iec_ceiling_bps env <> 0 /\ 0 < iec_burst_window_ns env /\ iec_max_in_flight_sessions env <> 0.
Proof.
  unfold validate_policy, find_envelope. destruct (gen_is_zero _); [done|].
  destruct (negb _); [done|]. destruct (validate_envelopes _ _) as [seen|s] eqn:E;
    [|apply validate_envelopes_err in E; by rewrite E].
  destruct (existsb negb seen) eqn:E2; [done|]. intros _.
  apply validate_envelopes_seen in E as (Hlen & Hpos & Hall); [|done].
  assert (nth (Z.to_nat (IsolationClass.value isolation)) seen false = true) as Hi.
  { destruct seen as [|a [|b [|c [|d [|]]]]]; try done. cbn in E2. bool_facts.
    by destruct isolation. }
  destruct (Hall _ Hi) as [Hn|(env & Henv & Hidx)].
  { by destruct isolation. }
  assert (iec_isolation env = isolation) as Hiso
    by (destruct (iec_isolation env), isolation; done).
  destruct (find _ _) as [env'|] eqn:Ef.
  - exists env'. split; [done|]. apply find_some in Ef as [Hin Ef].
    apply bool_decide_eq_true_1 in Ef. split; [done|]. rewrite Forall_forall in Hpos.
    apply Hpos. by apply list_elem_of_In.
  - exfalso. eapply find_none in Ef; [|apply list_elem_of_In; exact Henv].
    apply bool_decide_eq_false_1 in Ef. done.
Qed.
Lemma validated_policy_envelopes_witness :
  exists env, find_envelope (policy_n 1 256) IsolationClass.TrainingBulk = Some env /\
    iec_isolation env = IsolationClass.TrainingBulk /\ iec_ceiling_bps env <> 0 /\
    0 < iec_burst_window_ns env /\ iec_max_in_flight_sessions env <> 0.
Proof. apply (validated_policy_envelopes (policy_n 1 256) Limits_default). vm_compute. reflexivity. Defined.

(** The default path class of a destination serves that destination and
    has the smallest id among the path classes that do; there is one exactly when
    some path class serves the destination. *)
Theorem default_path_minimal t destination :
  match default_path_class_for t destination with
  | Some id =>
      (exists p, p ∈ topo_path_classes t /\ pc_destination p = destination /\ pc_id p = id) /\
      (forall p, p ∈ topo_path_classes t -> pc_destination p = destination ->
         sc_value id <= sc_value (pc_id p))
  | None => forall p, p ∈ topo_path_classes t -> pc_destination p <> destination
  end.
Proof.
  unfold default_path_class_for.
  enough (forall l done best,
    match best with
    | Some id => (exists p, p ∈ done /\ pc_destination p = destination /\ pc_id p = id) /\
                 (forall p, p ∈ done -> pc_destination p = destination -> sc_value id <= sc_value (pc_id p))
    | None => forall p, p ∈ done -> pc_destination p <> destination
    end ->
    match foldl (fun best path =>
            if negb (pc_destination path =e destination) then best
            else match best with
                 | None => Some (pc_id path)
                 | Some b => if sc_ltb (pc_id path) b then Some (pc_id path) else best
                 end) best l with
    | Some id => (exists p, p ∈ done ++ l /\ pc_destination p = destination /\ pc_id p = id) /\
                 (forall p, p ∈ done ++ l -> pc_destination p = destination ->
                    sc_value id <= sc_value (pc_id p))
    | None => forall p, p ∈ done ++ l -> pc_destination p <> destination
    end) as H.
  { apply (H (topo_path_classes t) [] None). set_solver. }
  induction l as [|x l IH]; intros seen best Hb; cbn [foldl]; [by rewrite app_nil_r|].
  replace (seen ++ x :: l) with ((seen ++ [x]) ++ l) by (by rewrite <-app_assoc).
  apply IH. destruct (negb (pc_destination x =e destination)) eqn:E; bool_facts.
  - destruct best as [id|]; [|intros p Hp; apply elem_of_app in Hp as [|Hp%list_elem_of_singleton]; subst; auto].
    destruct Hb as [(q & Hq & Hq1 & Hq2) Hmin]. split; [exists q; set_solver|].
    intros p Hp Hd. apply elem_of_app in Hp as [|Hp%list_elem_of_singleton]; subst; auto. done.
  - destruct best as [id|]; [destruct (sc_ltb (pc_id x) id) eqn:E1; unfold sc_ltb in E1; bool_facts|].
    + destruct Hb as [_ Hmin]. split; [exists x; set_solver|]. intros p Hp Hd.
      apply elem_of_app in Hp as [Hp|Hp%list_elem_of_singleton]; subst; [specialize (Hmin p Hp Hd)|]; lia.
    + destruct Hb as [(q & Hq & Hq1 & Hq2) Hmin]. split; [exists q; set_solver|]. intros p Hp Hd.
      apply elem_of_app in Hp as [Hp|Hp%list_elem_of_singleton]; subst; auto.
    + split; [exists x; set_solver|]. intros p Hp Hd.
      apply elem_of_app in Hp as [Hp|Hp%list_elem_of_singleton]; subst; [|lia].
      exfalso. by eapply Hb.
Qed.

(** ** The binary search for a shard *)

Definition shards_sorted : list ShardRecord -> Prop :=
  StronglySorted (fun a b => sc_value (shr_index a) < sc_value (shr_index b)).

Lemma sorted_lookup_lt (shards : list ShardRecord) i j a b :
  shards_sorted shards -> shards !! i = Some a -> shards !! j = Some b -> (i < j)%nat ->
  sc_value (shr_index a) < sc_value (shr_index b).
Proof.
  intros Hs. revert i j; induction Hs as [|x l Hs IH Hx]; intros i j Ha Hb Hij; [done|].
  destruct i as [|i], j as [|j]; [lia| |lia|].
  - cbn in Ha, Hb. injection Ha as <-. rewrite Forall_forall in Hx. apply Hx.
    by eapply list_elem_of_lookup_2.
  - cbn in Ha, Hb. apply (IH i j); [done|done|lia].
Qed.

(** The search maintains: everything below [low] is smaller than the index,
    everything from [high] on is not. *)
Lemma shard_search_spec fuel (shards : list ShardRecord) index low high :
  shards_sorted shards -> (low <= high <= length shards)%nat -> (high - low <= fuel)%nat ->
  (forall i a, shards !! i = Some a -> (i < low)%nat -> sc_value (shr_index a) < sc_value index) ->
  (forall i a, shards !! i = Some a -> (high <= i)%nat -> sc_value index <= sc_value (shr_index a)) ->
  let p := shard_search fuel shards index low high in
  (forall i a, shards !! i = Some a -> (i < p)%nat -> sc_value (shr_index a) < sc_value index) /\
  (forall i a, shards !! i = Some a -> (p <= i)%nat -> sc_value index <= sc_value (shr_index a)).
Proof.
  intros Hs. revert low high; induction fuel as [|fuel IH]; intros low high Hr Hf Hlo Hhi; cbn [shard_search].
  { assert (low = high) as -> by lia. done. }
  destruct (Nat.ltb_spec low high) as [Hlt|Hge]; [|assert (low = high) as -> by lia; done].
  cbn zeta. set (mid := (low + (high - low) / 2)%nat).
  assert (low <= mid < high)%nat as Hmid.
  { unfold mid. pose proof (Nat.div_lt (high - low) 2 ltac:(lia) ltac:(lia)). lia. }
  destruct (shards !! mid) as [m|] eqn:Hm; [|apply lookup_ge_None in Hm; lia].
  unfold sc_ltb. destruct (Z.ltb_spec (sc_value (shr_index m)) (sc_value index)).
  - apply IH; [lia|lia| |done]. intros i a Ha Hi.
    destruct (decide (i = mid)) as [->|]; [congruence|].
    destruct (decide (i < low)%nat); [by eapply Hlo|].
    pose proof (sorted_lookup_lt _ i mid _ _ Hs Ha Hm ltac:(lia)). lia.
  - apply IH; [lia|lia|done|]. intros i a Ha Hi.
    destruct (decide (i = mid)) as [->|]; [congruence|].
    pose proof (sorted_lookup_lt _ mid i _ _ Hs Hm Ha ltac:(lia)). lia.
Qed.

(** The binary search agrees with a linear one: on a shard table sorted by
    index, [shard_position] returns the position of the shard with that index,
    and nothing exactly when no shard has it. *)
Theorem shard_position_correct (shards : list ShardRecord) index :
  shards_sorted shards ->
  (forall pos, shard_position shards index = Some pos <->
     exists sh, shards !! pos = Some sh /\ sc_value (shr_index sh) = sc_value index) /\
  (shard_position shards index = None <->
     forall sh, sh ∈ shards -> sc_value (shr_index sh) <> sc_value index).
Proof.
  intros Hs.
  destruct (shard_search_spec (length shards) shards index 0 (length shards) Hs) as [Hlo Hhi];
    [lia|lia|lia|intros i a Ha Hi; apply lookup_lt_Some in Ha; lia|].
  unfold shard_position. set (p := shard_search _ _ _ _ _) in *. unfold sc_eqb.
  assert (forall pos sh, shards !! pos = Some sh -> sc_value (shr_index sh) = sc_value index -> pos = p)
    as Huniq.
  { intros pos sh Hsh Heq. destruct (decide (pos < p)%nat) as [Hlt|Hge].
    { specialize (Hlo pos sh Hsh Hlt). lia. }
    destruct (decide (pos = p)) as [|Hne]; [done|].
    destruct (shards !! p) as [x|] eqn:Hx; [|apply lookup_ge_None in Hx; apply lookup_lt_Some in Hsh; lia].
    pose proof (Hhi p x Hx ltac:(lia)).
    pose proof (sorted_lookup_lt _ p pos _ _ Hs Hx Hsh ltac:(lia)). lia. }
  split.
  - intros pos. destruct (shards !! p) as [x|] eqn:Hx.
    + destruct (Z.eqb_spec (sc_value (shr_index x)) (sc_value index)) as [E|E]; split.
      * intros [= <-]. eauto.
      * intros (sh & Hsh & Heq). by rewrite (Huniq _ _ Hsh Heq).
      * done.
      * intros (sh & Hsh & Heq). rewrite (Huniq _ _ Hsh Heq) in Hsh. congruence.
    + split; [done|]. intros (sh & Hsh & Heq). rewrite (Huniq _ _ Hsh Heq) in Hsh. congruence.
  - destruct (shards !! p) as [x|] eqn:Hx.
    + destruct (Z.eqb_spec (sc_value (shr_index x)) (sc_value index)) as [E|E]; split; try done.
      * intros H. exfalso. by eapply H, E; eapply list_elem_of_lookup_2.
      * intros _ sh [i Hi]%list_elem_of_lookup Heq. pose proof (Huniq _ _ Hi Heq). congruence.
    + split; [|done]. intros _ sh [i Hi]%list_elem_of_lookup Heq.
      pose proof (Huniq _ _ Hi Heq). congruence.
Qed.
Definition three_shards : list ShardRecord :=
  map (fun i => mkShard (mkScalar i) 1 Digest_default (mkScalar 1) ShardState.Pending (mkGen 0) None
                  0 0 0 Digest_default false false 0) [2; 5; 9].
Lemma shard_position_correct_witness :
  shard_position three_shards (mkScalar 5) = Some 1%nat <->
  exists sh, three_shards !! 1%nat = Some sh /\ sc_value (shr_index sh) = 5.
Proof.
  apply (shard_position_correct three_shards (mkScalar 5)).
  repeat (constructor; try (vm_compute; reflexivity)).
Defined.

(** ** Wave plans *)

Lemma wave_loop_spec shards width waves plan in_wave :
  1 <= width < 2 ^ 32 -> in_wave = Z.of_nat (length (wp_shards plan)) -> in_wave <= width ->
  let out := wave_loop shards width waves plan in_wave in
  concat (map wp_shards out) =
    concat (map wp_shards waves) ++ wp_shards plan ++ map sd_index shards /\
  (Forall (fun p => 1 <= Z.of_nat (length (wp_shards p)) <= width) waves ->
   Forall (fun p => 1 <= Z.of_nat (length (wp_shards p)) <= width) out) /\
  (0 <= wp_planned_bytes plan -> Forall (fun d => 0 <= sd_declared_bytes d) shards ->
   wp_planned_bytes plan + shard_bytes shards < 2 ^ 64 ->
   Forall (fun p => 0 <= wp_planned_bytes p) waves ->
   (wp_shards plan = [] -> wp_planned_bytes plan = 0) ->
   zsum wp_planned_bytes out = zsum wp_planned_bytes waves + wp_planned_bytes plan + shard_bytes shards).
Proof.
  intros Hw. revert waves plan in_wave; induction shards as [|d shards IH]; intros waves plan k Hk Hle.
  - cbn [wave_loop map]. change (shard_bytes []) with 0. cbn zeta.
    destruct (Nat.eqb_spec (length (wp_shards plan)) 0) as [E|E].
    + apply nil_length_inv in E. rewrite E, app_nil_r. split_and!; [done|done|].
      intros _ _ _ _ Hz. rewrite Hz by done. lia.
    + split_and!.
      * rewrite map_app, concat_app. cbn. by rewrite !app_nil_r.
      * intros. apply Forall_app; split; [done|]. constructor; [lia|constructor].
      * intros. rewrite zsum_app, zsum_cons. change (zsum wp_planned_bytes []) with 0. lia.
  - cbn [wave_loop]. destruct (k =? width) eqn:E; bool_facts.
    + match goal with |- context [wave_loop shards width ?w ?p ?i] =>
        destruct (IH w p i) as (H1 & H2 & H3) end;
        [reflexivity|change (1 <= width); lia|].
      split_and!.
      * rewrite H1, map_app, concat_app. cbn. by rewrite <-!app_assoc.
      * intros Hf. apply H2. apply Forall_app; split; [done|]. constructor; [lia|constructor].
      * intros Hp Hd Hfit Hwv Hz. apply Forall_cons in Hd as [Hd Hds].
        unfold shard_bytes in *. rewrite zsum_cons in *.
        pose proof (zsum_nonneg sd_declared_bytes shards ltac:(by apply Forall_forall)).
        rewrite H3; cbn [wp_planned_bytes upd]; cbn; rewrite ?u64_small by lia; try lia; try done.
        -- rewrite zsum_app, zsum_cons. change (zsum wp_planned_bytes []) with 0. lia.
        -- apply Forall_app; split; [done|]. by constructor.
    + match goal with |- context [wave_loop shards width ?w ?p ?i] =>
        destruct (IH w p i) as (H1 & H2 & H3) end;
        [cbn [wp_shards upd]; rewrite u32_small by lia; cbn; rewrite length_app; cbn; lia|
         rewrite u32_small; lia|].
      split_and!; [|done|].
      * rewrite H1. cbn. by rewrite <-!app_assoc.
      * intros Hp Hd Hfit Hwv Hz. apply Forall_cons in Hd as [Hd Hds].
        unfold shard_bytes in *. rewrite zsum_cons in *.
        pose proof (zsum_nonneg sd_declared_bytes shards ltac:(by apply Forall_forall)).
        rewrite H3; cbn; rewrite ?u64_small by lia; try lia; try done.
        intros Hnil. apply app_eq_nil in Hnil as [_ Hnil]. done.
Qed.

(** The waves of an envelope partition the checkpoint: concatenated they
    list every shard of the manifest once, in order; no wave is empty or wider
    than the wave width; and the planned bytes of the waves add up to the
    manifest's bytes. *)
Theorem envelope_waves_partition request session isolation path rate burst width now deadline sequence :
  1 <= width < 2 ^ 32 ->
  Forall (fun d => 0 <= sd_declared_bytes d) (mf_shards (req_manifest request)) ->
  zsum sd_declared_bytes (mf_shards (req_manifest request)) < 2 ^ 64 ->
  let waves := te_waves (build_envelope request session isolation path rate burst width now deadline
                           sequence) in
  concat (map wp_shards waves) = map sd_index (mf_shards (req_manifest request)) /\
  Forall (fun p => 1 <= Z.of_nat (length (wp_shards p)) <= width) waves /\
  zsum wp_planned_bytes waves = zsum sd_declared_bytes (mf_shards (req_manifest request)).
Proof.
  intros Hw Hd Hfit. cbn zeta. unfold build_envelope. cbn [te_waves].
  destruct (wave_loop_spec (mf_shards (req_manifest request)) width [] WavePlan_default 0 Hw
              ltac:(done) ltac:(lia)) as (H1 & H2 & H3).
  split_and!; [done|by apply H2|]. rewrite H3; cbn; try done; unfold shard_bytes; lia.
Qed.
Lemma envelope_waves_partition_witness :
  concat (map wp_shards (te_waves (build_envelope request1 id_nil IsolationClass.TrainingBulk
            (mkScalar 1) 10 10 1 0 0 1))) = [mkScalar 0; mkScalar 1].
Proof.
  apply (envelope_waves_partition request1 id_nil IsolationClass.TrainingBulk (mkScalar 1) 10 10 1 0 0 1);
    [lia|repeat constructor; vm_compute; discriminate|vm_compute; reflexivity].
Defined.

(** ** The rate a deadline needs *)

(** For horizons up to 18 seconds [ceil_rate] is exact: its result is the
    least rate that moves the bytes within the horizon, provided that rate fits
    64 bits. *)
Theorem ceil_rate_exact bytes horizon :
  in_u64 bytes -> 0 < horizon <= 18 * kNanosPerSecond ->
  bytes * kNanosPerSecond / horizon + 1 < 2 ^ 64 ->
  bytes * kNanosPerSecond <= ceil_rate bytes horizon * horizon /\
  forall r, bytes * kNanosPerSecond <= r * horizon -> ceil_rate bytes horizon <= r.
Proof.
  unfold in_u64. intros Hb Hh Hfit. unfold ceil_rate.
  destruct (Z.leb_spec horizon 0); [lia|]. cbn zeta.
  pose proof (Z.div_mod bytes horizon ltac:(lia)) as Hdm.
  pose proof (Z.mod_pos_bound bytes horizon ltac:(lia)) as Hmb.
  pose proof (Z.div_pos bytes horizon ltac:(lia) ltac:(lia)) as Hq.
  set (q := bytes / horizon) in *. set (m := bytes mod horizon) in *.
  change kNanosPerSecond with 1000000000 in *.
  assert (bytes * 1000000000 / horizon = q * 1000000000 + m * 1000000000 / horizon) as Hsplit.
  { rewrite Hdm. replace ((horizon * q + m) * 1000000000) with
      (m * 1000000000 + q * 1000000000 * horizon) by ring. rewrite Z.div_add by lia. lia. }
  pose proof (Z.div_pos (m * 1000000000) horizon ltac:(lia) ltac:(lia)).
  set (c := (m * 1000000000 + horizon - 1) / horizon).
  assert (m * 1000000000 <= c * horizon /\ c * horizon < m * 1000000000 + horizon) as [Hc1 Hc2].
  { unfold c. pose proof (Z.div_mod (m * 1000000000 + horizon - 1) horizon ltac:(lia)).
    pose proof (Z.mod_pos_bound (m * 1000000000 + horizon - 1) horizon ltac:(lia)). lia. }
  assert (c <= m * 1000000000 / horizon + 1) as Hc3.
  { pose proof (Z.mul_succ_div_gt (m * 1000000000) horizon ltac:(lia)). nia. }
  assert (0 <= c) by nia.
  rewrite (u64_small (q * _)) by lia. rewrite (u64_small (m * _)) by lia.
  rewrite (u64_small (m * _ + _)) by lia. rewrite (u64_small (_ - 1)) by lia. fold c.
  rewrite u64_small by lia. split; [nia|]. intros r Hr. nia.
Qed.
Lemma ceil_rate_exact_witness : 4000 * 1000000000 <= ceil_rate 4000 (3 * 1000000000) * (3 * 1000000000).
Proof.
  apply (ceil_rate_exact 4000 (3 * 1000000000)); [unfold in_u64; lia|vm_compute; split; [reflexivity|discriminate]|vm_compute; reflexivity].
Defined.

(** A rate plan that succeeds stays within every bound: a positive rate, at
    most the isolation-class and the workload ceilings, at least the requested
    rate, within the unreserved capacity of the path, and at least the rate the
    deadline needs unless the ceilings cap it. *)
Theorem plan_rate_sound request contract env path now e :
  0 <= req_requested_rate_bps request -> 0 < wc_ceiling_bps contract -> 0 < iec_ceiling_bps env ->
  rp_ok (plan_rate request contract env path now e) = true ->
  let rate := rp_rate_bps (plan_rate request contract env path now e) in
  0 < rate <= Z.min (iec_ceiling_bps env) (wc_ceiling_bps contract) /\
  req_requested_rate_bps request <= rate /\
  reserved_path_rate (shaper_ e) (pc_id path) + rate <= pc_capacity_bps path /\
  (Z.min (ceil_rate (mf_total_bytes (req_manifest request)) (request_horizon request contract))
         (Z.min (iec_ceiling_bps env) (wc_ceiling_bps contract)) <= rate).
Proof.
  intros Hreq Hwc Hic. unfold plan_rate.
  set (hard := Z.min (iec_ceiling_bps env) (wc_ceiling_bps contract)).
  set (req := if req_requested_rate_bps request =? 0 then hard else req_requested_rate_bps request).
  assert (req_requested_rate_bps request <= req /\ 0 < req) as [Hr1 Hr2].
  { unfold req, hard. destruct (Z.eqb_spec (req_requested_rate_bps request) 0); lia. }
  destruct (Z.gtb_spec req (iec_ceiling_bps env)); [done|].
  destruct (Z.gtb_spec req (wc_ceiling_bps contract)); [done|].
  set (need := ceil_rate _ _). destruct (Z.gtb_spec need (iec_ceiling_bps env)); [done|].
  set (rate := Z.min (Z.max req need) hard).
  destruct (Z.gtb_spec (pc_capacity_bps path) (reserved_path_rate (shaper_ e) (pc_id path)));
    (destruct (rate >? _) eqn:E; [done|]); rewrite Z.gtb_ltb in E; bool_facts;
    (destruct (Z.eqb_spec rate 0); [done|]); intros _; cbn [rp_rate_bps]; unfold rate, hard in *; lia.
Qed.
Lemma plan_rate_sound_witness :
  reserved_path_rate (shaper_ engine1) (pc_id path1) +
    rp_rate_bps (plan_rate request1 contract1 (env_of IsolationClass.TrainingBulk) path1 0 engine1)
  <= pc_capacity_bps path1.
Proof.
  apply (plan_rate_sound request1 contract1 (env_of IsolationClass.TrainingBulk) path1 0 engine1);
    vm_compute; reflexivity || discriminate.
Defined.
