(* ===== verification/AdmissionProps.v ===== *)
(** * AdmissionProps: what an admission guarantees

    Soundness of admission against policy, contract and topology, the
    supersession discipline, and idempotence of resubmitted commands. *)

From stdpp Require Import base gmap list strings relations.
From S2P Require Import Prelude Status Ids Hash Enums Model Fence Shaper EngineState.
From S2P Require Import EngineTable EngineAuthority EngineAdmission EngineLifecycle.
From S2P Require Import EngineEvidence EngineInspect Scenario EngineInv SessionSteps Commands.
From S2P Require Import AdmissionCases Ledger RunProps.

(** ** Soundness *)

(** The configuration is what it was before time was observed. *)
Lemma begin_config at_ e :
  contracts_ (begin_command at_ e) = contracts_ e /\ policy_ (begin_command at_ e) = policy_ e /\
  topology_ (begin_command at_ e) = topology_ e /\ limits_ (begin_command at_ e) = limits_ e /\
  shutting_down_ (begin_command at_ e) = shutting_down_ e /\ epoch_ (begin_command at_ e) = epoch_ e /\
  command_index_ (begin_command at_ e) = command_index_ e.
Proof. pose proof (authority_begin at_ e) as H. unfold authority in H. by injection H. Qed.

(** Rate planning: the facts an admission uses. *)
Lemma plan_rate_bounds request contract env path now e :
  rp_ok (plan_rate request contract env path now e) = true ->
  let rate := rp_rate_bps (plan_rate request contract env path now e) in
  rate <= iec_ceiling_bps env /\ rate <= wc_ceiling_bps contract /\
  (0 <= req_requested_rate_bps request -> 0 <= iec_ceiling_bps env -> 0 <= wc_ceiling_bps contract ->
   0 < rate /\ reserved_path_rate (shaper_ e) (pc_id path) + rate <= pc_capacity_bps path).
Proof.
  unfold plan_rate. set (req := if _ =? 0 then _ else _).
  assert (0 <= req_requested_rate_bps request -> 0 <= iec_ceiling_bps env ->
          0 <= wc_ceiling_bps contract -> 0 <= req) as Hreq.
  { unfold req. destruct (_ =? 0); lia. }
  destruct (req >? iec_ceiling_bps env); [done|]. destruct (req >? wc_ceiling_bps contract); [done|].
  destruct (ceil_rate _ _ >? _); [done|].
  set (rate := Z.min (Z.max req (ceil_rate _ _)) _).
  destruct (rate >? _) eqn:E; [done|]. destruct (Z.eqb_spec rate 0); [done|]. intros _.
  cbn [rp_rate_bps]. rewrite Z.gtb_ltb in E. bool_facts. unfold rate in *.
  destruct (Z.gtb_spec (pc_capacity_bps path) (reserved_path_rate (shaper_ e) (pc_id path))); lia.
Qed.

Lemma resolve_isolation_rank requested contract :
  isolation_rank (resolve_isolation requested contract) <= isolation_rank contract /\
  (resolve_isolation requested contract = requested \/ resolve_isolation requested contract = contract).
Proof.
  unfold resolve_isolation. destruct (Z.leb_spec (isolation_rank requested) (isolation_rank contract));
    split; auto; lia.
Qed.

Lemma newborn_lookup request fence at_ e id s :
  ledger e -> submittable request e ->
  sessions_ e !! id = None -> sessions_ (submit_session request fence at_ e).2 !! id = Some s ->
  exists contract isolation env path path_id targets rate,
    admission request at_ (begin_command at_ e) contract isolation env path path_id targets rate /\
    (reserve_path_rate (shaper_ (begin_command at_ e)) path_id rate).1 = true /\
    id = next_id e /\
    s = new_session request contract isolation path_id rate (next_id e) at_
          ((begin_command at_ e)
             <| id_factory_ := (IdFactory_next (id_factory_ (begin_command at_ e))).2 |>).
Proof.
  intros Hle Hsub Hn Hs.
  destruct (submit_session_cases request fence at_ e)
    as [Hu|(contract & iso & env & path & path_id & targets & rate & s0 & e2 & decision &
            Ha & Hr & Es & E2 & Eres & _)].
  { exfalso. rewrite (un_sessions _ _ Hu) in Hs. rewrite (begin_none at_ e id Hn) in Hs. done. }
  destruct (admission_targets _ _ _ _ _ _ _ _ _ _ (proj2 (led_begin at_ e Hle)) Ha) as [Hnd Hall].
  do 7 eexists. split; [exact Ha|]. split; [exact Hr|].
  rewrite Eres in Hs. cbn [snd] in Hs. rewrite push_event_table, remember_command_table in Hs.
  subst e2. set (e3 := _ <| shaper_ := _ |>) in Hs.
  assert (sessions_step e3 (superseded s0 targets at_ e3)) as Hst by (by eapply superseded_steps).
  assert (ses_id s0 = next_id e) as Hid by (by rewrite Es).
  assert (forall k x, sessions_ e !! k = None -> sessions_ (superseded s0 targets at_ e3) !! k = Some x ->
            False) as Hfree.
  { intros k x Hk Hx. destruct (Hst _ _ Hx) as (y & Hy & _).
    change (sessions_ (begin_command at_ e) !! k = Some y) in Hy.
    rewrite (begin_none at_ e k Hk) in Hy. done. }
  rewrite install_sessions in Hs.
  - apply lookup_insert_Some in Hs as [[Hk <-]|[_ Hs]]; [by rewrite <-Hk, Hid|].
    destruct (Hfree _ _ Hn Hs).
  - rewrite Hid. destruct (sessions_ (superseded s0 targets at_ e3) !! next_id e) eqn:Hx; [|done].
    destruct (Hfree _ _ (su_fresh _ _ Hsub) Hx).
Qed.

(** C5: Admission is sound: a session that appears in the table through
    [submit_session] belongs to a running engine with a current contract, a valid
    manifest and an envelope no laxer than the contract's class; its rate is
    within the class and workload ceilings and within the capacity its path has
    left, its bytes within the policy bound, the session bounds are respected, and
    the whole checkpoint is recorded as outstanding. *)
Theorem admission_sound config e request fence at_ id s :
  reachable config e -> submittable request e ->
  sessions_ e !! id = None -> sessions_ (submit_session request fence at_ e).2 !! id = Some s ->
  let e1 := begin_command at_ e in
  exists contract env path,
    shutting_down_ e = false /\
    contracts_ e !! req_workload request = Some contract /\
    req_contract_generation request = wc_generation contract /\
    Status_ok (validate_manifest (req_manifest request) (limits_ e)) = true /\
    find_envelope (policy_ e) (te_isolation (ses_envelope s)) = Some env /\
    isolation_rank (te_isolation (ses_envelope s)) <= isolation_rank (wc_isolation contract) /\
    te_path_class (ses_envelope s) = default_path_class_for (topology_ e) (req_destination request) /\
    find_path_class (topology_ e) (default (mkScalar 0) (te_path_class (ses_envelope s))) = Some path /\
    te_rate_bps (ses_envelope s) <= iec_ceiling_bps env /\
    te_rate_bps (ses_envelope s) <= wc_ceiling_bps contract /\
    (0 <= req_requested_rate_bps request -> 0 <= iec_ceiling_bps env -> 0 <= wc_ceiling_bps contract ->
     0 < te_rate_bps (ses_envelope s) /\
     reserved_path_rate (shaper_ e1) (pc_id path) + te_rate_bps (ses_envelope s)
       <= pc_capacity_bps path) /\
    mf_total_bytes (req_manifest request) <= pol_max_session_bytes (policy_ e) /\
    acc_active_sessions (accounting_ e1) < pol_max_sessions (policy_ e) /\
    workload_active e1 (req_workload request) < wc_max_in_flight_sessions contract /\
    class_active e1 (te_isolation (ses_envelope s)) < iec_max_in_flight_sessions env /\
    ses_id s = id /\ ses_request s = request /\ ses_state s = SessionState.Admitted_ /\
    ses_admitted_bytes s = mf_total_bytes (req_manifest request) /\
    ses_outstanding_bytes s = mf_total_bytes (req_manifest request).
Proof.
  intros Hr%reachable_sound Hsub Hn Hs. cbn zeta.
  destruct (newborn_lookup request fence at_ e id s (so_ledger _ Hr) Hsub Hn Hs)
    as (contract & iso & env & path & path_id & targets & rate & Ha & _ & -> & ->).
  destruct (begin_config at_ e) as (E1 & E2 & E3 & E4 & E5 & E6 & _).
  exists contract, env, path. destruct Ha. rewrite E1, E2, E3, E4, E5 in *.
  destruct adm_rate as [Hok <-]. destruct (plan_rate_bounds _ _ _ _ _ _ Hok) as (B1 & B2 & B3).
  subst iso. split_and!; try done.
  apply resolve_isolation_rank.
Qed.
Notation submitted1 := ((submit_session request1 (fence_now engine1) 1 engine1).2).
Lemma submitted1_S1 : exists s, sessions_ submitted1 !! S1 = Some s.
Proof.
  destruct (holds_at_some (sessions_ submitted1 !! S1) (fun _ => true)) as (s & Hs & _);
    [vm_compute; reflexivity|]. exact (ex_intro _ s Hs).
Qed.
Lemma request1_submittable : submittable request1 engine1.
Proof. exact submit_admissible. Qed.
Lemma engine1_S1 : sessions_ engine1 !! S1 = None.
Proof. vm_compute; reflexivity. Qed.
Lemma admission_sound_witness :
  exists s, sessions_ submitted1 !! S1 = Some s /\ ses_state s = SessionState.Admitted_.
Proof.
  destruct submitted1_S1 as [s Hs].
  destruct (admission_sound config1 engine1 request1 (fence_now engine1) 1 S1 s engine1_reach
              request1_submittable engine1_S1 Hs) as (c & env & path & H).
  exists s. split; [exact Hs|]. apply H.
Defined.

(** ** Supersession *)

Lemma supersession_final t by_ at_ e s' :
  is_Some (sessions_ e !! t) -> sessions_ (apply_supersession t by_ at_ e) !! t = Some s' ->
  ses_state s' = SessionState.Superseded.
Proof.
  intros [s Hs]. unfold apply_supersession. rewrite push_event_table.
  set (x := settle_terminal _ _ _ _ _ _).
  assert (forall y, sessions_ x !! t = Some y -> ses_state y = SessionState.Superseded) as Hx.
  { intros y Hy. eapply lookup_weaken in Hy; [|apply settle_terminal_table, upd_both_lookup, Hs].
    rewrite lookup_insert_eq in Hy. injection Hy as <-. unfold settled. by rewrite unreserved_proj. }
  destruct (sessions_ x !! t) as [y|] eqn:Hy.
  - unfold note_timeline.
    rewrite (with_session_lookup t _ _ (y <| ses_superseded_by := Some by_ |>)).
    + intros [= <-]. exact (Hx y eq_refl).
    + exact (with_session_lookup t (fun s => s <| ses_superseded_by := Some by_ |>) x y Hy).
  - unfold note_timeline. intros H.
    match type of H with context [upd_accounting ?g (with_session t ?f x)] =>
      pose proof (with_session_none t f x Hy) as Hn;
      assert (sessions_ (upd_accounting g (with_session t f x)) !! t = None) as Hn'
        by (transitivity (sessions_ x !! t); [|exact Hy]; rewrite <-Hn; reflexivity)
    end. rewrite with_session_none in H by exact Hn'. congruence.
Qed.

(** Supersessions never bring a session back. *)
Lemma supersession_none t u by_ at_ e :
  sessions_ e !! t = None -> sessions_ (apply_supersession u by_ at_ e) !! t = None.
Proof.
  intros Hn. destruct (sessions_ (apply_supersession u by_ at_ e) !! t) as [x|] eqn:E; [|done].
  exfalso. destruct (decide (t = u)) as [->|Hne].
  - destruct (steps_supersession u by_ at_ e ltac:(intros ? H; congruence) _ _ E) as (? & ? & _).
    congruence.
  - rewrite (others_supersession _ _ _ _ _ _ Hne E) in Hn. done.
Qed.

Lemma supersessions_keep targets by_ at_ e t s' :
  t ∉ targets ->
  sessions_ (foldl (fun e t => apply_supersession t by_ at_ e) e targets) !! t = Some s' ->
  sessions_ e !! t = Some s'.
Proof.
  revert e; induction targets as [|v l IHl]; intros e Hv H0; [exact H0|]. cbn [foldl] in H0.
  apply not_elem_of_cons in Hv as [Hv Hvl]. apply IHl in H0; [|exact Hvl].
  exact (others_supersession _ _ _ _ _ _ Hv H0).
Qed.

Lemma supersessions_final targets by_ at_ e t s' :
  t ∈ targets -> NoDup targets -> is_Some (sessions_ e !! t) ->
  sessions_ (foldl (fun e t => apply_supersession t by_ at_ e) e targets) !! t = Some s' ->
  ses_state s' = SessionState.Superseded.
Proof.
  revert e; induction targets as [|u targets IH]; intros e Ht Hnd Hs Hl; [by apply not_elem_of_nil in Ht|].
  cbn in Hl. apply NoDup_cons in Hnd as [Hni Hnd].
  destruct (decide (t = u)) as [->|Hne].
  - apply supersessions_keep in Hl; [|done]. by eapply supersession_final.
  - apply elem_of_cons in Ht as [|Ht]; [done|].
    apply (IH (apply_supersession u by_ at_ e)); [done|done| |done].
    destruct (sessions_ (apply_supersession u by_ at_ e) !! t) eqn:E; [by eexists|].
    exfalso. assert (sessions_ (foldl (fun e t => apply_supersession t by_ at_ e)
      (apply_supersession u by_ at_ e) targets) !! t = None) as Hnone; [|congruence].
    apply foldl_inv; [done|]. intros. by apply supersession_none.
Qed.

(** C6: Supersession is complete: once a checkpoint generation is admitted, no
    other session of that checkpoint is active, and no known session of it has a
    newer generation. *)
Theorem admission_supersedes config e request fence at_ id :
  reachable config e -> submittable request e ->
  sessions_ e !! id = None -> is_Some (sessions_ (submit_session request fence at_ e).2 !! id) ->
  forall other s', other <> id -> sessions_ (submit_session request fence at_ e).2 !! other = Some s' ->
    req_checkpoint (ses_request s') = req_checkpoint request ->
    is_active (ses_state s') = false /\
    gen_value (req_checkpoint_generation (ses_request s')) <= gen_value (req_checkpoint_generation request).
Proof.
  intros Hr%reachable_sound Hsub Hn [s Hs] other s' Hne Hs' Hck.
  pose proof (so_ledger _ Hr) as Hle. pose proof (led_begin at_ e Hle) as [_ Hidx].
  destruct (newborn_lookup request fence at_ e id s Hle Hsub Hn Hs) as (_&_&_&_&_&_&_&_&_& -> & _).
  destruct (submit_session_cases request fence at_ e)
    as [Hu|(contract & iso & env & path & path_id & targets & rate & s0 & e2 & decision &
            Ha & Hrs & Es & E2 & Eres & _)].
  { exfalso. rewrite (un_sessions _ _ Hu), (begin_none at_ e _ Hn) in Hs. done. }
  destruct (admission_targets _ _ _ _ _ _ _ _ _ _ Hidx Ha) as [Hnd Hall].
  destruct (scan_existing_targets _ _ _ _ _ (adm_targets _ _ _ _ _ _ _ _ _ _ Ha))
    as (l & El & _ & _ & Hin & Hgen). cbn in El. subst l.
  rewrite Eres in Hs'. cbn [snd] in Hs'. rewrite push_event_table, remember_command_table, E2 in Hs'.
  match type of Hs' with context [install_session request s0 targets at_ ?x] => set (e3 := x) in Hs' end.
  assert (sessions_step e3 (superseded s0 targets at_ e3)) as Hst by (by eapply superseded_steps).
  assert (ses_id s0 = next_id e) as Hid by (by rewrite Es).
  assert (sessions_ (superseded s0 targets at_ e3) !! other = Some s') as Hsup.
  { destruct (sessions_ (superseded s0 targets at_ e3) !! ses_id s0) eqn:Hx.
    - by rewrite (install_present _ _ _ _ _ _ Hx) in Hs'.
    - rewrite (install_sessions _ _ _ _ _ Hx), lookup_insert_ne in Hs' by congruence. done. }
  destruct (Hst _ _ Hsup) as (y & Hy & Hsteps).
  change (sessions_ (begin_command at_ e) !! other = Some y) in Hy.
  assert (ses_request s' = ses_request y) as Hreq.
  { pose proof (session_steps_static _ _ Hsteps) as Hstatic. unfold static in Hstatic. congruence. }
  assert (other ∈ default [] (by_checkpoint_ (begin_command at_ e) !! req_checkpoint request)) as Hel.
  { apply (proj2 Hidx (req_checkpoint request)). exists (ses_request y). split; [|congruence].
    change (requests (begin_command at_ e) !! other = Some (ses_request y)).
    unfold requests. by rewrite lookup_fmap, Hy. }
  split; [|specialize (Hgen other y Hel Hy); unfold gen_ltb in Hgen; bool_facts; rewrite Hreq; lia].
  destruct (decide (other ∈ targets)) as [Ht|Ht].
  - rewrite (supersessions_final targets (ses_id s0) at_ e3 other s' Ht Hnd); [done| |done].
    by exists y.
  - pose proof (supersessions_keep _ _ _ _ _ _ Ht Hsup) as Hkeep.
    change (sessions_ (begin_command at_ e) !! other = Some s') in Hkeep.
    destruct (is_active (ses_state s')) eqn:E; [|reflexivity]. destruct (Ht (Hin _ _ Hel Hkeep E)).
Qed.
Definition request2 : SessionRequest := request_of 11 2 4000 [shard_d 0 1000; shard_d 1 3000].
Notation S2 := (next_id run1).
Notation submitted2 := ((submit_session request2 (fence_now engine1) 2 run1).2).
Lemma request2_submittable : submittable request2 run1.
Proof. constructor; vm_compute; [reflexivity|discriminate|reflexivity]. Qed.
Lemma submitted2_lookups :
  sessions_ run1 !! S2 = None /\ is_Some (sessions_ submitted2 !! S2) /\
  exists s, sessions_ submitted2 !! S1 = Some s /\
    req_checkpoint (ses_request s) = req_checkpoint request2.
Proof.
  split; [vm_compute; reflexivity|]. split.
  - destruct (holds_at_some (sessions_ submitted2 !! S2) (fun _ => true)) as (s & Hs & _);
      [vm_compute; reflexivity|]. exact (ex_intro _ s Hs).
  - destruct (holds_at_some (sessions_ submitted2 !! S1)
      (fun s => req_checkpoint (ses_request s) =e req_checkpoint request2)) as (s & Hs & Hk);
      [vm_compute; reflexivity|]. apply bool_decide_eq_true_1 in Hk.
    exact (ex_intro _ s (conj Hs Hk)).
Qed.
Lemma S1_not_S2 : S1 <> S2.
Proof. apply (bool_decide_eq_false_1 (S1 = S2)). vm_compute. reflexivity. Qed.
Lemma admission_supersedes_witness :
  exists s, sessions_ submitted2 !! S1 = Some s /\ is_active (ses_state s) = false.
Proof.
  destruct submitted2_lookups as (Hn & His & s & Hs & Hk). exists s. split; [exact Hs|].
  exact (proj1 (admission_supersedes config1 run1 request2 (fence_now engine1) 2 S2 admitted1_reach
    request2_submittable Hn His S1 s S1_not_S2 Hs Hk)).
Defined.
