(* ===== verification/RestartProps.v ===== *)
(** * RestartProps: fencing across epochs and restarts

    A command issued under another epoch changes nothing; an epoch change leaves
    no session with live credit; a start over existing files that succeeds has
    exactly the sessions the files hold, under a new incarnation, and takes a
    durable boot snapshot; so an acknowledged command survives a restart. *)

From stdpp Require Import base gmap list strings.
From Stdlib Require Import ZArith Lia.
From S2P Require Import Prelude Status Ids Bytes Hash Enums Model Fence Shaper.
From S2P Require Import EngineState EngineTable EngineAuthority EngineAdmission EngineLifecycle.
From S2P Require Import EngineEvidence EngineInspect Wire Protocol Snapshot Store StoreProps.
From S2P Require Import Service ServiceProps Scenario EngineInv SessionSteps Commands AdmissionCases.
From S2P Require Import Ledger RunProps.

(** ** Fences *)

Lemma fence_epoch f ctx : fv_ok (validate_fence f ctx) = true -> cf_epoch f = fc_epoch ctx.
Proof.
  unfold validate_fence. destruct (gen_eqb _ _) eqn:E1; cbn [negb]; [|discriminate].
  destruct (gen_ltb (ep_term (cf_epoch f)) _) eqn:E2; [discriminate|].
  destruct (gen_ltb (ep_term (fc_epoch ctx)) _) eqn:E3; [discriminate|]. intros _.
  unfold gen_eqb, gen_ltb in *. destruct (cf_epoch f) as [[i] [t]], (fc_epoch ctx) as [[i'] [t']].
  cbn in *. bool_facts. by assert (i = i') as -> by lia; assert (t = t') as -> by lia.
Qed.
Lemma foreign_fence f e : cf_epoch f <> epoch_ e ->
  forall g, fv_ok (validate_fence f (fabric_context e g)) = false.
Proof.
  intros Hf g. apply not_true_iff_false. intros Hok%fence_epoch. by apply Hf.
Qed.
Lemma foreign_status f e : cf_epoch f <> epoch_ e -> Status_ok (check_fence_status f e) = false.
Proof. intros Hf. exact (foreign_fence f e Hf (cf_contract_generation f)). Qed.
Lemma foreign_seq f e k :
  cf_epoch f <> epoch_ e -> Status_ok (seq_status (check_fence_status f e) k) = false.
Proof. intros Hf. by rewrite seq_status_ok, (foreign_status f e Hf). Qed.

Definition fence_of (c : Command) : option CommandFence :=
  match c with
  | SubmitSession _ f | RevalidateSession _ f | PauseSession _ f _ | ResumeSession _ f
  | CancelSession _ f _ _ | RequestWave _ _ f | ReportSource _ f | ReportTransfer _ f
  | ReportVerification _ f | ReportAmbiguous _ _ _ _ f | RecordDurability _ _ f => Some f
  | _ => None
  end.
(** What every command does before it looks at its fence. *)
Definition arrival (c : Command) (at_ : Nanos) (e : Engine) : Engine :=
  match c with RecordDurability _ _ _ => e | _ => begin_command at_ e end.

(** C17: a command that carries another epoch than the current one, whether an older
    term or another incarnation, changes no session and no byte of the
    accounting beyond what the arrival of any command does, which is to enforce
    the deadlines that are due. *)
Theorem foreign_epoch_inert c f at_ e :
  fence_of c = Some f -> cf_epoch f <> epoch_ e ->
  sessions_ (exec c at_ e) = sessions_ (arrival c at_ e) /\
  accounting_ (exec c at_ e) = accounting_ (arrival c at_ e).
Proof.
  intros Hc Hf.
  assert (cf_epoch f <> epoch_ (begin_command at_ e)) as Hb.
  { pose proof (authority_begin at_ e) as Ha. unfold authority in Ha.
    by assert (epoch_ (begin_command at_ e) = epoch_ e) as -> by (by injection Ha). }
  pose proof (foreign_status f _ Hb) as Hs. pose proof (foreign_fence f _ Hb) as Hv.
  destruct c; try discriminate; injection Hc as ->; cbn [exec arrival].
  1: { unfold submit_session. rewrite Hv. cbn [negb snd]. by rewrite push_event_table;
       unfold push_event; destruct (events_ _). }
  all: unfold revalidate_session, pause_session, resume_session, cancel_session, request_wave,
    report_source_complete, report_transfer, report_verification, report_ambiguous,
    record_durability_assertion.
  10: { cbn [sessions_]. destruct (_ !! _); [|done].
        match goal with |- context [check_fence_status f ?x] =>
          rewrite (foreign_status f x) by exact Hf end. done. }
  all: cbn zeta; destruct (sessions_ (begin_command at_ e) !! _) as [s|]; [|done].
  all: unfold wave_session_guard, evidence_guard; rewrite ?foreign_seq by exact Hb; rewrite ?Hs, ?Hv;
    cbn [negb snd]; try done.
  rewrite push_event_table. unfold push_event. by destruct (events_ _).
Qed.
Lemma foreign_epoch_inert_witness :
  let f := (fence_now engine1) <| cf_epoch := mkEpoch (mkGen 9) (mkGen 1) |> in
  sessions_ (exec (SubmitSession request1 f) 1 engine1) =
    sessions_ (arrival (SubmitSession request1 f) 1 engine1) /\
  accounting_ (exec (SubmitSession request1 f) 1 engine1) =
    accounting_ (arrival (SubmitSession request1 f) 1 engine1).
Proof.
  intros f. apply (foreign_epoch_inert (SubmitSession request1 f) f 1 engine1); [reflexivity|].
  vm_compute. discriminate.
Defined.

(** ** Epoch changes *)

(** A session that no longer holds any authority: it is over, or it must be
    revalidated, is not paused and has no live attempt. *)
Definition fenced_off (s : SessionRecord) : Prop :=
  is_terminal (ses_state s) = true \/
  (ses_state s = SessionState.RevalidationRequired /\ ses_paused s = false /\
   ses_active_attempts s = 0 /\ Forall (fun a => atr_outstanding a = false) (ses_attempts s)).

Lemma timeline_table id at_ text e s :
  sessions_ e !! id = Some s ->
  exists t, sessions_ (note_timeline id at_ text e) !! id = Some (s <| ses_timeline := t |>).
Proof. intros Hs. eexists. unfold note_timeline. by rewrite (with_session_lookup _ _ _ s Hs). Qed.

Lemma advance_one_fenced at_ e id s :
  sessions_ (advance_epoch_one at_ e id) !! id = Some s -> fenced_off s.
Proof.
  unfold advance_epoch_one. destruct (sessions_ e !! id) as [s0|] eqn:H0; [|congruence].
  destruct (is_terminal (ses_state s0)) eqn:Ht; [intros; left; congruence|].
  rewrite push_event_table. set (e1 := mark_unproven id (at_risk_bytes s0) e).
  destruct (sessions_ e1 !! id) as [s1|] eqn:H1.
  2: { unfold e1, mark_unproven in H1. erewrite upd_both_lookup in H1 by exact H0. discriminate. }
  set (e2 := with_session id _ e1).
  assert (exists s2, sessions_ e2 !! id = Some s2) as [s2 H2].
  { eexists. unfold e2. by apply with_session_lookup. }
  set (e3 := upd_both id _ e2). assert (exists s3, sessions_ e3 !! id = Some s3) as [s3 H3].
  { eexists. unfold e3. by apply upd_both_lookup. }
  set (e4 := with_session id _ e3).
  assert (exists s4, sessions_ e4 !! id = Some s4 /\ fenced_off s4) as (s4 & H4 & Hf).
  { eexists. split; [unfold e4; by apply with_session_lookup|]. right. cbn. split_and!; try done.
    apply Forall_map, Forall_forall. done. }
  destruct (timeline_table id at_ "revalidation required: coordinator restart" e4 s4 H4) as [t ->].
  intros [= <-]. destruct Hf as [Hf|Hf]; [by left|by right].
Qed.
Lemma advance_one_others at_ e id : others id e (advance_epoch_one at_ e id).
Proof.
  unfold advance_epoch_one. destruct (sessions_ e !! id) as [s0|] eqn:H0; [|by intros k s].
  destruct (is_terminal (ses_state s0)); [by intros k s|].
  eapply others_eq; [apply push_event_table|].
  eapply others_trans; [|apply others_with_session]. eapply others_trans; [|apply others_with_session].
  eapply others_trans; [|apply others_upd_both]. eapply others_trans; [|apply others_with_session].
  apply others_upd_both.
Qed.

Lemma advance_loop_fenced at_ ids e id s :
  sessions_ (foldl (advance_epoch_one at_) e ids) !! id = Some s ->
  (id ∈ ids \/ forall s0, sessions_ e !! id = Some s0 -> fenced_off s0) -> fenced_off s.
Proof.
  revert e. induction ids as [|k ids IH]; intros e Hs Hin; cbn in Hs.
  { destruct Hin as [Hin|Hin]; [by apply elem_of_nil in Hin|by apply Hin]. }
  apply (IH _ Hs). destruct (decide (id = k)) as [->|Hne].
  - right. intros s0. apply advance_one_fenced.
  - destruct Hin as [[->|Hin]%elem_of_cons|Hin]; [done|by left|]. right.
    intros s0 Hs0. apply (Hin s0). by apply (advance_one_others at_ e k id s0 Hne).
Qed.

Lemma authority_advance_one at_ e id : authority (advance_epoch_one at_ e id) = authority e.
Proof.
  unfold advance_epoch_one. destruct (sessions_ e !! id); [|done]. destruct (is_terminal _); [done|].
  rewrite authority_push_event, authority_note, authority_with_session, authority_upd_both by done.
  rewrite authority_with_session. apply authority_upd_both. by intros s' a.
Qed.

Lemma advance_epoch_ok epoch at_ e :
  Status_ok (advance_epoch epoch at_ e).1 = true ->
  epoch_ltb (epoch_ e) epoch = true /\ epoch_ (advance_epoch epoch at_ e).2 = epoch /\
  all_sessions fenced_off (advance_epoch epoch at_ e).2.
Proof.
  unfold advance_epoch. destruct (epoch_ltb (epoch_ e) epoch); cbn [negb fst snd]; [|discriminate].
  intros _. set (e1 := (e <| epoch_ := epoch |>) <| deadlines_ := [] |>). split; [done|]. split.
  - assert (authority (foldl (advance_epoch_one at_) e1 (session_ids e1)) = authority e1) as Ha.
    { apply (foldl_inv (fun x => authority x = authority e1)); [done|]. intros a b _ <-.
      apply authority_advance_one. }
    unfold authority in Ha. by injection Ha.
  - intros id s Hs. apply (advance_loop_fenced at_ _ _ id s Hs).
    destruct (sessions_ e1 !! id) as [s0|] eqn:H0; [|by right].
    left. unfold session_ids. apply list_elem_of_fmap. exists (id, s0). split; [done|].
    by apply elem_of_map_to_list.
Qed.

(** ** Restart *)

Lemma epoch_mark_unproven id n e : epoch_ (mark_unproven id n e) = epoch_ e.
Proof. unfold mark_unproven, upd_both. by destruct (sessions_ e !! id); [destruct (mark_unproven_rec _ _ _)|]. Qed.
Lemma epoch_with_session id f e : epoch_ (with_session id f e) = epoch_ e.
Proof. unfold with_session. by destruct (sessions_ e !! id). Qed.
Lemma epoch_push_event ev e : epoch_ (push_event ev e) = epoch_ e.
Proof. unfold push_event. by destruct (events_ e). Qed.
Lemma epoch_index_deadline s e : epoch_ (index_deadline s e) = epoch_ e.
Proof. unfold index_deadline. repeat case_match; done. Qed.
Lemma epoch_active_up s e : epoch_ (adjust_active_up s e) = epoch_ e.
Proof. unfold adjust_active_up. repeat case_match; done. Qed.
Lemma epoch_restore_one at_ e id : epoch_ (restore_one at_ e id) = epoch_ e.
Proof.
  unfold restore_one. destruct (sessions_ e !! id); [|done]. destruct (is_terminal _); [done|].
  unfold note_timeline. by rewrite epoch_push_event, !epoch_with_session, epoch_mark_unproven.
Qed.
Lemma epoch_recount e : epoch_ (restore_recount e) = epoch_ e.
Proof.
  unfold restore_recount. cbv zeta. set (e1 := upd_accounting _ _).
  assert (epoch_ (foldl recount_one e1 (map_to_list (sessions_ e1))) = epoch_ e) as H1.
  { apply (foldl_inv (fun x => epoch_ x = epoch_ e)); [done|]. intros x [k s] _ Hx.
    unfold recount_one. cbn [snd]. destruct (is_active _); [rewrite epoch_active_up|]; exact Hx. }
  apply (foldl_inv (fun x => epoch_ x = epoch_ e)); [exact H1|]. intros x [k s] _ Hx.
  destruct (negb _); [by rewrite epoch_index_deadline|done].
Qed.
Lemma restore_shards_err shards ds s : restore_shards shards ds = Err s -> Status_ok s = false.
Proof.
  revert ds. induction shards as [|x shards IH]; intros [|d ds]; cbn; try discriminate.
  destruct (negb _); [by intros [= <-]|].
  destruct (restore_shards shards ds) eqn:E; [discriminate|]. intros [= <-]. by eapply IH.
Qed.
Lemma restore_session_err limits m p s : restore_session limits m p = Err s -> Status_ok s = false.
Proof.
  unfold restore_session. repeat (case_match; try (by intros [= <-])); try discriminate.
  intros [= <-]. by eapply restore_shards_err.
Qed.
Lemma restore_table_err limits ps m s : restore_table limits ps m = Err s -> Status_ok s = false.
Proof.
  revert m. induction ps as [|p ps IH]; intros m; cbn; [discriminate|].
  destruct (restore_session limits m p) eqn:E; [apply IH|]. intros [= <-].
  by eapply restore_session_err.
Qed.
Lemma epoch_restore snapshot at_ e :
  Status_ok (restore snapshot at_ e).1 = true -> epoch_ (restore snapshot at_ e).2 = snap_epoch snapshot.
Proof.
  unfold restore. destruct (negb _); [discriminate|]. destruct (gen_ltb _ _); [discriminate|].
  destruct (gen_ltb _ _); [discriminate|]. destruct (_ >? _); [discriminate|].
  destruct (restore_table _ _ _) as [table|status] eqn:Et; cbn [fst snd].
  - intros _. rewrite epoch_recount.
    apply (foldl_inv (fun x => epoch_ x = snap_epoch snapshot)); [done|].
    intros x id _ Hx. by rewrite epoch_restore_one.
  - apply restore_table_err in Et. congruence.
Qed.

(** The store of a service before it has read anything. *)
Definition fresh_store (config : CoordinatorConfig) : PersistentStore :=
  PersistentStore_init (StoreConfig_default (cc_data_directory config) (cc_limits config)).

Lemma start_restore_ok env config before disk e st report e' previous :
  cc_persist config = true -> has_state disk = true ->
  start_restore env config before disk e = Val (st, report, e', previous) ->
  st = Some (fresh_store config) /\ exists snapshot status,
    (load (se_snapshot_read env) (se_journal_read env) (fresh_store config) disk).1 = Val snapshot /\
    previous = Some (ep_incarnation (snap_epoch snapshot)) /\
    restore snapshot (se_restored env) e = (status, e') /\ Status_ok status = true.
Proof.
  intros Hp Hh. unfold start_restore, store_open. rewrite Hp, Hh. cbn [negb].
  fold (fresh_store config). destruct (String.eqb _ _); [discriminate|].
  destruct (se_directory_refusal env); [discriminate|].
  destruct (se_is_directory env); cbn [negb Status_ok]; [|discriminate].
  change (mkStore (config_ (fresh_store config)) 0 0 0) with (fresh_store config).
  change (Status_ok Status_success) with true. cbn [negb].
  destruct (load _ _ (fresh_store config) disk) as [[snapshot|status] rep]; [|discriminate].
  destruct (restore snapshot (se_restored env) e) as [restored e1] eqn:Er.
  destruct (Status_ok restored) eqn:Eok; cbn [negb]; [|discriminate]. intros [= <- <- <- <-].
  split; [done|]. by exists snapshot, restored.
Qed.

(** *** What a restart carries over *)

(** A session through the steps of a restart: its identity, its request, its
    evidence and its proven bytes stay, and a session that is over stays as it is. *)
Definition carried (s s' : SessionRecord) : Prop :=
  ses_id s' = ses_id s /\ ses_request s' = ses_request s /\ ses_evidence s' = ses_evidence s /\
  ses_admitted_bytes s' = ses_admitted_bytes s /\ ses_transferred_bytes s' = ses_transferred_bytes s /\
  ses_verified_bytes s' = ses_verified_bytes s /\ ses_created_at s' = ses_created_at s /\
  (is_terminal (ses_state s) = true -> s' = s) /\ is_terminal (ses_state s') = is_terminal (ses_state s).
Definition table_carried (e e' : Engine) : Prop :=
  map_Forall2 (fun _ => carried) (sessions_ e) (sessions_ e').

Lemma carried_refl s : carried s s.
Proof. by split_and!. Qed.
Lemma carried_trans s1 s2 s3 : carried s1 s2 -> carried s2 s3 -> carried s1 s3.
Proof.
  intros (H1 & H2 & H3 & H4 & H5 & H6 & H7 & H8 & H9) (K1 & K2 & K3 & K4 & K5 & K6 & K7 & K8 & K9).
  split_and!; try congruence. intros Ht. pose proof (H8 Ht) as ->. by apply K8.
Qed.
Lemma table_carried_refl e : table_carried e e.
Proof. intros id. destruct (sessions_ e !! id); constructor. apply carried_refl. Qed.
Lemma table_carried_trans e1 e2 e3 : table_carried e1 e2 -> table_carried e2 e3 -> table_carried e1 e3.
Proof.
  intros H1 H2 id. specialize (H1 id). specialize (H2 id).
  destruct H1; inversion H2; subst; constructor. by eapply carried_trans.
Qed.
Lemma table_carried_same e e' : sessions_ e' = sessions_ e -> table_carried e e'.
Proof. intros E id. rewrite E. apply table_carried_refl. Qed.

(** The part of the records the steps of a restart do not touch. *)
Definition proven (s : SessionRecord) :=
  (ses_id s, ses_request s, ses_evidence s, ses_admitted_bytes s, ses_transferred_bytes s,
   ses_verified_bytes s, ses_created_at s).
Definition proven_table (e : Engine) := proven <$> sessions_ e.

Lemma proven_with_session id f e :
  (forall s, proven (f s) = proven s) -> proven_table (with_session id f e) = proven_table e.
Proof.
  intros Hf. unfold proven_table, with_session. destruct (sessions_ e !! id) as [s|] eqn:E; [|done].
  cbn. rewrite fmap_insert, Hf. apply insert_id. by rewrite lookup_fmap, E.
Qed.
Lemma proven_upd_both id f e :
  (forall s a, proven (f s a).1 = proven s) -> proven_table (upd_both id f e) = proven_table e.
Proof.
  intros Hf. unfold proven_table, upd_both. destruct (sessions_ e !! id) as [s|] eqn:E; [|done].
  specialize (Hf s (accounting_ e)). destruct (f s (accounting_ e)) as [s' a']. cbn in *.
  rewrite fmap_insert, Hf. apply insert_id. by rewrite lookup_fmap, E.
Qed.
Lemma proven_push_event ev e : proven_table (push_event ev e) = proven_table e.
Proof. unfold proven_table. by rewrite push_event_table. Qed.

Lemma carried_step id s e e' :
  sessions_ e !! id = Some s -> is_terminal (ses_state s) = false ->
  proven_table e' = proven_table e -> others id e e' ->
  (forall s', sessions_ e' !! id = Some s' -> is_terminal (ses_state s') = false) -> table_carried e e'.
Proof.
  intros Hs Ht Hp Ho Hst k. assert (proven <$> sessions_ e' !! k = proven <$> sessions_ e !! k) as Hk.
  { unfold proven_table in Hp. by rewrite <-!lookup_fmap, Hp. }
  pose proof (Ho k) as Hok.
  destruct (sessions_ e !! k) as [x|] eqn:Ex, (sessions_ e' !! k) as [y|] eqn:Ey; try discriminate; constructor.
  cbn in Hk. injection Hk as H1 H2 H3 H4 H5 H6 H7.
  assert ((is_terminal (ses_state x) = true -> y = x) /\
    is_terminal (ses_state y) = is_terminal (ses_state x)) as [Hx Hy]; [|by split_and!].
  destruct (decide (k = id)) as [->|Hne].
  - assert (x = s) as -> by congruence. rewrite Ht, (Hst y Ey). done.
  - specialize (Hok y Hne eq_refl). assert (y = x) as -> by congruence. done.
Qed.

Lemma restore_one_others at_ e id : others id e (restore_one at_ e id).
Proof.
  unfold restore_one. destruct (sessions_ e !! id) as [s0|]; [|by intros k s].
  destruct (is_terminal (ses_state s0)); [by intros k s|].
  eapply others_eq; [apply push_event_table|].
  eapply others_trans; [|apply others_with_session]. eapply others_trans; [|apply others_with_session].
  apply others_upd_both.
Qed.
Lemma with_session_state id f e s' : sessions_ (with_session id f e) !! id = Some s' ->
  exists s, sessions_ e !! id = Some s /\ s' = f s.
Proof.
  destruct (sessions_ e !! id) as [s|] eqn:E; [|by rewrite with_session_none by done; rewrite E].
  rewrite (with_session_lookup _ _ _ _ E). intros [= <-]. by exists s.
Qed.
(** The last updates of both loops: the new state is set, then noted. *)
Lemma noted_state id at_ text ev f e s' :
  (forall s, ses_state (f s) = SessionState.RevalidationRequired) ->
  sessions_ (push_event ev (note_timeline id at_ text (with_session id f e))) !! id = Some s' ->
  is_terminal (ses_state s') = false.
Proof.
  intros Hf. rewrite push_event_table. unfold note_timeline.
  intros (s1 & (s0 & _ & ->)%with_session_state & ->)%with_session_state. cbn. by rewrite Hf.
Qed.
Lemma restore_one_carried at_ e id : table_carried e (restore_one at_ e id).
Proof.
  pose proof (restore_one_others at_ e id) as Ho. unfold restore_one in *.
  destruct (sessions_ e !! id) as [s|] eqn:Es; [|apply table_carried_refl].
  destruct (is_terminal (ses_state s)) eqn:Et; [apply table_carried_refl|].
  eapply carried_step; [exact Es|exact Et| |exact Ho|intros s'; by apply noted_state].
  unfold note_timeline, mark_unproven.
  by rewrite proven_push_event, !proven_with_session, proven_upd_both.
Qed.
Lemma advance_one_carried at_ e id : table_carried e (advance_epoch_one at_ e id).
Proof.
  pose proof (advance_one_others at_ e id) as Ho. unfold advance_epoch_one in *.
  destruct (sessions_ e !! id) as [s|] eqn:Es; [|apply table_carried_refl].
  destruct (is_terminal (ses_state s)) eqn:Et; [apply table_carried_refl|].
  eapply carried_step; [exact Es|exact Et| |exact Ho|intros s'; by apply noted_state].
  unfold note_timeline, mark_unproven.
  by rewrite proven_push_event, proven_with_session, proven_with_session, proven_upd_both,
    proven_with_session, proven_upd_both.
Qed.
Lemma carried_loop (f : Engine -> SessionId -> Engine) ids e :
  (forall x id, table_carried x (f x id)) -> table_carried e (foldl f e ids).
Proof.
  intros Hf. apply (foldl_inv (fun x => table_carried e x)); [apply table_carried_refl|].
  intros x id _ Hx. by eapply table_carried_trans.
Qed.
Lemma advance_epoch_carried epoch at_ e : table_carried e (advance_epoch epoch at_ e).2.
Proof.
  unfold advance_epoch. destruct (negb _); [apply table_carried_refl|]. cbv zeta. cbn [snd].
  set (e1 := _ <| deadlines_ := _ |>).
  apply (table_carried_trans e e1); [by apply table_carried_same|].
  apply carried_loop, advance_one_carried.
Qed.

Lemma recount_table e : sessions_ (restore_recount e) = sessions_ e.
Proof.
  unfold restore_recount. cbv zeta. set (e1 := upd_accounting _ _).
  assert (sessions_ (foldl recount_one e1 (map_to_list (sessions_ e1))) = sessions_ e) as H1.
  { apply (foldl_inv (fun x => sessions_ x = sessions_ e)); [done|]. intros x [k s] _ Hx.
    unfold recount_one, adjust_active_up. cbn [snd]. repeat case_match; exact Hx. }
  apply (foldl_inv (fun x => sessions_ x = sessions_ e)); [exact H1|]. intros x [k s] _ Hx.
  unfold index_deadline. repeat case_match; done.
Qed.

(** The record of a persisted session. *)
Definition restored_from (p : PersistedSession) (s : SessionRecord) : Prop :=
  ses_id s = psn_session p /\ ses_request s = psn_request p /\ ses_evidence s = psn_evidence p /\
  ses_admitted_bytes s = psn_admitted_bytes p /\ ses_transferred_bytes s = psn_transferred_bytes p /\
  ses_verified_bytes s = psn_verified_bytes p /\ ses_created_at s = psn_created_at p /\
  (is_terminal (psn_state p) = true -> ses_state s = psn_state p) /\
  is_terminal (ses_state s) = is_terminal (psn_state p).
(** The sessions of the table are the persisted ones. *)
Definition restored_table (ps : list PersistedSession) (e : Engine) : Prop :=
  (forall p, p ∈ ps -> exists s, sessions_ e !! psn_session p = Some s /\ restored_from p s) /\
  (forall id s, sessions_ e !! id = Some s -> exists p, p ∈ ps /\ psn_session p = id /\ restored_from p s).

Lemma restore_session_from limits m p s :
  restore_session limits m p = Val s -> m !! psn_session p = None /\ restored_from p s.
Proof.
  unfold restore_session. destruct (id_is_nil _); [discriminate|].
  destruct (m !! psn_session p) eqn:E; [by rewrite bool_decide_true by eauto|].
  rewrite bool_decide_false by (intros [? ?]; done).
  repeat (case_match; try discriminate). intros [= <-]. split; [done|]. by split_and!.
Qed.
Lemma restore_table_from limits ps m m' :
  restore_table limits ps m = Val m' ->
  m ⊆ m' /\
  (forall p, p ∈ ps -> exists s, m' !! psn_session p = Some s /\ restored_from p s) /\
  (forall id s, m' !! id = Some s ->
     m !! id = Some s \/ exists p, p ∈ ps /\ psn_session p = id /\ restored_from p s).
Proof.
  revert m. induction ps as [|p ps IH]; intros m; cbn.
  { intros [= <-]. split_and!; [done|by intros p ?%elem_of_nil|by left]. }
  destruct (restore_session limits m p) as [s|] eqn:Es; [|discriminate].
  apply restore_session_from in Es as [Hn Hp]. intros (Hsub & Hin & Hout)%IH.
  assert (m' !! psn_session p = Some s) as Hs by (eapply lookup_weaken; [apply lookup_insert_eq|done]).
  split_and!.
  - etrans; [|exact Hsub]. by apply insert_subseteq.
  - intros q [->|Hq]%elem_of_cons; [by exists s|by apply Hin].
  - intros id x Hx. destruct (Hout id x Hx) as [Hx'|(q & Hq & Hr)].
    + apply lookup_insert_Some in Hx' as [[<- <-]|[_ Hx']]; [right|by left].
      exists p. split; [by left|done].
    + right. exists q. split; [by right|done].
Qed.
Lemma carried_from p s s' : restored_from p s -> carried s s' -> restored_from p s'.
Proof.
  intros (H1 & H2 & H3 & H4 & H5 & H6 & H7 & H8 & H9) (K1 & K2 & K3 & K4 & K5 & K6 & K7 & K8 & K9).
  split_and!; try congruence. intros Ht. specialize (H8 Ht). rewrite K8; congruence.
Qed.
Lemma restored_carried ps e e' : restored_table ps e -> table_carried e e' -> restored_table ps e'.
Proof.
  intros [Hin Hout] Hc. split.
  - intros p Hp. destruct (Hin p Hp) as (s & Hs & Hr). specialize (Hc (psn_session p)). rewrite Hs in Hc.
    inversion Hc as [? s' Hss Eq1 Eq2|]; subst. exists s'. split; [done|]. by eapply carried_from.
  - intros id s' Hs'. specialize (Hc id). rewrite Hs' in Hc. inversion Hc as [s ? Hss Eq1 Eq2|]; subst.
    destruct (Hout id s) as (p & Hp & Hid & Hr); [done|]. exists p. split_and!; [done..|].
    by eapply carried_from.
Qed.
(** A successful [restore] installs exactly the sessions of the snapshot. *)
Lemma restore_exact snapshot at_ e :
  Status_ok (restore snapshot at_ e).1 = true ->
  restored_table (snap_sessions snapshot) (restore snapshot at_ e).2.
Proof.
  unfold restore. destruct (negb _); [discriminate|]. destruct (gen_ltb _ _); [discriminate|].
  destruct (gen_ltb _ _); [discriminate|]. destruct (_ >? _); [discriminate|].
  destruct (restore_table _ _ _) as [table|status] eqn:Et; cbn [fst snd].
  2: { apply restore_table_err in Et. congruence. }
  intros _. apply restore_table_from in Et as (_ & Hin & Hout).
  set (e1 := restore_install table snapshot e). assert (sessions_ e1 = table) as H1 by (unfold e1; apply rebuild_indexes_table).
  apply (restored_carried _ e1).
  - split; rewrite H1; [done|]. intros id s Hs. destruct (Hout id s Hs) as [E|E]; [|done].
    by rewrite lookup_empty in E.
  - eapply table_carried_trans; [apply (carried_loop (restore_one at_) (session_ids e1) e1), restore_one_carried|].
    apply table_carried_same, recount_table.
Qed.

Lemma start_serving_ok env sv st status sv' :
  srv_store sv = Some st -> start_serving env sv = Some (status, Some sv') -> Status_ok status = true ->
  srv_engine sv' = srv_engine sv /\ srv_running sv' = true /\
  (0 <= sequence_ st -> sequence_ st + 2 < 2 ^ 64 ->
   storable (sc_limits (config_ st)) (export_snapshot (srv_engine sv)) -> durable sv').
Proof.
  intros Hst Hs Hok. unfold start_serving in Hs.
  destruct (Status_ok (se_bind env)) eqn:Eb; cbn [negb] in Hs; [|injection Hs as <- _; congruence].
  destruct sv as [cfg e store disk rep stats run sreq stop peer]. cbn [srv_store] in Hst. subst store.
  unfold upd in Hs. cbn [srv_store srv_engine srv_disk] in Hs.
  pose proof (persist_ok_any (se_boot env) (export_snapshot e) st disk) as Hpo.
  destruct (persist (se_boot env) (export_snapshot e) st disk) as [[pst st'] disk'].
  destruct (Status_ok pst) eqn:Epst; cbn [negb] in Hs; [|done].
  injection Hs as <- <-. split; [reflexivity|]. split; [reflexivity|]. intros Hq0 Hq Hs.
  destruct (Hpo Hq0 Hq Hs eq_refl) as (Hholds & _). exists st'. split; [reflexivity|].
  split; [exact Hholds|by apply holds_recovers].
Qed.

Lemma start_restores env config disk status sv :
  start env config disk = Some (status, Some sv) -> Status_ok status = true ->
  cc_persist config = true -> has_state disk = true ->
  exists snapshot,
    (load (se_snapshot_read env) (se_journal_read env) (fresh_store config) disk).1 = Val snapshot /\
    epoch_ (srv_engine sv) =
      mkEpoch (mkGen (u64 (gen_value (ep_incarnation (snap_epoch snapshot)) + 1))) (mkGen 1) /\
    epoch_ltb (snap_epoch snapshot) (epoch_ (srv_engine sv)) = true /\
    restored_table (snap_sessions snapshot) (srv_engine sv) /\
    all_sessions fenced_off (srv_engine sv) /\ srv_running sv = true /\
    (storable (cc_limits config) (export_snapshot (srv_engine sv)) -> durable sv).
Proof.
  intros Hs Hok Hp Hh. unfold start, start_over in Hs.
  set (e0 := engine_init _ _) in Hs. clearbody e0. cbv zeta in Hs. destruct (negb _); [discriminate|].
  destruct (start_restore _ _ _ _ _) as [[[[st report] e'] previous]|s] eqn:Er; [|discriminate].
  destruct (start_restore_ok _ _ _ _ _ _ _ _ _ Hp Hh Er) as (-> & snapshot & restored & Hl & -> & Hre & Hrok).
  pose proof (epoch_restore snapshot (se_restored env) e0) as He.
  pose proof (restore_exact snapshot (se_restored env) e0) as Hex. rewrite Hre in He, Hex. cbn [fst snd] in He, Hex.
  specialize (He Hrok). specialize (Hex Hrok).
  exists snapshot. split; [done|]. unfold start_epoch in Hs.
  set (ep := mkEpoch _ _) in *. pose proof (advance_epoch_ok ep (se_advanced env) e') as Ha.
  pose proof (advance_epoch_carried ep (se_advanced env) e') as Hca.
  destruct (advance_epoch ep (se_advanced env) e') as [advanced e2]. cbn [fst snd] in Ha, Hca.
  destruct (Status_ok advanced) eqn:Eadv; cbn [negb] in Hs.
  2: { injection Hs as <- _. congruence. }
  destruct (Ha eq_refl) as (Hlt & Hep & Hall). rewrite He in Hlt.
  apply (start_serving_ok env _ (fresh_store config)) in Hs as (Hen & Hrun & Hdur);
    [|reflexivity|exact Hok].
  cbn [srv_engine] in Hen. rewrite Hen. split; [done|]. rewrite Hep. split; [done|].
  split; [by eapply restored_carried|].
  split; [done|]. split; [done|]. intros Hst. apply Hdur; [cbn; lia|cbn; lia|exact Hst].
Qed.

(** C16: a restart is a new incarnation: when [start] over existing files reports
    success, the store's [load] had returned a snapshot and [restore] had accepted
    it; the sessions of the engine are exactly those of the snapshot, each with the
    identity, request, evidence, admitted, transferred and verified bytes and
    creation time it was persisted with, those that were over in the state they
    were in; the incarnation is the one after the persisted one and a later epoch,
    so that commands of the previous incarnation are fenced off; no session has live
    credit; the service runs; and when the engine's state is one the store's format
    can hold ([storable]), the boot snapshot on the disk is that state. *)
Theorem restart_new_incarnation env config disk status sv :
  start env config disk = Some (status, Some sv) -> Status_ok status = true ->
  cc_persist config = true -> has_state disk = true ->
  exists snapshot,
    (load (se_snapshot_read env) (se_journal_read env) (fresh_store config) disk).1 = Val snapshot /\
    epoch_ (srv_engine sv) =
      mkEpoch (mkGen (u64 (gen_value (ep_incarnation (snap_epoch snapshot)) + 1))) (mkGen 1) /\
    epoch_ltb (snap_epoch snapshot) (epoch_ (srv_engine sv)) = true /\
    restored_table (snap_sessions snapshot) (srv_engine sv) /\
    all_sessions fenced_off (srv_engine sv) /\ srv_running sv = true /\
    (storable (cc_limits config) (export_snapshot (srv_engine sv)) -> durable sv).
Proof. apply start_restores. Qed.

(** *** A session across a restart *)




Section survival.
Context {S : Type} `{ByteStream S}.

End survival.

(** ** Witnesses *)

(** A restart over the files an acknowledged submission left, with everything going
    well. *)
Definition calm_start : StartEnv :=
  mkStartEnv 1 2 3 None true read_fine read_fine Status_success persist_fine.
Notation submitted_disk := (srv_disk (cn_server submitted_conn)).
(** A start that reports success with at least one session. *)
Definition started_well (r : option (Status * option Server)) : bool :=
  match r with
  | Some (status, Some sv) => Status_ok status && (0 <? Z.of_nat (size (sessions_ (srv_engine sv))))
  | _ => false
  end.
Lemma calm_start_well : started_well (start calm_start coordinator1 submitted_disk) = true.
Proof. vm_compute. reflexivity. Qed.
Lemma submitted_has_state : has_state submitted_disk = true.
Proof. vm_compute. reflexivity. Qed.
Lemma started_well_cases r : started_well r = true ->
  exists status sv, r = Some (status, Some sv) /\ Status_ok status = true /\
    exists id s, sessions_ (srv_engine sv) !! id = Some s.
Proof.
  unfold started_well. destruct r as [[status [sv|]]|]; try done.
  intros [Hok Hn%Z.ltb_lt]%andb_true_iff. exists status, sv. split_and!; [done..|].
  destruct (map_choose (sessions_ (srv_engine sv))) as (id & s & Hs); [|by exists id, s].
  intros E. rewrite E, map_size_empty in Hn. lia.
Qed.

Lemma restart_new_incarnation_witness :
  exists sv snapshot id s,
    (load read_fine read_fine (fresh_store coordinator1) submitted_disk).1 = Val snapshot /\
    sessions_ (srv_engine sv) !! id = Some s /\
    restored_table (snap_sessions snapshot) (srv_engine sv) /\ fenced_off s.
Proof.
  destruct (started_well_cases _ calm_start_well) as (status & sv & Hs & Hok & id & s & Hid).
  destruct (restart_new_incarnation calm_start coordinator1 submitted_disk status sv Hs Hok eq_refl
    submitted_has_state) as (snapshot & Hl & _ & _ & Hr & Hf & _).
  exists sv, snapshot, id, s. exact (conj Hl (conj Hid (conj Hr (Hf id s Hid)))).
Defined.
