(* ===== verification/ThreadsProps.v ===== *)
(** * ThreadsProps: the coordinator's threads

    The tasks of [Threads] are the handlers of [Service], cut at their critical
    sections: a handler that is not interrupted does exactly what [dispatch] does. *)

From stdpp Require Import base gmap list strings relations.
From Stdlib Require Import ZArith Lia.
From S2P Require Import Prelude Status Ids Bytes Hash Enums Model Fence Shaper.
From S2P Require Import EngineState EngineAuthority EngineAdmission EngineLifecycle EngineEvidence.
From S2P Require Import EngineInspect Wire Codec Protocol ChannelProps Snapshot Store StoreProps Service.
From S2P Require Import ServiceProps Scenario Threads.

#[local] Open Scope Z_scope.

(** ** One thread alone *)

Section alone.
Context {S : Type} `{ByteStream S}.

Lemma run_refuse_status mo status reason (c : Conn S) :
  run_task mo (refuse_status status reason) c = fail_status status reason c.
Proof. unfold refuse_status, fail_status. cbn [run_task]. by destruct (fail _ _ _ _). Qed.
Lemma run_refuse mo code detail reason (c : Conn S) :
  run_task mo (Refuse code detail reason Finish) c = fail code detail reason c.
Proof. cbn [run_task]. by destruct (fail _ _ _ _). Qed.
Lemma run_answer mo r (c : Conn S) : run_task mo (Answer r Finish) c = send_reply r c.
Proof. cbn [run_task]. by destruct (send_reply _ _). Qed.
Lemma run_read {A} mo (f : Engine -> A) k (c : Conn S) :
  run_task mo (Read f k) c = run_task mo (k (f (srv_engine (cn_server c)))) c.
Proof. done. Qed.
Lemma run_save_then mo label t (c : Conn S) :
  run_task mo (save_then label t) c = with_durable mo label (run_task mo t) c.
Proof.
  unfold save_then, with_durable. cbn [run_task]. destruct (service_persist _ _ _) as [d sv].
  destruct (negb _); [apply run_refuse_status|done].
Qed.
Lemma run_decoded {T} mo limits (dec : T -> Dec T) initial message k (h : T -> Handler S) c :
  limits = cc_limits (srv_config (cn_server c)) -> (forall r, run_task mo (k r) c = h r c) ->
  run_task mo (decoded limits dec initial message k) c = with_request dec initial message h c.
Proof.
  intros -> Hk. unfold decoded, with_request.
  destruct (decode_payload _ _ _ _); [apply Hk|apply run_refuse_status].
Qed.
Lemma run_mutate {A} mo (cl : Call A) k (h : A -> Handler S) c :
  (forall a c, run_task mo (k a) c = h a c) ->
  run_task mo (Mutate cl k) c = with_engine (call cl (mo_now mo)) h c.
Proof. intros Hk. cbn [run_task]. unfold with_engine. destruct (call _ _ _). apply Hk. Qed.
Lemma run_finish_command mo label status (c : Conn S) :
  run_task mo (finish_command_task label status) c = finish_command mo label status c.
Proof.
  unfold finish_command_task, finish_command.
  destruct (negb _); [apply run_refuse_status|]. rewrite run_save_then. unfold with_durable.
  destruct (service_persist _ _ _). destruct (negb _); [done|apply run_answer].
Qed.
Lemma run_finish_decision mo label decision (c : Conn S) :
  run_task mo (finish_decision_task label decision) c = finish_decision mo label decision c.
Proof.
  destruct decision; [|apply run_refuse_status]. cbn [finish_decision_task finish_decision].
  rewrite run_save_then. unfold with_durable.
  destruct (service_persist _ _ _). destruct (negb _); [done|apply run_answer].
Qed.
Lemma run_found {A} mo (result : Result A) reply (c : Conn S) :
  run_task mo (found_task result reply) c =
  match result with
  | Err status => fail_status status ReasonCode.SessionNotFound c
  | Val a => send_reply (reply a) c
  end.
Proof. destruct result; [apply run_answer|apply run_refuse_status]. Qed.

(** The tasks are the handlers: without another thread in between, the task of a
    message is [dispatch]. *)
Lemma dispatch_task_alone mo kind identity message (c : Conn S) :
  run_task mo (dispatch_task (cc_limits (srv_config (cn_server c))) kind identity message) c =
  dispatch mo kind identity message c.
Proof.
  unfold dispatch_task, dispatch. destruct (msg_type message); try apply (run_refuse mo).
  all: try (apply run_decoded; [done|intros r];
            first [destruct (negb _); [apply (run_refuse mo)|]|idtac];
            apply (run_mutate mo); intros a c'; first [apply run_finish_command|apply run_finish_decision]).
  - apply run_decoded; [done|intros r]. destruct (negb _); [apply (run_refuse mo)|].
    apply (run_mutate mo). intros [o|status] c'; [|apply run_refuse_status]. cbn [wave_task].
    destruct (wo_granted o); [|apply run_answer]. rewrite run_save_then. unfold with_durable.
    destruct (service_persist _ _ _). destruct (negb _); [done|apply run_answer].
  - apply run_decoded; [done|intros r]. rewrite run_read, run_found. by destruct (view_session _ _).
  - apply run_decoded; [done|intros r]. rewrite run_read. apply run_answer.
  - rewrite run_read. apply run_answer.
  - apply run_decoded; [done|intros r]. rewrite run_read, run_found. by destruct (explain _ _).
  - rewrite run_read. apply run_answer.
  - unfold handle_shutdown. destruct (_ && _); [apply (run_refuse mo)|].
    unfold shutdown_task. cbn [run_task]. unfold with_engine. destruct (call _ _ _) as [st e] eqn:E.
    cbn in E. rewrite E. destruct (service_persist _ _ _). cbn [send_reply]. by destruct (respond _ _).
Qed.

(** [n] turns of the handler thread [w]. *)
Definition solo (n w : nat) (mo : Moment) : list (Turn S) := repeat (WorkerTurn w mo) n.

(** From [c], turns of [w] alone lead to the server and the channel of [cn], with
    [w] in [phase] and everything else as it was. *)
Definition solo_reaches (mo : Moment) (w : nat) (c : Coordinator S) (cn : Conn S) (phase : Phase) : Prop :=
  exists n c' wk', run_turns (solo n w mo) c = Some c' /\ co_workers c' = <[w := wk']> (co_workers c) /\
    co_server c' = cn_server cn /\ wk_channel wk' = cn_channel cn /\ wk_phase wk' = phase /\
    co_lock c' = None /\ co_acceptor c' = co_acceptor c /\ co_owner c' = co_owner c /\
    co_connections c' = co_connections c /\ co_active c' = co_active c.

Lemma lookup_set_worker (w : nat) (wk wk' : Worker S) (c : Coordinator S) :
  co_workers c !! w = Some wk -> co_workers (set_worker w wk' c) !! w = Some wk'.
Proof. intros Hl. apply list_lookup_insert_eq. by eapply lookup_lt_Some. Qed.

(** The same threads in the same places, but for the handlers. *)
Definition same_rest (c c' : Coordinator S) : Prop :=
  co_workers c' = co_workers c /\ co_acceptor c' = co_acceptor c /\ co_owner c' = co_owner c /\
  co_connections c' = co_connections c /\ co_active c' = co_active c.

Lemma solo_next mo w c c0 wk1 cn phase :
  worker_turn mo w c = Some (set_worker w wk1 c0) -> same_rest c c0 ->
  solo_reaches mo w (set_worker w wk1 c0) cn phase -> solo_reaches mo w c cn phase.
Proof.
  intros Ht (Hw & ? & ? & ? & ?) (n & c' & wk' & Hr & Hw' & ? & ? & ? & ? & ? & ? & ? & ?).
  exists (Datatypes.S n), c', wk'. unfold solo in *. cbn [repeat run_turns turn]. rewrite Ht.
  cbn in *. rewrite list_insert_insert_eq, Hw in Hw'. split_and!; congruence.
Qed.
Lemma solo_lock mo w c c1 cn phase :
  worker_turn mo w c = Some c1 -> same_rest c c1 ->
  solo_reaches mo w c1 cn phase -> solo_reaches mo w c cn phase.
Proof.
  intros Ht (Hw & ? & ? & ? & ?) (n & c' & wk' & Hr & Hw' & ? & ? & ? & ? & ? & ? & ? & ?).
  exists (Datatypes.S n), c', wk'. unfold solo in *. cbn [repeat run_turns turn]. rewrite Ht.
  rewrite Hw in Hw'. split_and!; congruence.
Qed.

Ltac take_turn Hw Hp :=
  unfold worker_turn; rewrite Hw, Hp; cbn [task_turn].

Lemma run_task_turns mo w next t : forall c wk status cn,
  co_workers c !! w = Some wk -> wk_phase wk = Running t next -> co_lock c = None ->
  run_task mo t (mkConn (co_server c) (wk_channel wk)) = (status, cn) ->
  solo_reaches mo w c cn (next_phase next status).
Proof.
  induction t as [A cl k IH|A f k IH|label k IH|r k IH|code detail reason k IH|k IH|fin];
    intros c wk status cn Hw Hp Hl; cbn [run_task cn_server cn_channel].
  - unfold with_engine. cbn [cn_server].
    destruct (call cl (mo_now mo) (srv_engine (co_server c))) as [a e] eqn:E. intros Hr.
    eapply solo_next; [take_turn Hw Hp; rewrite E; reflexivity|done|].
    eapply IH; [by eapply lookup_set_worker|reflexivity|exact Hl|exact Hr].
  - intros Hr. eapply solo_next; [take_turn Hw Hp; reflexivity|done|].
    eapply IH; [by eapply lookup_set_worker|reflexivity|exact Hl|exact Hr].
  - unfold service_persist. intros Hr. destruct (persisting (co_server c)) eqn:Ep.
    2: { eapply solo_next; [take_turn Hw Hp; rewrite Ep; reflexivity|done|].
         eapply IH; [by eapply lookup_set_worker|reflexivity|exact Hl|].
         unfold persisting in Ep. destruct (srv_store _); [|exact Hr]. by rewrite Ep in Hr. }
    eapply solo_lock.
    { take_turn Hw Hp. rewrite Ep. unfold held_by. rewrite Hl. cbn [negb]. unfold take_lock.
      rewrite Hl. reflexivity. }
    { done. }
    set (c1 := c <| co_lock := _ |>). pose proof Ep as Ep'. unfold persisting in Ep'.
    destruct (srv_store (co_server c)) as [st|] eqn:Est; [|done]. rewrite Ep' in Hr. cbn [negb] in Hr.
    destruct (append _ _ _ _ _ _) as [[d st'] disk'] eqn:Ea in Hr.
    eapply solo_next.
    { unfold worker_turn. change (co_workers c1) with (co_workers c). rewrite Hw, Hp. cbn [task_turn].
      change (co_server c1) with (co_server c). rewrite Ep. cbn [negb]. unfold held_by, write_locked.
      cbn [co_lock c1 upd ho_thread]. rewrite bool_decide_true by done.
      change (co_server c1) with (co_server c). rewrite Est. cbn [ho_snapshot].
      rewrite Ea. reflexivity. }
    { done. }
    eapply IH; [by eapply lookup_set_worker|reflexivity|reflexivity|exact Hr].
  - intros Hr. destruct (send_reply _ _) as [sent cn1] eqn:E in Hr.
    eapply solo_next; [take_turn Hw Hp; unfold on_channel; rewrite E; reflexivity|done|].
    eapply IH; [by eapply lookup_set_worker|reflexivity|exact Hl|]. by destruct cn1.
  - intros Hr. destruct (fail _ _ _ _) as [sent cn1] eqn:E in Hr.
    eapply solo_next; [take_turn Hw Hp; unfold on_channel; rewrite E; reflexivity|done|].
    eapply IH; [by eapply lookup_set_worker|reflexivity|exact Hl|]. by destruct cn1.
  - intros Hr. eapply solo_next; [take_turn Hw Hp; reflexivity|done|].
    eapply IH; [by eapply lookup_set_worker|reflexivity|exact Hl|exact Hr].
  - intros [= <- <-]. exists 1%nat. do 2 eexists. split; [cbn; take_turn Hw Hp; reflexivity|]. done.
Qed.

(** The tasks are the handlers: a message handled without interruption is [dispatch]: from a handler that
    has received a message, with the store's lock free, its own turns lead to
    exactly the server and the channel [dispatch] gives, and to the next test of
    its loop or to its end; no other thread has moved. *)
Theorem uninterrupted_message mo w (c : Coordinator S) wk kind identity message channel :
  co_workers c !! w = Some wk -> wk_phase wk = Listening kind identity -> co_lock c = None ->
  receive (wk_channel wk) = (Val message, channel) ->
  let '(status, cn) := dispatch mo kind identity message
                         (with_server note_message (mkConn (co_server c) channel)) in
  solo_reaches mo w c cn (next_phase (ThenPoll kind identity) status).
Proof.
  intros Hw Hp Hl Hr. destruct (dispatch _ _ _ _ _) as [status cn] eqn:E.
  eapply solo_next; [unfold worker_turn; rewrite Hw, Hp, Hr; reflexivity|done|].
  eapply run_task_turns; [by eapply lookup_set_worker|reflexivity|exact Hl|].
  rewrite <-dispatch_task_alone in E. exact E.
Qed.
End alone.

(** ** Witness *)

(** A coordinator with one handler, which waits for a message; the peer has
    submitted the request of [Scenario]. *)
Definition waiting_channel : MessageChannel Pipe :=
  channel_open (mkPipe [pipe_written (ch_socket
    (send MessageType.SubmitSession submit_payload1 (channel_open (mkPipe [] []))).2)] []).
Definition waiting_worker : Worker Pipe := mkWorker waiting_channel (Listening ClientKind.Sender "agent") 0.
Definition waiting1 : Coordinator Pipe :=
  mkCoordinator server1 [waiting_worker] [0%nat] 1 AccLoop OwnWaiting None [engine1] 1.
Definition waiting_message : Message :=
  match (receive waiting_channel).1 with Val m => m | Err _ => submit_message [] end.
Lemma waiting_receives : receive waiting_channel = (Val waiting_message, (receive waiting_channel).2).
Proof. vm_compute. reflexivity. Qed.

Lemma uninterrupted_message_witness :
  let '(status, cn) := dispatch (calm 1) ClientKind.Sender "agent" waiting_message
    (with_server note_message (mkConn (co_server waiting1) (receive waiting_channel).2)) in
  solo_reaches (calm 1) 0 waiting1 cn (next_phase (ThenPoll ClientKind.Sender "agent") status).
Proof.
  exact (uninterrupted_message (calm 1) 0 waiting1 waiting_worker ClientKind.Sender "agent" waiting_message
    (receive waiting_channel).2 eq_refl eq_refl eq_refl waiting_receives).
Defined.
