(* ===== verification/ThreadsInv.v ===== *)
(** * ThreadsInv: counting and joining threads

    The invariant of the coordinator's threads: the atomic counter counts the
    handlers that have not exited, every one of them is in the list of threads or
    about to be, and the owner has joined what it has gone past. *)

From stdpp Require Import base gmap list strings relations.
From Stdlib Require Import ZArith Lia.
From S2P Require Import Prelude Status Ids Bytes Hash Enums Model Fence Shaper.
From S2P Require Import EngineState EngineAuthority EngineAdmission EngineLifecycle EngineEvidence.
From S2P Require Import EngineInspect Wire Codec Protocol Snapshot Store Service Threads.

#[local] Open Scope Z_scope.

Section threads.
Context {S : Type} `{ByteStream S}.
Implicit Types (c : Coordinator S) (ws : list (Worker S)).

(** ** Runs *)

Definition step (c c' : Coordinator S) : Prop := exists x, turn x c = Some c'.
(** The states of the threads of a service started with [sv]. *)
Definition threads_of (sv : Server) (c : Coordinator S) : Prop := rtc step (launch sv) c.

Lemma run_turns_rtc xs c c' : run_turns xs c = Some c' -> rtc step c c'.
Proof.
  revert c. induction xs as [|x xs IH]; intros c; cbn; [by intros [= ->]|].
  destruct (turn x c) eqn:E; [|done]. intros Hr. eapply rtc_l; [by exists x|by apply IH].
Qed.
Lemma threads_of_inv (P : Coordinator S -> Prop) sv c :
  P (launch sv) -> (forall c c', P c -> step c c' -> P c') -> threads_of sv c -> P c.
Proof. intros H0 Hs. apply (rtc_ind_r (fun c => P c)); [done|]. intros c1 c2 _ Hst Hc. by eapply Hs. Qed.

(** ** Live handlers *)

Definition exited (p : Phase) : bool := match p with Exited => true | _ => false end.
Definition live ws (w : nat) : bool :=
  match ws !! w with Some wk => negb (exited (wk_phase wk)) | None => false end.
Definition alive ws (ids : list nat) : nat := length (List.filter (live ws) ids).
Definition handlers (c : Coordinator S) : nat := alive (co_workers c) (seq 0 (length (co_workers c))).

Lemma alive_ext ws ws' ids :
  (forall w, w ∈ ids -> live ws' w = live ws w) -> alive ws' ids = alive ws ids.
Proof.
  intros He. unfold alive. f_equal. induction ids as [|w ids IH]; [done|]. cbn.
  rewrite (He w) by left. destruct (live ws w); [f_equal|]; apply IH; intros; apply He; by right.
Qed.
Lemma alive_le ws ws' ids :
  (forall w, live ws' w = true -> live ws w = true) -> (alive ws' ids <= alive ws ids)%nat.
Proof.
  intros He. unfold alive. induction ids as [|w ids IH]; [done|]. cbn.
  specialize (He w). destruct (live ws' w); [rewrite He by done|destruct (live ws w)]; cbn; lia.
Qed.
Lemma alive_exit ws ws' w ids :
  NoDup ids -> w ∈ ids -> live ws w = true -> live ws' w = false ->
  (forall v, v <> w -> live ws' v = live ws v) -> alive ws ids = Datatypes.S (alive ws' ids).
Proof.
  intros Hn Hin Hw Hw' He. induction ids as [|v ids IH]; [by apply not_elem_of_nil in Hin|].
  apply NoDup_cons in Hn as [Hv Hn]. apply elem_of_cons in Hin as [->|Hin].
  - unfold alive. cbn. rewrite Hw, Hw'. cbn. f_equal.
    apply (alive_ext ws' ws). intros u Hu. symmetry. apply He. by intros ->.
  - assert (v <> w) as Hvw by (by intros ->). specialize (IH Hn Hin). unfold alive in *. cbn.
    rewrite (He v) by done. destruct (live ws v); cbn; lia.
Qed.
Lemma alive_app ws l l' : alive ws (l ++ l') = (alive ws l + alive ws l')%nat.
Proof. unfold alive. by rewrite List.filter_app, length_app. Qed.
Lemma alive_length ws l : (alive ws l <= length l)%nat.
Proof. unfold alive. induction l as [|w l IH]; [done|]. cbn. destruct (live ws w); cbn; lia. Qed.
Lemma live_range ws w : live ws w = true -> (w < length ws)%nat.
Proof. unfold live. destruct (ws !! w) eqn:E; [|done]. intros _. by eapply lookup_lt_Some. Qed.

(** Different threads of the table are at most as many as are live. *)
Lemma alive_listed ws ids : NoDup ids -> (alive ws ids <= alive ws (seq 0 (length ws)))%nat.
Proof.
  intros Hn. unfold alive. apply submseteq_length, NoDup_submseteq.
  - apply NoDup_ListNoDup, List.NoDup_filter. by apply NoDup_ListNoDup.
  - intros w Hw. apply list_elem_of_In, filter_In in Hw as [_ Hl].
    apply list_elem_of_In, filter_In. split; [|done]. apply in_seq. apply live_range in Hl. lia.
Qed.

Lemma live_insert ws w wk v :
  (w < length ws)%nat ->
  live (<[w := wk]> ws) v = if decide (v = w) then negb (exited (wk_phase wk)) else live ws v.
Proof.
  intros Hw. unfold live. destruct (decide (v = w)) as [->|Hv].
  - by rewrite list_lookup_insert_eq.
  - by rewrite list_lookup_insert_ne.
Qed.
Lemma live_snoc ws wk v :
  live (ws ++ [wk]) v = if decide (v = length ws) then negb (exited (wk_phase wk)) else live ws v.
Proof.
  unfold live. destruct (decide (v = length ws)) as [->|Hv].
  - by rewrite list_lookup_middle.
  - destruct (Nat.lt_ge_cases v (length ws)).
    + by rewrite lookup_app_l.
    + rewrite lookup_app_r, (lookup_ge_None_2 ws) by lia.
      by destruct (v - length ws)%nat eqn:E; [lia|].
Qed.

(** ** What a turn of a handler changes *)

(** The server keeps its configuration and its store, and stays stopped. *)
Definition server_step (sv sv' : Server) : Prop :=
  srv_config sv' = srv_config sv /\ persisting sv' = persisting sv /\
  (srv_stop sv = true -> srv_stop sv' = true) /\
  (srv_stop_requested sv = true -> srv_stop_requested sv' = true).
Lemma server_step_refl sv : server_step sv sv.
Proof. by unfold server_step. Qed.

Lemma persisting_store sv st disk :
  persisting sv = true -> persisting (sv <| srv_store := Some st |> <| srv_disk := disk |>) = true.
Proof. unfold persisting. cbn. by destruct (srv_store sv). Qed.
Lemma upd_stats_step f sv : server_step sv (upd_stats f sv).
Proof. by unfold server_step. Qed.
Lemma fail_server code detail reason (cn : Conn S) :
  cn_server (fail code detail reason cn).2 = note_protocol_error (cn_server cn).
Proof. unfold fail, respond, send_payload. by destruct (send _ _ _). Qed.
Lemma reply_server r (cn : Conn S) : cn_server (send_reply r cn).2 = cn_server cn.
Proof. destruct r; cbn; unfold respond, send_payload; by destruct (send _ _ _). Qed.

(** [w] takes a step that is not its last: only its own entry, the server, the
    lock and the history change. *)
Record handler_step (w : nat) (wk : Worker S) (c c' : Coordinator S) : Prop := {
  hs_before : exited (wk_phase wk) = false;
  hs_workers : exists wk', co_workers c' = <[w := wk']> (co_workers c) /\ exited (wk_phase wk') = false;
  hs_connections : co_connections c' = co_connections c;
  hs_active : co_active c' = co_active c;
  hs_acceptor : co_acceptor c' = co_acceptor c;
  hs_owner : co_owner c' = co_owner c;
  hs_server : server_step (co_server c) (co_server c')
}.

Lemma handler_set w wk phase wk' sv c c' :
  wk_phase wk = phase -> exited phase = false -> exited (wk_phase wk') = false ->
  co_workers c' = co_workers c -> co_connections c' = co_connections c -> co_active c' = co_active c ->
  co_acceptor c' = co_acceptor c -> co_owner c' = co_owner c -> co_server c' = sv ->
  server_step (co_server c) sv -> handler_step w wk c (set_worker w wk' c').
Proof.
  intros Hp He He' Hw ? ? ? ? Hsv Hs. split; cbn; try done; [by rewrite Hp| |by rewrite Hsv].
  exists wk'. by rewrite Hw.
Qed.

Lemma next_not_exited next status : exited (next_phase next status) = false.
Proof. destruct next; cbn; repeat case_match; done. Qed.
Lemma first_not_exited config first : exited (first_phase config first) = false.
Proof. unfold first_phase. repeat case_match; done. Qed.
Lemma message_not_exited config kind identity m : exited (message_phase config kind identity m) = false.
Proof. unfold message_phase. repeat case_match; done. Qed.

Lemma write_locked_rest op holder c :
  let c' := (write_locked op holder c).2 in
  co_workers c' = co_workers c /\ co_connections c' = co_connections c /\ co_active c' = co_active c /\
  co_acceptor c' = co_acceptor c /\ co_owner c' = co_owner c /\ co_history c' = co_history c /\
  co_lock c' = None /\ srv_engine (co_server c') = srv_engine (co_server c) /\
  server_step (co_server c) (co_server c').
Proof.
  unfold write_locked. destruct (srv_store (co_server c)) as [st|] eqn:Est; cbn; [|done].
  destruct (op _ _ _) as [[status st'] disk']. cbn. split_and!; try done.
  unfold server_step, persisting. cbn. rewrite Est. by destruct (Status_ok status).
Qed.

Lemma task_handler mo w wk t next c c' :
  co_workers c !! w = Some wk -> wk_phase wk = Running t next -> task_turn mo w wk t next c = Some c' ->
  handler_step w wk c c'.
Proof.
  intros Hw Hp. destruct t as [A cl k|A f k|label k|r k|code detail reason k|k|fin]; cbn [task_turn].
  - destruct (call _ _ _) as [a e]. intros [= <-]. eapply handler_set; done.
  - intros [= <-]. eapply handler_set; done.
  - destruct (negb _); [intros [= <-]; by eapply handler_set|].
    destruct (held_by _ c) as [holder|].
    + pose proof (write_locked_rest (append (mo_append mo) (mo_persist mo) label) holder c) as Hr.
      destruct (write_locked _ _ _) as [status c1]. cbn in Hr. intros [= <-].
      destruct Hr as (? & ? & ? & ? & ? & _ & _ & _ & ?). eapply handler_set; done.
    + unfold take_lock. destruct (co_lock c); [done|]. intros [= <-].
      split; cbn; try done; [by rewrite Hp|]. exists wk. rewrite list_insert_id by done. by rewrite Hp.
  - intros [= <-]. unfold on_channel. pose proof (reply_server r (mkConn (co_server c) (wk_channel wk))) as Hs.
    destruct (send_reply _ _) as [sent cn]. cbn in Hs. eapply handler_set; try done; by rewrite Hs.
  - intros [= <-]. unfold on_channel.
    pose proof (fail_server code detail reason (mkConn (co_server c) (wk_channel wk))) as Hs.
    destruct (fail _ _ _ _) as [sent cn]. cbn in Hs. eapply handler_set; try done; by rewrite Hs.
  - intros [= <-]. by eapply handler_set.
  - intros [= <-]. eapply handler_set; try done. apply next_not_exited.
Qed.

(** A turn of a handler: a step of it, or its exit. *)
Lemma worker_cases mo w c c' :
  worker_turn mo w c = Some c' -> exists wk, co_workers c !! w = Some wk /\
    (handler_step w wk c c' \/
     (wk_phase wk = Done /\
      c' = set_phase w wk Exited (c <| co_active := co_active c - 1 |>))).
Proof.
  unfold worker_turn. destruct (co_workers c !! w) as [wk|] eqn:Hw; [|done]. intros Ht. exists wk.
  split; [done|]. destruct (wk_phase wk) as [|t next|kind identity|kind identity| | |] eqn:Hp.
  - left. destruct (receive _) as [first channel]. injection Ht as <-.
    eapply handler_set; try done; [apply first_not_exited|].
    destruct first, (first_phase _ _) as [|? []| | | | |]; done.
  - left. by eapply task_handler.
  - left. injection Ht as <-. eapply handler_set; try done. cbn. by destruct (srv_stop _).
  - left. destruct (receive _) as [m channel]. injection Ht as <-.
    eapply handler_set; try done; [apply message_not_exited|]. by destruct m.
  - left. injection Ht as <-. by eapply handler_set.
  - right. by injection Ht as <-.
  - done.
Qed.

(** ** The invariant *)

Context (cfg : CoordinatorConfig).
Definition bound : nat := Z.to_nat (connection_bound cfg).

Definition spawning (a : Acceptor S) : nat := match a with AccSpawn _ => 1 | _ => 0 end.
(** The list of threads with the one the accept thread is about to add. *)
Definition listed c : list nat :=
  co_connections c ++ match co_acceptor c with AccPush w => [w] | _ => [] end.
Definition reap_ok c : Prop :=
  match co_acceptor c with
  | AccReap _ i => (i + alive (co_workers c) (drop i (co_connections c)) <= bound)%nat
  | AccBound _ | AccSpawn _ | AccPush _ => (length (co_connections c) <= bound)%nat
  | _ => True
  end.
Definition joined c : Prop :=
  match co_owner c with
  | OwnJoin i => co_acceptor c = AccEnded /\
      forall j w, (j < i)%nat -> co_connections c !! j = Some w -> live (co_workers c) w = false
  | OwnFinal | OwnEnded _ =>
      co_acceptor c = AccEnded /\ co_connections c = [] /\ forall w, live (co_workers c) w = false
  | _ => True
  end.

Record counted c : Prop := {
  th_config : srv_config (co_server c) = cfg;
  th_active : co_active c = Z.of_nat (handlers c + spawning (co_acceptor c));
  th_bound : (handlers c + spawning (co_acceptor c) <= bound)%nat;
  th_nodup : NoDup (listed c);
  th_range : forall w, w ∈ listed c -> (w < length (co_workers c))%nat;
  th_listed : forall w, live (co_workers c) w = true -> w ∈ listed c;
  th_length : (length (co_connections c) <= bound + 1)%nat;
  th_reap : reap_ok c;
  th_joined : joined c
}.

Lemma counted_launch sv : srv_config sv = cfg -> counted (launch sv).
Proof.
  intros Hc. split; try done; try (cbn; lia); [apply NoDup_nil_2|by intros w ?%not_elem_of_nil].
Qed.

Lemma joined_fewer c c' :
  joined c -> co_connections c' = co_connections c -> co_acceptor c' = co_acceptor c ->
  co_owner c' = co_owner c ->
  (forall w, live (co_workers c) w = false -> live (co_workers c') w = false) -> joined c'.
Proof.
  unfold joined. intros Hj -> -> -> Hf. destruct (co_owner c); try done; destruct_and?; eauto 6.
Qed.

(** Steps that touch neither the handlers, the accept thread, the list nor the
    owner's place. *)
Lemma counted_same c c' :
  counted c -> srv_config (co_server c') = srv_config (co_server c) ->
  (forall w, live (co_workers c') w = live (co_workers c) w) ->
  length (co_workers c') = length (co_workers c) ->
  co_connections c' = co_connections c -> co_active c' = co_active c ->
  co_acceptor c' = co_acceptor c -> co_owner c' = co_owner c -> counted c'.
Proof.
  intros [Hc Ha Hb Hn Hr Hl Hlen Hreap Hj] Hc' Hw Hlw Hcs Hac Hacc Ho.
  assert (forall ids, alive (co_workers c') ids = alive (co_workers c) ids) as He
    by (intros ids; by apply alive_ext).
  unfold handlers, listed, reap_ok in *.
  split; unfold handlers, listed, reap_ok; rewrite ?He, ?Hlw, ?Hcs, ?Hacc, ?Hac, ?Hc', ?Ho; try done.
  - intros w. rewrite Hw. apply Hl.
  - destruct (co_acceptor c); rewrite ?He; done.
  - apply (joined_fewer c); try done. intros w. by rewrite Hw.
Qed.

Lemma counted_handler w wk c c' :
  counted c -> co_workers c !! w = Some wk -> handler_step w wk c c' -> counted c'.
Proof.
  intros Hi Hw [Hb (wk' & Hws & He) Hcs Hac Hacc Ho (Hc & _)].
  assert (w < length (co_workers c))%nat as Hlt by (by eapply lookup_lt_Some).
  apply (counted_same c); try done; rewrite Hws; [|apply length_insert].
  intros v. rewrite live_insert by done. case_decide as Hv; [|done]. subst v.
  unfold live. by rewrite Hw, He, Hb.
Qed.

(** The threads that are live afterwards were live before. *)
Lemma counted_fewer c c' :
  counted c -> srv_config (co_server c') = srv_config (co_server c) ->
  (forall w, live (co_workers c') w = true -> live (co_workers c) w = true) ->
  length (co_workers c') = length (co_workers c) ->
  co_connections c' = co_connections c -> co_acceptor c' = co_acceptor c -> co_owner c' = co_owner c ->
  co_active c' = Z.of_nat (handlers c' + spawning (co_acceptor c)) -> counted c'.
Proof.
  intros [Hc Ha Hb Hn Hr Hl Hlen Hreap Hj] Hc' Hw Hlw Hcs Hacc Ho Hac.
  assert (forall ids, (alive (co_workers c') ids <= alive (co_workers c) ids)%nat) as He
    by (intros ids; by apply alive_le).
  assert (forall w, live (co_workers c) w = false -> live (co_workers c') w = false) as Hf.
  { intros w Hfw. specialize (Hw w). destruct (live (co_workers c') w); [|done].
    by rewrite Hw in Hfw. }
  unfold listed, reap_ok in *.
  split; unfold listed, reap_ok; rewrite ?Hlw, ?Hcs, ?Hacc, ?Hc', ?Ho; try done.
  - unfold handlers in *. specialize (He (seq 0 (length (co_workers c')))). rewrite Hlw in *. lia.
  - intros w Hlv. by apply Hl, Hw.
  - destruct (co_acceptor c) as [| |s i| | | |]; try done.
    specialize (He (drop i (co_connections c))). lia.
  - by apply (joined_fewer c).
Qed.

Lemma counted_exit w wk c :
  counted c -> co_workers c !! w = Some wk -> wk_phase wk = Done ->
  counted (set_phase w wk Exited (c <| co_active := co_active c - 1 |>)).
Proof.
  intros Hi Hw Hp. assert (w < length (co_workers c))%nat as Hlt by (by eapply lookup_lt_Some).
  unfold set_phase. set (wk' := wk <| wk_phase := Exited |>).
  assert (forall v, live (<[w := wk']> (co_workers c)) v =
            if decide (v = w) then false else live (co_workers c) v) as Hv
    by (intros v; by rewrite live_insert).
  assert (live (co_workers c) w = true) as Hlw by (unfold live; by rewrite Hw, Hp).
  clearbody wk'. apply (counted_fewer c); try done; cbn.
  - intros v. rewrite Hv. by case_decide.
  - apply length_insert.
  - rewrite (th_active c Hi). unfold handlers. cbn. rewrite length_insert.
    rewrite (alive_exit (co_workers c) (<[w := wk']> (co_workers c)) w (seq 0 (length (co_workers c))));
      [unfold alive; lia|apply NoDup_seq|apply elem_of_seq; lia|done| |].
    + rewrite Hv. by rewrite decide_True.
    + intros v Hne. rewrite Hv. by rewrite decide_False.
Qed.

Lemma counted_worker mo w c c' : counted c -> worker_turn mo w c = Some c' -> counted c'.
Proof.
  intros Hi Ht. apply worker_cases in Ht as (wk & Hw & [Hs | [Hp ->]]).
  - by eapply counted_handler.
  - by apply counted_exit.
Qed.

(** A step of the accept thread within its loop that leaves the list alone. *)
Lemma counted_accept c a sv :
  counted c -> srv_config sv = srv_config (co_server c) -> co_acceptor c <> AccEnded ->
  spawning a = spawning (co_acceptor c) ->
  (forall w, co_acceptor c <> AccPush w) -> (forall w, a <> AccPush w) ->
  reap_ok (c <| co_acceptor := a |>) ->
  counted (c <| co_server := sv |> <| co_acceptor := a |>).
Proof.
  intros [Hc Ha Hb Hn Hr Hl Hlen Hreap Hj] Hsv Hne Hsp Hp Hp' Hre.
  assert (listed (c <| co_server := sv |> <| co_acceptor := a |>) = listed c) as El.
  { unfold listed. cbn. destruct a, (co_acceptor c); naive_solver. }
  split; rewrite ?El; cbn; rewrite ?Hsp; try done; [by rewrite Hsv|].
  unfold joined in *. cbn. destruct (co_owner c); try done; by destruct Hj.
Qed.

Lemma counted_reap_start c socket sv :
  counted c -> srv_config sv = srv_config (co_server c) -> co_acceptor c = AccWaiting ->
  counted (c <| co_server := sv |> <| co_acceptor := AccReap socket 0 |>).
Proof.
  intros Hi Hsv Ha. apply counted_accept; try done; rewrite ?Ha; try done.
  unfold reap_ok. cbn. rewrite drop_0. pose proof (th_bound c Hi) as Hb. unfold handlers in Hb.
  pose proof (alive_listed (co_workers c) (co_connections c)) as Hal.
  pose proof (th_nodup c Hi) as Hn. unfold listed in Hn. apply NoDup_app in Hn as (Hn & _ & _).
  specialize (Hal Hn). unfold alive in *. lia.
Qed.

Lemma alive_drop c i w :
  co_connections c !! i = Some w ->
  alive (co_workers c) (drop i (co_connections c)) =
  ((if live (co_workers c) w then 1 else 0) + alive (co_workers c) (drop (Datatypes.S i) (co_connections c)))%nat.
Proof. intros Hi. rewrite (drop_S _ _ _ Hi). unfold alive. cbn. by destruct (live _ w). Qed.

Lemma counted_reap_drop c socket i w :
  counted c -> co_acceptor c = AccReap socket i -> co_connections c !! i = Some w ->
  live (co_workers c) w = false ->
  counted (c <| co_connections := delete i (co_connections c) |> <| co_acceptor := AccReap socket i |>).
Proof.
  intros [Hc Ha Hb Hn Hr Hl Hlen Hreap Hj] Hacc Hi Hf.
  pose proof (alive_drop c i w Hi) as Hd. rewrite Hf in Hd.
  unfold listed, reap_ok, joined, handlers in *. rewrite Hacc in *. rewrite app_nil_r in *.
  pose proof (delete_Permutation (co_connections c) i w Hi) as Hperm.
  assert ((i < length (co_connections c))%nat) as Hlt by (by eapply lookup_lt_Some).
  split; unfold listed, reap_ok, joined, handlers; cbn -[alive live delete]; rewrite ?app_nil_r; try done.
  - rewrite Hperm in Hn. by apply NoDup_cons in Hn as [_ Hn].
  - intros v Hv. apply Hr. by eapply list_elem_of_delete_inv.
  - intros v Hv. pose proof (Hl v Hv) as Hin. rewrite Hperm in Hin.
    apply elem_of_cons in Hin as [->|Hin]; [congruence|done].
  - rewrite length_delete by (by rewrite Hi). lia.
  - rewrite delete_take_drop, drop_app_ge by (rewrite length_take; lia).
    rewrite length_take, Nat.min_l by lia. rewrite Nat.sub_diag, drop_0. lia.
  - destruct (co_owner c); try done; by destruct Hj.
Qed.

Lemma counted_reap_turn c c' socket i accepted :
  counted c -> co_acceptor c = AccReap socket i -> accept_turn accepted c = Some c' -> counted c'.
Proof.
  intros Hi Ea. unfold accept_turn. rewrite Ea.
  pose proof (th_reap c Hi) as Hre. unfold reap_ok in Hre. rewrite Ea in Hre.
  destruct (co_connections c !! i) as [w|] eqn:Ew.
  - pose proof (alive_drop c i w Ew) as Hd.
    assert (w < length (co_workers c))%nat as [wk Hwk]%lookup_lt_is_Some.
    { apply (th_range c Hi). unfold listed. apply elem_of_app. left. by eapply list_elem_of_lookup_2. }
    unfold phase_of. rewrite Hwk. cbn [fmap option_fmap option_map].
    destruct (exited (wk_phase wk)) eqn:Ee.
    + assert (wk_phase wk = Exited) as -> by (by destruct (wk_phase wk)). intros [= <-].
      apply (counted_reap_drop c socket i w); try done. unfold live. by rewrite Hwk, Ee.
    + assert (live (co_workers c) w = true) as Hlv by (unfold live; by rewrite Hwk, Ee).
      rewrite Hlv in Hd. intros Hg.
      assert (c' = c <| co_acceptor := AccReap socket (Datatypes.S i) |>) as ->
        by (destruct (wk_phase wk); try done; by injection Hg as <-).
      apply (counted_accept c _ (co_server c)); rewrite ?Ea; try done.
      unfold reap_ok. cbn. unfold alive in *. lia.
  - intros [= <-]. apply (counted_accept c _ (co_server c)); rewrite ?Ea; try done.
    unfold reap_ok. cbn. apply lookup_ge_None_1 in Ew. lia.
Qed.

(** [active_connections_.fetch_add(1)] below the bound. *)
Lemma counted_admit c socket :
  counted c -> co_acceptor c = AccBound socket -> co_active c < connection_bound cfg ->
  counted (c <| co_active := co_active c + 1 |> <| co_acceptor := AccSpawn socket |>).
Proof.
  intros [Hc Ha Hb Hn Hr Hl Hlen Hre Hj] Ea Hlt.
  unfold listed, reap_ok, joined, handlers in *. rewrite Ea in *. cbn [spawning] in *.
  split; unfold listed, reap_ok, joined, handlers; cbn -[alive live]; try done; try lia.
  - unfold bound. lia.
  - destruct (co_owner c); try done; by destruct Hj.
Qed.

Lemma counted_spawn c socket :
  counted c -> co_acceptor c = AccSpawn socket ->
  counted (c <| co_workers := co_workers c ++ [mkWorker (channel_open socket) Connecting 0] |>
             <| co_acceptor := AccPush (length (co_workers c)) |>).
Proof.
  intros [Hc Ha Hb Hn Hr Hl Hlen Hre Hj] Ea. set (wk := mkWorker _ _ _).
  assert (live (co_workers c ++ [wk]) (length (co_workers c)) = true) as Hnew
    by (rewrite live_snoc; by rewrite decide_True).
  assert (forall ids, (forall w, w ∈ ids -> (w < length (co_workers c))%nat) ->
    alive (co_workers c ++ [wk]) ids = alive (co_workers c) ids) as Hold.
  { intros ids Hids. apply alive_ext. intros w Hw. rewrite live_snoc. case_decide as Hd; [|done].
    apply Hids in Hw. lia. }
  assert (alive (co_workers c ++ [wk]) (seq 0 (length (co_workers c ++ [wk]))) =
          (alive (co_workers c) (seq 0 (length (co_workers c))) + 1)%nat) as Hcount.
  { rewrite length_app, seq_app, alive_app. cbn [length plus].
    rewrite Hold by (intros w Hw%elem_of_seq; lia). f_equal. unfold alive. cbn. by rewrite Hnew. }
  unfold listed, reap_ok, joined, handlers in *. rewrite Ea in *. cbn [spawning] in *.
  rewrite app_nil_r in *.
  split; unfold listed, reap_ok, joined, handlers; cbn -[alive live]; try done; try lia.
  - apply NoDup_app. split; [done|]. split; [|apply NoDup_singleton].
    intros w Hw ->%list_elem_of_singleton. apply Hr in Hw. lia.
  - intros w Hw. rewrite length_app. cbn. apply elem_of_app in Hw as [Hw%Hr| ->%list_elem_of_singleton]; lia.
  - intros w. rewrite live_snoc. case_decide as Hd.
    + intros _. apply elem_of_app. right. subst. by apply list_elem_of_singleton.
    + intros Hw. apply elem_of_app. left. by apply Hl.
  - destruct (co_owner c); try done; by destruct Hj.
Qed.

Lemma counted_push c w :
  counted c -> co_acceptor c = AccPush w ->
  counted (c <| co_connections := co_connections c ++ [w] |> <| co_acceptor := AccLoop |>).
Proof.
  intros [Hc Ha Hb Hn Hr Hl Hlen Hre Hj] Ea.
  unfold listed, reap_ok, joined, handlers in *. rewrite Ea in *. cbn [spawning] in *.
  split; unfold listed, reap_ok, joined, handlers; cbn -[alive live]; rewrite ?app_nil_r; try done.
  - rewrite length_app. cbn. lia.
  - destruct (co_owner c); try done; by destruct Hj.
Qed.

Lemma counted_accept_turn accepted c c' : counted c -> accept_turn accepted c = Some c' -> counted c'.
Proof.
  intros Hi Ht. pose proof Ht as Ht'. unfold accept_turn in Ht.
  destruct (co_acceptor c) as [| |socket i|socket|socket|w|] eqn:Ea.
  - injection Ht as <-. apply (counted_accept c _ (co_server c)); rewrite ?Ea; try done;
      by destruct (srv_stop _).
  - destruct accepted as [socket|status]; injection Ht as <-; [by apply counted_reap_start|].
    apply (counted_accept c _ (co_server c)); rewrite ?Ea; try done; by destruct (_ || _).
  - by eapply counted_reap_turn.
  - rewrite (th_config c Hi) in Ht. destruct (Z.leb_spec (connection_bound cfg) (co_active c)).
    + injection Ht as <-. apply (counted_accept c); rewrite ?Ea; done.
    + injection Ht as <-. by apply counted_admit.
  - injection Ht as <-. by eapply counted_spawn.
  - injection Ht as <-. by apply counted_push.
  - done.
Qed.

(** ** The owner *)

(** The owner moves on, with every thread where it was. *)
Lemma counted_owner c c' :
  counted c -> srv_config (co_server c') = srv_config (co_server c) -> co_workers c' = co_workers c ->
  co_connections c' = co_connections c -> co_active c' = co_active c ->
  co_acceptor c' = co_acceptor c -> joined c' -> counted c'.
Proof.
  intros [Hc Ha Hb Hn Hr Hl Hlen Hre _] Hsv Hw Hcs Hac Hacc Hj.
  unfold listed, reap_ok, handlers in *.
  split; unfold listed, reap_ok, handlers; rewrite ?Hw, ?Hcs, ?Hac, ?Hacc, ?Hsv; done.
Qed.

Lemma counted_snapshot block mo c c' k :
  counted c -> owner_snapshot block mo c k = Some c' ->
  (forall status c1, counted c1 -> co_owner c1 = co_owner c -> counted (k status c1)) -> counted c'.
Proof.
  intros Hi. unfold owner_snapshot. destruct (negb _); [intros [= <-] Hk; by apply Hk|].
  destruct (held_by block c) as [holder|].
  - pose proof (write_locked_rest (persist (mo_persist mo)) holder c) as Hr.
    destruct (write_locked _ _ _) as [status c1]. cbn in Hr.
    destruct Hr as (Hw & ? & ? & ? & Ho & _ & _ & _ & Hs & _). intros [= <-] Hk. apply Hk; [|done].
    apply (counted_same c); try done; by rewrite Hw.
  - unfold take_lock. destruct (co_lock c); [done|]. intros [= <-] _. by apply (counted_same c).
Qed.

Lemma counted_joined_all c :
  counted c -> (forall w, w ∈ co_connections c -> live (co_workers c) w = false) ->
  co_acceptor c = AccEnded -> forall w, live (co_workers c) w = false.
Proof.
  intros Hi Hall Ha w. destruct (live (co_workers c) w) eqn:E; [|done].
  pose proof (th_listed c Hi w E) as Hin. unfold listed in Hin. rewrite Ha, app_nil_r in Hin.
  apply Hall in Hin. congruence.
Qed.

Lemma counted_owner_turn mo c c' : counted c -> owner_turn mo c = Some c' -> counted c'.
Proof.
  intros Hi. pose proof (th_joined c Hi) as Hj. unfold owner_turn, joined in *.
  destruct (co_owner c) as [| | |i| |status] eqn:Eo.
  - intros Ht. eapply counted_snapshot; [exact Hi|exact Ht|]. intros status c1 H1 _.
    cbv beta. destruct (negb _); by apply (counted_owner c1).
  - destruct (_ || _); [|done]. intros [= <-]. by apply (counted_owner c).
  - destruct (co_acceptor c) eqn:Ea; try done. intros [= <-]. apply (counted_owner c); try done.
    unfold joined. cbn. split; [done|]. intros; lia.
  - destruct Hj as [Ha Hj]. destruct (co_connections c !! i) as [w|] eqn:Ew.
    + destruct (phase_of w c) as [[]|] eqn:Ep; try done. intros [= <-].
      apply (counted_owner c); try done. unfold joined. cbn. split; [done|].
      intros j v Hlt Hv. destruct (decide (j = i)) as [->|]; [|apply (Hj j v); [lia|done]].
      assert (v = w) as -> by congruence. unfold phase_of in Ep. unfold live.
      destruct (co_workers c !! w); [|done]. cbn in Ep. injection Ep as ->. done.
    + intros [= <-]. assert (forall w, live (co_workers c) w = false) as Hall.
      { apply (counted_joined_all c Hi); [|done]. intros w [j Hw]%list_elem_of_lookup.
        apply (Hj j w); [|done]. apply lookup_lt_Some in Hw. apply lookup_ge_None_1 in Ew. lia. }
      pose proof Hi as [Hc Hac Hb Hn Hr Hl Hlen Hre _]. rewrite Ha in Hac, Hb.
      split; unfold listed, joined; cbn -[live alive]; rewrite ?Ha; try done; try lia.
      * apply NoDup_nil_2.
      * by intros w ?%not_elem_of_nil.
      * intros w Hw. by rewrite Hall in Hw.
      * unfold reap_ok. cbn. by rewrite Ha.
  - intros Ht. eapply counted_snapshot; [exact Hi|exact Ht|]. intros status c1 H1 Ho.
    pose proof (th_joined c1 H1) as Hj1. unfold joined in Hj1. rewrite Ho, Eo in Hj1.
    cbv beta. destruct (negb _); by apply (counted_owner c1).
  - done.
Qed.

Lemma counted_step c c' : counted c -> step c c' -> counted c'.
Proof.
  intros Hi [[w mo|accepted|mo|] Ht]; cbn in Ht.
  - by eapply counted_worker.
  - by eapply counted_accept_turn.
  - by eapply counted_owner_turn.
  - injection Ht as <-. by apply (counted_same c).
Qed.
Lemma counted_run sv c : srv_config sv = cfg -> threads_of sv c -> counted c.
Proof.
  intros Hc. apply threads_of_inv; [by apply counted_launch|]. apply counted_step.
Qed.

(** ** What the invariant gives *)

Lemma handlers_none c : (forall w, live (co_workers c) w = false) -> handlers c = 0%nat.
Proof.
  intros Hf. unfold handlers, alive. induction (seq _ _) as [|w l IH]; [done|]. cbn. by rewrite Hf.
Qed.
Lemma all_exited c w wk :
  (forall w, live (co_workers c) w = false) -> co_workers c !! w = Some wk -> wk_phase wk = Exited.
Proof.
  intros Hf Hw. specialize (Hf w). unfold live in Hf. rewrite Hw in Hf. by destruct (wk_phase wk).
Qed.
End threads.
