(* ===== verification/ThreadsDurable.v ===== *)
(** * ThreadsDurable: durability before acknowledgement, in every interleaving

    A handler that has called the engine answers only after a snapshot exported
    since then is on the disk, whatever the other threads do in between, as long
    as every write is taken by the disk and none precedes the boot snapshot.  The
    final snapshot of an orderly shutdown is the engine's last state. *)

From stdpp Require Import base gmap list strings relations.
From Stdlib Require Import ZArith Lia.
From S2P Require Import Prelude Status Ids Bytes Hash Enums Model Fence Shaper.
From S2P Require Import EngineState EngineAuthority EngineAdmission EngineLifecycle EngineEvidence.
From S2P Require Import EngineInspect Wire Codec FrameProps Protocol Snapshot Store SnapshotCodec.
From S2P Require Import ChannelProps StoreProps Service ServiceProps Scenario Threads ThreadsInv.

#[local] Open Scope Z_scope.

(** ** Tasks that save before they acknowledge *)

(** The answers that promise the effect of a call. *)
Definition acknowledges (r : Reply) : bool :=
  match r with
  | ReplyDecision _ => true
  | ReplyWave outcome => wo_granted outcome
  | ReplyStatus payload => bool_decide (sp_code payload = ErrorCode.Ok)
  | _ => false
  end.

(** [t] acknowledges only what has been saved; [dirty] says that a call has been
    made and not saved. *)
Fixpoint safe (dirty : bool) (t : Task) : Prop :=
  match t with
  | Mutate _ k => forall a, safe true (k a)
  | Read _ k => forall a, safe dirty (k a)
  | Save label k => label_fits label /\ forall status, safe (dirty && negb (Status_ok status)) (k status)
  | Answer r k => (dirty = true -> acknowledges r = false) /\ forall status, safe dirty (k status)
  | Refuse _ _ _ k => forall status, safe dirty (k status)
  | Stop k => safe dirty k
  | Finish _ => True
  end.

Lemma safe_refuse dirty status reason : safe dirty (refuse_status status reason).
Proof. done. Qed.
Lemma safe_save_then dirty label r :
  label_fits label -> safe dirty (save_then label (Answer r Finish)).
Proof.
  intros Hl. split; [done|]. intros status. destruct (Status_ok status) eqn:E; cbn [negb].
  - rewrite andb_false_r. by split.
  - apply safe_refuse.
Qed.
Lemma safe_command dirty label status : label_fits label -> safe dirty (finish_command_task label status).
Proof.
  intros Hl. unfold finish_command_task. destruct (negb _); [done|by apply safe_save_then].
Qed.
Lemma safe_decision dirty label d : label_fits label -> safe dirty (finish_decision_task label d).
Proof. intros Hl. destruct d; [by apply safe_save_then|done]. Qed.
Lemma safe_wave dirty o : safe dirty (wave_task o).
Proof.
  destruct o as [o|]; [|done]. unfold wave_task. destruct (wo_granted o) eqn:E.
  - apply safe_save_then, label_fits_short. cbn. lia.
  - cbn. rewrite E. by split.
Qed.
Lemma safe_decoded {T} dirty limits (dec : T -> Dec T) initial message k :
  (forall r, safe dirty (k r)) -> safe dirty (decoded limits dec initial message k).
Proof. intros Hk. unfold decoded. destruct (decode_payload _ _ _ _); [apply Hk|done]. Qed.
Lemma safe_found {A} (r : Result A) reply :
  safe false (found_task r reply).
Proof. destruct r; done. Qed.
Lemma status_not_ok status : Status_ok status = false -> bool_decide (st_code status = ErrorCode.Ok) = false.
Proof. unfold Status_ok. intros Hs. apply bool_decide_false. intros E. rewrite E in Hs. done. Qed.

(** Every handler saves before it acknowledges. *)
Lemma safe_dispatch limits kind identity message : safe false (dispatch_task limits kind identity message).
Proof.
  assert (forall label, (length (string_bytes label) <= 64)%nat -> label_fits label) as Hl
    by (intros; by apply label_fits_short).
  unfold dispatch_task. destruct (msg_type message); try done.
  all: try (apply safe_decoded; intros r).
  all: try (intros a; first [apply safe_command | apply safe_decision]; apply Hl; cbn; lia).
  all: try (intros a; apply safe_found).
  all: try done.
  - destruct (negb _); [done|]. intros a. apply safe_wave.
  - destruct (negb _); [done|]. intros a. apply safe_command, Hl. cbn. lia.
  - destruct (_ && _); [done|]. intros a. split; [apply Hl; cbn; lia|]. intros status.
    destruct (Status_ok status) eqn:E; cbn; [done|]. split; [|done]. intros _. by apply status_not_ok.
Qed.
Lemma safe_greet label : safe false (greet_task label).
Proof. done. Qed.

(** ** Writes *)

Lemma append_saved fault faults label s s' st disk status st' disk' :
  holds_state st disk s -> label_fits label -> sequence_ st + 3 < 2 ^ 64 ->
  storable (sc_limits (config_ st)) s' ->
  Z.of_nat (length (default [] (disk_journal disk))) + Z.of_nat (length (encode_snapshot s')) + 92
    <= max_file_bytes ->
  append fault faults label s' st disk = (status, st', disk') -> Status_ok status = true ->
  holds_state st' disk' s'.
Proof.
  intros Hh Hl Hq Hs Hf Ha Hok. pose proof (append_crash fault faults label s s' st disk Hh Hq Hl Hs) as Hc.
  rewrite Ha in Hc. apply Hc; [|done]. rewrite entry_bytes_length. cbn [en_label en_state].
  unfold label_fits, kMaxLabelBytes in Hl. lia.
Qed.
Lemma persist_saved faults s st disk status st' disk' :
  0 <= sequence_ st -> sequence_ st + 3 < 2 ^ 64 -> storable (sc_limits (config_ st)) s ->
  persist faults s st disk = (status, st', disk') -> Status_ok status = true -> holds_state st' disk' s.
Proof.
  intros Hq0 Hq Hs Hp Hok. pose proof (persist_ok_any faults s st disk Hq0 ltac:(lia) Hs) as Hc.
  rewrite Hp in Hc. by apply Hc.
Qed.

Section threads.
Context {S : Type} `{ByteStream S}.
Implicit Types (c : Coordinator S).

Definition failures c : Z := stat_durable_write_failures (srv_stats (co_server c)).
(** The disk can take what [h] is about to write. *)
Definition write_fits (h : Holder) (sv : Server) : Prop :=
  forall st, srv_store sv = Some st ->
    sequence_ st + 3 < 2 ^ 64 /\ storable (sc_limits (config_ st)) (ho_snapshot h) /\
    ((exists w, ho_thread h = InHandler w) ->
     Z.of_nat (length (default [] (disk_journal (srv_disk sv)))) +
     Z.of_nat (length (encode_snapshot (ho_snapshot h))) + 92 <= max_file_bytes).
(** A step in which no write fails, none is too large, and none of a handler
    precedes the boot snapshot. *)
Definition clean_step c c' : Prop :=
  step c c' /\ failures c' = failures c /\
  forall h, co_lock c = Some h -> co_lock c' = None ->
    write_fits h (co_server c) /\ (co_owner c = OwnBoot -> ho_thread h = InStart).

(** One call of the engine by a handler. *)
Definition called (e e' : Engine) : Prop := exists A (cl : Call A) now, e' = (call cl now e).2.
Definition chain (es : list Engine) : Prop :=
  forall n e e', es !! n = Some e -> es !! Datatypes.S n = Some e' -> called e e'.

Lemma chain_snoc es e e' : chain es -> last es = Some e -> called e e' -> chain (es ++ [e']).
Proof.
  intros Hc Hl Hs n x y Hx Hy. rewrite last_lookup in Hl.
  destruct (Nat.lt_ge_cases (Datatypes.S n) (length es)) as [Hn|Hn].
  - rewrite lookup_app_l in Hx, Hy by lia. by eapply Hc.
  - assert (Datatypes.S n = length es) as En.
    { apply lookup_lt_Some in Hy. rewrite length_app in Hy. cbn in Hy. lia. }
    rewrite En, list_lookup_middle in Hy by done. injection Hy as <-.
    rewrite lookup_app_l in Hx by lia. rewrite <-En in Hl. cbn in Hl. congruence.
Qed.
Lemma chain_rtc es n m e e' :
  chain es -> (n <= m)%nat -> es !! n = Some e -> es !! m = Some e' -> rtc called e e'.
Proof.
  intros Hc Hnm He. revert e'. induction Hnm as [|m Hnm IH]; intros e' He'.
  - assert (e = e') as -> by congruence. done.
  - destruct (lookup_lt_is_Some_2 es m) as [x Hx]; [apply lookup_lt_Some in He'; lia|].
    eapply rtc_r; [by apply IH|by eapply Hc].
Qed.

(** ** The invariant *)

Definition good_worker c (wk : Worker S) : Prop :=
  (wk_seen wk <= length (co_history c))%nat /\
  forall t next, wk_phase wk = Running t next ->
    exists dirty, safe dirty t /\ (dirty = false -> (wk_seen wk <= co_saved c)%nat).
Definition holder_ok c (h : Holder) : Prop :=
  match ho_thread h with
  | InHandler w => exists wk label k next, co_workers c !! w = Some wk /\
      wk_phase wk = Running (Save label k) next /\ (wk_seen wk <= ho_at h)%nat
  | InStart => co_owner c = OwnBoot
  | InWait => co_owner c = OwnFinal
  end.
Definition lock_ok c (h : Holder) : Prop :=
  (1 <= ho_at h <= length (co_history c))%nat /\ (co_saved c <= ho_at h)%nat /\ holder_ok c h /\
  exists e, co_history c !! (ho_at h - 1)%nat = Some e /\ ho_snapshot h = export_snapshot e.
(** The disk holds an engine state of the history. *)
Definition disk_ok c : Prop :=
  exists st e, srv_store (co_server c) = Some st /\ (1 <= co_saved c)%nat /\
    co_history c !! (co_saved c - 1)%nat = Some e /\ holds_state st (srv_disk (co_server c)) (export_snapshot e).
Definition boot_ok c : Prop :=
  match co_owner c with OwnBoot => co_saved c = 0%nat | _ => disk_ok c end.
Definition final_ok c : Prop :=
  match co_owner c with
  | OwnFinal => forall h, co_lock c = Some h -> ho_at h = length (co_history c)
  | OwnEnded status => Status_ok status = true -> co_saved c = length (co_history c)
  | _ => True
  end.

Record saved c : Prop := {
  sa_persisting : persisting (co_server c) = true;
  sa_sequence : exists st, srv_store (co_server c) = Some st /\ 0 <= sequence_ st;
  sa_last : last (co_history c) = Some (srv_engine (co_server c));
  sa_chain : chain (co_history c);
  sa_lock : forall h, co_lock c = Some h -> lock_ok c h;
  sa_disk : boot_ok c;
  sa_workers : forall w wk, co_workers c !! w = Some wk -> good_worker c wk;
  sa_final : final_ok c
}.

Lemma saved_launch sv st :
  persisting sv = true -> srv_store sv = Some st -> 0 <= sequence_ st -> saved (launch sv).
Proof.
  intros Hp Hst Hq. split; try done; by exists st.
Qed.

(** What the invariant reads besides the threads' places. *)
Definition same_core c c' : Prop :=
  srv_engine (co_server c') = srv_engine (co_server c) /\
  srv_store (co_server c') = srv_store (co_server c) /\ srv_disk (co_server c') = srv_disk (co_server c) /\
  persisting (co_server c') = persisting (co_server c) /\ co_history c' = co_history c /\
  co_saved c' = co_saved c /\ co_lock c' = co_lock c.

Lemma saved_frame c c' :
  saved c -> same_core c c' ->
  (forall h, co_lock c = Some h -> holder_ok c h -> holder_ok c' h) ->
  (forall w wk, co_workers c' !! w = Some wk -> good_worker c wk) ->
  co_owner c' = co_owner c -> saved c'.
Proof.
  intros [Hp Hq Hl Hch Hlk Hd Hw Hf] (He & Hst & Hdk & Hpe & Hh & Hs & Hlo) Hho Hw' Ho.
  split; rewrite ?He, ?Hst, ?Hdk, ?Hpe, ?Hh; try done.
  - rewrite Hlo. intros h Hh'. destruct (Hlk h Hh') as (H1 & H2 & H3 & H4).
    split; rewrite ?Hh, ?Hs; [done|]. split; [done|]. split; [by apply Hho|done].
  - unfold boot_ok, disk_ok in *. by rewrite Ho, Hs, Hst, Hdk, Hh.
  - intros w wk Hwk. unfold good_worker. rewrite Hh, Hs. by apply (Hw' w).
  - unfold final_ok in *. by rewrite Ho, Hlo, Hh, Hs.
Qed.

(** A step of a handler that does not hold the lock and leaves the core alone. *)
Lemma saved_worker c c' w wk wk' :
  saved c -> co_workers c !! w = Some wk -> same_core c c' ->
  (forall label k next, wk_phase wk <> Running (Save label k) next) ->
  co_workers c' = <[w := wk']> (co_workers c) -> co_owner c' = co_owner c -> good_worker c wk' ->
  saved c'.
Proof.
  intros Hs Hw Hcore Hns Hws Ho Hg. apply (saved_frame c); try done.
  - intros h _. unfold holder_ok. destruct (ho_thread h) as [v| |]; [|by rewrite Ho..].
    intros (vk & label & k & next & Hv & Hp & Hse). exists vk, label, k, next. split; [|done].
    rewrite Hws. rewrite list_lookup_insert_ne; [done|]. intros ->. assert (vk = wk) as -> by congruence.
    by eapply Hns.
  - intros v vk. rewrite Hws. intros Hv. destruct (decide (v = w)) as [->|Hne].
    + rewrite list_lookup_insert_eq in Hv by (by eapply lookup_lt_Some). by injection Hv as <-.
    + rewrite list_lookup_insert_ne in Hv by done. by eapply (sa_workers c Hs).
Qed.

Lemma good_worker_later c c' wk :
  good_worker c wk -> (length (co_history c) <= length (co_history c'))%nat ->
  (co_saved c <= co_saved c')%nat -> good_worker c' wk.
Proof.
  intros [Hs Hg] Hh Hsv. split; [lia|]. intros t next Hp. destruct (Hg t next Hp) as (d & Hd & Hl).
  exists d. split; [done|]. intros ->. specialize (Hl eq_refl). lia.
Qed.

(** A call of the engine by [w]. *)
Lemma saved_call c w wk e t next :
  saved c -> co_workers c !! w = Some wk -> called (srv_engine (co_server c)) e ->
  (forall label k next, wk_phase wk <> Running (Save label k) next) ->
  (co_owner c <> OwnFinal /\ forall status, co_owner c <> OwnEnded status) -> safe true t ->
  saved (set_worker w (wk <| wk_phase := Running t next |> <| wk_seen := length (co_history c ++ [e]) |>)
           (on_server (fun sv => sv <| srv_engine := e |>) c <| co_history := co_history c ++ [e] |>)).
Proof.
  intros [Hp Hq Hl Hch Hlk Hd Hw Hf] Hwk Hcall Hns [Ho1 Ho2] Hsafe.
  assert (forall n x, co_history c !! n = Some x -> (co_history c ++ [e]) !! n = Some x) as Hpre
    by (intros; by apply lookup_app_l_Some).
  split; cbn; try done.
  - by rewrite last_snoc.
  - by eapply chain_snoc.
  - intros h Hh. destruct (Hlk h Hh) as (H1 & H2 & H3 & x & Hx & Hs).
    split; [cbn; rewrite length_app; lia|]. split; [done|]. split; [|exists x; split; [by apply Hpre|done]].
    unfold holder_ok in *. destruct (ho_thread h) as [v| |]; [|done..].
    destruct H3 as (vk & label & k & nx & Hv & Hpv & Hsv). exists vk, label, k, nx. split; [|done].
    cbn. rewrite list_lookup_insert_ne; [done|]. intros ->. assert (vk = wk) as -> by congruence.
    by eapply Hns.
  - unfold boot_ok, disk_ok in *. cbn. destruct (co_owner c); try done;
      (destruct Hd as (st & x & Hst & H1 & Hx & Hh); exists st, x; split_and!; [done|done|by apply Hpre|done]).
  - intros v vk Hv. destruct (decide (v = w)) as [->|Hne].
    + rewrite list_lookup_insert_eq in Hv by (by eapply lookup_lt_Some). injection Hv as <-.
      split; [done|]. cbn. intros t' next' [= <- <-]. by exists true.
    + rewrite list_lookup_insert_ne in Hv by done. eapply good_worker_later; [by eapply Hw| |done].
      cbn. rewrite length_app. lia.
  - unfold final_ok in *. cbn. destruct (co_owner c) eqn:E; try done. by destruct (Ho2 status).
Qed.

(** The store's lock is taken by a thread that is about to write. *)
Lemma saved_take_lock thread c c' :
  saved c -> take_lock thread c = Some c' ->
  holder_ok c (mkHolder thread (export_snapshot (srv_engine (co_server c))) (length (co_history c))) ->
  saved c'.
Proof.
  intros [Hp Hq Hl Hch Hlk Hd Hw Hf] Ht Hh. unfold take_lock in Ht.
  destruct (co_lock c) eqn:E; [done|]. injection Ht as <-.
  assert (1 <= length (co_history c))%nat as Hlen by (destruct (co_history c); [done|cbn; lia]).
  split; cbn; try done.
  - intros h [= <-]. split; cbn; [lia|]. split; [|split; [exact Hh|]].
    + unfold boot_ok, disk_ok in Hd.
      destruct (co_owner c); [lia|..]; destruct Hd as (st & x & _ & H1 & Hx & _);
        apply lookup_lt_Some in Hx; lia.
    + exists (srv_engine (co_server c)). split; [|done]. rewrite last_lookup in Hl.
      by replace (length (co_history c) - 1)%nat with (pred (length (co_history c))) by lia.
  - unfold final_ok in *. cbn. destruct (co_owner c); try done. by intros h [= <-].
Qed.

(** A successful write by the holder of the lock. *)
Lemma saved_written c c' h st' disk' :
  saved c -> co_lock c = Some h -> holds_state st' disk' (ho_snapshot h) ->
  srv_engine (co_server c') = srv_engine (co_server c) -> srv_store (co_server c') = Some st' ->
  srv_disk (co_server c') = disk' -> persisting (co_server c') = true -> co_history c' = co_history c ->
  co_saved c' = ho_at h -> co_lock c' = None -> co_owner c' <> OwnBoot ->
  (forall w wk, co_workers c' !! w = Some wk -> good_worker c' wk) -> final_ok c' -> saved c'.
Proof.
  intros Hs Hlk Hho He Hst Hdk Hp Hh Hsv Hl Ho Hw Hf.
  destruct (sa_lock c Hs h Hlk) as ([H1 H1'] & H2 & _ & e & Hx & Hsn).
  split; rewrite ?He, ?Hh, ?Hl; try done; try (by apply Hs).
  - exists st'. split; [done|]. destruct Hho as (? & ? & _ & _ & _ & ? & _). lia.
  - unfold boot_ok. assert (disk_ok c') as Hd.
    { exists st', e. rewrite Hsv, Hh, Hdk, <-Hsn. done. }
    by destruct (co_owner c').
Qed.

(** A write that is not counted as a failure. *)
Lemma write_clean op h c st status c1 :
  srv_store (co_server c) = Some st -> write_locked op h c = (status, c1) -> failures c1 = failures c ->
  exists st' disk', op (ho_snapshot h) st (srv_disk (co_server c)) = (status, st', disk') /\
    Status_ok status = true /\ srv_store (co_server c1) = Some st' /\ srv_disk (co_server c1) = disk' /\
    co_saved c1 = ho_at h /\ co_lock c1 = None.
Proof.
  intros Hst. unfold write_locked. rewrite Hst.
  destruct (op _ _ _) as [[status' st'] disk'] eqn:E. intros [= <- <-] Hf. exists st', disk'.
  destruct (Status_ok status') eqn:Eok; [by split_and!|]. exfalso. unfold failures in Hf. cbn in Hf.
  by apply u64_succ_neq in Hf.
Qed.

Lemma not_final cfg c w wk :
  counted cfg c -> co_workers c !! w = Some wk -> exited (wk_phase wk) = false ->
  co_owner c <> OwnFinal /\ forall status, co_owner c <> OwnEnded status.
Proof.
  intros Hi Hw He. pose proof (th_joined cfg c Hi) as Hj. unfold joined in Hj.
  assert (live (co_workers c) w = true) as Hl by (unfold live; by rewrite Hw, He).
  destruct (co_owner c); try done; destruct Hj as (_ & _ & Hf); by rewrite Hf in Hl.
Qed.

(** The durability point of a handler. *)
Lemma saved_save mo w wk label k next c c' cfg :
  saved c -> counted cfg c -> co_workers c !! w = Some wk -> wk_phase wk = Running (Save label k) next ->
  task_turn mo w wk (Save label k) next c = Some c' -> failures c' = failures c ->
  (forall h, co_lock c = Some h -> co_lock c' = None ->
     write_fits h (co_server c) /\ (co_owner c = OwnBoot -> ho_thread h = InStart)) -> saved c'.
Proof.
  intros Hs Hi Hw Hp Ht Hf Hfit. cbn [task_turn] in Ht. rewrite (sa_persisting c Hs) in Ht. cbn [negb] in Ht.
  destruct (sa_workers c Hs w wk Hw) as [Hseen Hg]. destruct (Hg _ _ Hp) as (dirty & [Hlab Hsafe] & Hd).
  unfold held_by in Ht. destruct (co_lock c) as [h|] eqn:El.
  2: { eapply saved_take_lock; [done|exact Ht|]. cbn. by exists wk, label, k, next. }
  case_bool_decide as Eh; [|unfold take_lock in Ht; by rewrite El in Ht].
  destruct (sa_sequence c Hs) as (st & Hst & _).
  destruct (write_locked _ h c) as [status c1] eqn:Ew. injection Ht as <-.
  destruct (write_clean _ _ _ _ _ _ Hst Ew Hf) as (st' & disk' & Ha & Hok & Hst' & Hdk' & Hsv & Hl1).
  pose proof (write_locked_rest (append (mo_append mo) (mo_persist mo) label) h c) as Hr.
  rewrite Ew in Hr. cbn [snd] in Hr. destruct Hr as (Hws & _ & _ & _ & Ho & Hh & _ & He & _ & Hpe & _).
  destruct (Hfit h eq_refl Hl1) as [Hfits Hboot].
  assert (co_owner c <> OwnBoot) as Hnb by (intros E; specialize (Hboot E); congruence).
  destruct (Hfits st Hst) as (Hq & Hstor & Hlen).
  pose proof (sa_disk c Hs) as Hdisk. unfold boot_ok in Hdisk.
  assert (disk_ok c) as (st0 & e0 & Hst0 & _ & _ & Hh0) by (by destruct (co_owner c)).
  assert (st0 = st) as -> by congruence.
  destruct (sa_lock c Hs h El) as (_ & Hsa & Hhold & _). unfold holder_ok in Hhold. rewrite Eh in Hhold.
  destruct Hhold as (wk0 & _ & _ & _ & Hw0 & _ & Hseen0). assert (wk0 = wk) as -> by congruence.
  destruct (not_final cfg c w wk Hi Hw) as [Hn1 Hn2]; [by rewrite Hp|].
  eapply (saved_written c _ h); try done; cbn; rewrite ?Ho; try done.
  - eapply append_saved; try done. apply Hlen. by exists w.
  - by rewrite Hpe, (sa_persisting c Hs).
  - intros v vk Hv. rewrite Hws in Hv. destruct (decide (v = w)) as [->|Hne].
    + rewrite list_lookup_insert_eq in Hv by (by eapply lookup_lt_Some). injection Hv as <-.
      split; cbn; [by rewrite Hh|]. intros t' next' [= <- <-].
      specialize (Hsafe status). rewrite Hok, andb_false_r in Hsafe. exists false. split; [done|].
      rewrite Hsv. done.
    + rewrite list_lookup_insert_ne in Hv by done.
      eapply good_worker_later; [by eapply (sa_workers c Hs)|cbn; by rewrite Hh|cbn; rewrite Hsv; lia].
  - unfold final_ok. cbn. rewrite Ho. destruct (co_owner c); try done. by destruct (Hn2 status0).
Qed.

Lemma good_phase c wk wk' phase t next :
  good_worker c wk -> wk_seen wk' = wk_seen wk -> wk_phase wk' = phase ->
  (forall t' next', phase = Running t' next' -> t' = t /\ next' = next) ->
  (exists dirty, safe dirty t /\ (dirty = false -> (wk_seen wk <= co_saved c)%nat)) ->
  good_worker c wk'.
Proof.
  intros [Hs _] Hse Hp Hr Ht. split; rewrite Hse; [done|]. intros t' next' Hp'.
  by destruct (Hr t' next') as [-> ->]; [congruence|].
Qed.
Lemma good_idle c wk :
  (wk_seen wk <= length (co_history c))%nat -> (forall t next, wk_phase wk <> Running t next) ->
  good_worker c wk.
Proof. intros Hs Hp. split; [done|]. intros t next E. by destruct (Hp t next). Qed.
Lemma good_start c wk t next :
  wk_seen wk = 0%nat -> wk_phase wk = Running t next -> safe false t -> good_worker c wk.
Proof.
  intros Hs Hp Ht. split; [lia|]. intros t' next' E. exists false.
  assert (t' = t) as -> by congruence. split; [done|lia].
Qed.

Lemma same_core_note f c c' : co_server c' = upd_stats f (co_server c) -> co_history c' = co_history c ->
  co_saved c' = co_saved c -> co_lock c' = co_lock c -> same_core c c'.
Proof. intros E ? ? ?. unfold same_core. by rewrite E. Qed.
Lemma same_core_same c c' : co_server c' = co_server c -> co_history c' = co_history c ->
  co_saved c' = co_saved c -> co_lock c' = co_lock c -> same_core c c'.
Proof. intros E ? ? ?. unfold same_core. by rewrite E. Qed.

Lemma saved_task mo w wk t next c c' cfg :
  saved c -> counted cfg c -> co_workers c !! w = Some wk -> wk_phase wk = Running t next ->
  task_turn mo w wk t next c = Some c' -> failures c' = failures c ->
  (forall h, co_lock c = Some h -> co_lock c' = None ->
     write_fits h (co_server c) /\ (co_owner c = OwnBoot -> ho_thread h = InStart)) -> saved c'.
Proof.
  intros Hs Hi Hw Hp Ht Hf Hfit. pose proof (sa_workers c Hs w wk Hw) as Hgw.
  destruct (proj2 Hgw _ _ Hp) as (dirty & Hsafe & Hd).
  destruct t as [A cl k|A f k|label k|r k|code detail reason k|k|fin].
  - cbn [task_turn] in Ht. destruct (call cl _ _) as [a e] eqn:E. injection Ht as <-.
    apply saved_call; try done; [|by rewrite Hp|eapply not_final; [done..|by rewrite Hp]].
    exists A, cl, (mo_now mo). by rewrite E.
  - injection Ht as <-. eapply (saved_worker c); try done; [by rewrite Hp|].
    eapply (good_phase c wk); [done|done|reflexivity|by intros ? ? [= <- <-]|]. exists dirty. eauto.
  - by eapply saved_save.
  - injection Ht as <-. unfold on_channel.
    pose proof (reply_server r (mkConn (co_server c) (wk_channel wk))) as Hsv.
    destruct (send_reply _ _) as [sent cn]. cbn in Hsv. destruct Hsafe as [_ Hsafe].
    eapply (saved_worker c); try done; [by apply same_core_same|by rewrite Hp|].
    eapply (good_phase c wk); [done|done|reflexivity|by intros ? ? [= <- <-]|]. exists dirty. eauto.
  - injection Ht as <-. unfold on_channel.
    pose proof (fail_server code detail reason (mkConn (co_server c) (wk_channel wk))) as Hsv.
    destruct (fail _ _ _ _) as [sent cn]. cbn in Hsv.
    eapply (saved_worker c); try done; [by eapply same_core_note|by rewrite Hp|].
    eapply (good_phase c wk); [done|done|reflexivity|by intros ? ? [= <- <-]|]. exists dirty. eauto.
  - injection Ht as <-. eapply (saved_worker c); try done; [by rewrite Hp|].
    eapply (good_phase c wk); [done|done|reflexivity|by intros ? ? [= <- <-]|]. exists dirty. eauto.
  - injection Ht as <-. eapply (saved_worker c); try done; [by rewrite Hp|].
    apply good_idle; [apply Hgw|]. cbn. destruct next; cbn; repeat case_match; done.
Qed.

Lemma first_safe config first t next : first_phase config first = Running t next -> safe true t.
Proof. unfold first_phase. repeat case_match; try done; by intros [= <- <-]. Qed.
Lemma message_safe config kind identity m t next :
  message_phase config kind identity m = Running t next -> safe false t.
Proof.
  unfold message_phase. repeat case_match; try done; intros [= <- <-]; [apply safe_dispatch|done].
Qed.
Lemma first_noted_stats first phase : exists f, forall sv, first_noted first phase sv = upd_stats f sv.
Proof.
  assert (exists f, forall sv, id sv = upd_stats f sv) as Hid by (exists id; by intros []).
  destruct first; cbn; [|by eexists]. destruct phase as [|? []| | | | |]; try done. by eexists.
Qed.

Lemma saved_worker_turn mo w c c' cfg :
  saved c -> counted cfg c -> worker_turn mo w c = Some c' -> failures c' = failures c ->
  (forall h, co_lock c = Some h -> co_lock c' = None ->
     write_fits h (co_server c) /\ (co_owner c = OwnBoot -> ho_thread h = InStart)) -> saved c'.
Proof.
  intros Hs Hi Ht Hf Hfit. unfold worker_turn in Ht.
  destruct (co_workers c !! w) as [wk|] eqn:Hw; [|done]. pose proof (sa_workers c Hs w wk Hw) as Hgw.
  destruct (wk_phase wk) as [|t next|kind identity|kind identity| | |] eqn:Hp.
  - destruct (receive _) as [first channel]. injection Ht as <-.
    set (phase := first_phase _ _) in *. destruct (first_noted_stats first phase) as [f Hn].
    eapply (saved_worker c); try done; [eapply same_core_note; try done; apply Hn|by rewrite Hp|].
    split; [apply Hgw|]. cbn. intros t next E. exists true. split; [by eapply first_safe|done].
  - by eapply saved_task.
  - injection Ht as <-. eapply (saved_worker c); try done; [by rewrite Hp|].
    apply good_idle; [apply Hgw|]. cbn. by destruct (srv_stop _).
  - destruct (receive _) as [m channel]. injection Ht as <-.
    eapply (saved_worker c); try done; [destruct m; [by eapply same_core_note|by apply same_core_same]
                                       |by rewrite Hp|].
    split; [cbn; lia|]. cbn. intros t next E. exists false. split; [by eapply message_safe|lia].
  - injection Ht as <-. eapply (saved_worker c); try done; [by rewrite Hp|by apply good_idle; [apply Hgw|]].
  - injection Ht as <-. eapply (saved_worker c); try done; [by rewrite Hp|by apply good_idle; [apply Hgw|]].
  - done.
Qed.

(** Steps that add threads and move the accept thread. *)
Lemma saved_accept_turn accepted c c' : saved c -> accept_turn accepted c = Some c' -> saved c'.
Proof.
  intros Hs Ht.
  assert (same_core c c' /\ co_owner c' = co_owner c /\
    (co_workers c' = co_workers c \/
     exists channel, co_workers c' = co_workers c ++ [mkWorker channel Connecting 0])) as (Hc & Ho & Hw).
  { unfold accept_turn in Ht. repeat case_match; try done; injection Ht as <-;
      (split; [first [by apply same_core_same|by eapply same_core_note]|]; split; [done|]; eauto). }
  apply (saved_frame c); try done.
  - intros h _. unfold holder_ok. destruct (ho_thread h) as [v| |]; [|by rewrite Ho..].
    intros (vk & label & k & next & Hv & Hr). exists vk, label, k, next. split; [|done].
    destruct Hw as [->|[channel ->]]; [done|by apply lookup_app_l_Some].
  - intros v vk. destruct Hw as [->|[channel ->]]; [apply (sa_workers c Hs)|].
    rewrite lookup_snoc_Some. intros [[_ Hv]|[_ <-]]; [by eapply (sa_workers c Hs)|].
    apply good_idle; [cbn; lia|done].
Qed.

(** A snapshot written by the owner. *)
Lemma saved_owner_write mo c c1 c' h status :
  saved c -> co_lock c = Some h -> write_locked (persist (mo_persist mo)) h c = (status, c1) ->
  failures c1 = failures c -> write_fits h (co_server c) ->
  srv_engine (co_server c') = srv_engine (co_server c1) -> srv_store (co_server c') = srv_store (co_server c1) ->
  srv_disk (co_server c') = srv_disk (co_server c1) -> persisting (co_server c') = persisting (co_server c1) ->
  co_workers c' = co_workers c1 -> co_history c' = co_history c1 -> co_saved c' = co_saved c1 ->
  co_lock c' = co_lock c1 -> co_owner c' <> OwnBoot ->
  (co_saved c' = ho_at h -> co_history c' = co_history c -> co_lock c' = None -> final_ok c') ->
  Status_ok status = true /\ saved c'.
Proof.
  intros Hs El Ew Hf Hfits He Hst1 Hdk1 Hp1 Hw1 Hh1 Hsv1 Hl1 Ho Hfin.
  destruct (sa_sequence c Hs) as (st & Hst & Hq0).
  destruct (write_clean _ _ _ _ _ _ Hst Ew Hf) as (st' & disk' & Ha & Hok & Hst' & Hdk' & Hsv & Hl).
  pose proof (write_locked_rest (persist (mo_persist mo)) h c) as Hr.
  rewrite Ew in Hr. cbn [snd] in Hr. destruct Hr as (Hws & _ & _ & _ & _ & Hh & _ & Hen & _ & Hpe & _).
  destruct (Hfits st Hst) as (Hq & Hstor & _). destruct (sa_lock c Hs h El) as (_ & Hsa & _).
  split; [done|].
  apply (saved_written c _ h st' disk'); rewrite ?He, ?Hst1, ?Hdk1, ?Hp1, ?Hh1, ?Hl1, ?Hsv1; try done.
  - by eapply persist_saved.
  - by rewrite Hpe, (sa_persisting c Hs).
  - intros w wk Hw. rewrite Hw1, Hws in Hw.
    eapply good_worker_later; [by eapply (sa_workers c Hs)|by rewrite Hh1, Hh|rewrite Hsv1, Hsv; lia].
  - apply Hfin; congruence.
Qed.

(** The owner moves between places where it holds no lock. *)
Lemma saved_owner c c' :
  saved c -> same_core c c' -> co_workers c' = co_workers c ->
  co_owner c <> OwnBoot -> co_owner c <> OwnFinal -> co_owner c' <> OwnBoot ->
  (co_owner c' = OwnFinal -> forall w, live (co_workers c) w = false) ->
  (forall status, co_owner c' <> OwnEnded status) -> saved c'.
Proof.
  intros [Hp Hq Hl Hch Hlk Hd Hw Hf] (He & Hst & Hdk & Hpe & Hh & Hs & Hlo) Hws Hb Hfi Hb' Hfi' He'.
  assert (forall h, co_lock c = Some h -> exists w wk, ho_thread h = InHandler w /\
    co_workers c !! w = Some wk /\ exited (wk_phase wk) = false) as Hheld.
  { intros h Hh'. destruct (Hlk h Hh') as (_ & _ & H3 & _). unfold holder_ok in H3.
    destruct (ho_thread h) as [w| |]; [|naive_solver..].
    destruct H3 as (wk & ? & ? & ? & Hwk & Hpk & _). exists w, wk. by rewrite Hpk. }
  split; rewrite ?He, ?Hst, ?Hdk, ?Hpe, ?Hh; try done.
  - rewrite Hlo. intros h Hh'. destruct (Hlk h Hh') as (H1 & H2 & H3 & H4).
    split; rewrite ?Hh, ?Hs; [done|]. split; [done|]. split; [|done].
    unfold holder_ok in *. rewrite Hws. by destruct (ho_thread h).
  - unfold boot_ok, disk_ok in *. rewrite Hs, Hst, Hdk, Hh.
    destruct (co_owner c), (co_owner c'); done.
  - intros w wk. rewrite Hws. unfold good_worker. rewrite Hh, Hs. apply Hw.
  - unfold final_ok. rewrite Hlo. destruct (co_owner c') eqn:E; try done; [|by destruct (He' status)].
    intros h Hh'. exfalso. destruct (Hheld h Hh') as (w & wk & _ & Hwk & Hex).
    specialize (Hfi' eq_refl w). unfold live in Hfi'. by rewrite Hwk, Hex in Hfi'.
Qed.

(** The owner is at one of its blocks. *)
Definition owner_at (block : Locker) c : Prop :=
  block = InStart /\ co_owner c = OwnBoot \/ block = InWait /\ co_owner c = OwnFinal.
(** A turn of the owner at a snapshot: it takes the lock, or it has written. *)
Lemma snapshot_cases block mo c c' k :
  saved c -> owner_at block c -> owner_snapshot block mo c k = Some c' ->
  saved c' \/
  exists h status c1, co_lock c = Some h /\ write_locked (persist (mo_persist mo)) h c = (status, c1) /\
    co_lock c1 = None /\ c' = k status c1.
Proof.
  intros Hs Ho Ht. unfold owner_snapshot, held_by in Ht. rewrite (sa_persisting c Hs) in Ht.
  cbn [negb] in Ht. destruct (co_lock c) as [h|] eqn:El.
  2: { left. eapply saved_take_lock; [done|exact Ht|]. by destruct Ho as [[-> Ho]|[-> Ho]]. }
  case_bool_decide as Eh; [|unfold take_lock in Ht; by rewrite El in Ht].
  right. pose proof (write_locked_rest (persist (mo_persist mo)) h c) as Hr.
  destruct (write_locked _ h c) as [status c1] eqn:Ew. injection Ht as <-.
  exists h, status, c1. split_and!; try done. apply Hr.
Qed.

Lemma saved_owner_turn mo c c' cfg :
  saved c -> counted cfg c' -> owner_turn mo c = Some c' -> failures c' = failures c ->
  (forall h, co_lock c = Some h -> co_lock c' = None -> write_fits h (co_server c)) -> saved c'.
Proof.
  intros Hs Hi Ht Hf Hfit. unfold owner_turn in Ht.
  destruct (co_owner c) as [| | |i| |status] eqn:Eo.
  - apply snapshot_cases in Ht as [Ht|(h & status & c1 & El & Ew & Hl & ->)]; [done| |done|by left].
    destruct (sa_sequence c Hs) as (st & Hst & _).
    assert (Status_ok status = true) as Hok.
    { eapply write_clean in Ew as (? & ? & _ & Hok & _); [exact Hok|exact Hst|]. by destruct (negb _). }
    rewrite Hok in *. cbn [negb] in *.
    by destruct (saved_owner_write mo c c1 (c1 <| co_owner := OwnWaiting |>) h status) as [_ Hs'];
      try done; apply (Hfit h El).
  - destruct (_ || _); [|done]. injection Ht as <-. apply (saved_owner c); rewrite ?Eo; done.
  - destruct (co_acceptor c); try done. injection Ht as <-. apply (saved_owner c); rewrite ?Eo; done.
  - assert (forall w, co_owner c' = OwnFinal -> live (co_workers c') w = false) as Hall.
    { intros w E. pose proof (th_joined cfg c' Hi) as Hj. unfold joined in Hj. rewrite E in Hj.
      apply Hj. }
    destruct (co_connections c !! i) as [w|].
    + destruct (phase_of w c) as [[]|]; try done. injection Ht as <-.
      apply (saved_owner c); rewrite ?Eo; done.
    + injection Ht as <-. apply (saved_owner c); rewrite ?Eo; try done. intros _ w. by apply Hall.
  - apply snapshot_cases in Ht as [Ht|(h & status & c1 & El & Ew & Hl & ->)]; [done| |done|by right].
    pose proof (sa_final c Hs) as Hfi. unfold final_ok in Hfi. rewrite Eo in Hfi. specialize (Hfi h El).
    destruct (saved_owner_write mo c c1
      (on_server (fun sv => sv <| srv_running := false |>) c1 <| co_owner := OwnEnded Status_success |>)
      h status) as [Hok Hs']; try done.
    + destruct (negb _); exact Hf.
    + apply (Hfit h El). by destruct (negb _).
    + cbn. intros Hsv Hh _ _. by rewrite Hsv, Hh.
    + by rewrite Hok.
  - done.
Qed.

Lemma saved_step cfg c c' : saved c -> counted cfg c -> clean_step c c' -> saved c'.
Proof.
  intros Hs Hi (Hst & Hf & Hfit). pose proof (counted_step cfg c c' Hi Hst) as Hi'.
  destruct Hst as [[w mo|accepted|mo|] Ht]; cbn in Ht.
  - by eapply saved_worker_turn.
  - by eapply saved_accept_turn.
  - eapply saved_owner_turn; try done. intros h Hl Hl'. by apply (Hfit h).
  - injection Ht as <-. by apply (saved_frame c); try done; apply (sa_workers c Hs).
Qed.
Lemma saved_run sv st c :
  persisting sv = true -> srv_store sv = Some st -> 0 <= sequence_ st ->
  rtc clean_step (launch sv) c -> saved c /\ counted (srv_config sv) c.
Proof.
  intros Hp Hst Hq. apply (rtc_ind_r (fun c => saved c /\ counted (srv_config sv) c)).
  - split; [by eapply saved_launch|by apply counted_launch].
  - intros c1 c2 _ Hstep [Hs Hi]. split; [by eapply saved_step|]. eapply counted_step; [done|apply Hstep].
Qed.

(** ** The theorems *)

(** C8: durability before acknowledgement, in every interleaving: when a handler
    that has called the engine is about to send an acknowledgement (a decision, a
    granted wave, an accepted command), the store's [load] over the files as they
    are at that instant returns the state the call led to, or a state later calls
    of other handlers led to from it.  It holds for every schedule of the threads,
    from a service with persistence on, whose steps are clean ([clean_step]): no
    write fails, no handler writes before the boot snapshot, every state written is
    one the format can hold ([storable]), the store's counter is not within three of
    2^64, and a record a handler appends keeps the journal within the size the
    reader accepts.  Whether the engine of a new process accepts the loaded state
    is a matter of [restore] (file [RestartProps]; [finding_restart_refuses_state]). *)
Theorem interleaved_durability sv st c w wk r k next :
  persisting sv = true -> srv_store sv = Some st -> 0 <= sequence_ st ->
  rtc clean_step (launch sv) c ->
  co_workers c !! w = Some wk -> wk_phase wk = Running (Answer r k) next -> acknowledges r = true ->
  (0 < wk_seen wk)%nat ->
  exists st' e0 e, srv_store (co_server c) = Some st' /\
    co_history c !! (wk_seen wk - 1)%nat = Some e0 /\ rtc called e0 e /\
    recovers st' (srv_disk (co_server c)) (export_snapshot e).
Proof.
  intros Hp Hst Hq Hr Hw Hph Hack Hseen. destruct (saved_run sv st c Hp Hst Hq Hr) as [Hs _].
  destruct (sa_workers c Hs w wk Hw) as [_ Hg]. destruct (Hg _ _ Hph) as (dirty & [Hd _] & Hsv).
  assert ((wk_seen wk <= co_saved c)%nat) as Hle.
  { apply Hsv. destruct dirty; [|done]. rewrite Hd in Hack by done. done. }
  pose proof (sa_disk c Hs) as Hdk. unfold boot_ok in Hdk.
  assert (disk_ok c) as (st' & e & Hst' & H1 & He & Hh) by (destruct (co_owner c); [lia|done..]).
  destruct (lookup_lt_is_Some_2 (co_history c) (wk_seen wk - 1)) as [e0 He0].
  { apply lookup_lt_Some in He. lia. }
  exists st', e0, e. split_and!; [done|done| |by apply holds_recovers].
  eapply chain_rtc; [apply (sa_chain c Hs)| |done|done]. lia.
Qed.

(** C11: an orderly shutdown: when [wait] has returned, the accept thread has
    ended, every handler thread ever started has exited, none is listed, and no
    thread of the service takes another turn; and when every step on the way was
    clean ([clean_step]: no write failed, no handler wrote before the boot snapshot,
    every state written was one the format can hold, the store's counter and the
    journal stayed within their bounds) and [wait] reports success, the store's
    [load] over the files returns the engine's final state. *)
Theorem orderly_shutdown sv c status :
  threads_of sv c -> co_owner c = OwnEnded status ->
  (co_acceptor c = AccEnded /\ co_connections c = [] /\ co_active c = 0 /\
   (forall w wk, co_workers c !! w = Some wk -> wk_phase wk = Exited) /\
   forall x, x <> StopTurn -> turn x c = None) /\
  (forall st, persisting sv = true -> srv_store sv = Some st -> 0 <= sequence_ st ->
   rtc clean_step (launch sv) c -> Status_ok status = true ->
   exists st', srv_store (co_server c) = Some st' /\
     recovers st' (srv_disk (co_server c)) (export_snapshot (srv_engine (co_server c)))).
Proof.
  intros Ht Ho. split.
  - pose proof (counted_run (srv_config sv) sv c eq_refl Ht) as Hi.
    pose proof (th_joined _ c Hi) as Hj. unfold joined in Hj. rewrite Ho in Hj.
    destruct Hj as (Ha & Hcs & Hall).
    assert (forall w wk, co_workers c !! w = Some wk -> wk_phase wk = Exited) as Hex
      by (intros w wk Hw; by eapply all_exited).
    split_and!; [done|done| |done|].
    + rewrite (th_active _ c Hi), (handlers_none c Hall), Ha. done.
    + intros [w mo|accepted|mo|] Hx; cbn; [..|done].
      * unfold worker_turn. destruct (co_workers c !! w) as [wk|] eqn:Hw; [|done]. by rewrite (Hex w wk Hw).
      * unfold accept_turn. by rewrite Ha.
      * unfold owner_turn. by rewrite Ho.
  - intros st Hp Hst Hq Hr Hok. destruct (saved_run sv st c Hp Hst Hq Hr) as [Hs _].
    pose proof (sa_disk c Hs) as Hdk. unfold boot_ok in Hdk. rewrite Ho in Hdk.
    destruct Hdk as (st' & e & Hst' & H1 & He & Hh). pose proof (sa_final c Hs) as Hf.
    unfold final_ok in Hf. rewrite Ho in Hf. rewrite (Hf Hok) in He. pose proof (sa_last c Hs) as Hl.
    rewrite last_lookup in Hl. replace (length (co_history c) - 1)%nat with (pred (length (co_history c))) in He by lia.
    exists st'. split; [done|]. apply holds_recovers. congruence.
Qed.
End threads.

(** ** Witnesses *)

Section computed.
Context {S : Type} `{ByteStream S}.

(** The state after some turns, which must all be possible. *)
Definition after (xs : list (Turn S)) (c : Coordinator S) : Coordinator S := default c (run_turns xs c).
Lemma after_run xs c :
  match run_turns xs c with Some _ => true | None => false end = true -> run_turns xs c = Some (after xs c).
Proof. unfold after. by destruct (run_turns xs c). Qed.

(** The turns are possible, none is a write and none fails. *)
Fixpoint quiet (xs : list (Turn S)) (c : Coordinator S) : bool :=
  match xs with
  | [] => true
  | x :: xs =>
      match turn x c with
      | Some c' =>
          match co_lock c, co_lock c' with Some _, None => false | _, _ => true end &&
          (failures c' =? failures c) && quiet xs c'
      | None => false
      end
  end.
Lemma quiet_run xs c : quiet xs c = true -> rtc clean_step c (after xs c).
Proof.
  unfold after. revert c. induction xs as [|x xs IH]; intros c; cbn; [done|].
  destruct (turn x c) as [c'|] eqn:E; [|done]. intros [[Hl Hf%Z.eqb_eq]%andb_true_iff Hq]%andb_true_iff.
  specialize (IH c' Hq). destruct (run_turns xs c') as [c2|] eqn:E2; cbn in *.
  - eapply rtc_l; [|exact IH]. split; [by exists x|]. split; [done|].
    intros h Hh Hn. by rewrite Hh, Hn in Hl.
  - exfalso. clear -Hq E2. revert c' Hq E2. induction xs as [|y ys IH]; intros c'; cbn; [done|].
    destruct (turn y c') as [c2|]; [|done]. intros [_ Hq]%andb_true_iff. by apply IH.
Qed.

Definition held_snapshot (c : Coordinator S) : EngineSnapshot :=
  match co_lock c with Some h => ho_snapshot h | None => EngineSnapshot_default end.
Definition store_limits (c : Coordinator S) : Limits :=
  match srv_store (co_server c) with Some st => sc_limits (config_ st) | None => Limits_default end.
(** There is room for the write, and it is not a handler's before the boot snapshot. *)
Definition room (c : Coordinator S) : bool :=
  match srv_store (co_server c), co_lock c with
  | Some st, Some h =>
      (sequence_ st + 3 <? 2 ^ 64) &&
      (Z.of_nat (length (default [] (disk_journal (srv_disk (co_server c))))) +
       Z.of_nat (length (encode_snapshot (held_snapshot c))) + 92 <=? max_file_bytes) &&
      match co_owner c, ho_thread h with OwnBoot, InStart => true | OwnBoot, _ => false | _, _ => true end
  | _, _ => false
  end.
Lemma write_run x c :
  storable (store_limits c) (held_snapshot c) -> room c = true ->
  match turn x c with Some c' => failures c' =? failures c | None => false end = true ->
  rtc clean_step c (after [x] c).
Proof.
  intros Hs Hr Ht. unfold after. cbn. destruct (turn x c) as [c'|] eqn:E; [|done].
  apply rtc_once. split; [by exists x|]. split; [by apply Z.eqb_eq|]. intros h Hl _.
  unfold room, held_snapshot, store_limits in *. rewrite Hl in *. split.
  - intros st Hst. rewrite Hst in *. bool_facts. split_and!; [lia|done|intros _; lia].
  - intros Ho. destruct (srv_store _); [|done]. rewrite Ho in Hr.
    apply andb_true_iff in Hr as [_ Hr]. by destruct (ho_thread h).
Qed.

(** [w] is about to acknowledge a call. *)
Definition acking (w : nat) (c : Coordinator S) : bool :=
  match co_workers c !! w with
  | Some wk =>
      match wk_phase wk with
      | Running (Answer r _) _ => acknowledges r && (0 <? wk_seen wk)%nat
      | _ => false
      end
  | None => false
  end.
Lemma acking_worker w c : acking w c = true -> exists wk r k next,
  co_workers c !! w = Some wk /\ wk_phase wk = Running (Answer r k) next /\ acknowledges r = true /\
  (0 < wk_seen wk)%nat.
Proof.
  unfold acking. intros Ha. repeat case_match; try done.
  apply andb_true_iff in Ha as [Ha Hs%Nat.ltb_lt]. by do 4 eexists.
Qed.
End computed.

(** A client that says hello and submits the request of [Scenario]. *)
Definition lab_peer : MessageChannel Pipe :=
  (send MessageType.SubmitSession submit_payload1
     (send MessageType.HelloRequest (encode_payload encode_HelloRequest
        (mkHelloRequest ClientKind.Sender "agent")) (channel_open (mkPipe [] []))).2).2.
Definition lab_socket : Pipe := mkPipe [pipe_written (ch_socket lab_peer)] [].
Definition lab_server : Server := server1 <| srv_running := false |>.
Definition lab_launch : Coordinator Pipe := launch lab_server.

(** The boot snapshot; a connection, its handshake and its submission, up to the
    write; the write; and the end. *)
Notation lab_boot := (after [OwnerTurn (calm 1)] lab_launch).
Notation lab_serving := (after [OwnerTurn (calm 1)] lab_boot).
Definition lab_turns : list (Turn Pipe) :=
  repeat (AcceptTurn (Val lab_socket)) 6 ++ repeat (WorkerTurn 0 (calm 1)) 12.
Notation lab_writing := (after lab_turns lab_serving).
Notation lab_written := (after [WorkerTurn 0 (calm 1)] lab_writing).
Definition lab_stop : list (Turn Pipe) :=
  [StopTurn; AcceptTurn (Val lab_socket); OwnerTurn (calm 2)] ++ repeat (WorkerTurn 0 (calm 2)) 5 ++
  repeat (OwnerTurn (calm 2)) 4.
Notation lab_stopping := (after lab_stop lab_written).
Notation lab_ended := (after [OwnerTurn (calm 2)] lab_stopping).

Lemma lab_boot_storable : storable (store_limits lab_boot) (held_snapshot lab_boot).
Proof. apply storable_computed; vm_compute; reflexivity. Qed.
Lemma lab_writing_storable : storable (store_limits lab_writing) (held_snapshot lab_writing).
Proof. apply storable_computed; vm_compute; reflexivity. Qed.
Lemma lab_stopping_storable : storable (store_limits lab_stopping) (held_snapshot lab_stopping).
Proof. apply storable_computed; vm_compute; reflexivity. Qed.

Lemma lab_written_run : rtc clean_step lab_launch lab_written.
Proof.
  apply (transitivity (y := lab_boot)); [apply quiet_run; vm_compute; reflexivity|].
  apply (transitivity (y := lab_serving)); [apply write_run; [exact lab_boot_storable|vm_compute; reflexivity..]|].
  apply (transitivity (y := lab_writing)); [apply quiet_run; vm_compute; reflexivity|].
  apply write_run; [exact lab_writing_storable|vm_compute; reflexivity..].
Qed.
Lemma lab_ended_run : rtc clean_step lab_launch lab_ended.
Proof.
  apply (transitivity (y := lab_written)); [exact lab_written_run|].
  apply (transitivity (y := lab_stopping)); [apply quiet_run; vm_compute; reflexivity|].
  apply write_run; [exact lab_stopping_storable|vm_compute; reflexivity..].
Qed.
Lemma lab_acking : acking 0 lab_written = true.
Proof. vm_compute. reflexivity. Qed.
Lemma lab_ended_owner : co_owner lab_ended = OwnEnded Status_success.
Proof. vm_compute. reflexivity. Qed.
Lemma lab_persisting : persisting lab_server = true.
Proof. reflexivity. Qed.
Lemma lab_sequence : 0 <= sequence_ first_store.
Proof. vm_compute. discriminate. Qed.

Lemma interleaved_durability_witness :
  exists wk st' e0 e, co_workers lab_written !! 0%nat = Some wk /\
    srv_store (co_server lab_written) = Some st' /\
    co_history lab_written !! (wk_seen wk - 1)%nat = Some e0 /\ rtc called e0 e /\
    recovers st' (srv_disk (co_server lab_written)) (export_snapshot e).
Proof.
  destruct (acking_worker 0 lab_written lab_acking) as (wk & r & k & next & Hw & Hp & Ha & Hs).
  exists wk.
  destruct (interleaved_durability lab_server first_store lab_written 0 wk r k next
    lab_persisting eq_refl lab_sequence lab_written_run Hw Hp Ha Hs) as (st' & e0 & e & H1 & H2 & H3 & H4).
  exists st', e0, e. exact (conj Hw (conj H1 (conj H2 (conj H3 H4)))).
Defined.
Lemma clean_threads {S} `{ByteStream S} sv (c : Coordinator S) : rtc clean_step (launch sv) c -> threads_of sv c.
Proof. apply rtc_subrel. by intros x y [Hs _]. Qed.
Lemma orderly_shutdown_witness :
  exists st', srv_store (co_server lab_ended) = Some st' /\
    recovers st' (srv_disk (co_server lab_ended)) (export_snapshot (srv_engine (co_server lab_ended))).
Proof.
  exact (proj2 (orderly_shutdown lab_server lab_ended Status_success
    (clean_threads _ _ lab_ended_run) lab_ended_owner) first_store lab_persisting eq_refl lab_sequence
    lab_ended_run eq_refl).
Defined.
