(* ===== verification/ThreadsStop.v ===== *)
(** * ThreadsStop: shutdown completes

    Once a stop has been requested, every thread comes to its end in a bounded
    number of turns, in whatever order the threads run, and until the service has
    ended some thread can always move, so that no lock and no join blocks shutdown,
    unless the boot snapshot failed: then [start] waits for a lock it holds, and
    nothing ends it. *)

From stdpp Require Import base gmap list strings relations.
From Stdlib Require Import ZArith Lia.
From S2P Require Import Prelude Status Ids Bytes Hash Enums Model Fence Shaper.
From S2P Require Import EngineState EngineAuthority EngineAdmission EngineLifecycle EngineEvidence.
From S2P Require Import EngineInspect Wire Codec Protocol ChannelProps Snapshot Store StoreProps.
From S2P Require Import Service ServiceProps Threads ThreadsInv ThreadsDurable.

(** ** The length of a task *)

(** [t] ends after at most [n] turns of its thread; a save may take two. *)
Fixpoint bounded (n : nat) (t : Task) : Prop :=
  match t with
  | Mutate _ k => (1 <= n)%nat /\ forall a, bounded (n - 1) (k a)
  | Read _ k => (1 <= n)%nat /\ forall a, bounded (n - 1) (k a)
  | Save _ k => (2 <= n)%nat /\ forall status, bounded (n - 2) (k status)
  | Answer _ k | Refuse _ _ _ k => (1 <= n)%nat /\ forall status, bounded (n - 1) (k status)
  | Stop k => (1 <= n)%nat /\ bounded (n - 1) k
  | Finish _ => (1 <= n)%nat
  end.
Lemma bounded_le t : forall n m, bounded n t -> (n <= m)%nat -> bounded m t.
Proof.
  induction t as [A cl k IH|A f k IH|label k IH|r k IH|code detail reason k IH|k IH|fin];
    intros n m; cbn; try (intros [Hn Hk] Hm; split; [lia|intros a; eapply IH; [apply Hk|lia]]).
  - intros [Hn Hk] Hm. split; [lia|]. eapply IH; [exact Hk|lia].
  - lia.
Qed.
Definition task_turns : nat := 8.

Lemma bounded_fail n code detail reason : (2 <= n)%nat -> bounded n (Refuse code detail reason Finish).
Proof. cbn. intros. split; [|intros _]; lia. Qed.
Lemma bounded_refuse n status reason : (2 <= n)%nat -> bounded n (refuse_status status reason).
Proof. apply bounded_fail. Qed.
Lemma bounded_answer n r : (2 <= n)%nat -> bounded n (Answer r Finish).
Proof. cbn. intros. split; [|intros _]; lia. Qed.
Lemma bounded_save_then n label r : (4 <= n)%nat -> bounded n (save_then label (Answer r Finish)).
Proof.
  intros. cbn [save_then bounded]. split; [lia|]. intros status.
  destruct (negb _); [apply bounded_refuse|apply bounded_answer]; lia.
Qed.
Lemma bounded_command n label status : (4 <= n)%nat -> bounded n (finish_command_task label status).
Proof.
  intros. unfold finish_command_task. destruct (negb _); [apply bounded_refuse|apply bounded_save_then]; lia.
Qed.
Lemma bounded_decision n label d : (4 <= n)%nat -> bounded n (finish_decision_task label d).
Proof. intros. destruct d; [apply bounded_save_then|apply bounded_refuse]; lia. Qed.
Lemma bounded_wave n o : (4 <= n)%nat -> bounded n (wave_task o).
Proof.
  intros. destruct o as [o|]; [|apply bounded_refuse; lia]. unfold wave_task.
  destruct (wo_granted o); [apply bounded_save_then|apply bounded_answer]; lia.
Qed.
Lemma bounded_found {A} n (r : Result A) reply : (2 <= n)%nat -> bounded n (found_task r reply).
Proof. intros. destruct r; [apply bounded_answer|apply bounded_refuse]; lia. Qed.
Lemma bounded_decoded {T} n limits (dec : T -> Dec T) initial message k :
  (2 <= n)%nat -> (forall r, bounded n (k r)) -> bounded n (decoded limits dec initial message k).
Proof. intros. unfold decoded. destruct (decode_payload _ _ _ _); [done|by apply bounded_refuse]. Qed.
Lemma bounded_mutate {A} n (cl : Call A) k :
  (forall a, bounded (n - 1) (k a)) -> (1 <= n)%nat -> bounded n (Mutate cl k).
Proof. by split. Qed.
Lemma bounded_read {A} n (f : Engine -> A) k :
  (forall a, bounded (n - 1) (k a)) -> (1 <= n)%nat -> bounded n (Read f k).
Proof. by split. Qed.

Lemma bounded_dispatch limits kind identity message :
  bounded task_turns (dispatch_task limits kind identity message).
Proof.
  unfold dispatch_task, task_turns. destruct (msg_type message); try (apply bounded_fail; lia).
  all: try (apply bounded_decoded; [lia|intros r]).
  all: try (destruct (negb (bool_decide (kind = ClientKind.Sender))); [apply bounded_fail; lia|]).
  all: try (destruct (negb (bool_decide (kind = ClientKind.Sink))); [apply bounded_fail; lia|]).
  all: try (apply bounded_mutate; [intros a|lia]).
  all: try (apply bounded_read; [intros a|lia]).
  all: try first [apply bounded_command; lia|apply bounded_decision; lia|apply bounded_wave; lia
                 |apply bounded_found; lia|apply bounded_answer; lia].
  destruct (_ && _); [apply bounded_fail; lia|]. cbn. repeat (split; [lia|intros]). lia.
Qed.
Lemma bounded_greet label : bounded task_turns (greet_task label).
Proof. unfold task_turns. cbn. repeat (split; [lia|intros]). lia. Qed.

Section threads.
Context {S : Type} `{ByteStream S}.
Implicit Types (c : Coordinator S).

(** ** The turns that are left *)

(** A thread that has not been started counts as one that waits for a message. *)
Definition fresh_turns : nat := task_turns + 4.
Definition worker_left (p : Phase) (n : nat) : Prop :=
  match p with
  | Connecting | Listening _ _ => n = fresh_turns
  | Running t _ => exists d, bounded d t /\ n = (d + 3)%nat
  | Polling _ _ => n = 3%nat
  | Closed => n = 2%nat
  | Done => n = 1%nat
  | Exited => n = 0%nat
  end.
Definition acceptor_left c : nat :=
  match co_acceptor c with
  | AccLoop => 1
  | AccWaiting => fresh_turns + 7 + length (co_connections c)
  | AccReap _ i => fresh_turns + 6 + (length (co_connections c) - i)
  | AccBound _ => fresh_turns + 5
  | AccSpawn _ => fresh_turns + 4
  | AccPush _ => 3
  | AccEnded => 0
  end.
Definition owner_left c : nat :=
  match co_owner c with
  | OwnBoot => 9 + length (co_connections c)
  | OwnWaiting => 6 + length (co_connections c)
  | OwnJoinAccept => 5 + length (co_connections c)
  | OwnJoin i => 4 + (length (co_connections c) - i)
  | OwnFinal => 3
  | OwnEnded _ => 0
  end.
Definition unlocked c : nat := match co_lock c with None => 1 | Some _ => 0 end.
Fixpoint total (ns : list nat) : nat := match ns with [] => 0 | n :: ns => n + total ns end.
Definition turns_left c (n : nat) : Prop :=
  exists ns, Forall2 (fun wk m => worker_left (wk_phase wk) m) (co_workers c) ns /\
    n = (total ns + acceptor_left c + owner_left c + unlocked c)%nat.

Lemma total_insert (ns : list nat) w m m' :
  ns !! w = Some m -> (total (<[w := m']> ns) + m = total ns + m')%nat.
Proof.
  revert w. induction ns as [|x ns IH]; intros [|w] Hw; try done.
  - injection Hw as ->. cbn. lia.
  - specialize (IH w Hw). change (<[Datatypes.S w := m']> (x :: ns)) with (x :: <[w := m']> ns).
    cbn [total]. lia.
Qed.

Lemma left_after_worker c c' w wk wk' n :
  turns_left c n -> co_workers c !! w = Some wk -> co_workers c' = <[w := wk']> (co_workers c) ->
  co_acceptor c' = co_acceptor c -> co_owner c' = co_owner c -> co_connections c' = co_connections c ->
  (forall m, worker_left (wk_phase wk) m -> exists m', worker_left (wk_phase wk') m' /\
     (m' + unlocked c' < m + unlocked c)%nat) ->
  exists n', turns_left c' n' /\ (n' < n)%nat.
Proof.
  intros (ns & Hf & ->) Hw Hw' Ha Ho Hcs Hl.
  destruct (Forall2_lookup_l _ _ _ _ _ Hf Hw) as (x & Hx & Hr). destruct (Hl x Hr) as (y & Hy & Hlt).
  exists (total (<[w := y]> ns) + acceptor_left c' + owner_left c' + unlocked c')%nat. split.
  - exists (<[w := y]> ns). split; [|done]. rewrite Hw'. by apply Forall2_insert.
  - pose proof (total_insert ns w x y Hx). unfold acceptor_left, owner_left. rewrite Ha, Ho, Hcs. lia.
Qed.

(** A step of a task that uses [j] of its turns. *)
Lemma left_after_task c c' w wk wk' t t' next j n :
  turns_left c n -> co_workers c !! w = Some wk -> wk_phase wk = Running t next ->
  co_workers c' = <[w := wk']> (co_workers c) -> wk_phase wk' = Running t' next ->
  co_acceptor c' = co_acceptor c -> co_owner c' = co_owner c -> co_connections c' = co_connections c ->
  (forall d, bounded d t -> (j <= d)%nat /\ bounded (d - j) t') -> (unlocked c' < j + unlocked c)%nat ->
  exists n', turns_left c' n' /\ (n' < n)%nat.
Proof.
  intros Hr Hw Hp Hw' Hp' Ha Ho Hcs Hb Hu. eapply left_after_worker; try done.
  rewrite Hp, Hp'. intros m (d & Hd & ->). destruct (Hb d Hd) as [Hj Hd'].
  exists (d - j + 3)%nat. split; [by exists (d - j)%nat|lia].
Qed.

Lemma next_left next status : exists n, worker_left (next_phase next status) n /\ (n <= 3)%nat.
Proof. destruct next; cbn; repeat case_match; eexists; (split; [reflexivity|lia]). Qed.
Lemma running_left t next : bounded task_turns t ->
  exists n, worker_left (Running t next) n /\ (n < fresh_turns)%nat.
Proof. intros Ht. exists (task_turns + 3)%nat. split; [by exists task_turns|unfold fresh_turns; lia]. Qed.
Lemma closed_left : exists n, worker_left Closed n /\ (n < fresh_turns)%nat.
Proof. exists 2%nat. split; [done|]. unfold fresh_turns. lia. Qed.
Lemma first_left config first :
  exists n, worker_left (first_phase config first) n /\ (n < fresh_turns)%nat.
Proof.
  destruct first as [first|]; cbn [first_phase]; [|apply closed_left].
  destruct (negb _); [apply running_left, bounded_fail; unfold task_turns; lia|].
  destruct (decode_payload _ _ _ _); apply running_left; [apply bounded_greet|].
  apply bounded_refuse. unfold task_turns. lia.
Qed.
Lemma message_left config kind identity m :
  exists n, worker_left (message_phase config kind identity m) n /\ (n < fresh_turns)%nat.
Proof.
  destruct m; cbn [message_phase]; [apply running_left, bounded_dispatch|].
  destruct (_ || _); [apply closed_left|]. apply running_left, bounded_refuse. unfold task_turns. lia.
Qed.

Lemma task_left mo w wk t next c c' n :
  co_workers c !! w = Some wk -> wk_phase wk = Running t next -> task_turn mo w wk t next c = Some c' ->
  turns_left c n -> exists n', turns_left c' n' /\ (n' < n)%nat.
Proof.
  intros Hw Hp Ht Hr.
  assert (forall t' c1 channel seen, co_workers c1 = co_workers c -> co_acceptor c1 = co_acceptor c ->
    co_owner c1 = co_owner c -> co_connections c1 = co_connections c -> co_lock c1 = co_lock c ->
    (forall d, bounded d t -> (1 <= d)%nat /\ bounded (d - 1) t') ->
    exists n', turns_left (set_worker w (mkWorker channel (Running t' next) seen) c1) n' /\ (n' < n)%nat) as One.
  { intros t' c1 channel seen H1 H2 H3 H4 H5 Hb.
    eapply (left_after_task c _ w wk _ t t' next 1);
      [exact Hr|exact Hw|exact Hp|cbn; rewrite H1; reflexivity|reflexivity|exact H2|exact H3|exact H4|exact Hb|].
    unfold unlocked. cbn. rewrite H5. lia. }
  destruct t as [A cl k|A f k|label k|r k|code detail reason k|k|fin]; cbn [task_turn] in Ht.
  - destruct (call _ _ _) as [a e]. injection Ht as <-. apply One; try done. by intros d [? Hk].
  - injection Ht as <-. apply One; try done. by intros d [? Hk].
  - destruct (negb _).
    { injection Ht as <-. eapply (left_after_task c _ w wk _ (Save label k) _ next 2); try done.
      - by intros d [? Hk].
      - unfold unlocked. cbn. lia. }
    unfold held_by in Ht. destruct (co_lock c) as [h|] eqn:El.
    + case_bool_decide; [|unfold take_lock in Ht; by rewrite El in Ht].
      pose proof (write_locked_rest (append (mo_append mo) (mo_persist mo) label) h c) as Hrest.
      destruct (write_locked _ h c) as [status c1]. cbn [snd] in Hrest. injection Ht as <-.
      destruct Hrest as (Hws & Hcs & _ & Ha & Ho & _ & Hl & _).
      eapply (left_after_task c _ w wk _ (Save label k) _ next 2);
        [exact Hr|exact Hw|exact Hp|cbn; rewrite Hws; reflexivity|reflexivity|exact Ha|exact Ho|exact Hcs| |].
      * by intros d [? Hk].
      * unfold unlocked. cbn. rewrite Hl, El. lia.
    + unfold take_lock in Ht. rewrite El in Ht. injection Ht as <-.
      eapply (left_after_worker c _ w wk wk); [exact Hr|exact Hw|cbn; by rewrite list_insert_id|done..|].
      intros m Hm. exists m. split; [done|]. unfold unlocked. cbn. rewrite El. lia.
  - injection Ht as <-. unfold on_channel. destruct (send_reply _ _) as [sent cn].
    apply One; try done. by intros d [? Hk].
  - injection Ht as <-. unfold on_channel. destruct (fail _ _ _ _) as [sent cn].
    apply One; try done. by intros d [? Hk].
  - injection Ht as <-. apply One; try done.
  - injection Ht as <-. destruct (next_left next fin) as (x & Hx & Hle).
    eapply left_after_worker; [exact Hr|exact Hw|reflexivity|done..|].
    rewrite Hp. intros m (d & Hd & ->). exists x. split; [done|]. cbn in Hd. unfold unlocked. cbn. lia.
Qed.

Lemma worker_turn_left mo w c c' n :
  srv_stop (co_server c) = true -> worker_turn mo w c = Some c' -> turns_left c n ->
  exists n', turns_left c' n' /\ (n' < n)%nat.
Proof.
  intros Hstop Ht Hr. unfold worker_turn in Ht. destruct (co_workers c !! w) as [wk|] eqn:Hw; [|done].
  destruct (wk_phase wk) as [|t next|kind identity|kind identity| | |] eqn:Hp; try done.
  - destruct (receive _) as [first channel]. injection Ht as <-.
    destruct (first_left (srv_config (co_server c)) first) as (x & Hx & Hlt).
    eapply left_after_worker; [exact Hr|exact Hw|reflexivity|done..|]. rewrite Hp. intros m ->.
    exists x. split; [exact Hx|]. unfold unlocked, fresh_turns, task_turns in *. cbn. lia.
  - by eapply task_left.
  - rewrite Hstop in Ht. injection Ht as <-.
    eapply left_after_worker; [exact Hr|exact Hw|reflexivity|done..|]. rewrite Hp. intros m ->.
    exists 2%nat. split; [done|]. unfold unlocked. cbn. lia.
  - destruct (receive _) as [message channel]. injection Ht as <-.
    destruct (message_left (srv_config (co_server c)) kind identity message) as (x & Hx & Hlt).
    eapply left_after_worker; [exact Hr|exact Hw|reflexivity|done..|]. rewrite Hp. intros m ->.
    exists x. split; [exact Hx|]. unfold unlocked, fresh_turns, task_turns in *. cbn. lia.
  - injection Ht as <-.
    eapply left_after_worker; [exact Hr|exact Hw|reflexivity|done..|]. rewrite Hp. intros m ->.
    exists 1%nat. split; [done|]. unfold unlocked. cbn. lia.
  - injection Ht as <-.
    eapply left_after_worker; [exact Hr|exact Hw|reflexivity|done..|]. rewrite Hp. intros m ->.
    exists 0%nat. split; [done|]. unfold unlocked. cbn. lia.
Qed.

Lemma left_after_rest c c' n :
  turns_left c n -> co_workers c' = co_workers c ->
  (acceptor_left c' + owner_left c' + unlocked c' < acceptor_left c + owner_left c + unlocked c)%nat ->
  exists n', turns_left c' n' /\ (n' < n)%nat.
Proof.
  intros (ns & Hf & ->) Hw Hlt. eexists. split; [exists ns; split; [by rewrite Hw|reflexivity]|]. lia.
Qed.

Lemma accept_turn_left accepted c c' n :
  srv_stop (co_server c) = true -> accept_turn accepted c = Some c' -> turns_left c n ->
  exists n', turns_left c' n' /\ (n' < n)%nat.
Proof.
  intros Hstop Ht Hr. unfold accept_turn in Ht.
  destruct (co_acceptor c) as [| |socket i|socket|socket|w|] eqn:Ea.
  - rewrite Hstop in Ht. injection Ht as <-. apply (left_after_rest c); try done.
    unfold acceptor_left, owner_left, unlocked. cbn. rewrite Ea. lia.
  - destruct accepted as [socket|status]; injection Ht as <-; apply (left_after_rest c); try done;
      unfold acceptor_left, owner_left, unlocked; cbn; rewrite ?Hstop, Ea; cbn; lia.
  - destruct (co_connections c !! i) as [w|] eqn:Ew.
    + assert (i < length (co_connections c))%nat as Hlt by (by eapply lookup_lt_Some).
      assert (length (delete i (co_connections c)) = length (co_connections c) - 1)%nat as Hd
        by (apply length_delete; by rewrite Ew).
      destruct (phase_of w c) as [[]|]; try done; injection Ht as <-; apply (left_after_rest c); try done;
        unfold acceptor_left, owner_left, unlocked; cbn -[delete]; rewrite Ea, ?Hd;
        destruct (co_owner c); lia.
    + injection Ht as <-. apply (left_after_rest c); try done.
      unfold acceptor_left, owner_left, unlocked. cbn. rewrite Ea. lia.
  - destruct (_ <=? _); injection Ht as <-; apply (left_after_rest c); try done;
      unfold acceptor_left, owner_left, unlocked; cbn; rewrite Ea; lia.
  - injection Ht as <-. destruct Hr as (ns & Hf & ->). eexists. split.
    + exists (ns ++ [fresh_turns]). split; [|reflexivity]. cbn. apply Forall2_app; [done|].
      by apply Forall2_cons.
    + assert (total (ns ++ [fresh_turns]) = total ns + fresh_turns)%nat as ->
        by (induction ns as [|x ns IH] in |- *; [cbn; lia|cbn [app total]; lia]).
      unfold acceptor_left, owner_left, unlocked. cbn -[fresh_turns]. rewrite Ea. lia.
  - injection Ht as <-. apply (left_after_rest c); try done.
    unfold acceptor_left, owner_left, unlocked. cbn. rewrite Ea, length_app. cbn.
    destruct (co_owner c); lia.
  - done.
Qed.

Lemma owner_snapshot_left block mo c c' k n :
  owner_snapshot block mo c k = Some c' -> turns_left c n ->
  (forall status c1, co_workers c1 = co_workers c -> co_acceptor c1 = co_acceptor c ->
     co_connections c1 = co_connections c ->
     co_workers (k status c1) = co_workers c /\ acceptor_left (k status c1) = acceptor_left c /\
     (owner_left (k status c1) + 2 <= owner_left c)%nat) ->
  exists n', turns_left c' n' /\ (n' < n)%nat.
Proof.
  intros Ht Hr Hk. assert (forall c0, unlocked c0 <= 1)%nat as Hu
    by (intros c0; unfold unlocked; destruct (co_lock c0); lia).
  unfold owner_snapshot, held_by in Ht. destruct (negb _).
  { injection Ht as <-. destruct (Hk Status_success c) as (? & ? & ?); try done.
    apply (left_after_rest c); try done. pose proof (Hu (k Status_success c)). lia. }
  destruct (co_lock c) as [h|] eqn:El.
  - case_bool_decide; [|unfold take_lock in Ht; by rewrite El in Ht].
    pose proof (write_locked_rest (persist (mo_persist mo)) h c) as Hrest.
    destruct (write_locked _ h c) as [status c1]. cbn [snd] in Hrest. injection Ht as <-.
    destruct Hrest as (Hws & Hcs & _ & Ha & _).
    destruct (Hk status c1) as (? & ? & ?); try done. apply (left_after_rest c); try done.
    pose proof (Hu (k status c1)). lia.
  - unfold take_lock in Ht. rewrite El in Ht. injection Ht as <-. apply (left_after_rest c); try done.
    unfold acceptor_left, owner_left, unlocked. cbn. rewrite El. lia.
Qed.

Lemma owner_turn_left mo c c' n :
  owner_turn mo c = Some c' -> turns_left c n -> exists n', turns_left c' n' /\ (n' < n)%nat.
Proof.
  intros Ht Hr. unfold owner_turn in Ht. destruct (co_owner c) as [| | |i| |status] eqn:Eo.
  - eapply owner_snapshot_left; [exact Ht|exact Hr|]. intros status c1 Hw Ha Hcs. cbv beta.
    unfold acceptor_left, owner_left. rewrite Eo.
    destruct (negb _); cbn; rewrite Ha, Hcs; (split_and!; [done..|lia]).
  - destruct (_ || _); [|done]. injection Ht as <-. apply (left_after_rest c); try done.
    unfold acceptor_left, owner_left, unlocked. cbn. rewrite Eo. lia.
  - destruct (co_acceptor c) eqn:Ea; try done. injection Ht as <-. apply (left_after_rest c); try done.
    unfold acceptor_left, owner_left, unlocked. cbn. rewrite Eo. lia.
  - destruct (co_connections c !! i) as [w|] eqn:Ew.
    + assert (i < length (co_connections c))%nat as Hlt by (by eapply lookup_lt_Some).
      destruct (phase_of w c) as [[]|]; try done. injection Ht as <-. apply (left_after_rest c); try done.
      unfold acceptor_left, owner_left, unlocked. cbn. rewrite Eo. lia.
    + injection Ht as <-. apply (left_after_rest c); try done.
      unfold acceptor_left, owner_left, unlocked. cbn. rewrite Eo. destruct (co_acceptor c); lia.
  - eapply owner_snapshot_left; [exact Ht|exact Hr|]. intros status c1 Hw Ha Hcs. cbv beta.
    unfold acceptor_left, owner_left. rewrite Eo.
    destruct (negb _); cbn; rewrite Ha, Hcs; (split_and!; [done..|lia]).
  - done.
Qed.

(** A turn of one of the service's own threads. *)
Definition inside (x : Turn S) : Prop := x <> StopTurn.
Lemma turn_left x c c' n :
  inside x -> srv_stop (co_server c) = true -> turn x c = Some c' -> turns_left c n ->
  exists n', turns_left c' n' /\ (n' < n)%nat.
Proof.
  intros Hx Hs Ht Hr. destruct x as [w mo|accepted|mo|]; cbn in Ht; [..|done].
  - by eapply worker_turn_left.
  - by eapply accept_turn_left.
  - by eapply owner_turn_left.
Qed.

(** ** Who holds the lock *)

Definition task_fits (wk : Worker S) : Prop :=
  forall t next, wk_phase wk = Running t next -> bounded task_turns t.
Definition holder_in c (h : Holder) : Prop :=
  match ho_thread h with
  | InHandler w =>
      exists wk label k next, co_workers c !! w = Some wk /\ wk_phase wk = Running (Save label k) next
  | InStart => forall status, co_owner c <> OwnEnded status
  | InWait => co_owner c = OwnFinal
  end.
Definition at_wait c : Prop := co_owner c = OwnBoot \/ co_owner c = OwnWaiting.

Record sane c : Prop := {
  sn_tasks : forall w wk, co_workers c !! w = Some wk -> task_fits wk;
  sn_lock : forall h, co_lock c = Some h -> persisting (co_server c) = true /\ holder_in c h;
  sn_running : srv_running (co_server c) = true \/ ~ at_wait c;
  sn_stop : srv_stop (co_server c) = true -> at_wait c -> srv_stop_requested (co_server c) = true
}.

(** Both stop flags as they were, or both set; the rest of the flags as they were. *)
Definition flags sv sv' : Prop :=
  persisting sv' = persisting sv /\ srv_running sv' = srv_running sv /\
  ((srv_stop sv' = srv_stop sv /\ srv_stop_requested sv' = srv_stop_requested sv) \/
   (srv_stop sv' = true /\ srv_stop_requested sv' = true)).
Lemma flags_refl sv : flags sv sv.
Proof. split; [done|]. split; [done|]. by left. Qed.
Lemma flags_stats f sv : flags sv (upd_stats f sv).
Proof. split; [done|]. split; [done|]. by left. Qed.
Lemma flags_stop sv sv' : flags sv sv' -> srv_stop sv = true -> srv_stop sv' = true.
Proof. intros (_ & _ & [[-> _]|[-> _]]); done. Qed.

Lemma sane_flags c c' :
  sane c -> flags (co_server c) (co_server c') -> co_owner c' = co_owner c ->
  (forall w wk, co_workers c' !! w = Some wk -> task_fits wk) ->
  (forall h, co_lock c' = Some h -> co_lock c = Some h /\ (holder_in c h -> holder_in c' h)) -> sane c'.
Proof.
  intros [Ht Hl Hr Hs] (Hp & Hru & Hst) Ho Ht' Hl'. unfold at_wait in *. split; unfold at_wait; try done.
  - intros h Hh. destruct (Hl' h Hh) as [Hh' Hho]. destruct (Hl h Hh') as [Hpe Hi].
    rewrite Hp. split; [done|by apply Hho].
  - by rewrite Hru, Ho.
  - rewrite Ho. destruct Hst as [[-> ->]|[_ ->]]; done.
Qed.

Lemma sane_worker c c' w wk wk' :
  sane c -> co_workers c !! w = Some wk -> co_workers c' = <[w := wk']> (co_workers c) ->
  flags (co_server c) (co_server c') -> co_owner c' = co_owner c -> task_fits wk' ->
  (co_lock c' = co_lock c /\ (forall label k next, wk_phase wk <> Running (Save label k) next) \/
   co_lock c' = None) -> sane c'.
Proof.
  intros Hs Hw Hw' Hf Ho Ht Hl. apply (sane_flags c); try done.
  - intros v vk. rewrite Hw'. destruct (decide (v = w)) as [->|Hne].
    + rewrite list_lookup_insert_eq by (by eapply lookup_lt_Some). by intros [= <-].
    + rewrite list_lookup_insert_ne by done. apply (sn_tasks c Hs).
  - intros h Hh. destruct Hl as [[Hl Hns]|Hl]; [|congruence]. split; [congruence|]. unfold holder_in.
    rewrite Ho. destruct (ho_thread h) as [v| |]; [|done..].
    intros (vk & label & k & next & Hv & Hp). exists vk, label, k, next. split; [|done].
    rewrite Hw', list_lookup_insert_ne; [done|]. intros ->. assert (vk = wk) as -> by congruence.
    by eapply Hns.
Qed.

Lemma write_flags op h c : flags (co_server c) (co_server (write_locked op h c).2).
Proof.
  unfold write_locked. destruct (srv_store (co_server c)) as [st|] eqn:E; [|apply flags_refl].
  destruct (op _ _ _) as [[status st'] disk']. cbn. unfold flags, persisting. cbn. rewrite E.
  destruct (Status_ok status); (split; [done|]; split; [done|by left]).
Qed.
Lemma take_lock_sane thread c c' :
  sane c -> take_lock thread c = Some c' -> persisting (co_server c) = true ->
  (forall s n, holder_in c (mkHolder thread s n)) -> sane c'.
Proof.
  intros Hs Ht Hp Hh. unfold take_lock in Ht. destruct (co_lock c); [done|]. injection Ht as <-.
  destruct Hs as [Ht Hl Hr Hst]. split; try done. intros h [= <-]. split; [done|]. apply Hh.
Qed.

Lemma fits_shorter t t' n : bounded task_turns t -> (forall d, bounded d t -> bounded (d - n) t') ->
  bounded task_turns t'.
Proof. intros Ht Hn. eapply bounded_le; [apply Hn, Ht|lia]. Qed.

(** A step of a task other than its save. *)
Lemma task_step_sane c c1 w wk t t' next channel seen :
  sane c -> co_workers c !! w = Some wk -> wk_phase wk = Running t next ->
  (forall label k, t <> Save label k) -> (forall d, bounded d t -> bounded (d - 1) t') ->
  co_workers c1 = co_workers c -> co_owner c1 = co_owner c -> co_lock c1 = co_lock c ->
  flags (co_server c) (co_server c1) ->
  sane (set_worker w (mkWorker channel (Running t' next) seen) c1).
Proof.
  intros Hs Hw Hp Hns Hd Hw1 Ho Hl Hf. pose proof (sn_tasks c Hs w wk Hw _ _ Hp) as Hb.
  eapply (sane_worker c _ w wk); [done|exact Hw|cbn; rewrite Hw1; reflexivity|exact Hf|exact Ho| |].
  - intros t1 n1 [= <- <-]. by apply (fits_shorter t _ 1).
  - left. split; [exact Hl|]. rewrite Hp. intros label k n1 [= Ht _]. by eapply Hns.
Qed.

Lemma save_sane mo w wk label k next c c' :
  sane c -> co_workers c !! w = Some wk -> wk_phase wk = Running (Save label k) next ->
  task_turn mo w wk (Save label k) next c = Some c' -> sane c'.
Proof.
  intros Hs Hw Hp Ht. pose proof (sn_tasks c Hs w wk Hw _ _ Hp) as Hb. cbn [task_turn] in Ht.
  assert (forall wk' status, wk_phase wk' = Running (k status) next -> task_fits wk') as Hfit.
  { intros wk' status E t1 n1 E1. assert (t1 = k status) as -> by congruence.
    apply (fits_shorter _ _ 2 Hb). by intros d [_ Hk]. }
  destruct (persisting (co_server c)) eqn:Epe; cbn [negb] in Ht.
  2: { injection Ht as <-. eapply sane_worker; [done|exact Hw|reflexivity|apply flags_refl|done| |].
       - by eapply Hfit.
       - right. cbn. destruct (co_lock c) as [h|] eqn:El; [|done].
         by destruct (sn_lock c Hs h El); congruence. }
  unfold held_by in Ht. destruct (co_lock c) as [h|] eqn:El.
  2: { eapply take_lock_sane; [done|exact Ht|done|]. intros s n. cbn. by exists wk, label, k, next. }
  case_bool_decide; [|unfold take_lock in Ht; by rewrite El in Ht].
  pose proof (write_locked_rest (append (mo_append mo) (mo_persist mo) label) h c) as Hrest.
  pose proof (write_flags (append (mo_append mo) (mo_persist mo) label) h c) as Hfl.
  destruct (write_locked _ h c) as [status c1]. cbn [snd] in *. injection Ht as <-.
  destruct Hrest as (Hws & _ & _ & _ & Ho & _ & Hl & _).
  eapply sane_worker; [done|exact Hw|cbn; rewrite Hws; reflexivity|exact Hfl|exact Ho| |by right].
  by eapply Hfit.
Qed.

Lemma task_sane mo w wk t next c c' :
  sane c -> co_workers c !! w = Some wk -> wk_phase wk = Running t next ->
  task_turn mo w wk t next c = Some c' -> sane c'.
Proof.
  intros Hs Hw Hp Ht. destruct t as [A cl k|A f k|label k|r k|code detail reason k|k|fin].
  - cbn [task_turn] in Ht. destruct (call _ _ _) as [a e]. injection Ht as <-.
    eapply task_step_sane; try done; [by intros d [_ Hk]|]. split; [done|]. split; [done|by left].
  - injection Ht as <-. eapply task_step_sane; try done; [by intros d [_ Hk]|apply flags_refl].
  - by eapply save_sane.
  - injection Ht as <-. unfold on_channel.
    pose proof (reply_server r (mkConn (co_server c) (wk_channel wk))) as Hsv.
    destruct (send_reply _ _) as [sent cn]. cbn in Hsv.
    eapply task_step_sane; try done; [by intros d [_ Hk]|]. cbn. rewrite Hsv. apply flags_refl.
  - injection Ht as <-. unfold on_channel.
    pose proof (fail_server code detail reason (mkConn (co_server c) (wk_channel wk))) as Hsv.
    destruct (fail _ _ _ _) as [sent cn]. cbn in Hsv.
    eapply task_step_sane; try done; [by intros d [_ Hk]|]. cbn. rewrite Hsv. apply flags_stats.
  - injection Ht as <-. eapply task_step_sane; try done; [by intros d [_ Hk]|].
    split; [done|]. split; [done|by right].
  - injection Ht as <-.
    eapply sane_worker; [done|exact Hw|reflexivity|apply flags_refl|done| |left; by rewrite Hp].
    intros t1 n1 E. exfalso. revert E. cbn. destruct next; cbn; repeat case_match; done.
Qed.

Lemma worker_sane mo w c c' : sane c -> worker_turn mo w c = Some c' -> sane c'.
Proof.
  intros Hs Ht. unfold worker_turn in Ht. destruct (co_workers c !! w) as [wk|] eqn:Hw; [|done].
  assert (forall wk' c1, co_workers c1 = co_workers c -> flags (co_server c) (co_server c1) ->
    co_owner c1 = co_owner c -> co_lock c1 = co_lock c -> task_fits wk' ->
    (forall label k next, wk_phase wk <> Running (Save label k) next) ->
    sane (set_worker w wk' c1)) as Step.
  { intros wk' c1 H1 H2 H3 H4 H5 H6.
    eapply (sane_worker c _ w wk); [done|done|cbn; rewrite H1; reflexivity|done|done|done|by left]. }
  assert (forall wk', (forall t next, wk_phase wk' <> Running t next) -> task_fits wk') as Idle
    by (intros wk' Hn t next E; by destruct (Hn t next)).
  destruct (wk_phase wk) as [|t next|kind identity|kind identity| | |] eqn:Hp; try done.
  - destruct (receive _) as [first channel]. injection Ht as <-. apply Step; try done.
    + cbn. destruct first; [|apply flags_stats].
      destruct (first_phase _ _) as [|? []| | | | |]; first [apply flags_refl|apply flags_stats].
    + intros t next E. cbn in E. destruct first as [first|]; cbn in E; [|done].
      destruct (negb _); [injection E as <- _; apply bounded_fail; unfold task_turns; lia|].
      destruct (decode_payload _ _ _ _); injection E as <- _; [apply bounded_greet|].
      apply bounded_refuse. unfold task_turns. lia.
  - by eapply task_sane.
  - injection Ht as <-. apply Step; try done; [apply flags_refl|]. apply Idle. cbn. by destruct (srv_stop _).
  - destruct (receive _) as [m channel]. injection Ht as <-. apply Step; try done.
    + cbn. destruct m; [apply flags_stats|apply flags_refl].
    + intros t next E. cbn in E. destruct m; cbn in E; [injection E as <- _; apply bounded_dispatch|].
      destruct (_ || _); [done|]. injection E as <- _. apply bounded_refuse. unfold task_turns. lia.
  - injection Ht as <-. apply Step; try done; apply flags_refl.
  - injection Ht as <-. apply Step; try done; apply flags_refl.
Qed.

Lemma accept_sane accepted c c' : sane c -> accept_turn accepted c = Some c' -> sane c'.
Proof.
  intros Hs Ht.
  assert (flags (co_server c) (co_server c') /\ co_owner c' = co_owner c /\ co_lock c' = co_lock c /\
    (co_workers c' = co_workers c \/
     exists channel, co_workers c' = co_workers c ++ [mkWorker channel Connecting 0])) as (Hf & Ho & Hl & Hw).
  { unfold accept_turn in Ht. repeat case_match; try done; injection Ht as <-;
      (split; [first [apply flags_refl|apply flags_stats]|]; split; [done|]; split; [done|]; eauto). }
  apply (sane_flags c); try done.
  - intros w wk. destruct Hw as [->|[channel ->]]; [apply (sn_tasks c Hs)|].
    rewrite lookup_snoc_Some. intros [[_ Hv]|[_ <-]]; [by eapply (sn_tasks c Hs)|done].
  - intros h Hh. split; [congruence|]. unfold holder_in. rewrite Ho. destruct (ho_thread h) as [v| |]; [|done..].
    intros (vk & label & k & next & Hv & Hp). exists vk, label, k, next. split; [|done].
    destruct Hw as [->|[channel ->]]; [done|by apply lookup_app_l_Some].
Qed.

(** The owner moves on outside the block of [wait], or releases the lock. *)
Lemma owner_moves_sane c c' :
  sane c -> co_workers c' = co_workers c -> persisting (co_server c') = persisting (co_server c) ->
  (forall h, co_lock c' = Some h ->
     co_lock c = Some h /\ ho_thread h <> InWait /\ forall status, co_owner c' <> OwnEnded status) ->
  (srv_running (co_server c') = true \/ ~ at_wait c') ->
  (srv_stop (co_server c') = true -> at_wait c' -> srv_stop_requested (co_server c') = true) -> sane c'.
Proof.
  intros [Ht Hl Hr Hs] Hw Hp Hlk Hru Hst. split; rewrite ?Hw, ?Hp; try done.
  intros h Hh. destruct (Hlk h Hh) as (Hh' & Hn & He). destruct (Hl h Hh') as [Hpe Hi]. split; [done|].
  unfold holder_in in *. rewrite Hw. by destruct (ho_thread h).
Qed.
Lemma held_elsewhere c h :
  sane c -> co_owner c <> OwnFinal -> co_lock c = Some h -> ho_thread h <> InWait.
Proof.
  intros Hs H1 Hh E. destruct (sn_lock c Hs h Hh) as [_ Hi]. unfold holder_in in Hi. by rewrite E in Hi.
Qed.

Lemma snapshot_sane block mo c c' k :
  sane c -> owner_at block c -> owner_snapshot block mo c k = Some c' ->
  (forall status c1, flags (co_server c) (co_server c1) -> co_workers c1 = co_workers c ->
     co_owner c1 = co_owner c -> co_lock c1 = None ->
     (forall h, co_lock c = Some h -> ho_thread h = block) -> sane (k status c1)) -> sane c'.
Proof.
  intros Hs Ho Ht Hk. unfold owner_snapshot, held_by in Ht.
  destruct (persisting (co_server c)) eqn:Epe; cbn [negb] in Ht.
  2: { assert (co_lock c = None) as El.
       { destruct (co_lock c) as [h|] eqn:El; [|done]. by destruct (sn_lock c Hs h El); congruence. }
       injection Ht as <-. apply Hk; try done; [apply flags_refl|]. by rewrite El. }
  destruct (co_lock c) as [h|] eqn:El.
  2: { eapply take_lock_sane; [done|exact Ht|done|]. intros s n. unfold holder_in. cbn.
       by destruct Ho as [[-> ->]|[-> Ho]]. }
  case_bool_decide; [|unfold take_lock in Ht; by rewrite El in Ht].
  pose proof (write_locked_rest (persist (mo_persist mo)) h c) as Hrest.
  pose proof (write_flags (persist (mo_persist mo)) h c) as Hfl.
  destruct (write_locked _ h c) as [status c1]. cbn [snd] in *. injection Ht as <-.
  apply Hk; try done; [apply Hrest..|]. by intros h' [= <-].
Qed.

Lemma owner_sane mo c c' : sane c -> owner_turn mo c = Some c' -> sane c'.
Proof.
  intros Hs Ht. unfold owner_turn in Ht. pose proof (held_elsewhere c) as Hel.
  destruct (co_owner c) as [| | |i| |status] eqn:Eo.
  - eapply snapshot_sane; [done|by left|exact Ht|]. intros status c1 (Hp & Hr & Hst) Hw Ho Hl Hb.
    assert (srv_running (co_server c1) = true) as Hr1.
    { rewrite Hr. destruct (sn_running c Hs) as [?|Hn]; [done|]. destruct Hn. by left. }
    assert (srv_stop (co_server c1) = true -> srv_stop_requested (co_server c1) = true) as Hs1.
    { intros E. destruct Hst as [[E1 ->]|[_ ->]]; [|done]. apply (sn_stop c Hs); [congruence|by left]. }
    cbv beta. destruct (negb _); (apply (owner_moves_sane c); [done..| | |]); cbn; rewrite ?Hl; try done;
      first [by left|intros E _; by apply Hs1|idtac]. intros h Hh. split; [done|]. by rewrite (Hb h Hh).
  - destruct (_ || _); [|done]. injection Ht as <-. apply (owner_moves_sane c); try done.
    + intros h Hh. split; [done|]. split; [by apply Hel|done].
    + right. intros [E|E]; done.
    + intros _ [E|E]; done.
  - destruct (co_acceptor c); try done. injection Ht as <-. apply (owner_moves_sane c); try done.
    + intros h Hh. split; [done|]. split; [by apply Hel|done].
    + right. intros [E|E]; done.
    + intros _ [E|E]; done.
  - assert (forall c', co_workers c' = co_workers c -> co_server c' = co_server c -> co_lock c' = co_lock c ->
      ~ at_wait c' -> (forall status, co_owner c' <> OwnEnded status) -> sane c') as Move.
    { intros c1 H1 H2 H3 H4 H5. apply (owner_moves_sane c); rewrite ?H2, ?H3; try done.
      - intros h Hh. split; [done|]. split; [by apply Hel|done].
      - by right. }
    destruct (co_connections c !! i) as [w|].
    + destruct (phase_of w c) as [[]|]; try done. injection Ht as <-. apply Move; try done. by intros [E|E].
    + injection Ht as <-. apply Move; try done. by intros [E|E].
  - eapply snapshot_sane; [done|by right|exact Ht|]. intros status c1 (Hp & Hr & Hst) Hw Ho Hl _.
    cbv beta. destruct (negb _); (apply (owner_moves_sane c); [done..| | |]); cbn; rewrite ?Hl; try done;
      first [by right; intros [E|E]|by intros _ [E|E]].
  - done.
Qed.

Lemma sane_step c c' : sane c -> step c c' -> sane c'.
Proof.
  intros Hs [[w mo|accepted|mo|] Ht]; cbn in Ht.
  - by eapply worker_sane.
  - by eapply accept_sane.
  - by eapply owner_sane.
  - injection Ht as <-. apply (sane_flags c); try done; [|apply (sn_tasks c Hs)].
    split; [done|]. split; [done|by right].
Qed.
Lemma sane_launch sv : srv_stop sv = false -> sane (launch sv).
Proof. intros Hs. split; try done; cbn; [by left|]. by rewrite Hs. Qed.
Lemma sane_run sv c : srv_stop sv = false -> threads_of sv c -> sane c.
Proof. intros Hs. apply threads_of_inv; [by apply sane_launch|apply sane_step]. Qed.

(** ** Some thread can move *)

Definition movable c : Prop := exists x c', inside x /\ turn x c = Some c'.
(** [start] waits, in [wait], with the lock of its block for the boot snapshot. *)
Definition boot_failed c : Prop :=
  exists h, co_lock c = Some h /\ ho_thread h = InStart /\ co_owner c <> OwnBoot.

Lemma holder_moves c h : sane c -> co_lock c = Some h -> movable c \/ boot_failed c.
Proof.
  intros Hs Hl. destruct (sn_lock c Hs h Hl) as [Hp Hi]. unfold holder_in in Hi.
  destruct (ho_thread h) as [w| |] eqn:Eh.
  - left. destruct Hi as (wk & label & k & next & Hw & Hph).
    assert (exists c', worker_turn (calm 0) w c = Some c') as [c' Ht].
    { unfold worker_turn. rewrite Hw, Hph. cbn [task_turn]. rewrite Hp. cbn [negb]. unfold held_by.
      rewrite Hl, bool_decide_true by done. destruct (write_locked _ _ _). eauto. }
    by exists (WorkerTurn w (calm 0)), c'.
  - destruct (co_owner c) eqn:Eo; try (right; exists h; by rewrite Eo).
    left. assert (exists c', owner_turn (calm 0) c = Some c') as [c' Ht].
    { unfold owner_turn, owner_snapshot. rewrite Eo, Hp. cbn [negb]. unfold held_by.
      rewrite Hl, bool_decide_true by done. destruct (write_locked _ _ _). eauto. }
    by exists (OwnerTurn (calm 0)), c'.
  - left. assert (exists c', owner_turn (calm 0) c = Some c') as [c' Ht].
    { unfold owner_turn, owner_snapshot. rewrite Hi, Hp. cbn [negb]. unfold held_by.
      rewrite Hl, bool_decide_true by done. destruct (write_locked _ _ _). eauto. }
    by exists (OwnerTurn (calm 0)), c'.
Qed.

Lemma worker_moves c w wk :
  co_workers c !! w = Some wk -> exited (wk_phase wk) = false -> co_lock c = None -> movable c.
Proof.
  intros Hw He Hl. assert (exists c', worker_turn (calm 0) w c = Some c') as [c' Ht].
  { unfold worker_turn. rewrite Hw.
    destruct (wk_phase wk) as [|t next|kind identity|kind identity| | |]; try (by eauto).
    - destruct (receive _). eauto.
    - destruct t as [A cl k|A f k|label k|r k|code detail reason k|k|fin]; cbn [task_turn]; eauto.
      + destruct (call _ _ _). eauto.
      + destruct (negb _); [eauto|]. unfold held_by, take_lock. rewrite Hl. eauto.
    - destruct (receive _). eauto. }
  by exists (WorkerTurn w (calm 0)), c'.
Qed.

Lemma owner_snapshot_moves block c k :
  co_lock c = None -> exists c', owner_snapshot block (calm 0) c k = Some c'.
Proof.
  intros Hl. unfold owner_snapshot, held_by, take_lock. rewrite Hl. destruct (negb _); eauto.
Qed.

(** With every handler gone, the accept thread ends and then the owner does. *)
Lemma rest_moves cfg c :
  counted cfg c -> sane c -> (forall w, live (co_workers c) w = false) -> co_lock c = None ->
  srv_stop (co_server c) = true -> (forall status, co_owner c <> OwnEnded status) -> movable c.
Proof.
  intros Hi Hs Hall Hl Hst Hne.
  assert (forall w, phase_of w c = None \/ phase_of w c = Some Exited) as Hph.
  { intros w. unfold phase_of. destruct (co_workers c !! w) as [wk|] eqn:E; [right|by left].
    cbn. by rewrite (all_exited c w wk Hall E). }
  assert (co_acceptor c = AccEnded \/
    exists c', accept_turn (Err (Status_error ErrorCode.IoFailure "")) c = Some c') as [Ha|[c' Ht]].
  { unfold accept_turn. destruct (co_acceptor c) as [| |socket i|socket|socket|w|]; eauto.
    - destruct (co_connections c !! i) as [w|]; [|eauto]. destruct (Hph w) as [-> | ->]; eauto.
    - destruct (_ <=? _); eauto. }
  2: { by exists (AcceptTurn (Err (Status_error ErrorCode.IoFailure ""))), c'. }
  assert (exists c', owner_turn (calm 0) c = Some c') as [c' Ht].
  { unfold owner_turn. rewrite Ha.
    destruct (co_owner c) as [| | |i| |status] eqn:Eo; try apply owner_snapshot_moves; eauto.
    - assert (srv_stop_requested (co_server c) = true) as -> by (apply (sn_stop c Hs); [done|by right]).
      eauto.
    - destruct (co_connections c !! i) as [w|] eqn:Ew; [|eauto].
      assert (is_Some (co_workers c !! w)) as [wk Hwk].
      { apply lookup_lt_is_Some, (th_range cfg c Hi). unfold listed. apply elem_of_app. left.
        by eapply list_elem_of_lookup_2. }
      unfold phase_of. rewrite Hwk. cbn. rewrite (all_exited c w wk Hall Hwk). eauto.
    - by destruct (Hne status). }
  by exists (OwnerTurn (calm 0)), c'.
Qed.

Lemma stopped_moves cfg c :
  counted cfg c -> sane c -> srv_stop (co_server c) = true ->
  (forall status, co_owner c <> OwnEnded status) -> movable c \/ boot_failed c.
Proof.
  intros Hi Hs Hst Hne. destruct (co_lock c) as [h|] eqn:El; [by eapply holder_moves|]. left.
  destruct (Nat.eq_dec (handlers c) 0) as [Hz|Hz].
  - apply (rest_moves cfg); try done. intros w. destruct (live (co_workers c) w) eqn:E; [|done].
    exfalso. unfold handlers, alive in Hz. apply length_zero_iff_nil in Hz.
    assert (In w (List.filter (live (co_workers c)) (seq 0 (length (co_workers c))))) as Hin.
    { apply filter_In. split; [|done]. apply in_seq. apply live_range in E. lia. }
    by rewrite Hz in Hin.
  - unfold handlers, alive in Hz.
    destruct (List.filter _ _) as [|w ids] eqn:Ef; [done|].
    assert (In w (List.filter (live (co_workers c)) (seq 0 (length (co_workers c))))) as Hin
      by (rewrite Ef; by left).
    apply filter_In in Hin as [_ Hlv]. unfold live in Hlv.
    destruct (co_workers c !! w) as [wk|] eqn:Hw; [|done].
    apply (worker_moves c w wk); try done. by apply negb_true_iff.
Qed.

(** ** Shutdown *)

Lemma turn_stop x c c' : turn x c = Some c' -> srv_stop (co_server c) = true -> srv_stop (co_server c') = true.
Proof.
  intros Ht Hs. destruct x as [w mo|accepted|mo|]; cbn in Ht.
  - apply worker_cases in Ht as (wk & Hw & [[_ _ _ _ _ _ (_ & _ & Hm & _)]|[_ ->]]); [by apply Hm|done].
  - unfold accept_turn in Ht. repeat case_match; try done; by injection Ht as <-.
  - unfold owner_turn, owner_snapshot in Ht.
    assert (forall h, srv_stop (co_server (write_locked (persist (mo_persist mo)) h c).2) = true) as Hw.
    { intros h. destruct (write_locked_rest (persist (mo_persist mo)) h c) as (_ & _ & _ & _ & _ & _ & _ & _ & Hst).
      by apply Hst. }
    unfold take_lock in Ht.
    repeat (case_match; try done); simplify_eq; try done;
      match goal with E : write_locked _ ?h c = _ |- _ => specialize (Hw h); rewrite E in Hw; exact Hw end.
  - by injection Ht as <-.
Qed.

(** The number of turns a shutdown takes at most. *)
Definition stop_turns c : nat :=
  fresh_turns * length (co_workers c) + 2 * length (co_connections c) + fresh_turns + 17.

Lemma left_after_fits c : sane c -> exists n, turns_left c n /\ (n <= stop_turns c)%nat.
Proof.
  intros Hs. assert (exists ns, Forall2 (fun wk m => worker_left (wk_phase wk) m) (co_workers c) ns /\
    (total ns <= fresh_turns * length (co_workers c))%nat) as (ns & Hf & Ht).
  { pose proof (sn_tasks c Hs) as Hw. induction (co_workers c) as [|wk ws IH]; [by exists []|].
    destruct IH as (ns & Hf & Ht); [intros w wk' Hl; by apply (Hw (Datatypes.S w))|].
    assert (exists m, worker_left (wk_phase wk) m /\ (m <= fresh_turns)%nat) as (m & Hm & Hle).
    { pose proof (Hw 0%nat wk eq_refl) as Hfit. unfold fresh_turns, task_turns.
      destruct (wk_phase wk) as [|t next| | | | |] eqn:Hp; cbn; eauto with lia.
      exists (task_turns + 3)%nat. split; [|unfold task_turns; lia]. exists task_turns. split; [|done].
      by eapply Hfit. }
    exists (m :: ns). split; [by constructor|]. cbn [total length]. lia. }
  eexists. split; [by exists ns|]. unfold stop_turns, acceptor_left, owner_left, unlocked.
  destruct (co_acceptor c), (co_owner c), (co_lock c); lia.
Qed.

(** After a failed boot snapshot no turn releases the lock of [start]'s block and
    none ends [wait]. *)
Definition deadlocked c : Prop :=
  persisting (co_server c) = true /\ boot_failed c /\ forall status, co_owner c <> OwnEnded status.
(** While [start] holds the lock, no other block has it or gets it. *)
Lemma start_holds thread h c :
  co_lock c = Some h -> ho_thread h = InStart -> thread <> InStart ->
  held_by thread c = None /\ take_lock thread c = None.
Proof.
  intros Hl Hh Hn. unfold held_by, take_lock. rewrite Hl. by rewrite bool_decide_false by congruence.
Qed.
Lemma start_holds_worker mo w h c c' :
  co_lock c = Some h -> ho_thread h = InStart -> persisting (co_server c) = true ->
  worker_turn mo w c = Some c' ->
  co_lock c' = co_lock c /\ persisting (co_server c') = true /\ co_owner c' = co_owner c.
Proof.
  intros Hl Hh Hp Ht. unfold worker_turn in Ht. destruct (co_workers c !! w) as [wk|]; [|done].
  destruct (wk_phase wk) as [|t next|kind identity|kind identity| | |]; try (by injection Ht as <-); [..|done].
  - destruct (receive _) as [first channel]. injection Ht as <-. cbn.
    destruct (first_noted_stats first (first_phase (srv_config (co_server c)) first)) as [f Hn]. by rewrite Hn.
  - destruct t as [A cl k|A f k|label k|r k|code detail reason k|k|fin]; cbn [task_turn] in Ht;
      try (by injection Ht as <-).
    + destruct (call _ _ _). by injection Ht as <-.
    + rewrite Hp in Ht. cbn [negb] in Ht. destruct (start_holds (InHandler w) h c Hl Hh) as [E1 E2]; [done|].
      by rewrite E1, E2 in Ht.
    + injection Ht as <-. unfold on_channel.
      pose proof (reply_server r (mkConn (co_server c) (wk_channel wk))) as Hs.
      destruct (send_reply _ _). cbn in *. by rewrite Hs.
    + injection Ht as <-. unfold on_channel.
      pose proof (fail_server code detail reason (mkConn (co_server c) (wk_channel wk))) as Hs.
      destruct (fail _ _ _ _). cbn in *. by rewrite Hs.
  - destruct (receive _) as [[message|] channel]; by injection Ht as <-.
Qed.
Lemma deadlocked_turn x c c' : deadlocked c -> turn x c = Some c' -> deadlocked c'.
Proof.
  intros (Hp & (h & Hl & Hh & Hb) & Hne) Ht.
  assert (co_lock c' = co_lock c /\ persisting (co_server c') = true /\ co_owner c' <> OwnBoot /\
    forall status, co_owner c' <> OwnEnded status) as (Hl' & Hp' & Hb' & Hne').
  { destruct x as [w mo|accepted|mo|]; cbn in Ht.
    - destruct (start_holds_worker mo w h c c' Hl Hh Hp Ht) as (? & ? & ->). done.
    - unfold accept_turn in Ht. repeat case_match; try done; by injection Ht as <-.
    - unfold owner_turn in Ht. destruct (co_owner c) as [| | |i| |status] eqn:Eo; try done.
      + destruct (_ || _); [|done]. by injection Ht as <-.
      + destruct (co_acceptor c); try done. by injection Ht as <-.
      + repeat case_match; try done; by injection Ht as <-.
      + unfold owner_snapshot in Ht. rewrite Hp in Ht. cbn [negb] in Ht.
        destruct (start_holds InWait h c Hl Hh) as [E1 E2]; [done|]. by rewrite E1, E2 in Ht.
    - by injection Ht as <-. }
  split; [done|]. split; [|done]. exists h. by rewrite Hl'.
Qed.
Lemma deadlocked_run xs c c' : deadlocked c -> run_turns xs c = Some c' -> deadlocked c'.
Proof.
  revert c. induction xs as [|x xs IH]; intros c Hd; cbn; [by intros [= <-]|].
  destruct (turn x c) as [c1|] eqn:E; [|done]. apply IH. by eapply deadlocked_turn.
Qed.

(** C10: shutdown completes unless the boot snapshot failed: once a stop has been
    requested, in whatever order the threads take their turns, they take at most
    [stop_turns] of them, a number fixed when the stop is requested; and at every
    point [wait] has returned, or one of the threads can take a turn, or [start]
    still holds the store's lock because its boot snapshot failed.  So, with a boot
    snapshot that is written, neither the store's lock nor a join blocks the
    shutdown, and every schedule that goes on as long as it can ends it.  In the
    third case, whatever turns follow, [wait] does not return: [start] called it
    with the lock it waits for in its hands. *)
Theorem shutdown_completes sv c xs c' :
  srv_stop sv = false -> threads_of sv c -> srv_stop (co_server c) = true -> Forall inside xs ->
  run_turns xs c = Some c' ->
  (length xs <= stop_turns c)%nat /\
  ((exists status, co_owner c' = OwnEnded status) \/ movable c' \/ boot_failed c') /\
  (boot_failed c' -> forall ys c'' status, run_turns ys c' = Some c'' -> co_owner c'' <> OwnEnded status).
Proof.
  intros Hsv Ht Hst Hin Hr. pose proof (sane_run sv c Hsv Ht) as Hs. split.
  - destruct (left_after_fits c Hs) as (n & Hn & Hle). enough (length xs <= n)%nat by lia.
    clear Hle Hs Ht. revert c n Hst Hr Hn. induction Hin as [|x xs Hx Hxs IH]; intros c n Hst Hr Hn; [cbn; lia|].
    cbn in Hr. destruct (turn x c) as [c1|] eqn:E; [|done].
    destruct (turn_left x c c1 n Hx Hst E Hn) as (n1 & Hn1 & Hlt).
    specialize (IH c1 n1 (turn_stop x c c1 E Hst) Hr Hn1). cbn. lia.
  - assert (threads_of sv c') as Ht' by (unfold threads_of in *; etrans; [exact Ht|by eapply run_turns_rtc]).
    assert (srv_stop (co_server c') = true) as Hst'.
    { clear Hs Ht Ht' Hin. revert c Hst Hr. induction xs as [|x xs IH]; intros c Hst Hr; cbn in Hr; [congruence|].
      destruct (turn x c) as [c1|] eqn:E; [|done]. apply (IH c1); [by eapply turn_stop|done]. }
    split.
    + destruct (co_owner c') as [| | |i| |status] eqn:Eo; [..|left; by exists status]; right;
        (eapply stopped_moves; [by eapply (counted_run (srv_config sv))|by eapply sane_run|done|
         intros status; rewrite Eo; done]).
    + intros Hbf ys c'' status Hys. pose proof (sane_run sv c' Hsv Ht') as Hs'.
      apply (deadlocked_run ys c' c''); [|done].
      pose proof Hbf as (h & Hl & Hh & _). destruct (sn_lock c' Hs' h Hl) as [Hp Hi]. split; [done|].
      split; [done|]. unfold holder_in in Hi. by rewrite Hh in Hi.
Qed.
End threads.

(** ** Witness *)

(** The run of [ThreadsDurable] up to an acknowledgement, where a stop is requested. *)
Notation lab_stopped := (after [StopTurn] lab_written).
Lemma lab_stopped_run : threads_of lab_server lab_stopped.
Proof.
  unfold threads_of. etrans; [exact (clean_threads _ _ lab_written_run)|].
  apply rtc_once. by exists StopTurn.
Qed.
Lemma lab_stopped_stop : srv_stop (co_server lab_stopped) = true.
Proof. vm_compute. reflexivity. Qed.
Lemma lab_stop_inside : Forall inside (drop 1 lab_stop).
Proof. by repeat constructor. Qed.
Lemma lab_stop_turns : run_turns (drop 1 lab_stop) lab_stopped = Some (after (drop 1 lab_stop) lab_stopped).
Proof. apply after_run. vm_compute. reflexivity. Qed.

Lemma shutdown_completes_witness :
  (length (drop 1 lab_stop) <= stop_turns lab_stopped)%nat /\
  ((exists status, co_owner (after (drop 1 lab_stop) lab_stopped) = OwnEnded status) \/
   movable (after (drop 1 lab_stop) lab_stopped) \/ boot_failed (after (drop 1 lab_stop) lab_stopped)).
Proof.
  pose proof (shutdown_completes lab_server lab_stopped (drop 1 lab_stop) _ eq_refl lab_stopped_run
    lab_stopped_stop lab_stop_inside lab_stop_turns) as (Hn & Hm & _).
  exact (conj Hn Hm).
Defined.
