(* ===== verification/ThreadsRun.v ===== *)
(** * ThreadsRun: bounds and engine runs under concurrency

    The live handlers and the list of threads stay within the configured bound,
    and whatever the interleaving, the engine only goes through states a sequence
    of commands leads to, so every theorem about [reachable] engines holds of the
    engine of a running coordinator. *)

From stdpp Require Import base gmap list strings relations.
From Stdlib Require Import ZArith Lia.
From S2P Require Import Prelude Status Ids Bytes Hash Enums Model Fence Shaper.
From S2P Require Import EngineState EngineAuthority EngineAdmission EngineLifecycle EngineEvidence.
From S2P Require Import EngineInspect Wire Codec Protocol ChannelProps Snapshot Store StoreProps.
From S2P Require Import Service ServiceProps Scenario EngineInv Commands AdmissionCases Ledger RunProps.
From S2P Require Import Threads ThreadsInv ThreadsDurable.

#[local] Open Scope Z_scope.

(** ** The command behind a call *)

Definition call_command {A} (cl : Call A) : Command :=
  match cl with
  | CallSubmit request fence => SubmitSession request fence
  | CallRevalidate session fence => RevalidateSession session fence
  | CallWave session shard fence => RequestWave session shard fence
  | CallSource evidence fence => ReportSource evidence fence
  | CallTransfer evidence fence => ReportTransfer evidence fence
  | CallVerification evidence fence => ReportVerification evidence fence
  | CallAmbiguous session attempt sequence cause fence => ReportAmbiguous session attempt sequence cause fence
  | CallCancel session fence reason detail => CancelSession session fence reason detail
  | CallPause session fence reason => PauseSession session fence reason
  | CallResume session fence => ResumeSession session fence
  | CallDurability session assertion fence => RecordDurability session assertion fence
  | CallShutdown => BeginShutdown
  end.
Lemma call_exec {A} (cl : Call A) now e : (call cl now e).2 = exec (call_command cl) now e.
Proof. by destruct cl. Qed.

Section threads.
Context {S : Type} `{ByteStream S}.
Implicit Types (c : Coordinator S).

(** C12: the threads are bounded: at every moment of every run the counter of
    active connections is at least the number of handler threads that have not
    exited and at most the configured bound, and the list of threads to be joined
    is at most one longer than the bound. *)
Theorem threads_bounded sv c :
  0 <= cc_worker_threads (srv_config sv) -> threads_of sv c ->
  Z.of_nat (handlers c) <= co_active c <= connection_bound (srv_config sv) /\
  Z.of_nat (length (co_connections c)) <= connection_bound (srv_config sv) + 1.
Proof.
  intros Hw Ht. pose proof (counted_run (srv_config sv) sv c eq_refl Ht) as Hi.
  pose proof (th_active _ c Hi). pose proof (th_bound _ c Hi) as Hb. pose proof (th_length _ c Hi) as Hl.
  unfold bound in Hb, Hl. assert (0 <= connection_bound (srv_config sv)) by (unfold connection_bound; lia).
  lia.
Qed.

(** The call a turn makes, if any, stays within the counters' width. *)
Definition admissible_turn (x : Turn S) c : Prop :=
  match x with
  | WorkerTurn w _ =>
      match phase_of w c with
      | Some (Running (Mutate cl _) _) => admissible (call_command cl) (srv_engine (co_server c))
      | _ => True
      end
  | _ => True
  end.
Definition admissible_step c c' : Prop := exists x, admissible_turn x c /\ turn x c = Some c'.

(** The engine and its history are left alone. *)
Definition engine_kept c c' : Prop :=
  srv_engine (co_server c') = srv_engine (co_server c) /\ co_history c' = co_history c.

Lemma task_engine mo w wk t next c c' :
  task_turn mo w wk t next c = Some c' ->
  engine_kept c c' \/
  exists A (cl : Call A) k, t = Mutate cl k /\
    srv_engine (co_server c') = exec (call_command cl) (mo_now mo) (srv_engine (co_server c)) /\
    co_history c' = co_history c ++ [srv_engine (co_server c')].
Proof.
  intros Ht. destruct t as [A cl k|A f k|label k|r k|code detail reason k|k|fin]; cbn [task_turn] in Ht.
  - right. destruct (call cl _ _) as [a e] eqn:E. injection Ht as <-. exists A, cl, k. cbn.
    split; [done|]. split; [|done]. by rewrite <-call_exec, E.
  - left. by injection Ht as <-.
  - left. destruct (negb _); [by injection Ht as <-|]. destruct (held_by _ c) as [h|].
    + pose proof (write_locked_rest (append (mo_append mo) (mo_persist mo) label) h c) as Hr.
      destruct (write_locked _ h c) as [status c1]. cbn [snd] in Hr. injection Ht as <-.
      split; cbn; apply Hr.
    + unfold take_lock in Ht. destruct (co_lock c); [done|]. by injection Ht as <-.
  - left. injection Ht as <-. unfold on_channel, engine_kept.
    pose proof (reply_server r (mkConn (co_server c) (wk_channel wk))) as Hs.
    destruct (send_reply _ _) as [sent cn]. cbn in *. by rewrite Hs.
  - left. injection Ht as <-. unfold on_channel, engine_kept.
    pose proof (fail_server code detail reason (mkConn (co_server c) (wk_channel wk))) as Hs.
    destruct (fail _ _ _ _) as [sent cn]. cbn in *. by rewrite Hs.
  - left. by injection Ht as <-.
  - left. by injection Ht as <-.
Qed.

Lemma owner_engine mo c c' : owner_turn mo c = Some c' -> engine_kept c c'.
Proof.
  intros Ht. unfold owner_turn, owner_snapshot in Ht.
  assert (forall h, engine_kept c (write_locked (persist (mo_persist mo)) h c).2) as Hw.
  { intros h. split; apply (write_locked_rest (persist (mo_persist mo)) h c). }
  unfold take_lock in Ht.
  repeat (case_match; try done); simplify_eq; try done;
    match goal with E : write_locked _ ?h c = _ |- _ => specialize (Hw h); rewrite E in Hw; exact Hw end.
Qed.

(** A turn leaves the engine alone or makes the call of its thread. *)
Lemma turn_engine x c c' :
  turn x c = Some c' ->
  engine_kept c c' \/
  exists w mo A (cl : Call A) k next, x = WorkerTurn w mo /\ phase_of w c = Some (Running (Mutate cl k) next) /\
    srv_engine (co_server c') = exec (call_command cl) (mo_now mo) (srv_engine (co_server c)) /\
    co_history c' = co_history c ++ [srv_engine (co_server c')].
Proof.
  intros Ht. destruct x as [w mo|accepted|mo|]; cbn in Ht.
  - unfold worker_turn in Ht. destruct (co_workers c !! w) as [wk|] eqn:Hw; [|done].
    destruct (wk_phase wk) as [|t next|kind identity|kind identity| | |] eqn:Hp; try done.
    + left. destruct (receive _) as [first channel]. injection Ht as <-. destruct first; [|done].
      unfold engine_kept. cbn. repeat case_match; done.
    + destruct (task_engine _ _ _ _ _ _ _ Ht) as [?|(A & cl & k & -> & He & Hh)]; [by left|right].
      exists w, mo, A, cl, k, next. split; [done|]. split; [|done]. unfold phase_of. rewrite Hw. cbn. by rewrite Hp.
    + left. by injection Ht as <-.
    + left. destruct (receive _) as [m channel]. injection Ht as <-. by destruct m.
    + left. by injection Ht as <-.
    + left. by injection Ht as <-.
  - left. unfold accept_turn in Ht. repeat case_match; try done; by injection Ht as <-.
  - left. by eapply owner_engine.
  - left. by injection Ht as <-.
Qed.

(** C9: concurrency adds no behaviour to the engine: in every interleaving of the
    threads of a service that starts without earlier state, the engine is at
    every moment in a state a sequence of commands leads to, and so was every
    state it went through; in particular its accounting conserves bytes.  Each call
    of the engine is one whose fresh identity is not in the table and whose byte
    totals do not wrap ([admissible], as for [reachable]). *)
Theorem interleaved_engine_reachable sv at_ c :
  srv_engine sv = engine_init (engine_config (srv_config sv)) at_ ->
  rtc admissible_step (launch sv) c ->
  reachable (engine_config (srv_config sv)) (srv_engine (co_server c)) /\
  Forall (reachable (engine_config (srv_config sv))) (co_history c) /\
  conserves (accounting_ (srv_engine (co_server c))) = true.
Proof.
  intros He Hr. enough (reachable (engine_config (srv_config sv)) (srv_engine (co_server c)) /\
    Forall (reachable (engine_config (srv_config sv))) (co_history c)) as [H1 H2].
  { split; [done|]. split; [done|]. destruct (reachable_sound _ _ H1) as [[(_ & Ha & _) _] _].
    by apply acct_ok_conserves. }
  revert c Hr. apply (rtc_ind_r (fun c => _ /\ _)).
  - cbn. rewrite He. assert (reachable (engine_config (srv_config sv)) (engine_init (engine_config (srv_config sv)) at_))
      as Hi by apply reach_init. split; [done|]. by apply Forall_singleton.
  - intros c c' _ (x & Ha & Ht) [H1 H2].
    destruct (turn_engine x c c' Ht) as [[-> ->]|(w & mo & A & cl & k & next & -> & Hp & Hen & Hh)]; [done|].
    cbn in Ha. rewrite Hp in Ha.
    assert (reachable (engine_config (srv_config sv)) (srv_engine (co_server c'))) as H3
      by (rewrite Hen; by apply reach_exec).
    split; [done|]. rewrite Hh. apply Forall_app. split; [done|]. by apply Forall_singleton.
Qed.
End threads.

(** ** Witnesses *)

Lemma threads_bounded_witness :
  Z.of_nat (handlers lab_written) <= co_active lab_written <= connection_bound coordinator1 /\
  Z.of_nat (length (co_connections lab_written)) <= connection_bound coordinator1 + 1.
Proof.
  apply (threads_bounded lab_server lab_written).
  - vm_compute. discriminate.
  - exact (clean_threads _ _ lab_written_run).
Defined.

Section computed.
Context {S : Type} `{ByteStream S}.
(** The turns are possible and none is a call of the engine. *)
Fixpoint silent (xs : list (Turn S)) (c : Coordinator S) : bool :=
  match xs with
  | [] => true
  | x :: xs =>
      match x with
      | WorkerTurn w _ => match phase_of w c with Some (Running (Mutate _ _) _) => false | _ => true end
      | _ => true
      end && match turn x c with Some c' => silent xs c' | None => false end
  end.
Lemma after_turn x c :
  match turn x c with Some _ => true | None => false end = true -> turn x c = Some (after [x] c).
Proof. unfold after. cbn. by destruct (turn x c). Qed.
Lemma silent_run xs c : silent xs c = true -> rtc admissible_step c (after xs c).
Proof.
  unfold after. revert c. induction xs as [|x xs IH]; intros c; cbn; [done|].
  intros [Hx Hs]%andb_true_iff. destruct (turn x c) as [c'|] eqn:E; [|done].
  specialize (IH c' Hs). destruct (run_turns xs c') as [c2|] eqn:E2; cbn in *.
  - eapply rtc_l; [|exact IH]. exists x. split; [|done]. unfold admissible_turn. by repeat case_match.
  - exfalso. clear -Hs E2. revert c' Hs E2. induction xs as [|y ys IH]; intros c'; cbn; [done|].
    intros [_ Hs]%andb_true_iff. destruct (turn y c'); [|done]. by apply IH.
Qed.
End computed.

(** The run of [ThreadsDurable] up to the call of [submit_session], and the call. *)
Definition boot_turns : list (Turn Pipe) := repeat (OwnerTurn (calm 1)) 2.
Notation lab_calling := (after (boot_turns ++ take 16 lab_turns) lab_launch).
Notation lab_called := (after [WorkerTurn 0 (calm 1)] lab_calling).
Lemma lab_call_admissible : admissible_turn (WorkerTurn 0 (calm 1)) lab_calling.
Proof. vm_compute. constructor; vm_compute; [reflexivity|discriminate|reflexivity]. Qed.
Lemma lab_called_run : rtc admissible_step lab_launch lab_called.
Proof.
  apply (transitivity (y := lab_calling)); [apply silent_run; vm_compute; reflexivity|].
  apply rtc_once. exists (WorkerTurn 0 (calm 1)). split; [exact lab_call_admissible|].
  apply after_turn. vm_compute. reflexivity.
Qed.
Lemma lab_engine : srv_engine lab_server = engine_init (engine_config (srv_config lab_server)) 0.
Proof. vm_compute. reflexivity. Qed.
Lemma interleaved_engine_reachable_witness :
  reachable (engine_config coordinator1) (srv_engine (co_server lab_called)) /\
  conserves (accounting_ (srv_engine (co_server lab_called))) = true.
Proof.
  destruct (interleaved_engine_reachable lab_server 0 lab_called lab_engine lab_called_run) as (H1 & _ & H2).
  exact (conj H1 H2).
Defined.
