(* ===== verification/Findings.v ===== *)
(** * Findings: where the code departs from what it says

    Each theorem evaluates the model on a concrete input on which the code does
    not do what its comments, its names or its own checks say.  They are
    statements about single runs; the general theorems of the development are
    about what the code does on every run. *)

From stdpp Require Import base gmap list strings.
From Stdlib Require Import ZArith Lia.
From S2P Require Import Prelude Status Ids Hash Enums Model Time Fence Shaper EngineState.
From S2P Require Import EngineAuthority EngineAdmission EngineLifecycle EngineEvidence EngineInspect.
From S2P Require Import Net Wire Codec Protocol ChannelProps Snapshot Store StoreProps Service Config Client.
From S2P Require Import Sender Sink Report Cli Scenario SenderProps SinkProps ServiceProps RestartProps.
From S2P Require Import Threads ThreadsInv.
From S2P Require Import ThreadsDurable ThreadsStop.

#[local] Open Scope Z_scope.

(** ** The engine *)

Definition state_of (id : SessionId) (e : Engine) : option SessionState := ses_state <$> the_session id e.
Definition granted (r : Result WaveOutcome) : bool :=
  match r with Val o => wo_granted o | Err _ => false end.

(** A session that is paused when the policy changes has to be revalidated; resumed
    instead, it is back in the state it was paused in, and is granted credit under
    the envelope of the old policy. *)
Definition paused1 : Engine := (pause_session S1 (fence_now admitted1) "maintenance" 2 admitted1).2.
Definition repolicied1 : Engine := (apply_policy (policy_n 2 256) 3 paused1).2.
Definition resumed1 : Engine := (resume_session S1 (fence_now repolicied1) 4 repolicied1).2.
Theorem finding_resume_skips_revalidation :
  state_of S1 repolicied1 = Some SessionState.RevalidationRequired /\
  state_of S1 resumed1 = Some SessionState.Admitted_ /\
  granted (request_wave S1 (mkScalar 0) (fence_now resumed1) 5 resumed1).1 = true.
Proof. vm_compute. auto. Qed.

(** Two waves in flight; the acknowledgement of one of them, reported twice, ends
    both: the engine counts no attempt in flight while one is outstanding. *)
Definition two_waves : Engine := wave S1 1 3 (wave S1 0 2 admitted1).
Definition ack_again (e : Engine) : Status * Engine :=
  report_transfer (transfer_ev S1 0 1000 true two_waves) (fence_now two_waves) 4 e.
Theorem finding_duplicate_evidence_counted :
  acc_active_attempts (accounting_ two_waves) = 2 /\
  acc_active_attempts (accounting_ (ack_again two_waves).2) = 1 /\
  (ack_again (ack_again two_waves).2).1 = Status_success /\
  acc_active_attempts (accounting_ (ack_again (ack_again two_waves).2).2) = 0 /\
  acc_granted_outstanding_bytes (accounting_ (ack_again (ack_again two_waves).2).2) = 3000.
Proof. vm_compute. auto. Qed.

(** A digest mismatch on one shard fails the session while another shard's wave is
    in flight; its bytes stay outstanding, and the engine's own check reports the
    state as corrupt. *)
Definition mismatched1 : Engine :=
  verify S1 0 1000 VerificationOutcome.DigestMismatch 5 (arrive S1 0 1000 true 4 two_waves).
Theorem finding_failed_session_keeps_outstanding :
  check_invariants two_waves = Status_success /\ state_of S1 mismatched1 = Some SessionState.Failed /\
  acc_granted_outstanding_bytes (accounting_ mismatched1) = 3000 /\
  check_invariants mismatched1 =
    Status_error ErrorCode.AccountingImbalance "terminal session retains outstanding authority".
Proof. vm_compute. auto. Qed.

(** The same ambiguity reported twice books its bytes as unproven twice, the second
    time out of the authority of another shard. *)
Definition ambiguous_again (e : Engine) : Status * Engine :=
  report_ambiguous S1 (attempt_of S1 0 two_waves) (sequence_of S1 0 two_waves) "sink lost" (fence_now e) 6 e.
Theorem finding_ambiguity_booked_twice :
  acc_bytes_unproven (accounting_ (ambiguous_again two_waves).2) = 1000 /\
  (ambiguous_again (ambiguous_again two_waves).2).1 = Status_success /\
  acc_bytes_unproven (accounting_ (ambiguous_again (ambiguous_again two_waves).2).2) = 2000 /\
  acc_granted_outstanding_bytes (accounting_ (ambiguous_again (ambiguous_again two_waves).2).2) = 2000.
Proof. vm_compute. auto. Qed.

(** The numbers of the waves of an envelope: the counter is cleared before it is
    increased, so every wave after the first is number 1. *)
Definition five_shards : SessionRequest :=
  request_of 11 1 5000 (map (fun i => shard_d (Z.of_nat i) 1000) (seq 0 5)).
Theorem finding_wave_numbers_repeat :
  map (fun w => sc_value (wp_index w))
    (te_waves (build_envelope five_shards S1 IsolationClass.TrainingBulk (mkScalar 1) 1000 1000 2 0 0 1)) =
  [0; 1; 1].
Proof. vm_compute. reflexivity. Qed.

(** The rate a deadline needs, computed in 64 bits: a checkpoint of 2^63 bytes due
    in a nanosecond needs no rate at all. *)
Theorem finding_rate_overflows : ceil_rate (2 ^ 63) 1 = 0.
Proof. vm_compute. reflexivity. Qed.

(** The wait for a request that is far past the tokens is computed in 64 bits too: a
    bucket of 40 GB/s without tokens says that 18446744074 bytes are there in a
    nanosecond, and refuses them then. *)
Definition fast_bucket : TokenBucket := mkBucket 40000000000 (2 ^ 40) 0 1000 true.
Theorem finding_wait_wraps :
  bucket_time_until fast_bucket 18446744074 = 1 /\
  (bucket_try_consume fast_bucket (1000 + 1) 18446744074).1 = false.
Proof. vm_compute. auto. Qed.

(** A session that is settled can be pruned in the same step, while the caller still
    holds a reference to it: with 64 sessions open, the fewest the history keeps,
    and one more, the cancellation of any of them writes its timeline through a
    reference to an erased element. *)
Definition crowd_limits : Limits := Limits_default <| lim_max_sessions_per_workload := 100 |>.
Definition crowd_policy : PolicySnapshot :=
  mkPolicy (mkGen 1) (map (fun c => mkEnvelopeConfig c 10000000 100000000 100) IsolationClass.all)
    16 (2 ^ 38) 4096 1024 1 true 1000000000 300000000000 0 crowd_limits.
Definition crowd_config : EngineConfig :=
  mkConfig crowd_policy topology1
    [mkContract W1 (mkGen 1) IsolationClass.TrainingBulk 10000 0 100 8 true 300000000000]
    (mkEpoch (mkGen 1) (mkGen 1)) crowd_limits 7.
Definition crowd_request (n : nat) : SessionRequest :=
  let checkpoint := mkId (uuid_n (Z.of_nat n)) in
  let m := mkManifest checkpoint (mkGen 1) W1 (mkGen 1) 4000 [shard_d 0 1000; shard_d 1 3000] Digest_default 0 in
  mkRequest (cmd (100 + Z.of_nat n)) W1 (mkGen 1) (mkGen 1) (mkGen 1) checkpoint (mkGen 1)
    IsolationClass.TrainingBulk DestinationClass.SyntheticLab 0 0
    (m <| mf_manifest_digest := compute_manifest_digest m |>).
Definition crowd : Engine :=
  foldl (fun e n => submit1 (crowd_request n) (Z.of_nat n) e) (engine_init crowd_config 0) (seq 1 65).
Definition crowd_cancelled : Status * Engine :=
  cancel_session (next_session (engine_init crowd_config 0)) (fence_now crowd)
    ReasonCode.CancelledByOperator "operator" 70 crowd.
Theorem finding_settled_session_dangles :
  size (sessions_ crowd) = 65%nat /\ ub_ crowd = false /\
  crowd_cancelled.1 = Status_success /\ size (sessions_ crowd_cancelled.2) = 64%nat /\
  ub_ crowd_cancelled.2 = true.
Proof. vm_compute. auto. Qed.

(** ** Restarts *)

(** The totals of the sessions that were pruned are not part of the snapshot: after
    a restart the engine's own check reports its accounting as corrupt. *)
Definition history_config : EngineConfig :=
  mkConfig (policy_n 1 1) topology1 [contract1] (mkEpoch (mkGen 1) (mkGen 1)) Limits_default 7.
Definition long_history : Engine :=
  foldl (fun e n => submit1 (request_of (10 + Z.of_nat n) (Z.of_nat n) 4000 [shard_d 0 1000; shard_d 1 3000])
                      (Z.of_nat n) e)
    (engine_init history_config 0) (seq 1 66).
Definition history_restored : Status * Engine :=
  restore (export_snapshot long_history) 100 (engine_init history_config 99).
Theorem finding_restart_forgets_pruned :
  check_invariants long_history = Status_success /\ 0 < pr_admitted (pruned_ long_history) /\
  history_restored.1 = Status_success /\ pr_admitted (pruned_ history_restored.2) = 0 /\
  check_invariants history_restored.2 =
    Status_error ErrorCode.AccountingImbalance "aggregate accounting disagrees with per-session accounting".
Proof. vm_compute. auto. Qed.

(** The identities are drawn from the configured seed again: the first session
    admitted after a restart has the identity of the first one before it, and the
    table keeps the old record.  The client holds an admission for a session that
    does not exist. *)
Definition reincarnated : Engine :=
  (advance_epoch (mkEpoch (mkGen 2) (mkGen 1)) 5 (restore (export_snapshot admitted1) 4 engine1).2).2.
Definition readmitted : Result AdmissionDecision * Engine :=
  submit_session (crowd_request 3) (fence_now reincarnated) 6 reincarnated.
Theorem finding_restart_reuses_identity :
  match readmitted.1 with
  | Val d => ad_kind d = DecisionKind.Admit /\ ad_session d = S1
  | Err _ => False
  end /\
  size (sessions_ readmitted.2) = 1%nat /\
  (req_checkpoint ∘ ses_request) <$> the_session S1 readmitted.2 = Some K1 /\
  req_checkpoint (crowd_request 3) <> K1.
Proof. vm_compute. repeat split; try reflexivity. discriminate. Qed.

(** A state the engine reaches and the store holds, and a restart refuses: the
    failed session with outstanding bytes of above. *)
Definition mismatched_disk : Disk :=
  (persist persist_fine (export_snapshot mismatched1) (fresh_store coordinator1) (mkDisk None None None)).2.
Theorem finding_restart_refuses_state :
  (load read_fine read_fine (fresh_store coordinator1) mismatched_disk).1 = Val (export_snapshot mismatched1) /\
  start calm_start coordinator1 mismatched_disk =
    Some (Status_error ErrorCode.CorruptState
            "restore refused: terminal persisted session retains outstanding authority", None).
Proof. vm_compute. auto. Qed.

(** ** The configuration *)

Definition with_line (key value : string) : string :=
  (key +:+ " = " +:+ value +:+ eol +:+ "policy.generation = 1" +:+ eol +:+ "topology.generation = 1" +:+ eol +:+
   "policy.envelope.BestEffort.ceiling_bps = 1000" +:+ eol +:+ "topology.path.1.capacity_bps = 1000" +:+ eol +:+
   "contract.11111111-2222-4333-8444-555555555555.generation = 1" +:+ eol)%string.
Definition configured (text : string) : option CoordinatorConfig :=
  match parse_config text "test" with Val f => Some (fc_coordinator f) | Err _ => None end.

(** A 32-bit limit is cast from the number in the file: 2^32 sessions are accepted
    as a limit of none, and 2^32 + 8 as a limit of 8. *)
Theorem finding_limits_truncated :
  (lim_max_sessions ∘ cc_limits) <$> configured (with_line "limits.max_sessions" "4294967296") = Some 0 /\
  (lim_max_wave_width ∘ cc_limits) <$> configured (with_line "limits.max_wave_width" "4294967304") = Some 8.
Proof. vm_compute. auto. Qed.

(** A duration of 2^63 nanoseconds is accepted as a negative one. *)
Theorem finding_duration_negative :
  (pol_default_deadline_ns ∘ cc_policy) <$> configured (with_line "policy.default_deadline_ns" "9223372036854775808") =
  Some (- 2 ^ 63).
Proof. vm_compute. reflexivity. Qed.

(** ** Rendering *)

Theorem finding_duration_text :
  format_duration 1250000 = "1.25ms"%string /\ format_duration 2500000000 = "2.5s"%string.
Proof. vm_compute. auto. Qed.

(** ** The command line *)

(** Every flag is taken to have a value: a switch before the command hides it. *)
Theorem finding_switch_hides_command :
  Arguments.command ["--json"; "ping"; "--endpoint"; "127.0.0.1:4100"]%string = None /\
  Arguments.command ["--json"; "ping"; "pause"; "--endpoint"; "127.0.0.1:4100"]%string = Some "pause"%string.
Proof. vm_compute. auto. Qed.

(** ** The agent *)

(** What a refused verification leaves in the result is replaced when the sink
    finishes, and the exit code stays 0. *)
Theorem finding_refusal_unreported (r : SinkResult) : kr_exit_code r = 0 ->
  kr_message (finish_sink r) = ("sink completed " +:+ nat_to_string (kr_shards_received r) +:+ " shard(s)")%string /\
  kr_exit_code (finish_sink r) = 0.
Proof. intros H. unfold finish_sink. rewrite H. done. Qed.

(** The buffered bytes of a shard file are written when it is flushed and closed, and
    neither result is looked at: on a disk that is full by then, the sink counts the
    shard as verified, and reports it so, with an empty file. *)
Definition full_disk (n : nat) : Sync := if (n <? 2)%nat then Taken 0 else Lost [].
Notation full_handle := (sink_message lab_sink (fun _ => true) full_disk lab_clock).
Notation full_step m p := (handled (full_handle m p.1 p.2)).
Notation full_3 :=
  (full_step (lab_message 2%nat) (full_step (lab_message 1%nat) (full_step (lab_message 0%nat) (lab_open, lab_start)))).
Notation full_4 := (full_step (lab_message 3%nat) full_3).
Theorem finding_verified_not_stored :
  continues (full_handle (lab_message 3%nat) full_3.1 full_3.2) = true /\
  kr_shards_verified (sink_result full_4.2) = 1 /\
  dir_files (sink_directory full_4.2) !! shard_file lab_begin = Some [] /\ lab_data <> [].
Proof. vm_compute. repeat split; try reflexivity. discriminate. Qed.

(** An answer that grants a wave and carries no grant ends the sender with an
    exception nothing catches. *)
Definition grantless_coordinator : Script := script
  [(MessageType.HelloResponse, encode_payload encode_HelloResponse
      (mkHelloResponse small_epoch (mkGen 1) (mkGen 1) [(sn_workload small_config, mkGen 1)] Limits_default "lab"));
   (MessageType.DecisionResponse, encode_payload encode_AdmissionDecision
      (mkDecision DecisionKind.Admit ReasonCode.Admitted_ "" small_session (Some TrafficEnvelope_default) []
         None small_epoch 1));
   (MessageType.WaveResponse, encode_payload encode_WaveOutcome
      (mkWaveOutcome true ReasonCode.Admitted_ "" None None 1))].
Theorem finding_grantless_wave_escapes :
  (sender_run small_config (fun _ => false) (fun _ => Val grantless_coordinator) (Val small_sink)
     (fun _ => false) 30).1 = SenderThrows.
Proof. vm_compute. reflexivity. Qed.

(** ** The network *)

(** A peer that has closed the connection: the second [send] fails with [EPIPE], and
    the signal that comes with it ends the process. *)
Definition closed_peer : Os := mkOs None [] [] [mkAnswer 2 (EOTHER ""); mkAnswer (-1) EPIPE] (EOTHER "") [] [].
Theorem finding_sigpipe_kills :
  match write_all [1; 2; 3] (mkSocket 5 closed_peer) with
  | Some (Killed, s) => os_out (sock_os s) = [1; 2]
  | _ => False
  end.
Proof. vm_compute. reflexivity. Qed.

(** ** The service *)

(** A request for shutdown over an observer's connection is handled, although the
    refusal of other kinds says that only an operator's is. *)
Theorem finding_observer_shuts_down {S} `{ByteStream S} (mo : Moment) (c : Conn S) :
  handle_shutdown mo ClientKind.Observer c = handle_shutdown mo ClientKind.Operator c /\
  srv_peer_shutdown (cn_server (handle_shutdown mo ClientKind.Observer c).2) = true.
Proof.
  split; [done|]. unfold handle_shutdown, with_engine. cbn [negb andb].
  by repeat case_match; simplify_eq.
Qed.

(** ** The store *)

(** A write that fails half-way leaves its bytes in the journal.  The next append
    succeeds behind them, and recovery stops at them: the acknowledged state is
    lost. *)
Definition torn : list (WriteFault * PersistFaults * StoreOp) :=
  [(short_write, persist_fine, Append "wave" (idle_snapshot 2));
   (no_fault, persist_fine, Append "wave" (idle_snapshot 3))].
Theorem finding_torn_append_loses :
  map Status_ok (run_ops torn first_store first_disk).1.1 = [false; true] /\
  recovers (run_ops torn first_store first_disk).1.2 (run_ops torn first_store first_disk).2 (idle_snapshot 1).
Proof. vm_compute. auto. Qed.

Lemma long_journal_refused st disk file :
  disk_journal disk = Some file -> max_file_bytes < Z.of_nat (length file) ->
  exists refusal, (load read_fine read_fine st disk).1 = Err refusal.
Proof.
  intros Hj Hl. assert (forall path, exists r, read_file_bytes read_fine path file = Err r) as Hr.
  { intros path. unfold read_file_bytes. cbn [read_fine rf_size negb]. rewrite Z.gtb_ltb.
    destruct (Z.ltb_spec max_file_bytes (Z.of_nat (length file))); [by eexists|lia]. }
  assert (forall state local, exists r, (load_journal read_fine st disk state local).1 = Err r) as Hlj.
  { intros state local. unfold load_journal. rewrite Hj. destruct (Hr (journal_path st)) as [r ->]. by exists r. }
  unfold load. destruct (disk_snapshot disk) as [snap|]; [|apply Hlj].
  destruct (load_snapshot _ _ _ _) as [[[state|status] report] local]; [apply Hlj|by exists status].
Qed.

(** With the default bounds the journal grows to four megabytes before it is
    compacted, and recovery refuses a journal of little more than one: an append
    that goes past that size succeeds, and the state is no longer recovered. *)
Theorem finding_journal_unreadable st disk file label s directory limits :
  config_ st = StoreConfig_default directory limits -> disk_journal disk = Some file ->
  journal_bytes_ st = Z.of_nat (length file) -> 0 <= journal_records_ st < 2048 ->
  let n := Z.of_nat (length (encode_journal_record (mkRecord (u64 (sequence_ st + 1)) label (encode_snapshot s)))) in
  0 < n -> max_file_bytes < Z.of_nat (length file) + n <= 2 ^ 22 ->
  let '(status, st', disk') := append no_fault persist_fine label s st disk in
  Status_ok status = true /\ exists refusal, (load read_fine read_fine st' disk').1 = Err refusal.
Proof.
  intros Hc Hj Hb Hr n Hn Hlen. subst n. destruct st as [cfg q jr jb]. cbn in Hc, Hb, Hr, Hn, Hlen.
  unfold append, upd. cbv beta zeta. cbn [sequence_ config_ journal_records_ journal_bytes_].
  set (record := encode_journal_record _) in *. clearbody record.
  destruct (Nat.eqb_spec (length record) 0) as [E|_]; [rewrite E in Hn; lia|].
  rewrite Hj. unfold write_file_flushed. cbn [no_fault wf_open negb default from_option id].
  destruct (Nat.eqb_spec (length record) 0) as [E|_]; [rewrite E in Hn; lia|]. cbn [wf_write no_fault].
  change (flush_file no_fault _) with Status_success.
  change (Status_ok Status_success) with true. cbn [wf_fclose no_fault negb andb].
  change (Status_ok Status_success) with true. cbn [negb].
  rewrite Hb, Hc, u32_small, u64_small by lia. cbn [sc_max_journal_bytes sc_max_journal_records StoreConfig_default].
  rewrite !Z.gtb_ltb. destruct (Z.ltb_spec (2 ^ 22) (Z.of_nat (length file) + Z.of_nat (length record))); [lia|].
  destruct (Z.ltb_spec 2048 (jr + 1)); [lia|]. cbn [orb]. split; [done|].
  eapply long_journal_refused; [reflexivity|]. rewrite length_app. lia.
Qed.

(** The encoder fails on a string of more than 512 bytes, and the writer of the
    snapshot does not look: the cause of an ambiguity, within the limit of the
    protocol, makes a timeline entry beyond it.  The write succeeds, and [load]
    refuses what is on the disk. *)
Definition long_cause : string := String.concat "" (List.repeat "0123456789abcdef"%string 32).
Definition long_ambiguity : Status * Engine :=
  report_ambiguous S1 (attempt_of S1 0 two_waves) (sequence_of S1 0 two_waves) long_cause
    (fence_now two_waves) 6 two_waves.
Definition unreadable_write : Status * PersistentStore * Disk :=
  persist persist_fine (export_snapshot long_ambiguity.2) first_store first_disk.
Theorem finding_snapshot_unreadable :
  String.length long_cause = 512%nat /\ long_ambiguity.1 = Status_success /\
  Status_ok unreadable_write.1.1 = true /\
  match (load read_fine read_fine unreadable_write.1.2 unreadable_write.2).1 with
  | Val _ => False
  | Err _ => True
  end.
Proof. vm_compute. auto. Qed.

(** ** The threads *)

(** A boot snapshot that fails deadlocks [start]: it calls [wait] with the store's
    lock held, and [wait] comes to its own snapshot and asks for the lock.  The
    run ends where no thread can move. *)
Lemma lock_stuck {S} `{ByteStream S} (c : Coordinator S) :
  co_workers c = [] -> co_acceptor c = AccEnded -> co_owner c = OwnFinal ->
  persisting (co_server c) = true -> ho_thread <$> co_lock c = Some InStart ->
  boot_failed c /\ forall x, inside x -> turn x c = None.
Proof.
  intros Hw Ha Ho Hp Hl. destruct (co_lock c) as [h|] eqn:El; [|done]. injection Hl as Hh. split.
  { exists h. by rewrite Ho. }
  intros [w mo|accepted|mo|] Hx; cbn [turn]; [| | |done].
  - unfold worker_turn. by rewrite Hw.
  - unfold accept_turn. by rewrite Ha.
  - unfold owner_turn, owner_snapshot, held_by, take_lock. by rewrite Ho, Hp, El, Hh.
Qed.
Definition failing_boot : Moment :=
  mkMoment 1 no_fault (mkPersistFaults no_fault (Some "no space") no_fault).
Definition boot_failing : Coordinator Pipe :=
  after ([OwnerTurn (calm 1); OwnerTurn failing_boot; AcceptTurn (Val lab_socket)] ++ repeat (OwnerTurn (calm 2)) 3)
    lab_launch.
Theorem finding_boot_failure_deadlocks :
  stat_durable_write_failures (srv_stats (co_server boot_failing)) = 1 /\
  co_owner boot_failing = OwnFinal /\ co_acceptor boot_failing = AccEnded /\ boot_failed boot_failing /\
  forall x, inside x -> turn x boot_failing = None.
Proof.
  split; [vm_compute; reflexivity|]. split; [vm_compute; reflexivity|]. split; [vm_compute; reflexivity|].
  apply lock_stuck; vm_compute; reflexivity.
Qed.

(** The accept thread starts before the boot snapshot.  A store that has just been
    opened numbers its records from 1, behind the records of the previous run: a
    submission acknowledged before the boot snapshot is on the disk, but recovery
    still returns the previous state, without the session. *)
Definition early_server : Server :=
  lab_server <| srv_store := Some (PersistentStore_init sample_config) |>.
Definition early_turns : list (Turn Pipe) := lab_turns ++ [WorkerTurn 0 (calm 1)].
Definition early : Coordinator Pipe := after early_turns (launch early_server).
Theorem finding_acknowledged_before_boot :
  acking 0 early = true /\ co_owner early = OwnBoot /\
  stat_durable_writes (srv_stats (co_server early)) = 1 /\
  size (sessions_ (srv_engine (co_server early))) = 1%nat /\
  (load read_fine read_fine (PersistentStore_init sample_config) (srv_disk (co_server early))).1 =
    Val (idle_snapshot 1).
Proof. vm_compute. auto. Qed.

(** Nothing clears the stop token: a service that is started again after a
    shutdown reports success, but its accept thread ends at once and its [wait]
    never returns. *)
Definition stopped1 : Server := (Service.shutdown persist_fine server1).2.
Definition restarted1 : option (Status * option Server) :=
  service_start calm_start coordinator1 (srv_disk stopped1) (Some stopped1).
Definition relaunched : Coordinator Pipe :=
  after [AcceptTurn (Val lab_socket); OwnerTurn (calm 3); OwnerTurn (calm 3)]
    (launch (default server1 (restarted1 ≫= snd))).
Lemma nothing_moves {S} `{ByteStream S} (c : Coordinator S) x :
  co_workers c = [] -> co_acceptor c = AccEnded -> co_owner c = OwnWaiting ->
  srv_stop_requested (co_server c) || negb (srv_running (co_server c)) = false ->
  inside x -> turn x c = None.
Proof.
  intros Hw Ha Ho Hs Hx. destruct x as [w mo|accepted|mo|]; cbn [turn]; [..|by destruct Hx].
  - unfold worker_turn. by rewrite Hw.
  - unfold accept_turn. by rewrite Ha.
  - unfold owner_turn. by rewrite Ho, Hs.
Qed.
Theorem finding_restart_never_serves :
  (Status_ok ∘ fst) <$> restarted1 = Some true /\ srv_running (co_server relaunched) = true /\
  co_acceptor relaunched = AccEnded /\ co_owner relaunched = OwnWaiting /\
  forall x, inside x -> turn x relaunched = None.
Proof.
  split; [vm_compute; reflexivity|]. split; [vm_compute; reflexivity|]. split; [vm_compute; reflexivity|].
  split; [vm_compute; reflexivity|].
  intros x. apply nothing_moves; vm_compute; reflexivity.
Qed.
